(* ===== verification/_CoqProject ===== *)
-Q . S2P
Prelude.v
GoStrings.v
Common.v
LogLines.v
TimeRanges.v
Estimators.v
ServerTypes.v
Crypto.v
Filepath.v
PatternMatcher.v
DnsMsg.v
DnsUtils.v
Certs.v
ServersInfo.v
XTransport.v
Bootstrap.v
ODoH.v
Routes.v
ARC.v
Plugins.v
Cache.v
BlockPlugins.v
RewritePlugins.v
Cloaking.v
PluginChain.v
Proxy.v
Sources.v
Listeners.v
Transport.v
Sockets.v
NetProbe.v
Config.v
Startup.v
Interleaving.v
Refresher.v
Handler.v
WorldInv.v
CacheKeys.v
LogsKept.v
Resolve.v
App.v
Main.v
