(* ===== verification/Prelude.v ===== *)
(** * A verification of dnscrypt-proxy

    dnscrypt-proxy is a local DNS resolver: it takes queries from clients, runs
    them through a chain of plugins (block lists, allow lists, cloaking,
    forwarding, cache, logs, ...), sends what is left to a server over DNSCrypt, DNS over
    HTTPS or Oblivious DoH, runs the response through another chain of plugins and
    replies. This library models the program of [dnscrypt-proxy/*.go] and proves the
    properties its parts promise to each other.

    ** Conventions

    Bytes and all integers are [Z]; the width of an integer is written out where
    arithmetic wraps ([u8], [u16], [u32], ...). Strings and []byte are [bytes]
    ([list Z]); a Go map is a [gmap]; a nil slice or pointer that matters is
    [None] (or [[]] for net.IP). Code that can fail returns [Out A]: a value, an
    error value, a run-time panic or dlog.Fatal. Slices out of range, type
    assertions on another type and divisions such as rand.Intn(0) are panics and
    never defaults. Clocks, random numbers and answers of the network are
    arguments, given by records such as [PEnv], [ResolveEnv], [FetchEnv],
    [QueryEnv], [SourceEnv], [ConfigEnv] and [AppEnv]. Packages that are not part of the repository's own code
    are type classes with the laws their documentation gives (ciphers in
    [CryptoPrims], message packing in [Codec], radix trees in [PrefixTrie], net
    in [NetLib], HPKE in [HPKE], unicode tables in [UnicodeTables], stamps in
    [StampLib], signatures of lists in [Minisign], texts of records in [RRText]); each class has an instance, on which theorems with hypotheses
    are applied to concrete inputs (the [_wit] examples).

    ** Files

    - [Prelude]: the [Out] monad, record updates, tactics, hint databases,
      machine integers, lists and slices.
    - [GoStrings], [Filepath]: the functions of strings, bytes, unicode and
      path/filepath the program uses.
    - [Common] (common.go): framing of packets over TCP, text files, comments,
      host and port.
    - [LogLines] ([StringQuote] of common.go): quoting, and the two formats of log lines.
    - [TimeRanges] (time_ranges.go): weekly schedules of rules.
    - [Estimators] (estimators.go): the estimate of the size of questions.
    - [ServerTypes] (serversInfo.go): servers, relays and stamps.
    - [Crypto] (crypto.go): encryption of queries, decryption of responses.
    - [PatternMatcher] (pattern_matcher.go): rules on names.
    - [DnsMsg]: messages of the dns package, the codec and its laws.
    - [DnsUtils] (dnsutils.go, [prepareForRelay] of proxy.go): synthetic responses,
      TTLs, EDNS padding, direct exchanges.
    - [Certs] (dnscrypt_certs.go): choice of a server's certificate.
    - [ServersInfo] (serversInfo.go): the registry, load balancing, refreshes.
    - [XTransport] (xtransport.go): cache of addresses, bootstrap, HTTP requests.
    - [Bootstrap] (xtransport.go): the shared list of bootstrap resolvers, when resolutions overlap.
    - [ODoH] (oblivious_doh.go): target configurations, queries and responses.
    - [Routes] (serversInfo.go): relays, and the probes that make a server usable.
    - [ARC] (vendored golang-lru): the cache, as an implementation of [Store].
    - [Plugins] (plugins.go): the state shared by plugins, and the lines they log.
    - [Cache] (plugin_cache.go): the cache plugins, proved against [Store].
    - [BlockPlugins] (plugin_block_*.go, plugin_allow_*.go, plugin_firefox.go).
    - [RewritePlugins] (the other plugin_*.go, coldstart.go).
    - [Cloaking] (plugin_cloak.go): queries for cloaked names that overlap, under the lock of the
      plugin.
    - [PluginChain] (plugins.go): the interface of plugins and every plugin behind it, the
      chains and their construction from the configuration.
    - [Proxy] (proxy.go): exchanges with servers, the number of clients, and
      [processIncomingQuery], in which all the parts meet.
    - [Sources] (sources.go, [updateRegisteredServers] of proxy.go): download,
      verification and caching of the lists of servers, the parser of their
      format, and the registration of what they list.
    - [Listeners] (local-doh.go, the listeners of proxy.go): UDP, TCP and local DoH
      clients around [processIncomingQuery].
    - [Transport] (xtransport.go): the construction of the HTTP transport.
    - [Sockets] (proxy.go, systemd_linux.go, privilege_linux.go, privilege_others.go,
      setsockopts_*.go): the table of descriptors, listening sockets and their options, the
      change of user that hands them over.
    - [NetProbe] (netprobe_others.go, netprobe_windows.go, coldstart.go): the wait for the network
      and the goroutines that answer captive portals meanwhile.
    - [Config] (config.go): the configuration, its checks, the settings of the proxy, the
      sources and static servers, [ConfigLoad].
    - [Startup] ([StartProxy]): the start, and the background loops as a step relation.
    - [Interleaving]: programs made of atomic operations on a shared state, pools of them, and
      what is proved of one program and holds in every pool (rely and guarantee conditions,
      numbers of operations, budgets).
    - [Refresher] (serversInfo.go): the refresh of servers as such a program, which takes the
      lock of the registry four times and fetches without it.
    - [Handler] (proxy.go, plugins.go): [processIncomingQuery] as such a program, one
      of many.
    - [WorldInv] (all plugins): what the plugins share; an invariant of it that every
      configured plugin keeps is kept by the goroutines of queries.
    - [CacheKeys] (plugin_cache.go among the other plugins): what the cache holds while queries
      are handled at the same time.
    - [LogsKept] (the plugins that log): what is in the logs meanwhile.
    - [Resolve] (resolve.go): the command-line resolver.
    - [App] (main.go, pidfile.go, logger.go, [findConfigFile]): [AppMain], which
      connects [Config], [PluginChain] and [Startup], and the whole program at work: a pool of
      the queries that arrive, beside the first refresh and the background loops.
    - [Main] (main.go, service_*.go, timezone_*.go): the flags, [main], the service manager of every
      system and the watchdog, the time zone.

    ** What is proved

    - Privacy and filtering, end to end: from the configuration file to the wire, a query that a
      configured block list covers is not sent to any server in any state the program
      reaches, under any interleaving ([App.configured_names_stay_home]); what a plugin answers stays local; a configured
      route is never replaced by a direct connection; the identifier of a query is hidden from DoH servers.
    - Concurrency: without interruption the goroutine of a query is the function
      ([Handler.handler_run]); among others it ends after a number of operations fixed by the
      number of plugins, sends at most three messages and one reply
      ([App.handlers_end], [App.emissions_bounded]); the names of the servers stay unique although
      refreshes release the lock while they fetch ([App.registry_shared]); what a query finds in the
      cache was stored for a question with the same key ([App.cached_answers_match]).
    - Cloaking: an answer has the addresses of its rule or of its target, whatever the order of the
      goroutines that look targets up ([Cloaking.cloak_answers]).
    - Logs: whatever the names in queries and answers, every line in a log is one line and is read
      back as its fields, in every state ([App.logs_not_forged]); the query log gives back the
      name that was asked ([RewritePlugins.query_logged]).
    - The command line: a process that is started again as a child does the same with the
      same flags ([Main.reexecuted_as_child]), and so does an installed service.
    - Configuration: which files are accepted, exactly ([Config.configure_accepts]), what the settings
      of an accepted one satisfy, and which servers are there when the proxy starts.
    - The running program: invariants of the registry and of the sources under any order of
      the loops and queries ([Startup.running_safe]); lists in use are signed by the configured key, and
      what is registered is what passes the filters; printed lists are parsed back.
    - Sockets: a child started under another user listens to the same addresses in
      the same order as a process that keeps its user; every configured address is served; privileges are dropped; stopping the captive
      portals terminates and frees every socket; the network probe is bounded.
    - Authenticity: what a DNSCrypt server answers opened under the key and nonce of this
      query; the certificate in use is the best signed one; pinned hashes are
      enforced; round trips of the encryption against a model of the server.
    - The cache is a refinement: the ARC cache behaves as a map that forgets, and
      the plugins, for any such store, answer with the latest stored response.
    - Functional contracts of the plugins, of the pattern matcher, of load
      balancing and refreshes, of DNS64, forwarding, payload sizes, time ranges.
    - Bounds and totality: framing always ends, padded sizes, estimates, UDP
      replies, the count of clients under every interleaving of its atomic steps.
    - Theorems that describe what the code does where it is not what it means to
      do; they carry names of the flaw and are listed as findings.

    ** Fuel and bounds

    Loops over lists are structural recursions. The few other loops (reading a
    frame from a connection, parsing target configurations, glob matching) have a
    measure, and their totality is proved ([Common.ReadPrefixed_total],
    [ODoH.parseODoHTargetConfigs_total]); in glob matching the fuel is the length
    of what a loop consumes, which each iteration shortens. The exchanges in
    parallel of [DNSExchange] are arbitrary sequences of arrivals. The goroutines
    that count clients are a step relation over any number of them, as are the
    goroutines of captive portals, whose termination is by a measure of two steps each. Decimal
    numbers have at most 19 digits ([Itoa], proved against [Atoi] on 64 bits); the lowest
    free descriptor is searched among one more than the size of the table; chains of
    aliases are followed 100 times and the network is probed 3600 times at most, as in the code.

    ** What is not modelled

    The texts of the messages of the program itself (dlog), the rotation of log files (lumberjack), what
    net/http and crypto/tls do with their settings, the decoding of TOML (a parameter of
    [ConfigLoad]), the methods of the vendored cache that the program does not call. A failed PackBuffer may leave part
    of its output in the buffer it was given; here the packet returned beside such an error is the
    original. Moving averages are rationals and not float64. The server a pointer designates is
    the entry of its name, as names are unique in the registry; a report on a server that was replaced
    meanwhile is lost, which [attached] chooses.

    An operation of a goroutine in a pool is a critical section of the registry, the evaluation
    of one plugin, one exchange with a server, the fetch of the parameters of one server, one reply, or
    an iteration of the loop of sources. An evaluation is one operation as the plugins use what they share
    at most once, under a lock or by writing one line; only cloaking uses it several times, which [Cloaking]
    has step by step, with the data race of its answers. A panic in one goroutine ends the process; here the
    others may go on, which adds states to those in which the theorems hold.

    Steps smaller than an exchange with a server are left out there; [Bootstrap] has those of a resolution
    on the list of resolvers, which no lock protects. *)
From Stdlib Require Export ZArith Lia.
From stdpp Require Export base list gmap numbers strings option.

#[global] Open Scope Z_scope.

(** * Machine integers and bytes *)

Abbreviation bytes := (list Z).

Definition u8 (z : Z) : Z := z mod 2 ^ 8.
Definition u16 (z : Z) : Z := z mod 2 ^ 16.
Definition u32 (z : Z) : Z := z mod 2 ^ 32.

(** A signed 64-bit result, such as a [time.Duration]. *)
Definition i64 (z : Z) : Z := (z + 2 ^ 63) mod 2 ^ 64 - 2 ^ 63.

Lemma i64_id z : - 2 ^ 63 ≤ z < 2 ^ 63 → i64 z = z.
Proof. intros Hz. unfold i64. rewrite Z.mod_small by lia. lia. Qed.

Lemma i64_range z : - 2 ^ 63 ≤ i64 z < 2 ^ 63.
Proof. unfold i64. pose proof (Z.mod_pos_bound (z + 2 ^ 63) (2 ^ 64)). lia. Qed.

Definition is_byte (z : Z) : Prop := 0 ≤ z < 256.
Definition is_u16 (z : Z) : Prop := 0 ≤ z < 65536.
Definition is_u32 (z : Z) : Prop := 0 ≤ z < 4294967296.

(** A Go string literal as the byte sequence it denotes. *)
Definition str (s : string) : bytes :=
  (λ a, Z.of_N (Ascii.N_of_ascii a)) <$> String.list_ascii_of_string s.

(** Go's [len]: an [int]. *)
Definition len {A} (l : list A) : Z := Z.of_nat (length l).

(** * Outcomes of Go code *)

(** The error values the modelled code tells apart: a network error that
    reports [Timeout()], any other network error, and errors built from a
    message. *)
Inductive error :=
  | ETimeout
  | ENet (code : Z)
  | EMsg (msg : string).

#[export] Instance error_eq_dec : EqDecision error.
Proof. solve_decision. Defined.

(** [Ok v] is [return v, nil]; [Err e] is a return with a non-nil error whose
    value is not used; [Panic] is a run-time panic (index out of range, failed
    type assertion); [Fatal] is [dlog.Fatal], which ends the process. *)
Inductive Out (A : Type) :=
  | Ok (a : A)
  | Err (e : error)
  | Panic
  | Fatal.
Arguments Ok {_} _.
Arguments Err {_} _.
Arguments Panic {_}.
Arguments Fatal {_}.

#[export] Instance Out_ret : MRet Out := λ A a, Ok a.
#[export] Instance Out_bind : MBind Out := λ A B f m,
  match m with Ok a => f a | Err e => Err e | Panic => Panic | Fatal => Fatal end.
#[export] Instance Out_fmap : FMap Out := λ A B f m,
  match m with Ok a => Ok (f a) | Err e => Err e | Panic => Panic | Fatal => Fatal end.

#[export] Instance Out_eq_dec `{EqDecision A} : EqDecision (Out A).
Proof. solve_decision. Defined.

(** Sequencing with early return on an error or a panic. *)
Definition obind {A B} (m : Out A) (f : A → Out B) : Out B :=
  match m with Ok a => f a | Err e => Err e | Panic => Panic | Fatal => Fatal end.
Notation "'let!' x := m 'in' k" := (obind m (λ x, k))
  (at level 10, x pattern, m at level 100, k at level 200,
   format "'[v' 'let!'  x  :=  m  'in' '/' k ']'").

Lemma obind_Ok {A B} (m : Out A) (f : A → Out B) b :
  obind m f = Ok b ↔ ∃ a, m = Ok a ∧ f a = Ok b.
Proof. destruct m; cbn; naive_solver. Qed.

(** [returns P m]: what [m] returns, if it returns a value, satisfies [P]. *)
Definition returns {A} (P : A → Prop) (m : Out A) : Prop := ∀ a, m = Ok a → P a.

Lemma returns_bind {A B} (P : B → Prop) (m : Out A) (f : A → Out B) :
  returns (λ a, returns P (f a)) m → returns P (obind m f).
Proof. intros Hm b (a & Ha & Hb)%obind_Ok. by apply (Hm a). Qed.

Lemma returns_ret {A} (P : A → Prop) a : P a → returns P (Ok a).
Proof. by intros Ha ? [= <-]. Qed.

Lemma returns_any {A} (P : A → Prop) m : (∀ a, P a) → returns P m.
Proof. by intros Ha a _. Qed.

Lemma returns_mono {A} (P Q : A → Prop) m : returns P m → (∀ a, P a → Q a) → returns Q m.
Proof. intros Hm HPQ a Ha. by apply HPQ, Hm. Qed.

Lemma returns_fails {A} (P : A → Prop) m : (∀ a, m ≠ Ok a) → returns P m.
Proof. intros Hm a Ha. by apply Hm in Ha. Qed.

(** A check of an error that ends the process. *)
Definition or_fatal {A} (m : Out A) : Out A := match m with Err _ => Fatal | m => m end.

Lemma or_fatal_Ok {A} (m : Out A) a : or_fatal m = Ok a → m = Ok a.
Proof. by destruct m. Qed.

(** A Go operation that panics when it is out of range. *)
Definition orPanic {A} (o : option A) : Out A :=
  match o with Some a => Ok a | None => Panic end.

Lemma Out_bind_Ok {A B} (m : Out A) (f : A → Out B) b :
  m ≫= f = Ok b ↔ ∃ a, m = Ok a ∧ f a = Ok b.
Proof. destruct m; cbn; naive_solver. Qed.

Lemma Out_bind_Panic {A B} (m : Out A) (f : A → Out B) :
  m ≫= f = Panic ↔ m = Panic ∨ ∃ a, m = Ok a ∧ f a = Panic.
Proof. destruct m; cbn; naive_solver. Qed.

Lemma orPanic_Ok {A} (o : option A) a : orPanic o = Ok a ↔ o = Some a.
Proof. destruct o; cbn; naive_solver. Qed.

(** * Slices *)

(** [l[i:j]], bounded by the length of [l]. *)
Definition slice {A} (l : list A) (i j : Z) : option (list A) :=
  if decide (0 ≤ i ≤ j ∧ j ≤ len l)
  then Some (take (Z.to_nat (j - i)) (drop (Z.to_nat i) l))
  else None.

(** [l[i]]. *)
Definition index {A} (l : list A) (i : Z) : option A :=
  if decide (0 ≤ i) then l !! Z.to_nat i else None.

Lemma len_app {A} (l k : list A) : len (l ++ k) = len l + len k.
Proof. unfold len. rewrite length_app. lia. Qed.
Lemma len_cons {A} (x : A) l : len (x :: l) = 1 + len l.
Proof. unfold len. cbn [length]. lia. Qed.
Lemma len_nil {A} : len (@nil A) = 0.
Proof. reflexivity. Qed.
Lemma len_nonneg {A} (l : list A) : 0 ≤ len l.
Proof. unfold len. lia. Qed.
Lemma len_replicate {A} n (x : A) : len (replicate n x) = Z.of_nat n.
Proof. unfold len. by rewrite length_replicate. Qed.
Lemma len_take {A} (l : list A) n : len (take n l) = Z.min (Z.of_nat n) (len l).
Proof. unfold len. rewrite length_take. lia. Qed.
Lemma len_drop {A} (l : list A) n : len (drop n l) = Z.max 0 (len l - Z.of_nat n).
Proof. unfold len. rewrite length_drop. lia. Qed.
Lemma len_fmap {A B} (f : A → B) l : len (f <$> l) = len l.
Proof. unfold len. by rewrite length_fmap. Qed.
Lemma len_reverse {A} (l : list A) : len (reverse l) = len l.
Proof. unfold len. by rewrite length_reverse. Qed.
Lemma len_zero {A} (l : list A) : len l = 0 ↔ l = [].
Proof. unfold len. destruct l; cbn; split; intros; (done || lia). Qed.

Create Rewrite HintDb golen.
#[export] Hint Rewrite @length_app @length_cons @length_nil @length_replicate
  @length_take @length_drop @length_fmap @length_reverse @length_insert : golen.

(** Reduces the lengths of the goal and the context to those of the variables
    and calls [lia]. *)
Ltac len_lia := unfold len in *; autorewrite with golen in *; cbn [length] in *; lia.

Lemma slice_Some {A} (l : list A) i j r :
  slice l i j = Some r →
  0 ≤ i ≤ j ∧ j ≤ len l ∧ len r = j - i ∧
  r = take (Z.to_nat (j - i)) (drop (Z.to_nat i) l).
Proof.
  unfold slice. case_decide as Hd; [|done]. intros [= <-].
  repeat split; try lia. rewrite len_take, len_drop. lia.
Qed.

Lemma slice_ok {A} (l : list A) i j :
  0 ≤ i ≤ j → j ≤ len l →
  slice l i j = Some (take (Z.to_nat (j - i)) (drop (Z.to_nat i) l)).
Proof. intros. unfold slice. rewrite decide_True by lia. done. Qed.

Lemma slice_None {A} (l : list A) i j :
  slice l i j = None ↔ ¬ (0 ≤ i ≤ j ∧ j ≤ len l).
Proof. unfold slice. case_decide; naive_solver. Qed.

Lemma slice_app_r {A} (l k : list A) :
  slice (l ++ k) (len l) (len l + len k) = Some k.
Proof.
  rewrite slice_ok by len_lia.
  f_equal. unfold len. rewrite Nat2Z.id, drop_app_length.
  apply take_ge. lia.
Qed.

Lemma slice_app_mid {A} (l k m : list A) :
  slice (l ++ k ++ m) (len l) (len l + len k) = Some k.
Proof.
  rewrite slice_ok by len_lia.
  f_equal. unfold len. rewrite Nat2Z.id, drop_app_length.
  replace (Z.to_nat _) with (length k) by lia.
  apply take_app_length.
Qed.

Lemma slice_split2 {A} (l x : list A) a :
  slice l 0 a = Some x → l = x ++ drop (Z.to_nat a) l.
Proof.
  intros (_ & _ & _ & ->)%slice_Some. rewrite Z.sub_0_r. cbn. by rewrite drop_0, take_drop.
Qed.

Lemma slice_split3 {A} (l x y z : list A) a b :
  slice l 0 a = Some x → slice l a b = Some y → slice l b (len l) = Some z →
  l = x ++ y ++ z.
Proof.
  intros Hx (? & ? & ? & ->)%slice_Some (? & ? & ? & ->)%slice_Some.
  rewrite (slice_split2 _ _ _ Hx) at 1. f_equal.
  rewrite (take_ge (drop (Z.to_nat b) l)) by len_lia.
  rewrite <-(take_drop (Z.to_nat (b - a)) (drop (Z.to_nat a) l)) at 1. f_equal.
  rewrite drop_drop. f_equal. lia.
Qed.

Lemma index_Some {A} (l : list A) i x :
  index l i = Some x ↔ 0 ≤ i ∧ l !! Z.to_nat i = Some x.
Proof. unfold index. case_decide; naive_solver. Qed.

Lemma index_lt {A} (l : list A) i : 0 ≤ i < len l ↔ is_Some (index l i).
Proof.
  unfold index, len. case_decide; split.
  - intros. apply lookup_lt_is_Some_2. lia.
  - intros ?%lookup_lt_is_Some_1. lia.
  - lia.
  - by intros [??].
Qed.

(** * Big-endian integers *)

(** [binary.BigEndian.PutUint16]. *)
Definition PutUint16 (v : Z) : bytes := [u8 (Z.shiftr v 8); u8 v].

(** [binary.BigEndian.Uint16]: reads [b[0]] and [b[1]], panics if too short. *)
Definition Uint16 (b : bytes) : option Z :=
  match b with
  | b0 :: b1 :: _ => Some (Z.lor b1 (Z.shiftl b0 8))
  | _ => None
  end.

(** [binary.BigEndian.Uint32]. *)
Definition Uint32 (b : bytes) : option Z :=
  match b with
  | b0 :: b1 :: b2 :: b3 :: _ =>
      Some (Z.lor b3 (Z.lor (Z.shiftl b2 8) (Z.lor (Z.shiftl b1 16) (Z.shiftl b0 24))))
  | _ => None
  end.

(** [binary.LittleEndian.PutUint16]. *)
Definition LEPutUint16 (v : Z) : bytes := [u8 v; u8 (Z.shiftr v 8)].

Lemma land_shiftl_small a b n : 0 ≤ n → 0 ≤ b < 2 ^ n → Z.land b (Z.shiftl a n) = 0.
Proof.
  intros Hn Hb. apply Z.bits_inj'. intros m Hm.
  rewrite Z.land_spec, Z.bits_0.
  destruct (decide (m < n)).
  - rewrite Z.shiftl_spec_low by done. apply andb_false_r.
  - assert (Z.testbit b m = false) as ->; [|done].
    rewrite <-(Z.mod_small b (2 ^ n)) by done.
    apply Z.mod_pow2_bits_high. lia.
Qed.

(** Disjoint bits: [|] of a low part and a shifted high part is their sum. *)
Lemma lor_shiftl_add a b n :
  0 ≤ n → 0 ≤ b < 2 ^ n → Z.lor b (Z.shiftl a n) = b + a * 2 ^ n.
Proof.
  intros Hn Hb. pose proof (Z.add_lor_land b (Z.shiftl a n)) as H.
  rewrite land_shiftl_small in H by done.
  rewrite Z.shiftl_mul_pow2 in H |- * by done. lia.
Qed.

Lemma Uint16_PutUint16 v r : is_u16 v → Uint16 (PutUint16 v ++ r) = Some v.
Proof.
  unfold is_u16, PutUint16, u8. intros. cbn.
  rewrite lor_shiftl_add by (try apply Z.mod_pos_bound; lia).
  rewrite Z.shiftr_div_pow2 by lia. f_equal. change (2 ^ 8) with 256.
  rewrite (Z.mod_small (v / 256)) by (split; [apply Z.div_pos|apply Z.div_lt_upper_bound]; lia).
  pose proof (Z.div_mod v 256). lia.
Qed.

Lemma Uint16_range b v : Forall is_byte b → Uint16 b = Some v → is_u16 v.
Proof.
  unfold Uint16, is_u16, is_byte. destruct b as [|b0 [|b1 b]]; [done..|].
  intros Hb. decompose_Forall_hyps.
  intros [= <-]. rewrite lor_shiftl_add by lia. change (2 ^ 8) with 256. lia.
Qed.

Lemma PutUint16_bytes v : Forall is_byte (PutUint16 v).
Proof.
  unfold PutUint16, u8, is_byte.
  repeat (apply Forall_cons_2 || apply Forall_nil_2); apply Z.mod_pos_bound; lia.
Qed.

(** * Field update *)

(** [r <| f := v |>] is the Go assignment [r.f = v] on a value. Each record
    declares its eta-expansion; the updates are derived from it. *)
Class Eta (R : Type) := eta : R → R.
Class SetField {R T : Type} (proj : R → T) := set_field : T → R → R.
Arguments set_field {R T} proj {_} _ _ : simpl nomatch.

Ltac solve_set_field :=
  match goal with
  | |- @SetField ?R ?T ?proj =>
      let e := constr:(_ : Eta R) in
      exact (fun (v : T) (r : R) =>
        ltac:(let b := eval cbv [eta] in (@eta R e r) in
              let b := eval hnf in b in
              let p := eval pattern (proj r) in b in
              match p with ?g _ => let t := eval cbv beta in (g v) in exact t end))
  end.
#[export] Hint Extern 1 (SetField _) => solve_set_field : typeclass_instances.

Declare Scope go_scope.
#[global] Open Scope go_scope.
Notation "r <| f := v |>" := (set_field f v r)
  (at level 1, f at next level, left associativity, format "r  <| f  :=  v |>") : go_scope.

(** * Tactics *)

(** Splits on every [if decide _] and every boolean comparison in sight. *)
Ltac case_ifs :=
  repeat match goal with
  | |- context [if decide ?P then _ else _] => destruct (decide P)
  | H : context [if decide ?P then _ else _] |- _ => destruct (decide P)
  end.

(** Follows the code of an outcome: [call] proves what a call returns, and the
    other calls may return anything. *)
Ltac split_pairs := repeat match goal with y : prod _ _ |- _ => destruct y end; cbv beta iota.
Ltac walk call :=
  repeat lazymatch goal with
  | |- returns _ (obind _ _) =>
      apply returns_bind;
      first [eapply returns_mono; [solve [call]|]; let x := fresh "x" in let H := fresh "Hx" in intros x H; cbv beta in H
            |apply returns_any; let x := fresh "x" in intros x]; split_pairs
  | |- returns _ (Ok _) => apply returns_ret
  | |- returns _ (Err _) => by apply returns_fails
  | |- returns _ Panic => by apply returns_fails
  | |- returns _ Fatal => by apply returns_fails
  | |- returns _ (match ?x with _ => _ end) => destruct x
  end.

(** Decomposes equations between outcomes: binds, [orPanic], constructors. *)
Ltac inv_out :=
  repeat match goal with
  | H : mbind _ _ = Ok _ |- _ => apply Out_bind_Ok in H as (? & ? & ?)
  | H : obind _ _ = Ok _ |- _ => apply obind_Ok in H as (? & ? & ?)
  | H : orPanic _ = Ok _ |- _ => apply orPanic_Ok in H
  | H : Ok _ = Ok _ |- _ => injection H as H
  | H : Err _ = Ok _ |- _ => discriminate H
  | H : Panic = Ok _ |- _ => discriminate H
  | H : Fatal = Ok _ |- _ => discriminate H
  | H : Ok _ = Err _ |- _ => discriminate H
  | H : Ok _ = Panic |- _ => discriminate H
  | H : Err _ = Panic |- _ => discriminate H
  | H : Fatal = Panic |- _ => discriminate H
  end.
