(* ===== verification/GoStrings.v ===== *)
(** The Go string functions the program uses, over byte sequences: prefixes and
    suffixes, searching, splitting, UTF-8 decoding with the white-space
    predicate of package unicode, trimming, lower-casing and decimal parsing.
    Everything is executable; lower-casing of non-ASCII code points needs the
    Unicode tables, which are a class parameter. *)
From S2P Require Import Prelude.

(** * Prefixes and suffixes *)

Fixpoint HasPrefix (s p : bytes) {struct p} : bool :=
  match p, s with
  | [], _ => true
  | c :: p, d :: s => bool_decide (c = d) && HasPrefix s p
  | _ :: _, [] => false
  end.

Definition HasSuffix (s p : bytes) : bool := HasPrefix (reverse s) (reverse p).

Definition TrimPrefix (s p : bytes) : bytes :=
  if HasPrefix s p then drop (length p) s else s.

Definition TrimSuffix (s p : bytes) : bytes :=
  if HasSuffix s p then take (length s - length p) s else s.

Lemma HasPrefix_spec s p : HasPrefix s p = true ↔ ∃ r, s = p ++ r.
Proof.
  revert s. induction p as [|c p IH]; intros s; cbn.
  - split; [by exists s|done].
  - destruct s as [|d s]; [naive_solver|].
    rewrite andb_true_iff, bool_decide_eq_true, IH. naive_solver.
Qed.

Lemma HasSuffix_spec s p : HasSuffix s p = true ↔ ∃ r, s = r ++ p.
Proof.
  unfold HasSuffix. rewrite HasPrefix_spec. split; intros [r Hr].
  - exists (reverse r). rewrite <-(reverse_involutive s), Hr, reverse_app.
    by rewrite !reverse_involutive.
  - exists (reverse r). by rewrite Hr, reverse_app.
Qed.

Lemma HasPrefix_refl s : HasPrefix s s = true.
Proof. apply HasPrefix_spec. exists []. by rewrite app_nil_r. Qed.

Lemma HasPrefix_take s n : HasPrefix s (take n s) = true.
Proof. apply HasPrefix_spec. exists (drop n s). by rewrite take_drop. Qed.

Lemma HasPrefix_length s p : HasPrefix s p = true → (length p ≤ length s)%nat.
Proof. intros [r ->]%HasPrefix_spec. len_lia. Qed.

Lemma HasPrefix_take_eq s p : HasPrefix s p = true → take (length p) s = p.
Proof. intros [r ->]%HasPrefix_spec. apply take_app_length. Qed.

Lemma TrimSuffix_app s p : TrimSuffix (s ++ p) p = s.
Proof.
  unfold TrimSuffix. rewrite (proj2 (HasSuffix_spec _ _)) by by exists s.
  rewrite take_app_le by len_lia. apply take_ge. len_lia.
Qed.

(** * Searching *)

(** [strings.IndexByte]. *)
Fixpoint IndexByte (s : bytes) (c : Z) : option nat :=
  match s with
  | [] => None
  | d :: s => if decide (d = c) then Some 0%nat else S <$> IndexByte s c
  end.

(** [strings.LastIndexByte], also [strings.LastIndex] of a one-byte string. *)
Fixpoint LastIndexByte (s : bytes) (c : Z) : option nat :=
  match s with
  | [] => None
  | d :: s =>
      match LastIndexByte s c with
      | Some i => Some (S i)
      | None => if decide (d = c) then Some 0%nat else None
      end
  end.

(** [strings.Contains]. *)
Fixpoint Contains (s sub : bytes) : bool :=
  HasPrefix s sub || match s with [] => false | _ :: s => Contains s sub end.

Lemma IndexByte_Some s c i :
  IndexByte s c = Some i ↔ s !! i = Some c ∧ c ∉ take i s.
Proof.
  revert i. induction s as [|d s IH]; intros i; cbn; [split; [done|by intros [??]]|].
  case_decide; destruct i as [|i]; cbn.
  - split; [|done]. intros _. split; [by f_equal|apply not_elem_of_nil].
  - split; [done|]. intros [_ []]. set_solver.
  - split; [|naive_solver]. destruct (IndexByte s c); done.
  - rewrite not_elem_of_cons. destruct (IndexByte s c) as [j|]; cbn.
    + split; [intros [= <-]; naive_solver|]. intros [? [_ ?]]. f_equal.
      enough (Some j = Some i) by naive_solver. by apply IH.
    + split; [done|]. intros [? [_ ?]]. enough (None = Some i) by done. by apply IH.
Qed.

Lemma IndexByte_None s c : IndexByte s c = None ↔ c ∉ s.
Proof.
  induction s as [|d s IH]; cbn; [set_solver|].
  case_decide; [set_solver|]. rewrite fmap_None, IH. set_solver.
Qed.

Lemma LastIndexByte_None s c : LastIndexByte s c = None ↔ c ∉ s.
Proof.
  induction s as [|d s IH]; cbn; [set_solver|].
  destruct (LastIndexByte s c); [|case_decide]; set_solver.
Qed.

Lemma LastIndexByte_Some s c i :
  LastIndexByte s c = Some i ↔ s !! i = Some c ∧ c ∉ drop (S i) s.
Proof.
  revert i. induction s as [|d s IH]; intros i; cbn; [split; [done|by intros [??]]|].
  destruct (LastIndexByte s c) as [j|] eqn:Hj.
  - destruct i as [|i]; cbn.
    + pose proof (proj1 (IH j) eq_refl) as [Hc _]. split; [done|]. intros [_ []].
      rewrite drop_0. by eapply list_elem_of_lookup_2.
    + rewrite <-IH. naive_solver.
  - apply LastIndexByte_None in Hj. destruct i as [|i]; cbn; rewrite ?drop_0.
    + case_decide; naive_solver.
    + split; [by case_decide|]. by intros [?%list_elem_of_lookup_2 _].
Qed.

Lemma Contains_spec s sub : Contains s sub = true ↔ ∃ a b, s = a ++ sub ++ b.
Proof.
  induction s as [|c s IH]; cbn; rewrite orb_true_iff, HasPrefix_spec.
  - split.
    + intros [[r Hr]|]; [|done]. by exists [], r.
    + intros (a & b & Hab). left. exists b. destruct a; naive_solver.
  - rewrite IH. split.
    + intros [[r Hr]|(a & b & ->)]; [by exists [], r|by exists (c :: a), b].
    + intros ([|x a] & b & Hab); cbn in *; naive_solver.
Qed.

(** * Splitting *)

(** [strings.Split] with a non-empty separator: [skip] counts the bytes of the
    separator still to pass over, [acc] is the current part reversed. *)
Fixpoint split_go (sep s : bytes) (skip : nat) (acc : bytes) : list bytes :=
  match s with
  | [] => [reverse acc]
  | c :: s' =>
      match skip with
      | S k => split_go sep s' k acc
      | O =>
          if HasPrefix s sep
          then reverse acc :: split_go sep s' (length sep - 1) []
          else split_go sep s' 0 (c :: acc)
      end
  end.

Definition Split (s sep : bytes) : list bytes := split_go sep s 0 [].

(** [strings.Join]. *)
Fixpoint Join (l : list bytes) (sep : bytes) : bytes :=
  match l with
  | [] => []
  | [x] => x
  | x :: l => x ++ sep ++ Join l sep
  end.

Lemma split_go_ne sep s k acc : split_go sep s k acc ≠ [].
Proof.
  revert k acc. induction s as [|c s IH]; intros k acc; cbn [split_go]; [done|].
  destruct k; [case_match; [done|]|]; apply IH.
Qed.

Lemma Split_ne s sep : Split s sep ≠ [].
Proof. apply split_go_ne. Qed.

Lemma split_go_byte_None c s acc :
  c ∉ s → split_go [c] s 0 acc = [reverse acc ++ s].
Proof.
  revert acc. induction s as [|d s IH]; intros acc Hc.
  - cbn. by rewrite app_nil_r.
  - cbn [split_go HasPrefix]. rewrite bool_decide_eq_false_2 by set_solver.
    cbn. rewrite IH by set_solver. rewrite reverse_cons. by rewrite <-app_assoc.
Qed.

Lemma split_go_byte_app c s t acc :
  c ∉ s → split_go [c] (s ++ c :: t) 0 acc = (reverse acc ++ s) :: split_go [c] t 0 [].
Proof.
  revert acc. induction s as [|d s IH]; intros acc Hc.
  - cbn. rewrite bool_decide_eq_true_2 by done. cbn. by rewrite app_nil_r.
  - cbn [split_go HasPrefix app]. rewrite bool_decide_eq_false_2 by set_solver.
    cbn. rewrite IH by set_solver. rewrite reverse_cons. by rewrite <-app_assoc.
Qed.

(** Joining parts that do not contain the separator byte and splitting again
    gives the parts back. *)
Lemma Split_Join c l :
  l ≠ [] → Forall (λ p, c ∉ p) l → Split (Join l [c]) [c] = l.
Proof.
  unfold Split. intros Hne Hl. induction Hl as [|x l Hx Hl IH]; [done|].
  destruct l as [|y l].
  - cbn. by rewrite split_go_byte_None.
  - change (Join (x :: y :: l) [c]) with (x ++ c :: Join (y :: l) [c]).
    rewrite split_go_byte_app, IH by done. done.
Qed.

Lemma split_go_byte_parts c s acc : c ∉ acc → Forall (λ p, c ∉ p) (split_go [c] s 0 acc).
Proof.
  revert acc. induction s as [|d s IH]; intros acc Hc; cbn [split_go HasPrefix].
  - repeat constructor. set_solver.
  - rewrite andb_true_r. case_bool_decide; cbn; [constructor; [set_solver|]|]; apply IH; set_solver.
Qed.

Lemma Join_split_go c s acc : Join (split_go [c] s 0 acc) [c] = reverse acc ++ s.
Proof.
  revert acc. induction s as [|d s IH]; intros acc; cbn [split_go HasPrefix].
  - cbn. by rewrite app_nil_r.
  - rewrite andb_true_r. case_bool_decide as Hd; cbn [length Nat.sub].
    + subst d. specialize (IH []). cbn [reverse app] in IH. cbn [Join].
      destruct (split_go [c] s 0 []) eqn:E; [by apply split_go_ne in E|]. by rewrite IH.
    + rewrite IH, reverse_cons. by rewrite <-app_assoc.
Qed.

(** Splitting at a byte is inverse to joining, and no part holds the byte. *)
Lemma Split_spec c s l : Split s [c] = l → s = Join l [c] ∧ Forall (λ p, c ∉ p) l.
Proof.
  intros <-. unfold Split. rewrite Join_split_go. split; [done|].
  apply split_go_byte_parts. set_solver.
Qed.

(** ** Separators of several bytes *)

Lemma split_go_skip sep t s acc : split_go sep (t ++ s) (length t) acc = split_go sep s 0 acc.
Proof. revert acc. induction t as [|c t IH]; intros acc; [done|]. apply IH. Qed.

(** A text without the first byte of the separator stays in one part. *)
Lemma split_go_text c sep a s acc :
  c ∉ a → split_go (c :: sep) (a ++ s) 0 acc = split_go (c :: sep) s 0 (reverse a ++ acc).
Proof.
  revert acc. induction a as [|d a IH]; intros acc Hc; [done|]. cbn [app split_go HasPrefix].
  rewrite bool_decide_eq_false_2 by set_solver. cbn [andb]. rewrite IH by set_solver.
  by rewrite reverse_cons, <-app_assoc.
Qed.

Lemma split_go_sep c sep s acc :
  split_go (c :: sep) ((c :: sep) ++ s) 0 acc = reverse acc :: split_go (c :: sep) s 0 [].
Proof.
  cbn [app split_go]. change (c :: sep ++ s) with ((c :: sep) ++ s).
  assert (HasPrefix ((c :: sep) ++ s) (c :: sep) = true) as -> by (apply HasPrefix_spec; by exists s).
  cbn [length Nat.sub]. rewrite Nat.sub_0_r. by rewrite split_go_skip.
Qed.

(** * UTF-8 *)

Definition between (lo x hi : Z) : bool := (lo <=? x) && (x <=? hi).
Definition cont (b : Z) : bool := between 0x80 b 0xBF.

Definition RuneError : Z := 0xFFFD.

(** [utf8.DecodeRune]: the code point at the front and its width in bytes; an
    invalid sequence is [RuneError] of width 1. *)
Definition DecodeRune (s : bytes) : Z * nat :=
  let bad := (RuneError, 1%nat) in
  match s with
  | [] => (RuneError, 0%nat)
  | b0 :: r =>
      if b0 <? 0x80 then (b0, 1%nat)
      else if between 0xC2 b0 0xDF then
        match r with
        | b1 :: _ =>
            if cont b1 then
              (Z.lor (Z.shiftl (Z.land b0 0x1F) 6) (Z.land b1 0x3F), 2%nat)
            else bad
        | _ => bad
        end
      else if between 0xE0 b0 0xEF then
        match r with
        | b1 :: b2 :: _ =>
            let lo := if b0 =? 0xE0 then 0xA0 else 0x80 in
            let hi := if b0 =? 0xED then 0x9F else 0xBF in
            if between lo b1 hi && cont b2 then
              (Z.lor (Z.shiftl (Z.land b0 0x0F) 12)
                (Z.lor (Z.shiftl (Z.land b1 0x3F) 6) (Z.land b2 0x3F)), 3%nat)
            else bad
        | _ => bad
        end
      else if between 0xF0 b0 0xF4 then
        match r with
        | b1 :: b2 :: b3 :: _ =>
            let lo := if b0 =? 0xF0 then 0x90 else 0x80 in
            let hi := if b0 =? 0xF4 then 0x8F else 0xBF in
            if between lo b1 hi && cont b2 && cont b3 then
              (Z.lor (Z.shiftl (Z.land b0 0x07) 18)
                (Z.lor (Z.shiftl (Z.land b1 0x3F) 12)
                  (Z.lor (Z.shiftl (Z.land b2 0x3F) 6) (Z.land b3 0x3F))), 4%nat)
            else bad
        | _ => bad
        end
      else bad
  end.

(** [utf8.AppendRune] of one code point. *)
Definition EncodeRune (r : Z) : bytes :=
  let low := λ k, Z.lor 0x80 (Z.land (Z.shiftr r k) 0x3F) in
  let three := λ r, [Z.lor 0xE0 (Z.shiftr r 12);
                     Z.lor 0x80 (Z.land (Z.shiftr r 6) 0x3F);
                     Z.lor 0x80 (Z.land r 0x3F)] in
  if between 0 r 0x7F then [r]
  else if between 0x80 r 0x7FF then [Z.lor 0xC0 (Z.shiftr r 6); low 0]
  else if (r <? 0) || (0x10FFFF <? r) || between 0xD800 r 0xDFFF then three RuneError
  else if r <=? 0xFFFF then three r
  else [Z.lor 0xF0 (Z.shiftr r 18); low 12; low 6; low 0].

(** The runes of a string with the bytes each was decoded from. Each step
    consumes at least one byte, so [length s] steps are enough. *)
Fixpoint segs_go (fuel : nat) (s : bytes) : list (Z * bytes) :=
  match fuel, s with
  | S n, _ :: _ =>
      let '(r, w) := DecodeRune s in
      (r, take w s) :: segs_go n (drop w s)
  | _, _ => []
  end.

Definition segs (s : bytes) : list (Z * bytes) := segs_go (length s) s.

(** [[]rune(s)] and [string(runes)]. *)
Definition runes (s : bytes) : list Z := (segs s).*1.
Definition of_runes (rs : list Z) : bytes := mjoin (EncodeRune <$> rs).

Definition ascii (s : bytes) : Prop := Forall (λ c, 0 ≤ c < 0x80) s.

Lemma segs_go_ascii n s :
  (length s ≤ n)%nat → ascii s → segs_go n s = (λ c, (c, [c])) <$> s.
Proof.
  revert s. induction n as [|n IH]; intros [|c s] Hn Hs; cbn in *; try done; [lia|].
  unfold ascii in Hs. decompose_Forall_hyps.
  rewrite (proj2 (Z.ltb_lt _ _)) by lia. cbn. rewrite take_0, drop_0, IH by (done || lia). done.
Qed.

Lemma segs_ascii s : ascii s → segs s = (λ c, (c, [c])) <$> s.
Proof. by apply segs_go_ascii. Qed.

Lemma runes_ascii s : ascii s → runes s = s.
Proof.
  intros Hs. unfold runes. rewrite segs_ascii by done.
  rewrite <-list_fmap_compose. apply list_fmap_id.
Qed.

Lemma of_runes_ascii s : ascii s → of_runes s = s.
Proof.
  unfold of_runes. induction 1 as [|c s Hc Hs IH]; [done|]. cbn.
  unfold EncodeRune, between.
  rewrite (proj2 (Z.leb_le 0 c)), (proj2 (Z.leb_le c 0x7F)) by lia. cbn. by f_equal.
Qed.

(** * White space, trimming and fields *)

(** [unicode.IsSpace]. *)
Definition IsSpace (r : Z) : bool :=
  bool_decide (r ∈ [0x09; 0x0A; 0x0B; 0x0C; 0x0D; 0x20; 0x85; 0xA0; 0x1680;
                    0x2028; 0x2029; 0x202F; 0x205F; 0x3000])
  || between 0x2000 r 0x200A.

Definition spaceSeg (p : Z * bytes) : bool := IsSpace p.1.

Fixpoint dropWhile {A} (f : A → bool) (l : list A) : list A :=
  match l with
  | [] => []
  | x :: l => if f x then dropWhile f l else x :: l
  end.

Definition dropWhileEnd {A} (f : A → bool) (l : list A) : list A :=
  reverse (dropWhile f (reverse l)).

(** [strings.TrimSpace]. *)
Definition TrimSpace (s : bytes) : bytes :=
  mjoin (dropWhileEnd spaceSeg (dropWhile spaceSeg (segs s))).*2.

(** [strings.IndexFunc(s, unicode.IsSpace)]: the byte offset of the first
    white-space rune. *)
Fixpoint index_space_go (l : list (Z * bytes)) (off : nat) : option nat :=
  match l with
  | [] => None
  | p :: l => if spaceSeg p then Some off else index_space_go l (off + length p.2)
  end.

Definition IndexSpace (s : bytes) : option nat := index_space_go (segs s) 0.

(** [strings.FieldsFunc(s, unicode.IsSpace)]. *)
Fixpoint fields_go (l : list (Z * bytes)) (acc : bytes) : list bytes :=
  match l with
  | [] => match acc with [] => [] | _ => [acc] end
  | p :: l =>
      if spaceSeg p
      then match acc with [] => fields_go l [] | _ => acc :: fields_go l [] end
      else fields_go l (acc ++ p.2)
  end.

Definition Fields (s : bytes) : list bytes := fields_go (segs s) [].

Definition spaceless (s : bytes) : Prop := Forall (λ c, IsSpace c = false) s.

Lemma dropWhile_none {A} (f : A → bool) l :
  Forall (λ x, f x = false) l → dropWhile f l = l.
Proof. destruct 1 as [|x l Hx]; cbn; [done|]. by rewrite Hx. Qed.

Lemma TrimSpace_ascii s : ascii s → spaceless s → TrimSpace s = s.
Proof.
  intros Ha Hs. unfold TrimSpace, dropWhileEnd. rewrite segs_ascii by done.
  assert (Forall (λ p, spaceSeg p = false) ((λ c, (c, [c])) <$> s)) as Hf
    by by apply Forall_fmap.
  rewrite (dropWhile_none _ (_ <$> s)) by done.
  rewrite dropWhile_none by by apply Forall_reverse.
  rewrite reverse_involutive, <-list_fmap_compose. clear.
  induction s as [|c s IH]; cbn; [done|]. by f_equal.
Qed.

(** Trimming a text that starts and ends with something else than white space. *)
Lemma TrimSpace_edges s w :
  ascii s → ascii w → s ≠ [] → (∀ c, head s = Some c → IsSpace c = false) →
  (∀ c, list.last s = Some c → IsSpace c = false) → Forall (λ c, IsSpace c = true) w → TrimSpace (s ++ w) = s.
Proof.
  intros Ha Hw Hne Hh Hl Hs. unfold TrimSpace, dropWhileEnd.
  rewrite segs_ascii by by apply list.Forall_app. set (f := λ c : Z, (c, [c])).
  assert (∀ l, dropWhile spaceSeg (f <$> l) = f <$> dropWhile IsSpace l) as Hd.
  { intros l. induction l as [|c l IH]; [done|]. cbn. unfold spaceSeg at 1. cbn. by destruct (IsSpace c). }
  assert (∀ l v, Forall (λ c, IsSpace c = true) v → dropWhile IsSpace (v ++ l) = dropWhile IsSpace l) as Hv.
  { intros l v Hv. induction Hv as [|c v Hc _ IH]; [done|]. cbn. by rewrite Hc. }
  assert (∀ l, (∀ c, head l = Some c → IsSpace c = false) → dropWhile IsSpace l = l) as Hk.
  { intros [|c l] Hc; [done|]. cbn. by rewrite (Hc c). }
  rewrite Hd, (Hk (s ++ w)) by (by destruct s). rewrite <-fmap_reverse, Hd, reverse_app, Hv by by apply Forall_reverse.
  rewrite Hk; [|intros c; rewrite head_reverse; apply Hl].
  rewrite <-fmap_reverse, reverse_involutive, <-list_fmap_compose. clear. induction s as [|c s IH]; cbn; [done|]. by f_equal.
Qed.

(** * Case *)

(** The parts of the Unicode tables that lower-casing, case folding and quoting of
    non-ASCII code points read. *)
Class UnicodeTables := {
  unicode_lower : Z → Z;
  unicode_fold : Z → Z → bool;
  unicode_print : Z → bool
}.

(** Tables that leave non-ASCII code points alone, for concrete runs. *)
Definition ascii_tables : UnicodeTables := {|
  unicode_lower r := r; unicode_fold a b := bool_decide (a = b); unicode_print r := false
|}.

Definition lowerASCII (c : Z) : Z := if between 65 c 90 then c + 32 else c.

(** [strings.ToLower]: bytewise when the string is ASCII, otherwise rune by
    rune, which also replaces invalid UTF-8 by U+FFFD. *)
Definition ToLower `{UnicodeTables} (s : bytes) : bytes :=
  if forallb (λ c, between 0 c 0x7F) s then lowerASCII <$> s
  else of_runes ((λ r, if between 0 r 0x7F then lowerASCII r else unicode_lower r)
                 <$> runes s).

Definition foldEq `{UnicodeTables} (a b : Z) : bool :=
  bool_decide (a = b)
  || if between 0 a 0x7F && between 0 b 0x7F
     then bool_decide (lowerASCII a = lowerASCII b)
     else unicode_fold a b.

(** [strings.EqualFold]. *)
Fixpoint fold_go `{UnicodeTables} (s t : list Z) : bool :=
  match s, t with
  | [], [] => true
  | a :: s, b :: t => foldEq a b && fold_go s t
  | _, _ => false
  end.

Definition EqualFold `{UnicodeTables} (s t : bytes) : bool := fold_go (runes s) (runes t).

Lemma ToLower_ascii `{UnicodeTables} s : ascii s → ToLower s = lowerASCII <$> s.
Proof.
  intros Hs. unfold ToLower. rewrite (proj2 (forallb_forall _ _)); [done|].
  intros c Hc%list_elem_of_In. unfold ascii in Hs. rewrite list.Forall_forall in Hs.
  specialize (Hs c Hc).
  unfold between. apply andb_true_iff. rewrite !Z.leb_le. lia.
Qed.

Lemma lowerASCII_range c : 0 ≤ c < 0x80 → 0 ≤ lowerASCII c < 0x80.
Proof. unfold lowerASCII, between. intros. destruct (_ && _) eqn:E; lia. Qed.

Lemma lowerASCII_idem c : lowerASCII (lowerASCII c) = lowerASCII c.
Proof.
  unfold lowerASCII, between.
  destruct ((65 <=? c) && (c <=? 90)) eqn:E; [|by rewrite E].
  apply andb_true_iff in E as [?%Z.leb_le ?%Z.leb_le].
  destruct (_ && _) eqn:E; [|done]. apply andb_true_iff in E as [_ ?%Z.leb_le]. lia.
Qed.

Lemma lower_ascii s : ascii s → ascii (lowerASCII <$> s).
Proof.
  unfold ascii. rewrite Forall_fmap. induction 1; constructor; [|done]. by apply lowerASCII_range.
Qed.

(** * Decimal numbers *)

Definition digit (c : Z) : option Z := if between 48 c 57 then Some (c - 48) else None.

Fixpoint digits_go (s : bytes) (acc : Z) : option Z :=
  match s with
  | [] => Some acc
  | c :: s => d ← digit c; digits_go s (acc * 10 + d)
  end.

(** [strconv.Atoi] with a 64-bit [int]; [None] is a non-nil error. *)
Definition Atoi (s : bytes) : option Z :=
  let '(neg, t) :=
    match s with
    | c :: r => if c =? 43 then (false, r) else if c =? 45 then (true, r) else (false, s)
    | [] => (false, s)
    end in
  match t with
  | [] => None
  | _ =>
      n ← digits_go t 0;
      let v := if (neg : bool) then - n else n in
      if between (- 2 ^ 63) v (2 ^ 63 - 1) then Some v else None
  end.

Lemma digits_go_nonneg s acc n : 0 ≤ acc → digits_go s acc = Some n → 0 ≤ n.
Proof.
  revert acc. induction s as [|c s IH]; intros acc Hacc; cbn; [naive_solver|].
  unfold digit, between. destruct ((48 <=? c) && (c <=? 57)) eqn:E; cbn; [|done].
  apply IH. apply andb_true_iff in E as [?%Z.leb_le ?%Z.leb_le]. lia.
Qed.

Lemma digits_go_chars s acc n c : digits_go s acc = Some n → c ∈ s → 48 ≤ c ≤ 57.
Proof.
  revert acc. induction s as [|d s IH]; intros acc; cbn; [set_solver|].
  unfold digit, between. destruct ((48 <=? d) && (d <=? 57)) eqn:E; cbn; [|done].
  apply andb_true_iff in E as [?%Z.leb_le ?%Z.leb_le].
  intros Hn [->|Hc]%elem_of_cons; [done|]. by eapply IH.
Qed.

(** The characters of a string that [Atoi] accepts. *)
Lemma Atoi_chars s n c : Atoi s = Some n → c ∈ s → c = 43 ∨ c = 45 ∨ 48 ≤ c ≤ 57.
Proof.
  unfold Atoi. destruct s as [|d r]; [done|].
  destruct (Z.eqb_spec d 43) as [->|]; [|destruct (Z.eqb_spec d 45) as [->|]].
  - destruct r; [done|]. intros (m & Hm & _)%bind_Some [->|Hc]%elem_of_cons; [tauto|].
    eapply digits_go_chars in Hm; [|done]. tauto.
  - destruct r; [done|]. intros (m & Hm & _)%bind_Some [->|Hc]%elem_of_cons; [tauto|].
    eapply digits_go_chars in Hm; [|done]. tauto.
  - intros (m & Hm & _)%bind_Some Hc. eapply digits_go_chars in Hm; [|done]. tauto.
Qed.
(** The decimal digits of [n], before [acc]; 19 digits are enough for an [int]. *)
Fixpoint itoa_go (fuel : nat) (n : Z) (acc : bytes) : bytes :=
  match fuel with
  | O => acc
  | S fuel =>
      let acc := (48 + n mod 10) :: acc in
      if n <? 10 then acc else itoa_go fuel (n / 10) acc
  end.

(** [strconv.Itoa] on an [int]. *)
Definition Itoa (n : Z) : bytes := if n <? 0 then 45 :: itoa_go 19 (- n) [] else itoa_go 19 n [].

Lemma digit_value d : 0 ≤ d < 10 → digit (48 + d) = Some d.
Proof.
  intros Hd. unfold digit, between. rewrite (proj2 (Z.leb_le _ _)), (proj2 (Z.leb_le _ _)) by lia. cbn. f_equal. lia.
Qed.

(** Reading the digits of [n] after [acc] gives the rest of the digits. *)
Lemma digits_itoa fuel n acc : 0 ≤ n < 10 ^ Z.of_nat fuel → digits_go (itoa_go fuel n acc) 0 = digits_go acc n.
Proof.
  revert n acc. induction fuel as [|fuel IH]; intros n acc Hn; cbn [itoa_go].
  { replace n with 0 by (change (10 ^ Z.of_nat 0) with 1 in Hn; lia). done. }
  assert (0 ≤ n mod 10 < 10) by (apply Z.mod_pos_bound; lia).
  destruct (Z.ltb_spec n 10).
  - cbn. rewrite digit_value by lia. cbn. f_equal. rewrite Z.mod_small by lia. lia.
  - rewrite IH.
    + cbn. rewrite digit_value by lia. cbn. f_equal. pose proof (Z.div_mod n 10). lia.
    + split; [apply Z.div_pos; lia|]. apply Z.div_lt_upper_bound; [lia|].
      rewrite Nat2Z.inj_succ, Z.pow_succ_r in Hn by lia. lia.
Qed.

Lemma itoa_go_head fuel n acc : 0 ≤ n → fuel ≠ 0%nat → ∃ c r, itoa_go fuel n acc = c :: r ∧ 48 ≤ c ≤ 57.
Proof.
  revert n acc. induction fuel as [|fuel IH]; intros n acc Hn Hf; [done|]. cbn [itoa_go].
  assert (0 ≤ n mod 10 < 10) by (apply Z.mod_pos_bound; lia).
  destruct (Z.ltb_spec n 10); [eexists _, _; split; [done|lia]|].
  destruct fuel as [|fuel]; [eexists _, _; split; [done|lia]|].
  apply IH; [apply Z.div_pos; lia|done].
Qed.

Lemma Atoi_Itoa n : - 2 ^ 63 ≤ n < 2 ^ 63 → Atoi (Itoa n) = Some n.
Proof.
  intros Hn. unfold Itoa, Atoi. destruct (Z.ltb_spec n 0).
  - cbn -[itoa_go digits_go]. destruct (itoa_go_head 19 (- n) []) as (c & r & E & _); [lia|done|].
    rewrite E, <-E, digits_itoa by (split; [lia|]; change (10 ^ Z.of_nat 19) with 10000000000000000000; lia). cbn -[between Z.pow].
    unfold between. rewrite (proj2 (Z.leb_le _ _)), (proj2 (Z.leb_le _ _)) by lia. cbn. f_equal. lia.
  - destruct (itoa_go_head 19 n []) as (c & r & E & Hc); [lia|done|]. rewrite E.
    destruct (Z.eqb_spec c 43); [lia|]. destruct (Z.eqb_spec c 45); [lia|]. rewrite <-E.
    rewrite digits_itoa by (split; [lia|]; change (10 ^ Z.of_nat 19) with 10000000000000000000; lia). cbn -[between Z.pow].
    unfold between. rewrite (proj2 (Z.leb_le _ _)), (proj2 (Z.leb_le _ _)) by lia. done.
Qed.
