(* ===== verification/Common.v ===== *)
(** common.go: the protocol constants, length-prefixed framing of packets on
    stream connections ([PrefixWithSize], [ReadPrefixed]) and the string
    helpers used by the rule files and the matchers. *)
From S2P Require Import Prelude.
From S2P Require Import GoStrings.

(** * Constants *)

(** [CryptoConstruction], with the order of its [iota] values. *)
Inductive CryptoConstruction :=
  | UndefinedConstruction
  | XSalsa20Poly1305
  | XChacha20Poly1305.

#[export] Instance CryptoConstruction_eq_dec : EqDecision CryptoConstruction.
Proof. solve_decision. Defined.

Definition construction_Z (c : CryptoConstruction) : Z :=
  match c with
  | UndefinedConstruction => 0
  | XSalsa20Poly1305 => 1
  | XChacha20Poly1305 => 2
  end.

Definition ClientMagicLen : Z := 8.
Definition CertMagic : bytes := [0x44; 0x4e; 0x53; 0x43].
Definition ServerMagic : bytes := [0x72; 0x36; 0x66; 0x6e; 0x76; 0x57; 0x6a; 0x38].
Definition MinDNSPacketSize : Z := 12 + 5.
Definition MaxDNSPacketSize : Z := 4096.
Definition MaxDNSUDPPacketSize : Z := 4096.
Definition MaxDNSUDPSafePacketSize : Z := 1252.
Definition InitialMinQuestionSize : Z := 512.

Definition Min (a b : Z) : Z := if a <? b then a else b.
Definition Max (a b : Z) : Z := if b <? a then a else b.

Lemma Min_spec a b : Min a b = Z.min a b.
Proof. unfold Min. destruct (Z.ltb_spec a b); lia. Qed.
Lemma Max_spec a b : Max a b = Z.max a b.
Proof. unfold Max. destruct (Z.ltb_spec b a); lia. Qed.

(** * Framing *)

(** [copy(dst[off:], src)]. *)
Definition copy_at (dst : bytes) (off : nat) (src : bytes) : bytes :=
  let n := ((length dst - off) `min` length src)%nat in
  take off dst ++ take n src ++ drop (off + n)%nat dst.

Definition PrefixWithSize (packet : bytes) : Out bytes :=
  let packetLen := len packet in
  if packetLen >? 0xffff then Err (EMsg "Packet too large")
  else
    let packet := (packet ++ [0]) ++ [0] in
    let packet := copy_at packet 2 (take (length packet - 2)%nat packet) in
    let packet := copy_at packet 0 (PutUint16 (u16 (len packet - 2))) in
    Ok packet.

(** What one [Read] on a connection gives: the next chunk, cut at the room left
    in the buffer, or an error. A connection is the sequence of its results; at
    its end [Read] reports an error. *)
Definition conn : Type := list (bytes + error).

Definition Read (c : conn) (cap : nat) : Out (bytes * conn) :=
  match c with
  | [] => Err (ENet 0)
  | inr e :: _ => Err e
  | inl d :: c =>
      if decide (length d ≤ cap)%nat then Ok (d, c)
      else Ok (take cap d, inl (drop cap d) :: c)
  end.

(** The read loop of [ReadPrefixed]: [buf] is the part of the buffer read so
    far, its length is [pos]. [None] is running out of fuel. *)
Fixpoint ReadPrefixed_loop (fuel : nat) (c : conn) (buf : bytes) (packetLength : Z)
    : option (Out bytes) :=
  match fuel with
  | O => None
  | S fuel =>
      match Read c (Z.to_nat (2 + MaxDNSPacketSize) - length buf)%nat with
      | Err e => Some (Err e)
      | Panic => Some Panic
      | Fatal => Some Fatal
      | Ok (d, c) =>
          let buf := buf ++ d in
          let pos := len buf in
          let finish packetLength :=
            if (packetLength >=? 0) && (pos >=? 2 + packetLength)
            then Some (orPanic (slice buf 2 (2 + packetLength)))
            else ReadPrefixed_loop fuel c buf packetLength in
          if (pos >=? 2) && (packetLength <? 0) then
            match Uint16 buf with
            | None => Some Panic
            | Some packetLength =>
                if packetLength >? MaxDNSPacketSize - 1 then
                  Some (Err (EMsg "Packet too large"))
                else if packetLength <? MinDNSPacketSize then
                  Some (Err (EMsg "Packet too short"))
                else finish packetLength
            end
          else finish packetLength
      end
  end.

(** One iteration consumes a chunk, except one that is cut at the end of the
    buffer, after which the loop returns: [length c + 2] iterations are enough. *)
Definition ReadPrefixed (c : conn) : option (Out bytes) :=
  ReadPrefixed_loop (length c + 2)%nat c [] (-1).

(** * Strings *)

(** [r[i], r[j] = r[j], r[i]]. *)
Definition swap {A} (r : list A) (i j : nat) : list A :=
  match r !! i, r !! j with
  | Some a, Some b => <[i:=b]> (<[j:=a]> r)
  | _, _ => r
  end.

(** The loop of [StringReverse]: [n] iterations left, from index [i]. *)
Fixpoint reverse_loop {A} (n i j : nat) (r : list A) : list A :=
  match n with
  | O => r
  | S n => reverse_loop n (S i) (j - 1)%nat (swap r i j)
  end.

Definition StringReverse (s : bytes) : bytes :=
  let r := runes s in
  of_runes (reverse_loop (length r / 2)%nat 0 (length r - 1)%nat r).

Definition StringTwoFields (s : bytes) : bytes * bytes * bool :=
  if len s <? 3 then ([], [], false)
  else
    match IndexSpace s with
    | None => ([], [], false)
    | Some pos =>
        let a := TrimSpace (take pos s) in
        let b := TrimSpace (drop (pos + 1)%nat s) in
        if (len a =? 0) || (len b =? 0) then (a, b, false) else (a, b, true)
    end.

Definition StringStripSpaces (s : bytes) : bytes :=
  of_runes (filter (λ r, IsSpace r = false) (runes s)).

Definition TrimAndStripInlineComments (s : bytes) : bytes :=
  match LastIndexByte s 35 with
  | Some idx =>
      if decide (idx = 0%nat ∨ s !! 0%nat = Some 35) then []
      else
        match s !! (idx - 1)%nat with
        | Some prev =>
            if (prev =? 32) || (prev =? 9)
            then TrimSpace (take (idx - 1)%nat s)
            else TrimSpace s
        | None => TrimSpace s
        end
  | None => TrimSpace s
  end.

Definition ExtractHostAndPort (s : bytes) (defaultPort : Z) : bytes * Z :=
  match LastIndexByte s 58 with
  | Some idx =>
      if (idx <? length s - 1)%nat then
        match Atoi (drop (S idx) s) with
        | Some portX => (take idx s, portX)
        | None => (s, defaultPort)
        end
      else (s, defaultPort)
  | None => (s, defaultPort)
  end.

(** [ReadTextFile] on the contents of the file: the byte-order mark is dropped. *)
Definition ReadTextFile (bin : bytes) : bytes := TrimPrefix bin [0xef; 0xbb; 0xbf].

(** * Lemmas *)

Lemma PrefixWithSize_eq p :
  PrefixWithSize p =
    if len p >? 0xffff then Err (EMsg "Packet too large")
    else Ok (PutUint16 (len p) ++ p).
Proof.
  unfold PrefixWithSize. rewrite Z.gtb_ltb.
  destruct (Z.ltb_spec 65535 (len p)); [done|].
  replace ((p ++ [0]) ++ [0]) with (p ++ [0; 0]) by by rewrite <-app_assoc.
  assert (∃ a b, p ++ [0; 0] = a :: b :: drop 2 (p ++ [0; 0])) as (a & b & Hab).
  { destruct p as [|a [|b p]]; cbn; eauto. }
  assert (copy_at (p ++ [0; 0]) 2 (take (Nat.sub (length (p ++ [0; 0])) 2) (p ++ [0; 0]))
          = a :: b :: p) as ->.
  { replace (Nat.sub (length (p ++ [0; 0])) 2) with (length p) by len_lia.
    rewrite take_app_length. unfold copy_at. rewrite (take_ge p) by len_lia.
    rewrite drop_ge by len_lia. rewrite app_nil_r, Hab. done. }
  assert (len (a :: b :: p) - 2 = len p) as -> by len_lia.
  unfold u16. rewrite Z.mod_small by len_lia. cbn. by rewrite Nat.min_0_r.
Qed.

(** The frame is recovered whatever the boundaries of the chunks are. *)
Section ReadPrefixed.
Context (p rest : bytes).
Context (Hb : Forall is_byte p) (Hlen : MinDNSPacketSize ≤ len p < MaxDNSPacketSize).

Let stream : bytes := PutUint16 (len p) ++ p ++ rest.

Lemma Uint16_stream buf t :
  buf ++ t = stream → 2 ≤ len buf → Uint16 buf = Some (len p).
Proof using Hlen.
  clear Hb. unfold stream, MaxDNSPacketSize, MinDNSPacketSize in *. intros Heq Hbuf.
  destruct buf as [|b0 [|b1 buf]]; [len_lia..|].
  pose proof (Uint16_PutUint16 (len p) (p ++ rest)) as H.
  unfold is_u16 in H. rewrite <-H by lia. rewrite <-Heq. done.
Qed.

Lemma slice_stream buf t :
  buf ++ t = stream → 2 + len p ≤ len buf → slice buf 2 (2 + len p) = Some p.
Proof using.
  clear Hb Hlen. unfold stream. intros Heq Hbuf.
  rewrite slice_ok by len_lia. f_equal.
  assert (buf = PutUint16 (len p) ++ p ++ take (length buf - 2 - length p) rest) as ->.
  { rewrite <-(take_app_length buf t) at 1. rewrite Heq.
    rewrite take_app_ge by (cbn; len_lia). f_equal.
    rewrite take_app_ge by (cbn; len_lia). f_equal. }
  replace (Z.to_nat (2 + len p - 2)) with (length p) by len_lia.
  change (Z.to_nat 2) with (length (PutUint16 (len p))).
  by rewrite drop_app_length, take_app_length.
Qed.

Lemma ReadPrefixed_loop_ok fuel chunks buf pl :
  buf ++ mjoin chunks = stream →
  len buf < 2 + len p →
  pl = (if decide (len buf < 2) then -1 else len p) →
  (length chunks < fuel)%nat →
  ReadPrefixed_loop fuel (inl <$> chunks) buf pl = Some (Ok p).
Proof using Hlen.
  clear Hb. revert fuel buf pl.
  induction chunks as [|d chunks IH]; intros fuel buf pl Heq Hbuf Hpl Hfuel.
  { cbn in Heq. rewrite app_nil_r in Heq. subst buf. unfold stream in Hbuf. cbn in Hbuf.
    len_lia. }
  destruct fuel as [|fuel]; [lia|]. cbn [ReadPrefixed_loop fmap list_fmap Read].
  set (cap := (Z.to_nat (2 + MaxDNSPacketSize) - length buf)%nat).
  set (rd := if decide (length d ≤ cap)%nat then _ else _).
  assert (∃ d' c' t, rd = Ok (d', c') ∧ buf ++ d' ++ t = stream ∧
    (len (buf ++ d') < 2 + len p → d' = d ∧ c' = inl <$> chunks)) as (d' & c' & t & -> & Ht & Hcut).
  { subst rd. destruct (decide (length d ≤ cap)%nat) as [Hd|Hd].
    - exists d, (inl <$> chunks), (mjoin chunks).
      split_and!; [done|exact Heq|by intros].
    - exists (take cap d), (inl (drop cap d) :: (inl <$> chunks)), (drop cap d ++ mjoin chunks).
      split_and!; [done|by rewrite (app_assoc _ _ (mjoin _)), take_drop|].
      subst cap; unfold MaxDNSPacketSize, MinDNSPacketSize in *; len_lia. }
  rewrite app_assoc in Ht. cbn zeta.
  rewrite !Z.geb_leb.
  assert (∀ pl', pl' = len p → 2 ≤ len (buf ++ d') →
    (if (0 <=? pl') && (2 + pl' <=? len (buf ++ d')) then
       Some (orPanic (slice (buf ++ d') 2 (2 + pl')))
     else ReadPrefixed_loop fuel c' (buf ++ d') pl') = Some (Ok p)) as Hfin.
  { intros pl' -> H2. rewrite (proj2 (Z.leb_le 0 (len p))) by len_lia. cbn.
    destruct (Z.leb_spec (2 + len p) (len (buf ++ d'))) as [Hle|Hgt].
    - by rewrite (slice_stream _ _ Ht).
    - destruct Hcut as [-> ->]; [done|]. apply IH; [by rewrite <-app_assoc|done| |cbn in *; lia].
      by rewrite decide_False by lia. }
  destruct (Z.leb_spec 2 (len (buf ++ d'))) as [H2|H2]; cbn [andb].
  - destruct (Z.ltb_spec pl 0) as [Hneg|Hpos].
    + rewrite (Uint16_stream _ _ Ht H2). rewrite Z.gtb_ltb, !Z.geb_leb.
      rewrite (proj2 (Z.ltb_ge _ _)), (proj2 (Z.ltb_ge _ _))
        by (unfold MaxDNSPacketSize, MinDNSPacketSize in *; lia).
      by apply Hfin.
    + apply Hfin; [|done]. subst pl. case_decide; [lia|done].
  - destruct Hcut as [-> ->]; [unfold MinDNSPacketSize in *; lia|].
    assert (pl = -1) as ->.
    { subst pl. rewrite decide_True; [done|]. len_lia. }
    apply IH; [by rewrite <-app_assoc|unfold MinDNSPacketSize in *; lia| |cbn in *; lia].
    by rewrite decide_True.
Qed.
End ReadPrefixed.

Lemma ReadPrefixed_loop_total fuel c buf pl :
  (length c < fuel)%nat →
  (pl < 0 → len buf < 2) →
  (0 ≤ pl → MinDNSPacketSize ≤ pl < MaxDNSPacketSize ∧ len buf < 2 + pl) →
  ∃ r, ReadPrefixed_loop fuel c buf pl = Some r ∧ r ≠ Panic ∧ r ≠ Fatal ∧
       ∀ q, r = Ok q → MinDNSPacketSize ≤ len q < MaxDNSPacketSize.
Proof.
  revert fuel buf pl.
  induction c as [|[d|e] c IH]; intros fuel buf pl Hfuel Hneg Hpos;
    (destruct fuel as [|fuel]; [lia|]); cbn [ReadPrefixed_loop Read];
    [eexists; split; [done|]; done| |eexists; split; [done|]; done].
  set (cap := (Z.to_nat (2 + MaxDNSPacketSize) - length buf)%nat).
  set (rd := if decide (length d ≤ cap)%nat then _ else _).
  assert (∃ d' c', rd = Ok (d', c') ∧
    (c' = c ∨ len (buf ++ d') = 2 + MaxDNSPacketSize)) as (d' & c' & -> & Hc').
  { subst rd. destruct (decide (length d ≤ cap)%nat) as [Hd|Hd].
    - exists d, c. auto.
    - eexists _, _. split; [done|]. right.
      subst cap; unfold MaxDNSPacketSize, MinDNSPacketSize in *.
      destruct (decide (pl < 0)); len_lia. }
  cbn zeta.
  assert (∀ pl', MinDNSPacketSize ≤ pl' < MaxDNSPacketSize →
    ∃ r, (if (pl' >=? 0) && (len (buf ++ d') >=? 2 + pl') then
            Some (orPanic (slice (buf ++ d') 2 (2 + pl')))
          else ReadPrefixed_loop fuel c' (buf ++ d') pl') = Some r ∧ r ≠ Panic ∧ r ≠ Fatal ∧
       ∀ q, r = Ok q → MinDNSPacketSize ≤ len q < MaxDNSPacketSize) as Hfin.
  { intros pl' Hpl'. rewrite !Z.geb_leb.
    rewrite (proj2 (Z.leb_le 0 pl')) by (unfold MinDNSPacketSize in *; lia). cbn [andb].
    destruct (Z.leb_spec (2 + pl') (len (buf ++ d'))) as [Hle|Hgt].
    - destruct (slice (buf ++ d') 2 (2 + pl')) as [q|] eqn:Hq.
      + apply slice_Some in Hq as (_ & _ & Hq & _). eexists. split; [done|].
        split_and!; [done..|]. intros ? [= <-]. lia.
      + apply slice_None in Hq. unfold MinDNSPacketSize in *. lia.
    - destruct Hc' as [->|Hc']; [|unfold MaxDNSPacketSize, MinDNSPacketSize in *; lia].
      apply IH; [cbn in *; lia|unfold MinDNSPacketSize in *; lia|done]. }
  destruct (len (buf ++ d') >=? 2) eqn:H2; cbn [andb];
    rewrite Z.geb_leb in H2; [apply Z.leb_le in H2|apply Z.leb_gt in H2].
  - destruct (Z.ltb_spec pl 0) as [Hn|Hp]; [|by apply Hfin, Hpos].
    assert (∃ v, Uint16 (buf ++ d') = Some v) as [v ->].
    { destruct (buf ++ d') as [|? [|? ?]]; [len_lia..|]. by eexists. }
    rewrite Z.gtb_ltb. destruct (Z.ltb_spec (MaxDNSPacketSize - 1) v); [eexists; done|].
    destruct (Z.ltb_spec v MinDNSPacketSize); [eexists; done|]. apply Hfin. lia.
  - destruct (decide (pl < 0)) as [Hn|Hn]; [|apply Hfin, Hpos; lia].
    rewrite !Z.geb_leb. rewrite (proj2 (Z.leb_gt 0 pl)) by lia. cbn [andb].
    destruct Hc' as [->|Hc']; [|unfold MaxDNSPacketSize, MinDNSPacketSize in *; lia].
    apply IH; [cbn in *; lia|done|lia].
Qed.

(** ** Reversal *)

Lemma swap_lookup {A} (r : list A) i j k :
  (i < length r)%nat → (j < length r)%nat →
  swap r i j !! k = if decide (k = i) then r !! j else if decide (k = j) then r !! i else r !! k.
Proof.
  intros Hi Hj. unfold swap.
  destruct (lookup_lt_is_Some_2 r i Hi) as [a Ha].
  destruct (lookup_lt_is_Some_2 r j Hj) as [b Hb]. rewrite Ha, Hb.
  case_ifs; subst.
  - rewrite list_lookup_insert_eq by len_lia. done.
  - rewrite list_lookup_insert_ne by done. rewrite list_lookup_insert_eq by len_lia. done.
  - by rewrite !list_lookup_insert_ne by done.
Qed.

Lemma swap_length {A} (r : list A) i j : length (swap r i j) = length r.
Proof. unfold swap. repeat case_match; try done. by rewrite !length_insert. Qed.

Lemma swap_perm {A} (r : list A) i j : swap r i j ≡ₚ r.
Proof.
  unfold swap. destruct (r !! i) as [a|] eqn:Ha; [|done].
  destruct (r !! j) as [b|] eqn:Hb; [|done].
  by apply Permutation_insert_swap.
Qed.

Lemma reverse_loop_lookup {A} n i (r : list A) k :
  (2 * (i + n) ≤ length r)%nat → (k < length r)%nat →
  reverse_loop n i (length r - 1 - i) r !! k =
    if decide ((i ≤ k < i + n) ∨ (length r - (i + n) ≤ k < length r - i))%nat
    then r !! (length r - 1 - k)%nat else r !! k.
Proof.
  revert i r. induction n as [|n IH]; intros i r Hn Hk; cbn [reverse_loop].
  { rewrite decide_False by lia. done. }
  replace (length r - 1 - i - 1)%nat with (length (swap r i (length r - 1 - i)) - 1 - S i)%nat
    by (rewrite swap_length; lia).
  rewrite IH by (rewrite swap_length; lia). rewrite !swap_length.
  case_ifs; rewrite !swap_lookup by lia; case_ifs; try lia; f_equal; lia.
Qed.

Lemma reverse_loop_reverse {A} (r : list A) :
  reverse_loop (length r / 2) 0 (length r - 1) r = reverse r.
Proof.
  apply list_eq. intros k. destruct (decide (k < length r)%nat) as [Hk|Hk].
  - replace (length r - 1)%nat with (length r - 1 - 0)%nat by lia.
    pose proof (Nat.div_mod_eq (length r) 2). pose proof (Nat.mod_upper_bound (length r) 2).
    rewrite reverse_loop_lookup, reverse_lookup by lia.
    case_ifs; f_equal; lia.
  - rewrite (lookup_ge_None_2 (reverse r)) by len_lia.
    apply lookup_ge_None_2.
    enough (∀ n i j (l : list A), length (reverse_loop n i j l) = length l) as -> by lia.
    clear. induction n; intros i j l; cbn; [done|]. by rewrite IHn, swap_length.
Qed.

Lemma StringReverse_runes s : StringReverse s = of_runes (reverse (runes s)).
Proof. unfold StringReverse. by rewrite reverse_loop_reverse. Qed.

Lemma ascii_reverse s : ascii s → ascii (reverse s).
Proof. apply Forall_reverse. Qed.

Lemma StringReverse_ascii s : ascii s → StringReverse s = reverse s.
Proof.
  intros Hs. rewrite StringReverse_runes, runes_ascii by done.
  by apply of_runes_ascii, ascii_reverse.
Qed.

(** * Properties *)

(** A packet of at least 17 and less than 4096 bytes framed by
    [PrefixWithSize] is read back exactly by [ReadPrefixed], however the
    transport cuts the byte stream into chunks and whatever follows the frame. *)
Theorem ReadPrefixed_PrefixWithSize (p : bytes) :
  MinDNSPacketSize ≤ len p < MaxDNSPacketSize →
  ∃ frame, PrefixWithSize p = Ok frame ∧
    ∀ rest chunks, mjoin chunks = frame ++ rest →
      ReadPrefixed (inl <$> chunks) = Some (Ok p).
Proof.
  intros Hp. exists (PutUint16 (len p) ++ p). split.
  { rewrite PrefixWithSize_eq, Z.gtb_ltb, (proj2 (Z.ltb_ge _ _));
      unfold MaxDNSPacketSize, MinDNSPacketSize in *; [done|lia]. }
  intros rest chunks Hc. apply (ReadPrefixed_loop_ok p rest); [done|..].
  - cbn [app]. by rewrite Hc, <-app_assoc.
  - unfold MinDNSPacketSize in *. len_lia.
  - done.
  - rewrite length_fmap. lia.
Qed.

Example ReadPrefixed_PrefixWithSize_wit :
  ReadPrefixed (inl <$> [[0]; [20; 7]; replicate 18 7; [7; 9; 9]]) = Some (Ok (replicate 20 7)).
Proof.
  destruct (ReadPrefixed_PrefixWithSize (replicate 20 7)) as (f & Hf & H);
    [vm_compute; split; congruence|].
  apply (H [9; 9]). vm_compute in Hf. injection Hf as <-. reflexivity.
Defined.

(** [ReadPrefixed] always returns, on any sequence of chunks and errors: it
    never indexes outside its 4098-byte buffer, never loops, and a packet it
    returns has between 17 and 4095 bytes. *)
Theorem ReadPrefixed_total (c : conn) :
  ∃ r, ReadPrefixed c = Some r ∧ r ≠ Panic ∧ r ≠ Fatal ∧
       ∀ q, r = Ok q → MinDNSPacketSize ≤ len q < MaxDNSPacketSize.
Proof. apply ReadPrefixed_loop_total; [lia|done|lia]. Qed.

(** The swapping loop of [StringReverse] reverses the runes of the string;
    on an ASCII string it reverses the bytes, and is its own inverse. *)
Theorem StringReverse_correct (s : bytes) :
  StringReverse s = of_runes (reverse (runes s)) ∧
  (ascii s → StringReverse s = reverse s ∧ StringReverse (StringReverse s) = s).
Proof.
  split; [apply StringReverse_runes|]. intros Hs.
  rewrite (StringReverse_ascii s) by done. split; [done|].
  rewrite StringReverse_ascii by by apply ascii_reverse. apply reverse_involutive.
Qed.

(** [ExtractHostAndPort] splits at the last colon: a host followed by a
    colon and a number gives that host and number; without a number after the
    last colon the whole string is the host and the port is the default. *)
Theorem ExtractHostAndPort_spec (host port : bytes) (d : Z) :
  58 ∉ port →
  ExtractHostAndPort (host ++ 58 :: port) d =
    match Atoi port with
    | Some n => (host, n)
    | None => (host ++ 58 :: port, d)
    end.
Proof.
  intros Hp. unfold ExtractHostAndPort.
  assert (LastIndexByte (host ++ 58 :: port) 58 = Some (length host)) as ->.
  { apply LastIndexByte_Some. split; [by apply list_lookup_middle|].
    rewrite drop_app_ge by lia. replace (S _ - _)%nat with 1%nat by lia. exact Hp. }
  rewrite drop_app_ge by lia. replace (S _ - _)%nat with 1%nat by lia. cbn [drop].
  rewrite take_app_length. destruct port as [|c port].
  - rewrite (proj2 (Nat.ltb_ge _ _)) by len_lia. done.
  - rewrite (proj2 (Nat.ltb_lt _ _)) by len_lia. done.
Qed.

Example ExtractHostAndPort_spec_wit :
  ExtractHostAndPort (str "[2001:db8::1]" ++ 58 :: str "8443") 443 = (str "[2001:db8::1]", 8443).
Proof. rewrite ExtractHostAndPort_spec; [reflexivity|vm_compute; set_solver]. Defined.

(** [TrimAndStripInlineComments] looks only at the last pound sign of a
    line: of a rule followed by a comment that itself holds a second commented
    pound sign, only the text after the last one is removed, so the first
    comment stays in the rule. *)
Theorem TrimAndStripInlineComments_last_only :
  TrimAndStripInlineComments (str "ads.example.com # one comment") = str "ads.example.com" ∧
  TrimAndStripInlineComments (str "ads.example.com # bug #12 # fixed")
    = str "ads.example.com # bug #12".
Proof. split; vm_compute; reflexivity. Qed.
