(* ===== verification/LogLines.v ===== *)
(** The text of log lines: [StringQuote] (common.go), which is [strconv.QuoteToGraphic]
    without its quotes, and the lines in the two formats that the plugins write.

    Quoting has a left inverse and leaves no control character, so that a line of the
    log is one line, splits into the fields it was made of, and no name in a query can add
    a field or a line. *)
From S2P Require Import Prelude.
From S2P Require Import GoStrings.

(** * Quoting *)

(** [strconv.IsPrint]; the tables are for code points above Latin-1. *)
Definition IsPrint `{UnicodeTables} (r : Z) : bool :=
  if r <=? 0xFF then between 0x20 r 0x7E || (between 0xA1 r 0xFF && negb (r =? 0xAD)) else unicode_print r.

(** The white space that is graphic but not printable. *)
Definition isInGraphicList (r : Z) : bool :=
  bool_decide (r ∈ [0x00A0; 0x1680; 0x202F; 0x205F; 0x3000]) || between 0x2000 r 0x200A.

Definition lowerhex (d : Z) : Z := if d <? 10 then 48 + d else 87 + d.

(** [n] digits of [r] in base 16. *)
Fixpoint hex (n : nat) (r : Z) : bytes :=
  match n with
  | O => []
  | S n => lowerhex (Z.land (Z.shiftr r (4 * Z.of_nat n)) 0xF) :: hex n r
  end.

(** The escapes of one letter. *)
Definition escapes : list (Z * Z) := [(7, 97); (8, 98); (12, 102); (10, 110); (13, 114); (9, 116); (11, 118)].

(** [appendEscapedRune] with the quote and [graphicOnly]. *)
Definition escape_rune `{UnicodeTables} (r : Z) : bytes :=
  if (r =? 34) || (r =? 92) then [92; r]
  else if IsPrint r || isInGraphicList r then EncodeRune r
  else
    match List.find (λ e, e.1 =? r) escapes with
    | Some (_, letter) => [92; letter]
    | None =>
        if (r <? 32) || (r =? 0x7F) then 92 :: 120 :: hex 2 r
        else if r <? 0x10000 then 92 :: 117 :: hex 4 r
        else 92 :: 85 :: hex 8 r
    end.

(** One turn of the loop of [appendQuotedWith], on the code point and its bytes: a byte that
    is not UTF-8 is written in base 16. *)
Definition escape_seg `{UnicodeTables} (p : Z * bytes) : bytes :=
  match p.2 with
  | [b] => if p.1 =? RuneError then 92 :: 120 :: hex 2 b else escape_rune p.1
  | _ => escape_rune p.1
  end.

Definition StringQuote `{UnicodeTables} (s : bytes) : bytes := mjoin (escape_seg <$> segs s).

(** ** The inverse *)

Definition unhex (c : Z) : option Z :=
  if between 48 c 57 then Some (c - 48) else if between 97 c 102 then Some (c - 87) else None.

(** The number written with the digits [l] after [r]. *)
Fixpoint unhex_all (l : bytes) (r : Z) : option Z :=
  match l with
  | [] => Some r
  | c :: l => match unhex c with Some d => unhex_all l (16 * r + d) | None => None end
  end.

(** What the characters of an interpreted string literal stand for. *)
Fixpoint unquote (s : bytes) : option bytes :=
  match s with
  | [] => Some []
  | c :: s =>
      if c =? 92 then
        match s with
        | e :: s =>
            if e =? 120 then
              match s with
              | h1 :: h2 :: s => b ← unhex_all [h1; h2] 0; app [b] <$> unquote s
              | _ => None
              end
            else if e =? 117 then
              match s with
              | h1 :: h2 :: h3 :: h4 :: s => r ← unhex_all [h1; h2; h3; h4] 0; app (EncodeRune r) <$> unquote s
              | _ => None
              end
            else if e =? 85 then
              match s with
              | h1 :: h2 :: h3 :: h4 :: h5 :: h6 :: h7 :: h8 :: s =>
                  r ← unhex_all [h1; h2; h3; h4; h5; h6; h7; h8] 0; app (EncodeRune r) <$> unquote s
              | _ => None
              end
            else if (e =? 34) || (e =? 92) then app [e] <$> unquote s
            else match List.find (λ x, x.2 =? e) escapes with Some (r, _) => app [r] <$> unquote s | None => None end
        | [] => None
        end
      else app [c] <$> unquote s
  end.

(** * UTF-8 *)

(** Decoding and encoding are inverse on what is valid. *)

Lemma shiftl_lor_add a k c : 0 ≤ k → 0 ≤ c < 2 ^ k → Z.lor (Z.shiftl a k) c = a * 2 ^ k + c.
Proof. intros Hk Hc. rewrite Z.lor_comm, lor_shiftl_add by done. lia. Qed.

(** The bits of [b] after the mark of its position, and the mark put back. *)
Lemma land_3F b : Z.land b 0x3F = b mod 64.
Proof. exact (Z.land_ones b 6 ltac:(lia)). Qed.
Lemma land_1F b : Z.land b 0x1F = b mod 32.
Proof. exact (Z.land_ones b 5 ltac:(lia)). Qed.
Lemma land_0F b : Z.land b 0x0F = b mod 16.
Proof. exact (Z.land_ones b 4 ltac:(lia)). Qed.
Lemma land_07 b : Z.land b 0x07 = b mod 8.
Proof. exact (Z.land_ones b 3 ltac:(lia)). Qed.
Lemma lor_80 c : 0 ≤ c < 64 → Z.lor 0x80 c = 128 + c.
Proof. intros Hc. exact (shiftl_lor_add 2 6 c ltac:(lia) Hc). Qed.
Lemma lor_C0 c : 0 ≤ c < 32 → Z.lor 0xC0 c = 192 + c.
Proof. intros Hc. exact (shiftl_lor_add 6 5 c ltac:(lia) Hc). Qed.
Lemma lor_E0 c : 0 ≤ c < 16 → Z.lor 0xE0 c = 224 + c.
Proof. intros Hc. exact (shiftl_lor_add 14 4 c ltac:(lia) Hc). Qed.
Lemma lor_F0 c : 0 ≤ c < 8 → Z.lor 0xF0 c = 240 + c.
Proof. intros Hc. exact (shiftl_lor_add 30 3 c ltac:(lia) Hc). Qed.

Lemma between_spec lo x hi : between lo x hi = true ↔ lo ≤ x ≤ hi.
Proof. unfold between. rewrite andb_true_iff, !Z.leb_le. done. Qed.

Lemma between_false lo x hi : x < lo ∨ hi < x → between lo x hi = false.
Proof. intros Hx. apply not_true_is_false. rewrite between_spec. lia. Qed.

(** What is encoded, by its size. *)
Lemma EncodeRune_1 r : 0 ≤ r < 0x80 → EncodeRune r = [r].
Proof. intros Hr. unfold EncodeRune. by rewrite (proj2 (between_spec 0 r 0x7F)) by lia. Qed.

Lemma EncodeRune_2 r : 0x80 ≤ r < 0x800 → EncodeRune r = [192 + r / 64; 128 + r mod 64].
Proof.
  intros Hr. unfold EncodeRune. rewrite (between_false 0 r), (proj2 (between_spec 0x80 r 0x7FF)) by lia.
  rewrite Z.shiftr_0_r, land_3F, Z.shiftr_div_pow2 by lia. change (2 ^ 6) with 64.
  rewrite lor_C0, lor_80; [done|apply Z.mod_pos_bound; lia|]. split; [apply Z.div_pos; lia|apply Z.div_lt_upper_bound; lia].
Qed.

Lemma EncodeRune_3 r :
  0x800 ≤ r < 0x10000 → ¬ 0xD800 ≤ r ≤ 0xDFFF → EncodeRune r = [224 + r / 4096; 128 + r / 64 mod 64; 128 + r mod 64].
Proof.
  intros Hr Hs. unfold EncodeRune. rewrite (between_false 0 r), (between_false 0x80 r) by lia.
  rewrite (proj2 (Z.ltb_ge r 0)), (proj2 (Z.ltb_ge 0x10FFFF r)), (between_false 0xD800 r), (proj2 (Z.leb_le r 0xFFFF)) by lia. cbn [orb].
  rewrite !land_3F, !Z.shiftr_div_pow2 by lia. change (2 ^ 6) with 64. change (2 ^ 12) with 4096.
  rewrite lor_E0, !lor_80; [done|apply Z.mod_pos_bound; lia..|]. split; [apply Z.div_pos; lia|apply Z.div_lt_upper_bound; lia].
Qed.

Lemma EncodeRune_4 r :
  0x10000 ≤ r ≤ 0x10FFFF →
  EncodeRune r = [240 + r / 262144; 128 + r / 4096 mod 64; 128 + r / 64 mod 64; 128 + r mod 64].
Proof.
  intros Hr. unfold EncodeRune. rewrite (between_false 0 r), (between_false 0x80 r) by lia.
  rewrite (proj2 (Z.ltb_ge r 0)), (proj2 (Z.ltb_ge 0x10FFFF r)), (between_false 0xD800 r), (proj2 (Z.leb_gt r 0xFFFF)) by lia. cbn [orb].
  rewrite !land_3F, !Z.shiftr_div_pow2, Z.pow_0_r, Z.div_1_r by lia. change (2 ^ 6) with 64. change (2 ^ 12) with 4096. change (2 ^ 18) with 262144.
  rewrite lor_F0, !lor_80; [done|apply Z.mod_pos_bound; lia..|]. split; [apply Z.div_pos; lia|apply Z.div_lt_upper_bound; lia].
Qed.

Lemma mod_mark b m lo : lo mod m = 0 → 0 < m → lo ≤ b < lo + m → b mod m = b - lo.
Proof. intros Hlo Hm Hb. rewrite <-(Z.mod_unique b m (lo / m) (b - lo)); [done|lia|]. pose proof (Z.div_mod lo m). lia. Qed.

Definition valid_rune (r : Z) : Prop := 0 ≤ r ≤ 0x10FFFF ∧ ¬ 0xD800 ≤ r ≤ 0xDFFF.

(** A front that is valid is the code of its code point. *)
Definition decoded (s : bytes) (r : Z) (w : nat) : Prop :=
  valid_rune r ∧ EncodeRune r = take w s ∧ (w = 1%nat → r < 0x80).

Lemma decoded_2 b0 b1 s :
  0xC2 ≤ b0 ≤ 0xDF → 0x80 ≤ b1 ≤ 0xBF →
  decoded (b0 :: b1 :: s) (Z.lor (Z.shiftl (Z.land b0 0x1F) 6) (Z.land b1 0x3F)) 2.
Proof.
  intros H0 H1. rewrite land_1F, land_3F, (mod_mark b0 32 192), (mod_mark b1 64 128) by (done || lia).
  rewrite shiftl_lor_add by lia. change (2 ^ 6) with 64. unfold decoded, valid_rune. split_and!; [lia..| |done].
  rewrite EncodeRune_2 by lia. cbn. repeat f_equal; Z.to_euclidean_division_equations; lia.
Qed.

Lemma decoded_3 b0 b1 b2 s :
  0xE0 ≤ b0 ≤ 0xEF → 0x80 ≤ b1 ≤ 0xBF → 0x80 ≤ b2 ≤ 0xBF → (b0 = 0xE0 → 0xA0 ≤ b1) → (b0 = 0xED → b1 ≤ 0x9F) →
  decoded (b0 :: b1 :: b2 :: s)
    (Z.lor (Z.shiftl (Z.land b0 0x0F) 12) (Z.lor (Z.shiftl (Z.land b1 0x3F) 6) (Z.land b2 0x3F))) 3.
Proof.
  intros H0 H1 H2 Hlo Hhi. rewrite land_0F, !land_3F, (mod_mark b0 16 224), (mod_mark b1 64 128), (mod_mark b2 64 128) by (done || lia).
  rewrite (shiftl_lor_add (b1 - 128)), shiftl_lor_add by lia. change (2 ^ 6) with 64. change (2 ^ 12) with 4096. unfold decoded, valid_rune. split_and!; [lia..| |done].
  rewrite EncodeRune_3 by lia. cbn. repeat f_equal; Z.to_euclidean_division_equations; lia.
Qed.

Lemma decoded_4 b0 b1 b2 b3 s :
  0xF0 ≤ b0 ≤ 0xF4 → 0x80 ≤ b1 ≤ 0xBF → 0x80 ≤ b2 ≤ 0xBF → 0x80 ≤ b3 ≤ 0xBF → (b0 = 0xF0 → 0x90 ≤ b1) → (b0 = 0xF4 → b1 ≤ 0x8F) →
  decoded (b0 :: b1 :: b2 :: b3 :: s)
    (Z.lor (Z.shiftl (Z.land b0 0x07) 18)
       (Z.lor (Z.shiftl (Z.land b1 0x3F) 12) (Z.lor (Z.shiftl (Z.land b2 0x3F) 6) (Z.land b3 0x3F)))) 4.
Proof.
  intros H0 H1 H2 H3 Hlo Hhi.
  rewrite land_07, !land_3F, (mod_mark b0 8 240), (mod_mark b1 64 128), (mod_mark b2 64 128), (mod_mark b3 64 128) by (done || lia).
  rewrite (shiftl_lor_add (b2 - 128)), (shiftl_lor_add (b1 - 128)), shiftl_lor_add by lia.
  change (2 ^ 6) with 64. change (2 ^ 12) with 4096. change (2 ^ 18) with 262144.
  unfold decoded, valid_rune. split_and!; [lia..| |done].
  rewrite EncodeRune_4 by lia. cbn. repeat f_equal; Z.to_euclidean_division_equations; lia.
Qed.

(** The front of a string: a code point, or a byte that is not one. *)
Lemma DecodeRune_cases b0 s :
  is_byte b0 →
  let '(r, w) := DecodeRune (b0 :: s) in decoded (b0 :: s) r w ∨ (r = RuneError ∧ w = 1%nat).
Proof.
  unfold is_byte. intros Hb. unfold DecodeRune. destruct (Z.ltb_spec b0 0x80).
  { left. unfold decoded, valid_rune. split_and!; [lia..| |done]. by rewrite EncodeRune_1 by lia. }
  destruct (between 0xC2 b0 0xDF) eqn:E2; [apply between_spec in E2|].
  { destruct s as [|b1 s]; [by right|]. destruct (cont b1) eqn:C1; [|by right]. apply between_spec in C1. left. by apply decoded_2. }
  destruct (between 0xE0 b0 0xEF) eqn:E3; [apply between_spec in E3|].
  { destruct s as [|b1 [|b2 s]]; [by right..|]. destruct (_ && _) eqn:C; [|by right].
    apply andb_true_iff in C as [C1%between_spec C2%between_spec]. left.
    apply decoded_3; destruct (Z.eqb_spec b0 0xE0), (Z.eqb_spec b0 0xED); lia. }
  destruct (between 0xF0 b0 0xF4) eqn:E4; [apply between_spec in E4|by right].
  destruct s as [|b1 [|b2 [|b3 s]]]; [by right..|]. destruct (_ && _ && _) eqn:C; [|by right].
  apply andb_true_iff in C as [[C1%between_spec C2%between_spec]%andb_true_iff C3%between_spec]. left.
  apply decoded_4; destruct (Z.eqb_spec b0 0xF0), (Z.eqb_spec b0 0xF4); lia.
Qed.

(** * Round trip *)

Section Quoting.
Context `{UnicodeTables}.

Lemma unquote_plain l t : Forall (λ c, c ≠ 92) l → unquote (l ++ t) = app l <$> unquote t.
Proof.
  induction 1 as [|c l Hc Hl IH]; cbn [app unquote]; [by destruct (unquote t)|].
  rewrite (proj2 (Z.eqb_neq c 92)), IH by done. by destruct (unquote t).
Qed.

Lemma unhex_lowerhex d : 0 ≤ d < 16 → unhex (lowerhex d) = Some d.
Proof.
  intros Hd. unfold unhex, lowerhex. destruct (Z.ltb_spec d 10).
  - rewrite (proj2 (between_spec _ _ _)) by lia. f_equal. lia.
  - rewrite (between_false 48), (proj2 (between_spec _ _ _)) by lia. f_equal. lia.
Qed.

Lemma unhex_hex n r acc : unhex_all (hex n r) acc = Some (acc * 16 ^ Z.of_nat n + r mod 16 ^ Z.of_nat n).
Proof.
  revert acc. induction n as [|n IH]; intros acc; cbn [hex unhex_all].
  { rewrite Z.mod_1_r. f_equal. change (16 ^ Z.of_nat 0) with 1. lia. }
  rewrite land_0F, unhex_lowerhex by (apply Z.mod_pos_bound; lia). rewrite IH. f_equal.
  rewrite Z.shiftr_div_pow2, Z.pow_mul_r by lia. change (2 ^ 4) with 16.
  rewrite Nat2Z.inj_succ, Z.pow_succ_r, (Z.mul_comm 16 (16 ^ _)), Z.rem_mul_r by lia. lia.
Qed.

Lemma unhex_hex_small n r : 0 ≤ r < 16 ^ Z.of_nat n → unhex_all (hex n r) 0 = Some r.
Proof. intros Hr. by rewrite unhex_hex, Z.mod_small. Qed.

Lemma EncodeRune_bytes r : valid_rune r → Forall (λ c, c = r ∨ 0x80 ≤ c) (EncodeRune r).
Proof.
  intros [Hr Hs]. destruct (decide (r < 0x80)); [|].
  { rewrite EncodeRune_1 by lia. constructor; [by left|constructor]. }
  assert (∀ x, 0 ≤ x mod 64 < 64) as Hm by (intros x; apply Z.mod_pos_bound; lia).
  assert (∀ k, 0 < k → 0 ≤ r / k) as Hd by (intros k Hk; apply Z.div_pos; lia).
  destruct (decide (r < 0x800)); [rewrite EncodeRune_2 by lia; specialize (Hm r); specialize (Hd 64); rewrite !list.Forall_cons; split_and!; [lia..|done]|].
  destruct (decide (r < 0x10000)).
  - rewrite EncodeRune_3 by lia. pose proof (Hm (r / 64)). specialize (Hm r). specialize (Hd 4096). rewrite !list.Forall_cons. split_and!; [lia..|done].
  - rewrite EncodeRune_4 by lia. pose proof (Hm (r / 4096)). pose proof (Hm (r / 64)). specialize (Hm r). specialize (Hd 262144).
    rewrite !list.Forall_cons. split_and!; [lia..|done].
Qed.

(** The escapes of one letter are undone. *)
Lemma escapes_find r x : List.find (λ e, e.1 =? r) escapes = Some x → x.1 = r ∧ 0 ≤ r < 32 ∧
  ∀ t, unquote (92 :: x.2 :: t) = app [r] <$> unquote t.
Proof.
  intros [Hin He%Z.eqb_eq]%List.find_some. subst r. cbn in Hin. split; [done|].
  repeat destruct Hin as [<-|Hin]; try done; (split; [cbn; lia|done]).
Qed.

Lemma unquote_x b t : 0 ≤ b < 256 → unquote (92 :: 120 :: hex 2 b ++ t) = app [b] <$> unquote t.
Proof. intros Hb. pose proof (unhex_hex_small 2 b Hb) as He. cbn [hex app unquote] in *. by rewrite He. Qed.

Lemma unquote_escape_rune r t : valid_rune r → unquote (escape_rune r ++ t) = app (EncodeRune r) <$> unquote t.
Proof.
  intros Hv. unfold escape_rune. destruct ((r =? 34) || (r =? 92)) eqn:Hq.
  { apply orb_true_iff in Hq as [->%Z.eqb_eq| ->%Z.eqb_eq]; done. }
  apply orb_false_iff in Hq as [Hq1%Z.eqb_neq Hq2%Z.eqb_neq]. destruct (_ || _).
  { apply unquote_plain. eapply list.Forall_impl; [by apply EncodeRune_bytes|]. cbn. lia. }
  destruct (List.find _ escapes) as [[e letter]|] eqn:Hf.
  { apply escapes_find in Hf as (_ & Hr & Hf). cbn [snd] in Hf. rewrite EncodeRune_1 by lia. apply Hf. }
  destruct Hv as [Hr Hs]. destruct ((r <? 32) || (r =? 0x7F)) eqn:Hc.
  { assert (r < 0x80) by (apply orb_true_iff in Hc as [?%Z.ltb_lt|?%Z.eqb_eq]; lia).
    rewrite EncodeRune_1 by lia. apply unquote_x. lia. }
  destruct (Z.ltb_spec r 0x10000).
  - pose proof (unhex_hex_small 4 r ltac:(change (16 ^ Z.of_nat 4) with 0x10000; lia)) as He. cbn [hex app unquote] in *. by rewrite He.
  - pose proof (unhex_hex_small 8 r ltac:(change (16 ^ Z.of_nat 8) with 0x100000000; lia)) as He. cbn [hex app unquote] in *. by rewrite He.
Qed.

(** One turn of the loop. *)
Lemma unquote_escape_seg b s t :
  is_byte b → let '(r, w) := DecodeRune (b :: s) in
  unquote (escape_seg (r, take w (b :: s)) ++ t) = app (take w (b :: s)) <$> unquote t.
Proof.
  intros Hb. pose proof (DecodeRune_cases b s Hb) as Hc. destruct (DecodeRune (b :: s)) as [r w]. unfold escape_seg. cbn [fst snd].
  destruct Hc as [(Hv & He & Hw)|[-> ->]].
  - assert (unquote (escape_rune r ++ t) = app (take w (b :: s)) <$> unquote t) as Hq by (rewrite <-He; by apply unquote_escape_rune).
    destruct (take w (b :: s)) as [|c [|c' l]] eqn:Ht; [done| |done]. destruct (Z.eqb_spec r RuneError) as [Hr|]; [|done].
    exfalso. rewrite Hr in He. by vm_compute in He.
  - cbn [take]. rewrite Z.eqb_refl. by apply unquote_x.
Qed.

Lemma unquote_segs n s : (length s ≤ n)%nat → Forall is_byte s → unquote (mjoin (escape_seg <$> segs_go n s)) = Some s.
Proof.
  revert s. induction n as [|n IH]; intros [|b s] Hn Hs; [done|cbn in Hn; lia|done|]. cbn [segs_go].
  assert (is_byte b) as Hb by by apply list.Forall_cons in Hs as [? _]. pose proof (unquote_escape_seg b s) as Hq.
  pose proof (DecodeRune_cases b s Hb) as Hc. destruct (DecodeRune (b :: s)) as [r w]. cbn [fmap list_fmap mjoin list_join].
  assert (1 ≤ w)%nat.
  { destruct Hc as [(_ & He & _)|[_ ->]]; [|lia]. destruct w; [|lia]. cbn in He. exfalso. revert He. unfold EncodeRune. by repeat case_match. }
  rewrite Hq, IH; [|rewrite length_drop; cbn in *; lia|by apply Forall_drop|done]. cbn [fmap option_fmap option_map].
  by rewrite take_drop.
Qed.

(** What is quoted can be read back, whatever the bytes. *)
Lemma unquote_StringQuote s : Forall is_byte s → unquote (StringQuote s) = Some s.
Proof. by apply unquote_segs. Qed.

End Quoting.

(** * Lines *)

(** A character that does not end a field or a line, or act on a terminal. *)
Definition printable (c : Z) : Prop := 32 ≤ c ∧ c ≠ 127.
Abbreviation clean := (Forall printable).

#[export] Instance printable_dec c : Decision (printable c).
Proof. unfold printable. apply _. Defined.

(** A literal is clean by evaluation. *)
Ltac literal_clean := apply (bool_decide_unpack _); by vm_compute.

(** [%02d]. *)
Definition pad2 (n : Z) : bytes := let digits := Itoa n in if (length digits <? 2)%nat then 48 :: digits else digits.

(** [fmt.Sprintf("[%d-%02d-%02d %02d:%02d:%02d]", year, int(month), day, hour, minute, second)]. *)
Definition timestamp (date clock : Z * Z * Z) : bytes :=
  let '(year, month, day) := date in
  let '(hour, minute, second) := clock in
  [91] ++ Itoa year ++ [45] ++ pad2 month ++ [45] ++ pad2 day ++ [32] ++ pad2 hour ++ [58] ++ pad2 minute ++ [58] ++ pad2 second ++ [93].

(** Fields separated by tabs, on a line. *)
Definition line_of (fields : list bytes) : bytes := Join fields [9] ++ [10].

(** The two formats: a time stamp and values, or values with labels. *)
Definition tsv_line (date clock : Z * Z * Z) (values : list bytes) : bytes := line_of (timestamp date clock :: values).
Definition labelled (f : bytes * bytes) : bytes := f.1 ++ [58] ++ f.2.
Definition ltsv_line (unix : Z) (values : list (bytes * bytes)) : bytes :=
  line_of (labelled <$> (str "time", Itoa unix) :: values).

(** The fields of a line. *)
Definition read_line (line : bytes) : list bytes := Split (take (length line - 1) line) [9].

Section Lines.
Context `{UnicodeTables}.

Lemma lowerhex_printable d : 0 ≤ d < 16 → printable (lowerhex d).
Proof. unfold printable, lowerhex. destruct (Z.ltb_spec d 10); lia. Qed.

Lemma hex_clean n r : clean (hex n r).
Proof.
  induction n as [|n IH]; cbn [hex]; [constructor|]. constructor; [|done]. apply lowerhex_printable. rewrite land_0F. apply Z.mod_pos_bound. lia.
Qed.

Lemma escaped_clean c l : printable c → clean l → clean (92 :: c :: l).
Proof. intros Hc Hl. constructor; [done|]. by constructor. Qed.

Lemma escape_rune_clean r : valid_rune r ∨ r < 0x80 → clean (escape_rune r).
Proof.
  intros Hv. unfold escape_rune. destruct ((r =? 34) || (r =? 92)) eqn:Hq.
  { apply orb_true_iff in Hq as [->%Z.eqb_eq| ->%Z.eqb_eq]; by apply escaped_clean. }
  clear Hq. destruct (IsPrint r || isInGraphicList r) eqn:Hp.
  { assert (printable r) as Hr.
    { unfold IsPrint, isInGraphicList in Hp. unfold printable. apply orb_true_iff in Hp as [Hp|[Hp%bool_decide_eq_true|Hp%between_spec]%orb_true_iff]; [|set_solver by lia|lia].
      destruct (Z.leb_spec r 0xFF); [|lia]. apply orb_true_iff in Hp as [Hp%between_spec|[Hp%between_spec _]%andb_true_iff]; lia. }
    unfold printable in Hr. destruct Hv as [Hv|Hlt].
    - eapply list.Forall_impl; [by apply EncodeRune_bytes|]. unfold printable. cbn. lia.
    - rewrite EncodeRune_1 by lia. constructor; [done|constructor]. }
  destruct (List.find _ escapes) as [[e letter]|] eqn:Hf.
  { apply List.find_some in Hf as [Hin _]. apply escaped_clean; [|constructor]. unfold printable. cbn in Hin. intuition (simplify_eq; lia). }
  destruct ((r <? 32) || (r =? 0x7F)); [|destruct (r <? 0x10000)]; (apply escaped_clean; [done|apply hex_clean]).
Qed.

Lemma DecodeRune_front b s : valid_rune (DecodeRune (b :: s)).1 ∨ (DecodeRune (b :: s)).1 < 0x80.
Proof.
  destruct (decide (is_byte b)) as [Hb|Hb].
  { pose proof (DecodeRune_cases b s Hb) as Hc. destruct (DecodeRune _). left. destruct Hc as [(? & _)|[-> _]]; [done|]. unfold valid_rune, RuneError. cbn. lia. }
  unfold is_byte in Hb. unfold DecodeRune. destruct (Z.ltb_spec b 0x80); [by right|].
  rewrite !between_false by lia. left. unfold valid_rune, RuneError. cbn. lia.
Qed.

(** No control character is left, whatever the string. *)
Lemma StringQuote_clean s : clean (StringQuote s).
Proof.
  unfold StringQuote, segs. generalize (length s). intros n. revert s. induction n as [|n IH]; intros [|b s]; try constructor.
  cbn [segs_go]. pose proof (DecodeRune_front b s) as Hf%escape_rune_clean. destruct (DecodeRune (b :: s)) as [r w].
  cbn [fmap list_fmap mjoin list_join fst] in *. apply list.Forall_app. split; [|apply IH].
  unfold escape_seg. cbn [fst snd]. repeat case_match; try done. apply escaped_clean; [done|apply hex_clean].
Qed.

End Lines.

(** ** Lines are read back *)

Lemma itoa_go_clean fuel n acc : clean acc → clean (itoa_go fuel n acc).
Proof.
  revert n acc. induction fuel as [|fuel IH]; intros n acc Ha; cbn [itoa_go]; [done|].
  assert (clean ((48 + n mod 10) :: acc)) by (constructor; [unfold printable; pose proof (Z.mod_pos_bound n 10); lia|done]).
  destruct (_ <? _); [done|by apply IH].
Qed.

Lemma Itoa_clean n : clean (Itoa n).
Proof. unfold Itoa. destruct (_ <? _); [constructor; [done|]|]; apply itoa_go_clean; constructor. Qed.

Lemma pad2_clean n : clean (pad2 n).
Proof. unfold pad2. destruct (_ <? _)%nat; [constructor; [done|]|]; apply Itoa_clean. Qed.

Lemma timestamp_clean date clock : clean (timestamp date clock).
Proof.
  destruct date as [[year month] day], clock as [[h m] sec]. unfold timestamp.
  repeat (apply Forall_app_2; [first [apply Itoa_clean|apply pad2_clean|by apply Forall_singleton]|]). by apply Forall_singleton.
Qed.

Lemma labelled_clean f : clean f.1 → clean f.2 → clean (labelled f).
Proof. intros Hl Hv. unfold labelled. apply Forall_app_2; [done|]. by constructor. Qed.

(** A line whose fields have no control character. *)
Definition one_line (line : bytes) : Prop := ∃ fields, fields ≠ [] ∧ Forall clean fields ∧ line = line_of fields.

Lemma clean_no_tab f : clean f → 9 ∉ f.
Proof. intros Hf Hin. rewrite list.Forall_forall in Hf. by destruct (Hf 9 Hin). Qed.

Lemma read_line_of fields : fields ≠ [] → Forall clean fields → read_line (line_of fields) = fields.
Proof.
  intros Hne Hf. unfold read_line, line_of. rewrite length_app, Nat.add_sub, take_app_length.
  apply Split_Join; [done|]. eapply list.Forall_impl; [exact Hf|]. apply clean_no_tab.
Qed.

Lemma tsv_one_line date clock values : Forall clean values → one_line (tsv_line date clock values).
Proof. intros Hv. eexists. split_and!; [|by constructor; [apply timestamp_clean|exact Hv]|reflexivity]. done. Qed.

Lemma ltsv_one_line unix values : Forall (λ f, clean f.1 ∧ clean f.2) values → one_line (ltsv_line unix values).
Proof.
  intros Hv. eexists. split_and!; [| |reflexivity]; [done|]. apply Forall_fmap. constructor.
  - apply labelled_clean; [by repeat constructor|apply Itoa_clean].
  - eapply list.Forall_impl; [exact Hv|]. intros f [??]. by apply labelled_clean.
Qed.

Lemma Join_clean fields : Forall clean fields → Forall (λ c, printable c ∨ c = 9) (Join fields [9]).
Proof.
  induction 1 as [|f [|g fields] Hf Hfs IH]; [constructor| |].
  - eapply list.Forall_impl; [exact Hf|]. by left.
  - cbn [Join]. apply Forall_app_2; [eapply list.Forall_impl; [exact Hf|]; by left|]. constructor; [by right|exact IH].
Qed.

(** Such a line ends where it ends: no other character ends a line. *)
Lemma one_line_spec line : one_line line → ∃ text, line = text ++ [10] ∧ Forall (λ c, printable c ∨ c = 9) text.
Proof. intros (fields & _ & Hf & ->). exists (Join fields [9]). split; [done|by apply Join_clean]. Qed.

(** * Examples *)

Section LogExamples.
#[local] Existing Instance ascii_tables.

(** A newline, a tab, a quote, a backslash, a letter of two bytes, a byte that is not a character. *)
Example quoted_text :
  StringQuote ([10; 9; 34; 92] ++ [195; 169] ++ [200; 127]) = str "\n\t\" ++ [34] ++ str "\\" ++ [195; 169] ++ str "\xc8\x7f".
Proof. by vm_compute. Qed.

Example line_text :
  tsv_line (2022, 7, 5) (9, 30, 0) [str "192.0.2.1"; StringQuote [97; 10; 98]] =
  str "[2022-07-05 09:30:00]" ++ [9] ++ str "192.0.2.1" ++ [9] ++ str "a\nb" ++ [10].
Proof. by vm_compute. Qed.

End LogExamples.
