(* ===== verification/TimeRanges.v ===== *)
(** time_ranges.go: the time ranges that restrict name rules to parts of the
    week. The clock is an argument of [Match]. *)
From S2P Require Import Prelude.
From S2P Require Import GoStrings.

Record TimeRange := { after : Z; before : Z }.

(** [ranges [7][]TimeRange], indexed by the day of the week from Sunday. *)
Record WeeklyRanges := { ranges : list (list TimeRange) }.

Record TimeRangeStr := { After : bytes; Before : bytes }.

Record WeeklyRangesStr := {
  Sun : list TimeRangeStr; Mon : list TimeRangeStr; Tue : list TimeRangeStr;
  Wed : list TimeRangeStr; Thu : list TimeRangeStr; Fri : list TimeRangeStr;
  Sat : list TimeRangeStr
}.

Definition time_error : error := EMsg "Syntax error in a time expression".

Definition daySecsFromStr (s : bytes) : Out Z :=
  match Split s (str ":") with
  | [p0; p1] =>
      match Atoi p0 with
      | Some hours =>
          if (hours <? 0) || (hours >? 23) then Err time_error
          else
            match Atoi p1 with
            | Some minutes =>
                if (minutes <? 0) || (minutes >? 59) then Err time_error
                else Ok ((hours * 60 + minutes) * 60)
            | None => Err time_error
            end
      | None => Err time_error
      end
  | _ => Err time_error
  end.

Fixpoint parseTimeRanges (l : list TimeRangeStr) : Out (list TimeRange) :=
  match l with
  | [] => Ok []
  | t :: l =>
      after ← daySecsFromStr t.(After);
      before ← daySecsFromStr t.(Before);
      let '(after, before) := if after =? before then (-1, 86402) else (after, before) in
      rest ← parseTimeRanges l;
      Ok ({| after := after; before := before |} :: rest)
  end.

Definition parseWeeklyRanges (w : WeeklyRangesStr) : Out WeeklyRanges :=
  r0 ← parseTimeRanges w.(Sun);
  r1 ← parseTimeRanges w.(Mon);
  r2 ← parseTimeRanges w.(Tue);
  r3 ← parseTimeRanges w.(Wed);
  r4 ← parseTimeRanges w.(Thu);
  r5 ← parseTimeRanges w.(Fri);
  r6 ← parseTimeRanges w.(Sat);
  Ok {| ranges := [r0; r1; r2; r3; r4; r5; r6] |}.

(** The map of the configuration file, in the order the iteration visits it. *)
Fixpoint ParseAllWeeklyRanges (l : list (bytes * WeeklyRangesStr)) : Out (gmap bytes WeeklyRanges) :=
  match l with
  | [] => Ok ∅
  | (name, w) :: l =>
      r ← parseWeeklyRanges w;
      rest ← ParseAllWeeklyRanges l;
      Ok (<[name:=r]> rest)
  end.

Definition inTimeRange (nowX : Z) (t : TimeRange) : bool :=
  if t.(after) >? t.(before)
  then (nowX >=? t.(after)) || (nowX <=? t.(before))
  else (nowX >=? t.(after)) && (nowX <=? t.(before)).

(** [Match] at local time [hour]:[min] of day [day]. *)
Definition Match (w : WeeklyRanges) (day : nat) (hour min : Z) : bool :=
  let weeklyRange := default [] (w.(ranges) !! day) in
  match weeklyRange with
  | [] => false
  | _ =>
      let nowX := (hour * 60 + min) * 60 in
      existsb (inTimeRange nowX) weeklyRange
  end.

(** * Specification *)

(** [nowX] lies between [a] and [b] on the 24-hour circle; equal bounds mean the
    whole day. *)
Definition in_circle (a b nowX : Z) : Prop :=
  a = b ∨ (a < b ∧ a ≤ nowX ≤ b) ∨ (b < a ∧ (a ≤ nowX ∨ nowX ≤ b)).

Lemma daySecs_cases s v :
  daySecsFromStr s = Ok v →
  ∃ p0 p1 h m, Split s (str ":") = [p0; p1] ∧ Atoi p0 = Some h ∧ Atoi p1 = Some m ∧
    0 ≤ h ≤ 23 ∧ 0 ≤ m ≤ 59 ∧ v = (h * 60 + m) * 60.
Proof.
  unfold daySecsFromStr.
  destruct (Split s (str ":")) as [|p0 [|p1 [|??]]]; try done.
  destruct (Atoi p0) as [h|] eqn:Hh; [|done].
  destruct ((h <? 0) || (h >? 23)) eqn:Eh; [done|].
  destruct (Atoi p1) as [m|] eqn:Hm; [|done].
  destruct ((m <? 0) || (m >? 59)) eqn:Em; [done|]. intros [= <-].
  rewrite !orb_false_iff, !Z.ltb_ge, !Z.gtb_ltb, !Z.ltb_ge in *.
  eexists p0, p1, h, m. split_and!; try done; lia.
Qed.

Lemma parseTimeRanges_Forall2 l rs :
  parseTimeRanges l = Ok rs →
  Forall2 (λ t r, ∃ a b, daySecsFromStr t.(After) = Ok a ∧ daySecsFromStr t.(Before) = Ok b ∧
    r = if a =? b then {| after := -1; before := 86402 |} else {| after := a; before := b |}) l rs.
Proof.
  revert rs. induction l as [|t l IH]; intros rs H; cbn in H; inv_out; subst; [constructor|].
  destruct (x =? x0) eqn:E; inv_out; subst; constructor; eauto;
    eexists _, _; rewrite E; eauto.
Qed.

Lemma inTimeRange_spec a b n :
  0 ≤ n < 86400 →
  inTimeRange n (if a =? b then {| after := -1; before := 86402 |}
                 else {| after := a; before := b |}) = true ↔ in_circle a b n.
Proof.
  intros Hn. unfold inTimeRange, in_circle.
  destruct (Z.eqb_spec a b); cbn; rewrite ?Z.gtb_ltb, ?Z.geb_leb.
  - destruct (Z.leb_spec (-1) n), (Z.leb_spec n 86402); cbn; lia.
  - destruct (Z.ltb_spec b a);
      rewrite ?orb_true_iff, ?andb_true_iff, !Z.leb_le; lia.
Qed.

(** * Properties *)

(** A time expression that parses denotes a minute of the day: it is the
    number of seconds of [hours:minutes] with hours in 0..23 and minutes in
    0..59, hence below 86400; anything else is an error. *)
Theorem daySecsFromStr_spec (s : bytes) :
  match daySecsFromStr s with
  | Ok v => ∃ p0 p1 h m, s = p0 ++ str ":" ++ p1 ∧ Atoi p0 = Some h ∧ Atoi p1 = Some m ∧
              0 ≤ h ≤ 23 ∧ 0 ≤ m ≤ 59 ∧ v = (h * 60 + m) * 60 ∧ 0 ≤ v < 86400
  | Err e => e = time_error ∧
      ∀ p0 p1 h m, s = p0 ++ str ":" ++ p1 → Atoi p0 = Some h → Atoi p1 = Some m →
        ¬ (0 ≤ h ≤ 23 ∧ 0 ≤ m ≤ 59)
  | Panic | Fatal => False
  end.
Proof.
  destruct (daySecsFromStr s) as [v|e| |] eqn:E.
  - apply daySecs_cases in E as (p0 & p1 & h & m & Hs & Hh & Hm & ? & ? & ->).
    apply Split_spec in Hs as [-> _]. exists p0, p1, h, m. cbn [Join]. split_and!; (done || lia).
  - split.
    + unfold daySecsFromStr in E. repeat case_match; congruence.
    + intros p0 p1 h m -> Hh Hm [Hh' Hm'].
      assert (Split (p0 ++ str ":" ++ p1) (str ":") = [p0; p1]) as Hs.
      { apply (Split_Join 58 [p0; p1]); [done|].
        repeat constructor; intros H; eapply Atoi_chars in H; try done; lia. }
      unfold daySecsFromStr in E. rewrite Hs, Hh, Hm in E.
      rewrite !Z.gtb_ltb, !(proj2 (Z.ltb_ge _ _)) in E by lia. done.
  - unfold daySecsFromStr in E. repeat case_match; congruence.
  - unfold daySecsFromStr in E. repeat case_match; congruence.
Qed.

(** After parsing, [Match] holds at a time of day exactly when some range of
    the day contains it on the 24-hour circle: ranges whose end precedes their
    start wrap around midnight, and equal bounds cover the whole day. *)
Theorem Match_spec (l : list TimeRangeStr) (rs : list TimeRange) (w : WeeklyRanges)
    (day : nat) (hour min : Z) :
  parseTimeRanges l = Ok rs →
  w.(ranges) !! day = Some rs →
  0 ≤ hour < 24 → 0 ≤ min < 60 →
  Match w day hour min = true ↔
  ∃ t a b, t ∈ l ∧ daySecsFromStr t.(After) = Ok a ∧ daySecsFromStr t.(Before) = Ok b ∧
    in_circle a b ((hour * 60 + min) * 60).
Proof.
  intros Hp Hw Hh Hm. apply parseTimeRanges_Forall2 in Hp.
  unfold Match. rewrite Hw. cbn [default from_option].
  assert (∀ (l : list TimeRange) f,
    match l with [] => false | _ => existsb f l end = existsb f l) as -> by by intros [].
  clear w Hw day. unfold id. induction Hp as [|t r l rs (a & b & Ha & Hb & ->) _ IH]; cbn [existsb].
  - split; [done|]. intros (t & _ & _ & Ht & _). set_solver.
  - rewrite orb_true_iff. rewrite inTimeRange_spec by lia.
    split.
    + intros [Hc|H]; [exists t, a, b; set_solver|].
      apply IH in H as (t' & a' & b' & Ht & ?). exists t', a', b'. set_solver.
    + intros (t' & a' & b' & [->|Ht]%elem_of_cons & Ha' & Hb' & Hc); [left; congruence|].
      right. apply IH. eauto 10.
Qed.

Example Match_spec_wit :
  let night := {| After := str "22:00"; Before := str "07:30" |} in
  let w := {| ranges := [[{| after := 79200; before := 27000 |}]; []; []; []; []; []; []] |} in
  Match w 0 23 15 = true.
Proof.
  intros night w.
  eapply (Match_spec [night]); [reflexivity|reflexivity|lia|lia|].
  exists night, 79200, 27000. split_and!; [set_solver|reflexivity|reflexivity|].
  right. right. vm_compute. split; [done|]. left. congruence.
Defined.
