(* ===== verification/Estimators.v ===== *)
(** estimators.go: the estimator of the padded size of questions, on top of the
    moving-average interface of package ewma. Averages are exact rationals: the
    rounding of [float64] is not modelled. The locks protect single operations,
    so a run is a sequence of operations. *)
From Stdlib Require Import QArith.
From S2P Require Import Prelude.
From S2P Require Import Common.

#[local] Close Scope Q_scope.
#[local] Open Scope Z_scope.

(** * Moving averages *)

(** [ewma.MovingAverage]. *)
Class MovingAverage (E : Type) := {
  ma_Add : E → Q → E;
  ma_Value : E → Q;
  ma_Set : E → Q → E
}.

(** [int(x)]: truncation towards zero. *)
Definition int_of_Q (q : Q) : Z := Z.quot (Qnum q) (QDen q).

Definition Qltb (a b : Q) : bool := negb (Qle_bool b a).

(** [ewma.SimpleEWMA]: value 0 means uninitialised; DECAY is 2/31. *)
#[export] Instance SimpleEWMA : MovingAverage Q := {
  ma_Add e v := if Qeq_bool e 0 then v else Qred (v * (2 # 31) + e * (29 # 31))%Q;
  ma_Value e := e;
  ma_Set _ v := v
}.

(** [ewma.VariableEWMA]. *)
Record VariableEWMA := { decay : Q; value : Q; count : Z }.

Definition WARMUP_SAMPLES : Z := 10.

#[export] Instance VariableEWMA_ma : MovingAverage VariableEWMA := {
  ma_Add e v :=
    if e.(count) <? WARMUP_SAMPLES then
      {| decay := e.(decay); value := Qred (e.(value) + v)%Q; count := e.(count) + 1 |}
    else if e.(count) =? WARMUP_SAMPLES then
      {| decay := e.(decay);
         value := Qred (v * e.(decay) + (e.(value) / inject_Z WARMUP_SAMPLES) * (1 - e.(decay)))%Q;
         count := e.(count) + 1 |}
    else
      {| decay := e.(decay);
         value := Qred (v * e.(decay) + e.(value) * (1 - e.(decay)))%Q;
         count := e.(count) |};
  ma_Value e := if e.(count) <=? WARMUP_SAMPLES then 0%Q else e.(value);
  ma_Set e v :=
    {| decay := e.(decay); value := v;
       count := if e.(count) <=? WARMUP_SAMPLES then WARMUP_SAMPLES + 1 else e.(count) |}
}.

(** * The estimator *)

Record QuestionSizeEstimator (E : Type) := {
  minQuestionSize : Z;
  ewma : E
}.
Arguments minQuestionSize {_} _.
Arguments ewma {_} _.
Arguments Build_QuestionSizeEstimator {_} _ _.

Section Estimator.
Context {E : Type} `{MovingAverage E}.

(** [ewma0] is the fresh moving average the constructor allocates. *)
Definition NewQuestionSizeEstimator (ewma0 : E) : QuestionSizeEstimator E :=
  {| minQuestionSize := InitialMinQuestionSize; ewma := ewma0 |}.

Definition MinQuestionSize (q : QuestionSizeEstimator E) : Z := q.(minQuestionSize).

Definition blindAdjust (q : QuestionSizeEstimator E) : QuestionSizeEstimator E :=
  let m := if MaxDNSUDPPacketSize - q.(minQuestionSize) <? q.(minQuestionSize)
           then MaxDNSUDPPacketSize else q.(minQuestionSize) * 2 in
  {| minQuestionSize := m; ewma := ma_Set q.(ewma) (inject_Z m) |}.

Definition adjust (q : QuestionSizeEstimator E) (packetSize : Z) : QuestionSizeEstimator E :=
  let ewma := ma_Add q.(ewma) (inject_Z packetSize) in
  let ma := int_of_Q (ma_Value ewma) in
  let m := q.(minQuestionSize) in
  {| minQuestionSize :=
       if (ma >? InitialMinQuestionSize) && (ma <? m / 2)
       then Max InitialMinQuestionSize (m / 2) else m;
     ewma := ewma |}.

(** The operations other goroutines may apply, in any order. *)
Inductive estimator_op := OpBlind | OpAdjust (packetSize : Z).

Definition estimator_step (q : QuestionSizeEstimator E) (o : estimator_op)
    : QuestionSizeEstimator E :=
  match o with OpBlind => blindAdjust q | OpAdjust n => adjust q n end.

Definition estimator_run (q : QuestionSizeEstimator E) (ops : list estimator_op)
    : QuestionSizeEstimator E := fold_left estimator_step ops q.

Definition sizes : list Z := [512; 1024; 2048; 4096].

Lemma estimator_step_sizes q o :
  minQuestionSize q ∈ sizes → minQuestionSize (estimator_step q o) ∈ sizes.
Proof.
  unfold sizes. intros Hq.
  assert (minQuestionSize q = 512 ∨ minQuestionSize q = 1024 ∨ minQuestionSize q = 2048
          ∨ minQuestionSize q = 4096) as Hm by set_solver.
  destruct o as [|n]; cbn -[MaxDNSUDPPacketSize Max Z.mul].
  - destruct Hm as [-> | [-> | [-> | ->]]]; vm_compute; set_solver.
  - destruct (_ && _); [|done].
    destruct Hm as [-> | [-> | [-> | ->]]]; vm_compute; set_solver.
Qed.

Lemma adjust_ge q n : 1024 ≤ minQuestionSize q → 514 ≤ minQuestionSize (adjust q n).
Proof.
  intros Hq. cbn -[Max]. rewrite Z.gtb_ltb.
  destruct (_ && _) eqn:Hb; [|lia].
  apply andb_true_iff in Hb as [?%Z.ltb_lt ?%Z.ltb_lt].
  unfold InitialMinQuestionSize in *. rewrite Max_spec. lia.
Qed.

(** Starting from the initial estimator, whatever sequence of truncated and
    complete responses is seen, the estimate of the question size stays one of
    512, 1024, 2048 and 4096: it never leaves the range of UDP packet sizes. *)
Theorem estimator_sizes (ewma0 : E) (ops : list estimator_op) :
  MinQuestionSize (estimator_run (NewQuestionSizeEstimator ewma0) ops) ∈ sizes.
Proof.
  unfold MinQuestionSize, estimator_run.
  assert (minQuestionSize (NewQuestionSizeEstimator ewma0) ∈ sizes) as Hq
    by (vm_compute; set_solver).
  revert Hq. generalize (NewQuestionSizeEstimator ewma0) as q.
  induction ops as [|o ops IH]; intros q Hq; cbn; [done|].
  by apply IH, estimator_step_sizes.
Qed.

(** Three truncated responses in a row bring the estimate to the maximum UDP
    packet size, whatever it was. *)
Theorem blindAdjust_saturates (q : QuestionSizeEstimator E) :
  MinQuestionSize q ∈ sizes →
  MinQuestionSize (blindAdjust (blindAdjust (blindAdjust q))) = MaxDNSUDPPacketSize.
Proof.
  unfold MinQuestionSize, sizes. intros Hq.
  assert (minQuestionSize q = 512 ∨ minQuestionSize q = 1024 ∨ minQuestionSize q = 2048
          ∨ minQuestionSize q = 4096) as Hm by set_solver.
  cbn -[MaxDNSUDPPacketSize Z.mul]. by destruct Hm as [-> | [-> | [-> | ->]]].
Qed.

(** Once a truncated response has raised the estimate, no sequence of later
    responses brings it back to the initial 512: it stays at 1024 or more. *)
Theorem estimator_never_initial_again (q : QuestionSizeEstimator E) (ops : list estimator_op) :
  MinQuestionSize q ∈ sizes →
  1024 ≤ MinQuestionSize (estimator_run (blindAdjust q) ops).
Proof.
  unfold MinQuestionSize. intros Hq.
  assert (minQuestionSize (blindAdjust q) ∈ sizes ∧ 1024 ≤ minQuestionSize (blindAdjust q)) as Hb.
  { split; [by apply (estimator_step_sizes q OpBlind)|].
    assert (minQuestionSize q = 512 ∨ minQuestionSize q = 1024 ∨ minQuestionSize q = 2048
          ∨ minQuestionSize q = 4096) as Hm by (unfold sizes in Hq; set_solver).
    cbn -[MaxDNSUDPPacketSize Z.mul]. by destruct Hm as [-> | [-> | [-> | ->]]]. }
  revert Hb. generalize (blindAdjust q) as r. clear q Hq.
  induction ops as [|o ops IH]; intros r [Hs Hr]; cbn [estimator_run fold_left]; [lia|].
  apply IH. pose proof (estimator_step_sizes r o Hs) as Hs'. split; [done|].
  destruct o as [|n]; cbn [estimator_step] in *.
  - cbn -[MaxDNSUDPPacketSize Z.mul]. destruct (Z.ltb_spec (MaxDNSUDPPacketSize - minQuestionSize r) (minQuestionSize r));
      unfold MaxDNSUDPPacketSize in *; lia.
  - pose proof (adjust_ge r n Hr). unfold sizes in Hs'. set_unfold. lia.
Qed.
End Estimator.

Example blindAdjust_saturates_wit :
  MinQuestionSize (blindAdjust (blindAdjust (blindAdjust
    (NewQuestionSizeEstimator (0%Q : Q))))) = MaxDNSUDPPacketSize.
Proof. apply blindAdjust_saturates. vm_compute. set_solver. Defined.

Example estimator_never_initial_again_wit :
  1024 ≤ MinQuestionSize (estimator_run (blindAdjust (NewQuestionSizeEstimator (0%Q : Q)))
    [OpAdjust 100; OpAdjust 600; OpBlind; OpAdjust 700]).
Proof. apply estimator_never_initial_again. vm_compute. set_solver. Defined.
