(* ===== verification/ServerTypes.v ===== *)
(** Addresses, stamps and the records of serversInfo.go and proxy.go that
    describe upstream servers and relays. Moving averages have type [E]. *)
From S2P Require Import Prelude.
From S2P Require Import Common.

(** * IP addresses *)

(** [net.IP]: nil is the empty list; otherwise 4 or 16 bytes. *)
Abbreviation IP := bytes.

Definition v4InV6Prefix : bytes := replicate 10 0 ++ [0xff; 0xff].

(** [IP.To4]; the empty list is nil. *)
Definition To4 (ip : IP) : IP :=
  if decide (length ip = 4%nat) then ip
  else if decide (length ip = 16%nat ∧ take 12 ip = v4InV6Prefix) then drop 12 ip
  else [].

(** [IP.To16]. *)
Definition To16 (ip : IP) : IP :=
  if decide (length ip = 4%nat) then v4InV6Prefix ++ ip
  else if decide (length ip = 16%nat) then ip
  else [].

Record Addr := { addr_IP : IP; addr_Port : Z }.

Lemma To16_To4 ip : To4 ip ≠ [] → To16 (To4 ip) = To16 ip.
Proof.
  unfold To4, To16. case_ifs; try done; destruct_and?; try len_lia.
  intros _. replace v4InV6Prefix with (take 12 ip) by done. apply take_drop.
Qed.

Lemma To16_length ip : To16 ip ≠ [] → length (To16 ip) = 16%nat.
Proof. unfold To16, v4InV6Prefix. case_ifs; intros; (congruence || len_lia). Qed.

(** * Stamps *)

Inductive StampProtoType :=
  | StampProtoTypePlain
  | StampProtoTypeDNSCrypt
  | StampProtoTypeDoH
  | StampProtoTypeTLS
  | StampProtoTypeDoQ
  | StampProtoTypeODoHTarget
  | StampProtoTypeDNSCryptRelay
  | StampProtoTypeODoHRelay.

#[export] Instance StampProtoType_eq_dec : EqDecision StampProtoType.
Proof. solve_decision. Defined.

(** [dnsstamps.ServerStamp]; [Props] is a bit set. *)
Record ServerStamp := {
  ServerAddrStr : bytes;
  stamp_ServerPk : bytes;
  Hashes : list bytes;
  ProviderName : bytes;
  Path : bytes;
  Props : Z;
  stamp_Proto : StampProtoType
}.

#[export] Instance ServerStamp_eq_dec : EqDecision ServerStamp.
Proof. solve_decision. Defined.

Record RegisteredServer := {
  rs_name : bytes;
  rs_stamp : ServerStamp;
  rs_description : bytes
}.

#[export] Instance RegisteredServer_eq_dec : EqDecision RegisteredServer.
Proof. solve_decision. Defined.

(** * Servers and relays *)

Record ServerBugs := { fragmentsBlocked : bool }.

Record DNSCryptRelay := { RelayUDPAddr : Addr; RelayTCPAddr : Addr }.

(** An HTTPS [url.URL]: host, path and query parameters. *)
Record Url := { u_Host : bytes; u_Path : bytes; u_Query : list (bytes * bytes) }.

Definition no_url : Url := {| u_Host := []; u_Path := []; u_Query := [] |}.

(** [qs := url.Query(); qs.Add(k, v); url2.RawQuery = qs.Encode()]. *)
Definition add_query (u : Url) (k v : bytes) : Url :=
  {| u_Host := u.(u_Host); u_Path := u.(u_Path); u_Query := u.(u_Query) ++ [(k, v)] |}.

Record ODoHRelay := { odoh_URL : Url }.

Record Relay := {
  relay_Proto : StampProtoType;
  Dnscrypt : option DNSCryptRelay;
  ODoH : option ODoHRelay
}.

(** [ODoHTargetConfig] without the HPKE suite, which the key identifier fixes. *)
Record ODoHTargetConfig := {
  cfg_suite : Z * Z * Z;
  cfg_keyID : bytes;
  cfg_publicKey : bytes
}.

Record ServerInfo (E : Type) := {
  lastActionTS : Z;
  rtt : E;
  si_Name : bytes;
  HostName : bytes;
  UDPAddr : Addr;
  TCPAddr : Addr;
  si_Relay : option Relay;
  URL : Url;
  initialRtt : Z;
  Timeout : Z;
  si_CryptoConstruction : CryptoConstruction;
  ServerPk : bytes;
  SharedKey : bytes;
  MagicQuery : bytes;
  knownBugs : ServerBugs;
  Proto : StampProtoType;
  useGet : bool;
  odohTargetConfigs : list ODoHTargetConfig
}.
Arguments lastActionTS {_} _. Arguments rtt {_} _. Arguments si_Name {_} _.
Arguments HostName {_} _. Arguments UDPAddr {_} _. Arguments TCPAddr {_} _.
Arguments si_Relay {_} _. Arguments URL {_} _. Arguments initialRtt {_} _.
Arguments Timeout {_} _. Arguments si_CryptoConstruction {_} _.
Arguments ServerPk {_} _. Arguments SharedKey {_} _. Arguments MagicQuery {_} _.
Arguments knownBugs {_} _. Arguments Proto {_} _. Arguments useGet {_} _.
Arguments odohTargetConfigs {_} _.

(** [serverInfo.Relay != nil && serverInfo.Relay.Dnscrypt != nil]. *)
Definition dnscrypt_relay {E} (s : ServerInfo E) : option DNSCryptRelay :=
  r ← s.(si_Relay); r.(Dnscrypt).

#[export] Instance eta_ServerInfo {E} : Eta (ServerInfo E) := λ s,
  {| lastActionTS := s.(lastActionTS); rtt := s.(rtt); si_Name := s.(si_Name); HostName := s.(HostName);
     UDPAddr := s.(UDPAddr); TCPAddr := s.(TCPAddr); si_Relay := s.(si_Relay); URL := s.(URL);
     initialRtt := s.(initialRtt); Timeout := s.(Timeout);
     si_CryptoConstruction := s.(si_CryptoConstruction); ServerPk := s.(ServerPk);
     SharedKey := s.(SharedKey); MagicQuery := s.(MagicQuery); knownBugs := s.(knownBugs);
     Proto := s.(Proto); useGet := s.(useGet); odohTargetConfigs := s.(odohTargetConfigs) |}.
