(* ===== verification/Crypto.v ===== *)
(** crypto.go: padding, key agreement, and the sealing of queries and opening of
    responses. The ciphers, the hash and the scalar multiplication are the
    operations of a class; what the code relies on of them is a second class of
    laws. The random bytes a call draws are its arguments. *)
From S2P Require Import Prelude.
From S2P Require Import Common.
From S2P Require Import ServerTypes.

Definition NonceSize : Z := 24.
Definition HalfNonceSize : Z := NonceSize / 2.
Definition TagSize : Z := 16.
Definition PublicKeySize : Z := 32.
Definition QueryOverhead : Z := ClientMagicLen + PublicKeySize + HalfNonceSize + TagSize.
Definition ResponseOverhead : Z := len ServerMagic + NonceSize + TagSize.

(** * Padding *)

Fixpoint pad_loop (fuel : nat) (packet : bytes) (minSize : Z) : bytes :=
  match fuel with
  | O => packet
  | S fuel => if len packet <? minSize then pad_loop fuel (packet ++ [0]) minSize else packet
  end.

(** The loop runs at most [minSize] times. *)
Definition pad (packet : bytes) (minSize : Z) : bytes :=
  pad_loop (Z.to_nat minSize) (packet ++ [0x80]) minSize.

(** The loop of [unpad] at index [i]. *)
Fixpoint unpad_loop (packet : bytes) (i : nat) : Out bytes :=
  match i with
  | O => Err (EMsg "Invalid padding (short packet)")
  | S i =>
      match packet !! i with
      | None => Panic
      | Some b =>
          if b =? 0x80 then Ok (take i packet)
          else if negb (b =? 0) then Err (EMsg "Invalid padding (delimiter not found)")
          else unpad_loop packet i
      end
  end.

Definition unpad (packet : bytes) : Out bytes := unpad_loop packet (length packet).

Lemma pad_loop_eq fuel p n :
  n - len p ≤ Z.of_nat fuel → pad_loop fuel p n = p ++ replicate (Z.to_nat (n - len p)) 0.
Proof.
  revert p. induction fuel as [|fuel IH]; intros p Hf; cbn [pad_loop].
  { replace (Z.to_nat _) with 0%nat by lia. by rewrite app_nil_r. }
  destruct (Z.ltb_spec (len p) n).
  - rewrite IH by len_lia. rewrite <-app_assoc. f_equal. cbn.
    replace (Z.to_nat (n - len p)) with (S (Z.to_nat (n - len (p ++ [0])))) by len_lia. done.
  - replace (Z.to_nat _) with 0%nat by lia. by rewrite app_nil_r.
Qed.

Lemma pad_eq p n : pad p n = p ++ 0x80 :: replicate (Z.to_nat (n - len p - 1)) 0.
Proof.
  unfold pad. rewrite pad_loop_eq by len_lia. rewrite <-app_assoc. cbn. do 3 f_equal. len_lia.
Qed.

Lemma pad_len p n : len (pad p n) = Z.max (len p + 1) n.
Proof. rewrite pad_eq. len_lia. Qed.

Lemma unpad_loop_app p q i : (i ≤ length p)%nat → unpad_loop (p ++ q) i = unpad_loop p i.
Proof.
  induction i as [|i IH]; intros Hi; cbn; [done|].
  rewrite lookup_app_l by lia. rewrite IH by lia.
  rewrite take_app_le by lia. done.
Qed.

Lemma unpad_pad p n : unpad (pad p n) = Ok p.
Proof.
  rewrite pad_eq. unfold unpad. generalize (Z.to_nat (n - len p - 1)) as k.
  induction k as [|k IH].
  - cbn [replicate]. rewrite length_app. cbn [length]. rewrite Nat.add_1_r. cbn.
    rewrite list_lookup_middle by done. cbn. by rewrite take_app_length.
  - rewrite replicate_S_end.
    change (p ++ 128 :: replicate k 0 ++ [0]) with (p ++ (128 :: replicate k 0) ++ [0]).
    rewrite app_assoc, length_app. cbn [length]. rewrite Nat.add_1_r. cbn [unpad_loop].
    rewrite list_lookup_middle by done. cbn. rewrite unpad_loop_app by done. exact IH.
Qed.

Lemma unpad_spec p q : unpad p = Ok q ↔ ∃ k, p = q ++ 0x80 :: replicate k 0.
Proof.
  split.
  - unfold unpad. intros H.
    enough (∀ i, (i ≤ length p)%nat → unpad_loop p i = Ok q →
      ∃ k, take i p = q ++ 128 :: replicate k 0) as Hi.
    { destruct (Hi _ (le_n _) H) as [k Hk]. exists k. by rewrite take_ge in Hk by done. }
    clear H. induction i as [|i IH]; intros Hi H; cbn in H; [done|].
    destruct (p !! i) as [b|] eqn:Hb; [|done].
    rewrite (take_S_r p i b) by done.
    destruct (Z.eqb_spec b 128) as [->|].
    + injection H as <-. by exists 0%nat.
    + destruct (Z.eqb_spec b 0) as [->|]; [|done]. destruct IH as [k Hk]; [lia|done|].
      exists (S k). rewrite Hk, <-app_assoc. cbn. by rewrite <-replicate_cons_app.
  - intros [k ->]. pose proof (unpad_pad q (len q + 1 + Z.of_nat k)) as H.
    rewrite pad_eq in H. replace (Z.to_nat _) with k in H by lia. done.
Qed.

(** * Primitives *)

Class CryptoPrims := {
  (** [xsecretbox.SharedKey]: the key and whether the error is nil. *)
  x_SharedKey : bytes → bytes → bytes * bool;
  (** [box.Precompute(&sharedKey, serverPk, secretKey)]. *)
  box_Precompute : bytes → bytes → bytes;
  x_Seal : bytes → bytes → bytes → bytes;
  x_Open : bytes → bytes → bytes → option bytes;
  secretbox_Seal : bytes → bytes → bytes → bytes;
  secretbox_Open : bytes → bytes → bytes → option bytes;
  sha512_256 : bytes → bytes;
  ScalarBaseMult : bytes → bytes
}.

(** What the code relies on: a sealed box opens under the same nonce and key to
    the message, and is one tag longer than the message. *)
Class CryptoLaws `{CryptoPrims} := {
  x_Open_Seal nonce m k : x_Open nonce (x_Seal nonce m k) k = Some m;
  x_Seal_len nonce m k : len (x_Seal nonce m k) = TagSize + len m;
  secretbox_Open_Seal nonce m k : secretbox_Open nonce (secretbox_Seal nonce m k) k = Some m;
  secretbox_Seal_len nonce m k : len (secretbox_Seal nonce m k) = TagSize + len m;
  ScalarBaseMult_len k : len (ScalarBaseMult k) = PublicKeySize
}.

Section Crypto.
Context `{CryptoPrims} {E : Type}.

(** [rnd] are the 32 random bytes that replace an all-zero key. *)
Definition ComputeSharedKey (cryptoConstruction : CryptoConstruction)
    (secretKey serverPk rnd : bytes) : bytes :=
  if decide (cryptoConstruction = XChacha20Poly1305) then (x_SharedKey secretKey serverPk).1
  else
    let sharedKey := box_Precompute serverPk secretKey in
    let c := fold_left Z.lor (take 32 sharedKey) 0 in
    if c =? 0 then rnd else sharedKey.

(** The cipher that [Encrypt] and [Decrypt] select. *)
Definition seal (c : CryptoConstruction) (nonce m k : bytes) : bytes :=
  if decide (c = XChacha20Poly1305) then x_Seal nonce m k else secretbox_Seal nonce m k.

Definition open (c : CryptoConstruction) (nonce box k : bytes) : Out bytes :=
  if decide (c = XChacha20Poly1305) then
    match x_Open nonce box k with
    | Some m => Ok m
    | None => Err (EMsg "ciphertext authentication failed")
    end
  else
    match secretbox_Open nonce box k with
    | Some m => Ok m
    | None => Err (EMsg "Incorrect tag")
    end.

(** The fields of [Proxy] that [Encrypt] reads. *)
Record ProxyKeys := {
  ephemeralKeys : bool;
  proxySecretKey : bytes;
  proxyPublicKey : bytes
}.

(** The length [Encrypt] pads to. [estimate] is the size estimate for UDP
    questions, [xpad] the random byte added for other transports. *)
Definition paddedLength (server : ServerInfo E) (packetLen : Z) (proto : string)
    (estimate xpad : Z) : Z :=
  let minQuestionSize := QueryOverhead + packetLen in
  let minQuestionSize :=
    if decide (proto = "udp"%string) then Max estimate minQuestionSize
    else minQuestionSize + xpad in
  let padded := Min MaxDNSUDPPacketSize
    (Z.land (Max minQuestionSize QueryOverhead + 1 + 63) (Z.lnot 63)) in
  if server.(knownBugs).(fragmentsBlocked) && bool_decide (proto = "udp"%string)
  then MaxDNSUDPSafePacketSize
  else if bool_decide (server.(si_Relay) ≠ None) && bool_decide (proto = "tcp"%string)
  then MaxDNSPacketSize
  else padded.

(** [Encrypt]: the shared key, the encrypted query and the client nonce.
    [clientNonce], [xpad] and [rnd] are the random bytes of the call. *)
Definition Encrypt (proxy : ProxyKeys) (estimate : Z) (server : ServerInfo E)
    (packet : bytes) (proto : string) (clientNonce : bytes) (xpad : Z) (rnd : bytes)
    : Out (bytes * bytes * bytes) :=
  let nonce := clientNonce ++ replicate 12 0 in
  let '(sharedKey, publicKey) :=
    if proxy.(ephemeralKeys) then
      let ephSk := sha512_256 (clientNonce ++ proxy.(proxySecretKey)) in
      (ComputeSharedKey server.(si_CryptoConstruction) ephSk server.(ServerPk) rnd,
       ScalarBaseMult ephSk)
    else (server.(SharedKey), proxy.(proxyPublicKey)) in
  let paddedLength := paddedLength server (len packet) proto estimate xpad in
  if QueryOverhead + len packet + 1 >? paddedLength then
    Err (EMsg "Question too large; cannot be padded")
  else
    let encrypted := server.(MagicQuery) ++ publicKey in
    let encrypted := encrypted ++ take (Z.to_nat HalfNonceSize) nonce in
    let padded := pad packet (paddedLength - QueryOverhead) in
    Ok (sharedKey,
        encrypted ++ seal server.(si_CryptoConstruction) nonce padded sharedKey,
        clientNonce).

Definition Decrypt (server : ServerInfo E) (sharedKey encrypted nonce : bytes) : Out bytes :=
  let serverMagicLen := len ServerMagic in
  let responseHeaderLen := serverMagicLen + NonceSize in
  if (len encrypted <? responseHeaderLen + TagSize + MinDNSPacketSize)
     || (len encrypted >? responseHeaderLen + TagSize + MaxDNSPacketSize)
     || negb (bool_decide (slice encrypted 0 serverMagicLen = Some ServerMagic))
  then Err (EMsg "Invalid message size or prefix")
  else
    serverNonce ← orPanic (slice encrypted serverMagicLen responseHeaderLen);
    half ← orPanic (slice nonce 0 HalfNonceSize);
    serverHalf ← orPanic (slice serverNonce 0 HalfNonceSize);
    if bool_decide (half = serverHalf) then
      box ← orPanic (slice encrypted responseHeaderLen (len encrypted));
      packet ← open server.(si_CryptoConstruction) serverNonce box sharedKey;
      match unpad packet with
      | Ok packet =>
          if len packet <? MinDNSPacketSize then Err (EMsg "Incorrect padding")
          else Ok packet
      | Panic => Panic
      | _ => Err (EMsg "Incorrect padding")
      end
    else Err (EMsg "Unexpected nonce").
End Crypto.

(** * Lemmas *)

Lemma land_lnot63 x : Z.land x (Z.lnot 63) = 64 * (x / 64).
Proof.
  change 63 with (Z.ones 6). rewrite <-Z.ldiff_land, Z.ldiff_ones_r by lia.
  rewrite Z.shiftl_mul_pow2, Z.shiftr_div_pow2 by lia. change (2 ^ 6) with 64. lia.
Qed.

(** Unfolds the size constants, so that [lia] sees numbers. *)
Ltac sizes_lia :=
  unfold QueryOverhead, ResponseOverhead, ClientMagicLen, PublicKeySize, HalfNonceSize, NonceSize,
    TagSize, MinDNSPacketSize, MaxDNSPacketSize, MaxDNSUDPPacketSize, MaxDNSUDPSafePacketSize in *;
  change (24 / 2) with 12 in *; unfold len in *; autorewrite with golen in *;
  change (length ServerMagic) with 8%nat in *; lia.

Section Lemmas.
Context `{CryptoLaws} {E : Type}.

Lemma seal_len c nonce m k : len (seal c nonce m k) = TagSize + len m.
Proof. unfold seal. case_decide; [apply x_Seal_len|apply secretbox_Seal_len]. Qed.

Lemma open_seal c nonce m k : open c nonce (seal c nonce m k) k = Ok m.
Proof.
  unfold seal, open. case_decide; [by rewrite x_Open_Seal|by rewrite secretbox_Open_Seal].
Qed.

Lemma round64_bounds m : 0 ≤ m → m + 1 ≤ 64 * ((m + 1 + 63) / 64) ≤ m + 64.
Proof. intros. pose proof (Z.div_mod (m + 1 + 63) 64). pose proof (Z.mod_pos_bound (m + 1 + 63) 64). lia. Qed.

(** The length a query is padded to: a multiple of 64 of at most 4096, unless the
    server drops fragments or a relay is used over TCP. *)
Lemma paddedLength_cases (server : ServerInfo E) n proto estimate xpad :
  0 ≤ n → 0 ≤ xpad →
  let p := paddedLength server n proto estimate xpad in
  (server.(knownBugs).(fragmentsBlocked) = true ∧ proto = "udp"%string ∧ p = 1252) ∨
  (p = 4096) ∨
  (∃ k, p = 64 * k ∧ p ≤ 4096 ∧ QueryOverhead + n + 1 ≤ p).
Proof.
  intros Hn Hx p. subst p. unfold paddedLength.
  destruct (fragmentsBlocked _ && bool_decide _) eqn:Hf.
  { left. apply andb_true_iff in Hf as [? ?%bool_decide_eq_true]. done. }
  destruct (bool_decide (si_Relay _ ≠ None) && _); [by right; left|].
  right. rewrite Min_spec, land_lnot63.
  set (m := Max _ QueryOverhead).
  assert (QueryOverhead + n ≤ m) as Hm.
  { subst m. rewrite !Max_spec. destruct (decide (proto = "udp"%string)); lia. }
  clearbody m. assert (0 ≤ QueryOverhead) by done.
  pose proof (round64_bounds m ltac:(lia)) as Hr.
  destruct (decide (64 * ((m + 1 + 63) / 64) ≤ 4096)).
  - right. eexists. unfold MaxDNSUDPPacketSize. rewrite Z.min_r by lia. split; [done|]. lia.
  - left. unfold MaxDNSUDPPacketSize. lia.
Qed.

(** Destructs the success case of [Encrypt]. *)
Lemma Encrypt_inv proxy estimate (server : ServerInfo E) packet proto cn xpad rnd sk enc cn' :
  Encrypt proxy estimate server packet proto cn xpad rnd = Ok (sk, enc, cn') →
  len (proxyPublicKey proxy) = PublicKeySize →
  ∃ pk, len pk = PublicKeySize ∧ cn' = cn ∧
    QueryOverhead + len packet + 1 ≤ paddedLength server (len packet) proto estimate xpad ∧
    enc = (server.(MagicQuery) ++ pk) ++ take (Z.to_nat HalfNonceSize) (cn ++ replicate 12 0)
      ++ seal server.(si_CryptoConstruction) (cn ++ replicate 12 0)
           (pad packet (paddedLength server (len packet) proto estimate xpad - QueryOverhead)) sk.
Proof.
  unfold Encrypt. intros He Hpk.
  destruct (ephemeralKeys proxy); rewrite Z.gtb_ltb in He;
    (destruct (Z.ltb_spec (paddedLength server (len packet) proto estimate xpad)
       (QueryOverhead + len packet + 1)); [done|]);
    injection He as <- <- <-; eexists; (split_and!; [|done|done|by rewrite app_assoc]);
    [apply ScalarBaseMult_len|done].
Qed.
End Lemmas.

(** * Properties *)

Section Properties.
Context `{CryptoLaws} {E : Type}.

(** Padding can always be undone: [unpad] recovers exactly the packet that
    [pad] extended, and [unpad] accepts only a packet followed by the 0x80
    delimiter and zeros, returning what precedes the delimiter. *)
Theorem pad_unpad (p q : bytes) (n : Z) :
  unpad (pad p n) = Ok p ∧ len (pad p n) = Z.max (len p + 1) n ∧
  (unpad q = Ok p ↔ ∃ k, q = p ++ 0x80 :: replicate k 0).
Proof. split_and!; [apply unpad_pad|apply pad_len|apply unpad_spec]. Qed.

(** An encrypted query has exactly the padded length: 1252 bytes for a
    server that drops fragmented UDP queries, otherwise 4096 or a smaller
    multiple of 64, so its size reveals the packet length only up to 64 bytes;
    and it always fits the largest UDP packet. *)
Theorem Encrypt_length proxy estimate (server : ServerInfo E) packet proto cn xpad rnd sk enc cn' :
  Encrypt proxy estimate server packet proto cn xpad rnd = Ok (sk, enc, cn') →
  len cn = HalfNonceSize → len (proxyPublicKey proxy) = PublicKeySize →
  len server.(MagicQuery) = ClientMagicLen → 0 ≤ xpad →
  len enc = paddedLength server (len packet) proto estimate xpad ∧
  len enc ≤ MaxDNSUDPPacketSize ∧
  (len enc = MaxDNSUDPSafePacketSize ∧ fragmentsBlocked (knownBugs server) = true ∨
   len enc mod 64 = 0).
Proof.
  intros He Hcn Hpk Hmq Hx.
  apply Encrypt_inv in He as (pk & Hpk' & _ & Hle & ->); [|done].
  pose proof (paddedLength_cases server (len packet) proto estimate xpad
    (len_nonneg _) Hx) as Hc. cbn zeta in Hc.
  set (p := paddedLength server (len packet) proto estimate xpad) in *.
  assert (len ((server.(MagicQuery) ++ pk) ++ take (Z.to_nat HalfNonceSize) (cn ++ replicate 12 0)
      ++ seal server.(si_CryptoConstruction) (cn ++ replicate 12 0)
           (pad packet (p - QueryOverhead)) sk) = p) as ->.
  { rewrite !len_app, len_take, seal_len, pad_len, len_app, len_replicate. sizes_lia. }
  split; [done|]. destruct Hc as [(Hf & _ & ->)|[->|(k & -> & Hk & _)]];
    (split; [sizes_lia|]).
  - by left.
  - by right.
  - right. rewrite Z.mul_comm. by apply Z.mod_mul.
Qed.

(** Which queries can be encrypted depends on their length only: up to 1183
    bytes over UDP for a server that drops fragments, up to 4027 bytes
    otherwise; longer ones give the padding error and nothing else. *)
Theorem Encrypt_accepts proxy estimate (server : ServerInfo E) packet proto cn xpad rnd :
  0 ≤ xpad →
  let limit :=
    if fragmentsBlocked (knownBugs server) && bool_decide (proto = "udp"%string)
    then 1183 else 4027 in
  if len packet <=? limit
  then ∃ sk enc, Encrypt proxy estimate server packet proto cn xpad rnd = Ok (sk, enc, cn)
  else Encrypt proxy estimate server packet proto cn xpad rnd
       = Err (EMsg "Question too large; cannot be padded").
Proof.
  intros Hx limit. pose proof (len_nonneg packet) as Hp.
  assert ((QueryOverhead + len packet + 1 >? paddedLength server (len packet) proto estimate xpad)
          = negb (len packet <=? limit)) as Hc.
  { pose proof (paddedLength_cases server (len packet) proto estimate xpad Hp Hx) as Hc.
    cbn zeta in Hc. rewrite Z.gtb_ltb.
    assert (fragmentsBlocked (knownBugs server) && bool_decide (proto = "udp"%string) = true →
      paddedLength server (len packet) proto estimate xpad = 1252) as Hf.
    { unfold paddedLength. by intros ->. }
    subst limit. destruct (fragmentsBlocked _ && bool_decide _) eqn:Hfb.
    - rewrite Hf by done. destruct (Z.ltb_spec 1252 (QueryOverhead + len packet + 1)),
        (Z.leb_spec (len packet) 1183); try done; clear Hc Hf; sizes_lia.
    - destruct Hc as [(Hk & -> & _)|[->|(k & Hk & Hk' & Hle)]].
      + rewrite Hk in Hfb. by rewrite bool_decide_eq_true_2 in Hfb.
      + destruct (Z.ltb_spec 4096 (QueryOverhead + len packet + 1)),
          (Z.leb_spec (len packet) 4027); try done; clear Hf; sizes_lia.
      + rewrite (proj2 (Z.ltb_ge _ _)) by lia.
        rewrite (proj2 (Z.leb_le _ _)); [done|sizes_lia]. }
  unfold Encrypt. rewrite Hc.
  destruct (ephemeralKeys proxy), (len packet <=? limit); cbn [negb]; eauto.
Qed.
(** The receiver's side of a query: split off the magic, the public key and the
    half nonce, open the box and remove the padding. *)
Definition server_open_query (c : CryptoConstruction) (key enc : bytes) : Out bytes :=
  nonce ← orPanic (slice enc 40 52);
  box ← orPanic (slice enc 52 (len enc));
  m ← open c (nonce ++ replicate 12 0) box key;
  unpad m.

(** C13: A server that shares the key reads exactly the packet the client sent:
    opening an encrypted query under the nonce it carries and removing the
    padding gives the original DNS packet back. *)
Theorem Encrypt_readable proxy estimate (server : ServerInfo E) packet proto cn xpad rnd sk enc cn' :
  Encrypt proxy estimate server packet proto cn xpad rnd = Ok (sk, enc, cn') →
  len cn = HalfNonceSize → len (proxyPublicKey proxy) = PublicKeySize →
  len server.(MagicQuery) = ClientMagicLen →
  server_open_query server.(si_CryptoConstruction) sk enc = Ok packet.
Proof.
  intros He Hcn Hpk Hmq.
  apply Encrypt_inv in He as (pk & Hpk' & _ & _ & ->); [|done].
  rewrite take_app_le by sizes_lia. rewrite take_ge by sizes_lia.
  set (hdr := server.(MagicQuery) ++ pk). set (box := seal _ _ _ _).
  assert (len hdr = 40) as Hhdr by (subst hdr; sizes_lia).
  unfold server_open_query.
  assert (slice (hdr ++ cn ++ box) 40 52 = Some cn) as ->.
  { rewrite <-Hhdr at 1. replace 52 with (len hdr + len cn) by sizes_lia. apply slice_app_mid. }
  cbn. assert (slice (hdr ++ cn ++ box) 52 (len (hdr ++ cn ++ box)) = Some box) as ->.
  { rewrite app_assoc. replace 52 with (len (hdr ++ cn)) by sizes_lia.
    rewrite (len_app (hdr ++ cn) box). apply slice_app_r. }
  cbn. subst box. rewrite open_seal. cbn. apply unpad_pad.
Qed.

(** A well-formed response: the server magic, a nonce that extends the client's,
    and the sealed, padded packet. *)
Definition server_response (c : CryptoConstruction) (key cn ext packet : bytes) (padTo : Z) : bytes :=
  ServerMagic ++ (cn ++ ext) ++ seal c (cn ++ ext) (pad packet padTo) key.

(** A response that a server seals under the shared key, with a nonce that
    starts with the client's half nonce, decrypts to the packet it carries. *)
Theorem Decrypt_response (server : ServerInfo E) (key cn ext packet : bytes) (padTo : Z) :
  len cn = HalfNonceSize → len ext = HalfNonceSize →
  MinDNSPacketSize ≤ len packet → Z.max (len packet + 1) padTo ≤ MaxDNSPacketSize →
  Decrypt server key (server_response server.(si_CryptoConstruction) key cn ext packet padTo) cn
    = Ok packet.
Proof.
  intros Hcn Hext Hmin Hmax. unfold Decrypt, server_response.
  set (box := seal _ _ _ _).
  assert (len box = TagSize + Z.max (len packet + 1) padTo) as Hbox.
  { subst box. by rewrite seal_len, pad_len. }
  assert (len (ServerMagic ++ (cn ++ ext) ++ box) = 32 + len box) as Hlen by sizes_lia.
  assert (len ServerMagic = 8) as Hm by done. rewrite Hm, Hlen, Z.gtb_ltb.
  rewrite (proj2 (Z.ltb_ge _ _)), (proj2 (Z.ltb_ge _ _)) by sizes_lia. cbn [orb].
  assert (slice (ServerMagic ++ (cn ++ ext) ++ box) 0 8 = Some ServerMagic) as ->.
  { exact (slice_app_mid [] ServerMagic _). }
  rewrite bool_decide_eq_true_2 by done. cbn [negb].
  assert (slice (ServerMagic ++ (cn ++ ext) ++ box) 8 (8 + NonceSize) = Some (cn ++ ext)) as ->.
  { rewrite <-Hm at 1. replace (8 + NonceSize) with (len ServerMagic + len (cn ++ ext))
      by sizes_lia. apply slice_app_mid. }
  assert (∀ r, slice (cn ++ r) 0 HalfNonceSize = Some cn) as Hsl.
  { intros r. rewrite <-Hcn. exact (slice_app_mid [] cn r). }
  specialize (Hsl []) as Hsl'. rewrite app_nil_r in Hsl'. cbn [mbind Out_bind orPanic]. rewrite Hsl', Hsl. cbn [mbind Out_bind orPanic].
  rewrite bool_decide_eq_true_2 by done.
  assert (slice (ServerMagic ++ (cn ++ ext) ++ box) (8 + NonceSize) (32 + len box) = Some box) as ->.
  { rewrite app_assoc. replace (8 + NonceSize) with (len (ServerMagic ++ cn ++ ext)) by sizes_lia.
    replace (32 + len box) with (len (ServerMagic ++ cn ++ ext) + len box) by sizes_lia.
    apply slice_app_r. }
  cbn. subst box. rewrite open_seal. cbn. rewrite unpad_pad.
  by rewrite (proj2 (Z.ltb_ge _ _)) by done.
Qed.

(** C14: [Decrypt] accepts nothing else: a packet it returns has at least 17
    bytes, comes out of a box that opens under the shared key with the nonce of
    the response, and that nonce starts with the client's half nonce, so a
    response to another query is refused. *)
Theorem Decrypt_sound (server : ServerInfo E) (key enc nonce packet : bytes) :
  Decrypt server key enc nonce = Ok packet →
  ∃ cn ext box m,
    enc = ServerMagic ++ (cn ++ ext) ++ box ∧
    slice nonce 0 HalfNonceSize = Some cn ∧ len ext = HalfNonceSize ∧
    open server.(si_CryptoConstruction) (cn ++ ext) box key = Ok m ∧
    unpad m = Ok packet ∧ MinDNSPacketSize ≤ len packet.
Proof.
  unfold Decrypt. change (len ServerMagic) with 8.
  destruct (_ || _) eqn:Hg; [done|].
  rewrite !orb_false_iff, negb_false_iff, bool_decide_eq_true in Hg.
  destruct Hg as [_ Hmagic]. intros Hd. inv_out.
  match goal with Hd : context [bool_decide (?a = ?b)] |- _ =>
    destruct (bool_decide (a = b)) eqn:Heq; [|done] end.
  apply bool_decide_eq_true in Heq. inv_out.
  match goal with
  | H1 : slice enc 8 _ = Some ?sn, H2 : slice nonce 0 _ = Some ?cn, H3 : slice ?sn 0 _ = Some _,
    H4 : slice enc _ (len enc) = Some ?bx, H5 : open _ _ _ _ = Ok ?pm |- _ =>
      exists cn, (drop 12 sn), bx, pm;
      pose proof (slice_split3 _ _ _ _ _ _ Hmagic H1 H4) as Henc;
      pose proof (slice_split2 _ _ _ H3) as Hsn; rewrite <-Heq in Hsn;
      change (Z.to_nat HalfNonceSize) with 12%nat in Hsn; rewrite <-Hsn;
      apply slice_Some in H1 as (_ & _ & Hlen & _)
  end.
  split_and!; try done.
  - sizes_lia.
  - destruct (unpad _) as [q| | |]; try done. by destruct (len q <? MinDNSPacketSize).
  - destruct (unpad _) as [q| | |]; try done.
    destruct (Z.ltb_spec (len q) MinDNSPacketSize); [done|]. inv_out. by subst.
Qed.
End Properties.

(** * Witnesses *)

(** A cipher that satisfies the laws: sixteen zero bytes stand for the tag. *)
Definition toy_prims : CryptoPrims := {|
  x_SharedKey sk pk := (replicate 32 1, true);
  box_Precompute pk sk := replicate 32 1;
  x_Seal _ m _ := replicate 16 0 ++ m;
  x_Open _ box _ := Some (drop 16 box);
  secretbox_Seal _ m _ := replicate 16 0 ++ m;
  secretbox_Open _ box _ := Some (drop 16 box);
  sha512_256 _ := replicate 32 3;
  ScalarBaseMult _ := replicate 32 4
|}.

Lemma toy_laws : @CryptoLaws toy_prims.
Proof. by split; intros; cbn; rewrite ?drop_0; try done; unfold TagSize, len; cbn; lia. Qed.

Definition toy_addr : Addr := {| addr_IP := [127; 0; 0; 1]; addr_Port := 443 |}.

Definition toy_server : ServerInfo unit := {|
  lastActionTS := 0; rtt := tt; si_Name := str "toy"; HostName := []; UDPAddr := toy_addr;
  TCPAddr := toy_addr; si_Relay := None; URL := no_url; initialRtt := 10; Timeout := 5000;
  si_CryptoConstruction := XChacha20Poly1305; ServerPk := replicate 32 5;
  SharedKey := replicate 32 6; MagicQuery := replicate 8 7;
  knownBugs := {| fragmentsBlocked := false |}; Proto := StampProtoTypeDNSCrypt;
  useGet := false; odohTargetConfigs := []
|}.

Definition toy_keys : ProxyKeys :=
  {| ephemeralKeys := true; proxySecretKey := replicate 32 8; proxyPublicKey := replicate 32 9 |}.

Definition toy_packet : bytes := replicate 30 1.

Definition toy_encrypted : bytes :=
  match @Encrypt toy_prims _ toy_keys 512 toy_server toy_packet "udp" (replicate 12 2) 0 [] with
  | Ok (_, enc, _) => enc
  | _ => []
  end.

Example Encrypt_length_wit :
  len toy_encrypted = 576 ∧ len toy_encrypted mod 64 = 0.
Proof.
  destruct (@Encrypt_length toy_prims toy_laws unit toy_keys 512 toy_server toy_packet "udp"
    (replicate 12 2) 0 [] (replicate 32 1) toy_encrypted (replicate 12 2)) as (-> & _ & _);
    [vm_compute; reflexivity|reflexivity|reflexivity|reflexivity|lia|]. split; reflexivity.
Defined.

Example Encrypt_accepts_wit :
  ∃ sk enc, @Encrypt toy_prims _ toy_keys 512 toy_server toy_packet "udp" (replicate 12 2) 0 []
    = Ok (sk, enc, replicate 12 2).
Proof.
  exact (@Encrypt_accepts toy_prims unit toy_keys 512 toy_server toy_packet "udp"
    (replicate 12 2) 0 [] ltac:(lia)).
Defined.

Example Encrypt_readable_wit :
  @server_open_query toy_prims XChacha20Poly1305 (replicate 32 1) toy_encrypted = Ok toy_packet.
Proof.
  apply (@Encrypt_readable toy_prims toy_laws unit toy_keys 512 toy_server toy_packet "udp"
    (replicate 12 2) 0 [] (replicate 32 1) toy_encrypted (replicate 12 2));
    [vm_compute; reflexivity|reflexivity..].
Defined.

Example Decrypt_response_wit :
  @Decrypt toy_prims _ toy_server (replicate 32 1)
    (@server_response toy_prims XChacha20Poly1305 (replicate 32 1) (replicate 12 2)
       (replicate 12 3) toy_packet 256) (replicate 12 2) = Ok toy_packet.
Proof.
  apply (@Decrypt_response toy_prims toy_laws unit toy_server); vm_compute; congruence.
Defined.

Example Decrypt_sound_wit :
  ∃ cn ext box m,
    @server_response toy_prims XChacha20Poly1305 (replicate 32 1) (replicate 12 2)
      (replicate 12 3) toy_packet 256 = ServerMagic ++ (cn ++ ext) ++ box ∧
    unpad m = Ok toy_packet.
Proof.
  destruct (@Decrypt_sound toy_prims unit toy_server (replicate 32 1)
    (@server_response toy_prims XChacha20Poly1305 (replicate 32 1) (replicate 12 2)
      (replicate 12 3) toy_packet 256) (replicate 12 2) toy_packet)
    as (cn & ext & box & m & ? & _ & _ & _ & ? & _); [vm_compute; reflexivity|].
  by exists cn, ext, box, m.
Defined.
