(* ===== verification/Filepath.v ===== *)
(** [filepath.Match] of the Go standard library on Unix: the shell patterns of
    block rules; [path.Join] and [filepath.Dir]. The loops consume at least one byte of the pattern per
    iteration; the fuel is the length of what they consume. *)
From S2P Require Import Prelude.
From S2P Require Import GoStrings.

(** [None] is [ErrBadPattern]. *)
Definition Separator : Z := 47.

(** [scanChunk]: the position of the first star outside brackets. *)
Fixpoint scan_go (pattern : bytes) (inrange : bool) : nat :=
  match pattern with
  | [] => 0
  | c :: p =>
      if c =? 92 then
        match p with
        | [] => 1
        | _ :: p' => S (S (scan_go p' inrange))
        end
      else if c =? 91 then S (scan_go p true)
      else if c =? 93 then S (scan_go p false)
      else if (c =? 42) && negb inrange then 0
      else S (scan_go p inrange)
  end.

Definition scanChunk (pattern : bytes) : bool * bytes * bytes :=
  let rest := dropWhile (λ c, c =? 42) pattern in
  let star := negb (length rest =? length pattern)%nat in
  let i := scan_go rest false in
  (star, take i rest, drop i rest).

(** [getEsc]: a possibly escaped character of a class; the class must go on. *)
Definition getEsc (chunk : bytes) : option (Z * bytes) :=
  match chunk with
  | [] => None
  | c :: r =>
      if (c =? 45) || (c =? 93) then None
      else
        let chunk := if c =? 92 then r else chunk in
        match chunk with
        | [] => None
        | _ =>
            let '(r, n) := DecodeRune chunk in
            if (r =? RuneError) && (n =? 1)%nat then None
            else
              let nchunk := drop n chunk in
              match nchunk with [] => None | _ => Some (r, nchunk) end
        end
  end.

(** The ranges of a class, up to the closing bracket. *)
Fixpoint class_go (fuel : nat) (chunk : bytes) (r : Z) (matched : bool) (nrange : nat)
    : option (bool * bytes) :=
  match fuel with
  | O => None
  | S fuel =>
      match chunk, nrange with
      | 93 :: chunk, S _ => Some (matched, chunk)
      | _, _ =>
          '(lo, chunk) ← getEsc chunk;
          '(hi, chunk) ←
            (match chunk with 45 :: chunk => getEsc chunk | _ => Some (lo, chunk) end);
          class_go fuel chunk r (matched || between lo r hi) (S nrange)
      end
  end.

Fixpoint matchChunk_go (fuel : nat) (chunk s : bytes) (failed : bool) : option (bytes * bool) :=
  match fuel with
  | O => None
  | S fuel =>
      match chunk with
      | [] => Some (if failed then ([], false) else (s, true))
      | c :: rest =>
          let failed := failed || match s with [] => true | _ => false end in
          let literal c rest :=
            if (failed : bool) then matchChunk_go fuel rest s true
            else matchChunk_go fuel rest (drop 1 s) (negb (bool_decide (s !! 0%nat = Some c))) in
          if c =? 91 then
            let '(r, s) :=
              if (failed : bool) then (0, s)
              else let '(r, n) := DecodeRune s in (r, drop n s) in
            let '(negated, chunk) :=
              match rest with 94 :: chunk => (true, chunk) | _ => (false, rest) end in
            '(matched, chunk) ← class_go (S (length chunk)) chunk r false 0;
            matchChunk_go fuel chunk s (failed || Bool.eqb matched negated)
          else if c =? 63 then
            if (failed : bool) then matchChunk_go fuel rest s true
            else matchChunk_go fuel rest (drop (DecodeRune s).2 s)
                   (bool_decide (s !! 0%nat = Some Separator))
          else if c =? 92 then
            match rest with
            | [] => None
            | c :: rest => literal c rest
            end
          else literal c rest
      end
  end.

Definition matchChunk (chunk s : bytes) : option (bytes * bool) :=
  matchChunk_go (S (length chunk)) chunk s false.

(** The search for a match after a star, skipping bytes of [name]:
    [Some (Some t)] continues with [t], [Some None] is a failed match. *)
Fixpoint star_go (chunk : bytes) (last : bool) (name : bytes) : option (option bytes) :=
  match name with
  | [] => Some None
  | c :: name' =>
      if c =? Separator then Some None
      else
        '(t, ok) ← matchChunk chunk name';
        if (ok : bool) then
          if last && negb (length t =? 0)%nat then star_go chunk last name'
          else Some (Some t)
        else star_go chunk last name'
  end.

Fixpoint Match_go (fuel : nat) (pattern name : bytes) : option bool :=
  match fuel with
  | O => None
  | S fuel =>
      match pattern with
      | [] => Some (length name =? 0)%nat
      | _ =>
          let '(star, chunk, pattern) := scanChunk pattern in
          if star && (length chunk =? 0)%nat then
            Some (negb (bool_decide (Separator ∈ name)))
          else
            '(t, ok) ← matchChunk chunk name;
            if ok && ((length t =? 0)%nat || negb (length pattern =? 0)%nat)
            then Match_go fuel pattern t
            else if (star : bool) then
              r ← star_go chunk (length pattern =? 0)%nat name;
              match r with
              | Some t => Match_go fuel pattern t
              | None => Some false
              end
            else Some false
      end
  end.

Definition filepath_Match (pattern name : bytes) : option bool :=
  Match_go (S (length pattern)) pattern name.

Example glob_digits :
  (λ n, filepath_Match (str "ads[0-9]*") (str n)) <$>
    ["ads1.example.com"; "ads12"; "ads1x"; "ads"; "adsx"]%string
  = [Some true; Some true; Some true; Some false; Some false].
Proof. vm_compute. reflexivity. Qed.

Example glob_star :
  (λ n, filepath_Match (str "ads*.example*") (str n)) <$>
    ["ads.example.com"; "ads99.a.example.org"; "example.com"]%string
  = [Some true; Some true; Some false].
Proof. vm_compute. reflexivity. Qed.

Example glob_bad : filepath_Match (str "a[") (str "example.com") = None ∧
  filepath_Match (str "[]a]") (str "example.com") = None ∧
  filepath_Match (str "x?z*") (str "xyzzy") = Some true.
Proof. vm_compute. done. Qed.

(** * Paths *)

(** [path.Clean], on the elements of the path; the last one kept is first. *)
Definition clean_element (rooted : bool) (kept : list bytes) (element : bytes) : list bytes :=
  if decide (element = [] ∨ element = str ".") then kept
  else if decide (element = str "..") then
    match kept with
    | [] => if rooted then [] else [element]
    | last :: rest => if decide (last = str "..") then element :: kept else rest
    end
  else element :: kept.

Definition IsAbs (p : bytes) : bool := HasPrefix p [Separator].

Definition Clean (p : bytes) : bytes :=
  let kept := reverse (foldl (clean_element (IsAbs p)) [] (Split p [Separator])) in
  if IsAbs p then Separator :: Join kept [Separator]
  else match kept with [] => str "." | _ => Join kept [Separator] end.

(** [path.Join] of two elements; empty ones are skipped. *)
Definition path_Join (a b : bytes) : bytes :=
  match filter (λ x, x ≠ []) [a; b] with [] => [] | l => Clean (Join l [Separator]) end.

(** [filepath.Dir]: all but the last element. *)
Definition Dir (p : bytes) : bytes := Clean (reverse (dropWhile (λ c, negb (c =? Separator)) (reverse p))).

Lemma Clean_abs p : IsAbs p = true → IsAbs (Clean p) = true.
Proof. intros Ha. unfold Clean. by rewrite Ha. Qed.

(** What is left of an absolute path up to its last separator is absolute. *)
Lemma dir_abs p : IsAbs p = true → IsAbs (reverse (dropWhile (λ c, negb (c =? Separator)) (reverse p))) = true.
Proof.
  unfold IsAbs. rewrite !HasPrefix_spec. intros [r ->]. rewrite reverse_app. cbn.
  assert (∀ l, ∃ r', reverse (dropWhile (λ c, negb (c =? Separator)) (l ++ [Separator])) = Separator :: r') as Hd.
  { intros l. induction l as [|c l [r' IH]]; [by eexists|]. change ((c :: l) ++ [Separator]) with (c :: (l ++ [Separator])).
    cbn [dropWhile]. destruct (c =? Separator); cbn [negb]; [|by eauto].
    exists (reverse (c :: l)). change (c :: (l ++ [Separator])) with ((c :: l) ++ [Separator]). by rewrite reverse_app. }
  apply Hd.
Qed.

Lemma path_Join_abs a b : IsAbs a = true → IsAbs (path_Join a b) = true.
Proof.
  intros Ha. destruct a as [|c a]; [done|]. unfold path_Join. rewrite filter_cons_True by done.
  destruct (filter _ [b]) as [|x l]; apply Clean_abs; [exact Ha|]. unfold IsAbs in *. cbn in *. exact Ha.
Qed.

Example path_examples :
  (λ p, Clean (str p)) <$> ["/a//b/./c"; "a/../../b"; "/../x/"; ""]%string = str <$> ["/a/b/c"; "../b"; "/x"; "."]%string ∧
  Dir (str "/usr/bin/dnscrypt-proxy") = str "/usr/bin" ∧ Dir (str "proxy.toml") = str "." ∧
  path_Join (str "/etc") (str "../opt/proxy.toml") = str "/opt/proxy.toml".
Proof. by vm_compute. Qed.
