(* ===== verification/PatternMatcher.v ===== *)
(** pattern_matcher.go: the rule matcher shared by the block, allow and cloak
    plugins. The prefix tree of package critbitgo is an interface: the matcher
    is written and verified against it, and a finite map discharges it. *)
From S2P Require Import Prelude.
From S2P Require Import GoStrings.
From S2P Require Import Common.
From S2P Require Import Filepath.

(** * Prefix trees *)

(** [critbitgo.Trie] with values of type [V]. [trie_longest k t] is the longest
    stored key that is a prefix of [k]. *)
Class PrefixTrie (V T : Type) := {
  trie_new : T;
  trie_insert : bytes → V → T → T;
  trie_longest : bytes → T → option (bytes * V);
  trie_view : T → gmap bytes V
}.

(** What the matcher relies on: [Insert] does not replace an existing key, and
    [LongestPrefix] is what its name says. *)
Class PrefixTrieLaws (V T : Type) `{PrefixTrie V T} := {
  view_new : trie_view (V := V) (T := T) trie_new = ∅;
  view_insert k v t :
    trie_view (trie_insert k v t) =
      match trie_view t !! k with
      | Some _ => trie_view t
      | None => <[k:=v]> (trie_view t)
      end;
  longest_Some k t p v :
    trie_longest k t = Some (p, v) →
    trie_view t !! p = Some v ∧ HasPrefix k p = true ∧
    ∀ q, is_Some (trie_view t !! q) → HasPrefix k q = true → (length q ≤ length p)%nat;
  longest_None k t q :
    trie_longest k t = None → is_Some (trie_view t !! q) → HasPrefix k q = false
}.

(** ** A finite map as prefix tree *)

(** Tries the prefixes of [k] of length [n], [n-1], ..., 0. *)
Fixpoint map_longest {V} (n : nat) (k : bytes) (t : gmap bytes V) : option (bytes * V) :=
  match t !! take n k with
  | Some v => Some (take n k, v)
  | None => match n with O => None | S n => map_longest n k t end
  end.

#[export] Instance map_trie {V} : PrefixTrie V (gmap bytes V) := {
  trie_new := ∅;
  trie_insert k v t := match t !! k with Some _ => t | None => <[k:=v]> t end;
  trie_longest k t := map_longest (length k) k t;
  trie_view t := t
}.

Lemma map_longest_Some {V} (n : nat) (k : bytes) (t : gmap bytes V) p v :
  map_longest n k t = Some (p, v) →
  t !! p = Some v ∧ HasPrefix k p = true ∧
  ∀ m, (m ≤ n)%nat → is_Some (t !! take m k) → (length (take m k) ≤ length p)%nat.
Proof.
  induction n as [|n IH]; cbn [map_longest].
  - destruct (t !! take 0 k) eqn:E; [|done]. intros [= <- <-]. split_and!; [done|done|].
    intros m Hm _. by assert (m = 0%nat) as -> by lia.
  - destruct (t !! take (S n) k) eqn:E.
    + intros [= <- <-]. split_and!; [done|apply HasPrefix_take|].
      intros m Hm _. len_lia.
    + intros (? & ? & Hn)%IH. split_and!; [done..|]. intros m Hm Hs.
      destruct (decide (m = S n)) as [->|]; [|apply Hn; [lia|done]].
      destruct Hs as [? Hs]. congruence.
Qed.

Lemma map_longest_None {V} (n : nat) (k : bytes) (t : gmap bytes V) (m : nat) :
  map_longest n k t = None → (m ≤ n)%nat → t !! take m k = None.
Proof.
  induction n as [|n IH]; cbn [map_longest]; intros Hn Hm.
  - destruct (t !! take 0 k) eqn:E; [done|]. by assert (m = 0%nat) as -> by lia.
  - destruct (t !! take (S n) k) eqn:E; [done|].
    destruct (decide (m = S n)) as [->|]; [done|]. apply IH; [done|lia].
Qed.

#[export] Instance map_trie_laws {V} : PrefixTrieLaws V (gmap bytes V).
Proof.
  split; cbn.
  - done.
  - done.
  - intros k t p v (Hp & Hk & Hm)%map_longest_Some. split_and!; [done..|].
    intros q Hq Hkq. rewrite <-(HasPrefix_take_eq k q Hkq) in Hq |- *.
    apply Hm; [by apply HasPrefix_length|done].
  - intros k t q Hn [v Hq]. apply not_true_is_false. intros Hk.
    rewrite <-(HasPrefix_take_eq k q Hk) in Hq.
    rewrite (map_longest_None _ _ _ _ Hn) in Hq; [done|]. by apply HasPrefix_length.
Qed.

(** * The matcher *)

Inductive PatternType :=
  | PatternTypeNone
  | PatternTypePrefix
  | PatternTypeSuffix
  | PatternTypeSubstring
  | PatternTypePattern
  | PatternTypeExact.

(** Rule values have type [option V]: [None] is the nil interface. *)
Record PatternMatcher (V T : Type) := {
  blockedPrefixes : T;
  blockedSuffixes : T;
  blockedSubstrings : list bytes;
  blockedPatterns : list bytes;
  blockedExact : gmap bytes (option V);
  indirectVals : gmap bytes V
}.
Arguments blockedPrefixes {_ _} _.
Arguments blockedSuffixes {_ _} _.
Arguments blockedSubstrings {_ _} _.
Arguments blockedPatterns {_ _} _.
Arguments blockedExact {_ _} _.
Arguments indirectVals {_ _} _.

(** The loop of [isGlobCandidate] over runes and their byte offsets. *)
Fixpoint glob_candidate_go (l : list (Z * bytes)) (i n : nat) : bool :=
  match l with
  | [] => false
  | (c, b) :: l =>
      if (c =? 63) || (c =? 91) then true
      else if (c =? 42) && negb (i =? 0)%nat && negb (i =? n - 1)%nat then true
      else glob_candidate_go l (i + length b) n
  end.

Definition isGlobCandidate (s : bytes) : bool := glob_candidate_go (segs s) 0 (length s).

Section Matcher.
Context {V T : Type} `{UnicodeTables} `{PrefixTrie (option V) T}.

Definition NewPatternMatcher : PatternMatcher V T := {|
  blockedPrefixes := trie_new; blockedSuffixes := trie_new;
  blockedSubstrings := []; blockedPatterns := [];
  blockedExact := ∅; indirectVals := ∅
|}.

Definition pattern_error : error := EMsg "Syntax error in block rules at pattern".

(** The first half of [Add]: the kind of a rule and the text that is stored. *)
Definition classify (pattern : bytes) : Out (PatternType * bytes) :=
  let leadingStar := HasPrefix pattern (str "*") in
  let trailingStar := HasSuffix pattern (str "*") in
  let exact := HasPrefix pattern (str "=") in
  if isGlobCandidate pattern then
    match filepath_Match pattern (str "example.com") with
    | Some _ => if (length pattern <? 2)%nat then Err pattern_error
                else Ok (PatternTypePattern, pattern)
    | None => Err pattern_error
    end
  else if leadingStar && trailingStar then
    if (length pattern <? 3)%nat then Err pattern_error
    else Ok (PatternTypeSubstring, take (length pattern - 2) (drop 1 pattern))
  else if trailingStar then
    if (length pattern <? 2)%nat then Err pattern_error
    else Ok (PatternTypePrefix, take (length pattern - 1) pattern)
  else if exact then
    if (length pattern <? 2)%nat then Err pattern_error
    else Ok (PatternTypeExact, drop 1 pattern)
  else
    let pattern := if leadingStar then drop 1 pattern else pattern in
    Ok (PatternTypeSuffix, TrimPrefix pattern (str ".")).

Definition with_indirect (m : PatternMatcher V T) (pattern : bytes) (val : option V)
    : gmap bytes V :=
  match val with Some v => <[pattern:=v]> m.(indirectVals) | None => m.(indirectVals) end.

(** [Add]. An empty rule is only logged, and then added. *)
Definition Add (m : PatternMatcher V T) (pattern : bytes) (val : option V)
    : Out (PatternMatcher V T) :=
  '(patternType, pattern) ← classify pattern;
  let pattern := ToLower pattern in
  match patternType with
  | PatternTypeSubstring =>
      Ok {| blockedPrefixes := m.(blockedPrefixes); blockedSuffixes := m.(blockedSuffixes);
            blockedSubstrings := m.(blockedSubstrings) ++ [pattern];
            blockedPatterns := m.(blockedPatterns); blockedExact := m.(blockedExact);
            indirectVals := with_indirect m pattern val |}
  | PatternTypePattern =>
      Ok {| blockedPrefixes := m.(blockedPrefixes); blockedSuffixes := m.(blockedSuffixes);
            blockedSubstrings := m.(blockedSubstrings);
            blockedPatterns := m.(blockedPatterns) ++ [pattern];
            blockedExact := m.(blockedExact);
            indirectVals := with_indirect m pattern val |}
  | PatternTypePrefix =>
      Ok {| blockedPrefixes := trie_insert pattern val m.(blockedPrefixes);
            blockedSuffixes := m.(blockedSuffixes);
            blockedSubstrings := m.(blockedSubstrings);
            blockedPatterns := m.(blockedPatterns); blockedExact := m.(blockedExact);
            indirectVals := m.(indirectVals) |}
  | PatternTypeSuffix =>
      Ok {| blockedPrefixes := m.(blockedPrefixes);
            blockedSuffixes := trie_insert (StringReverse pattern) val m.(blockedSuffixes);
            blockedSubstrings := m.(blockedSubstrings);
            blockedPatterns := m.(blockedPatterns); blockedExact := m.(blockedExact);
            indirectVals := m.(indirectVals) |}
  | PatternTypeExact =>
      Ok {| blockedPrefixes := m.(blockedPrefixes); blockedSuffixes := m.(blockedSuffixes);
            blockedSubstrings := m.(blockedSubstrings);
            blockedPatterns := m.(blockedPatterns);
            blockedExact := <[pattern:=val]> m.(blockedExact);
            indirectVals := m.(indirectVals) |}
  | PatternTypeNone => Fatal
  end.

(** [len(match) == len(k) || k[len(match)] == '.']. *)
Definition on_label (k p : bytes) : bool :=
  (length p =? length k)%nat || bool_decide (k !! length p = Some 46).

(** The lookups of [Eval] among the suffix rules. *)
Definition eval_suffix (m : PatternMatcher V T) (revQname : bytes) : option (bytes * option V) :=
  match trie_longest revQname m.(blockedSuffixes) with
  | None => None
  | Some (p, xval) =>
      if on_label revQname p then Some (str "*." ++ StringReverse p, xval)
      else if (length p <? length revQname)%nat && (0 <? length revQname)%nat then
        match LastIndexByte revQname 46 with
        | Some (S i) =>
            let pName := take (S i) revQname in
            match trie_longest pName m.(blockedSuffixes) with
            | Some (p2, _) =>
                if on_label pName p2 then Some (str "*." ++ StringReverse p2, xval) else None
            | None => None
            end
        | _ => None
        end
      else None
  end.

(** The substring and glob rules, in the order of the file. *)
Definition eval_substring (m : PatternMatcher V T) (qName : bytes) : option (bytes * option V) :=
  match list_find (λ s, Contains qName s = true) m.(blockedSubstrings) with
  | Some (_, s) => Some (str "*" ++ s ++ str "*", m.(indirectVals) !! s)
  | None => None
  end.

Definition eval_pattern (m : PatternMatcher V T) (qName : bytes) : option (bytes * option V) :=
  match list_find (λ p, filepath_Match p qName = Some true) m.(blockedPatterns) with
  | Some (_, p) => Some (p, m.(indirectVals) !! p)
  | None => None
  end.

Definition eval_exact (m : PatternMatcher V T) (qName : bytes) : option (bytes * option V) :=
  match m.(blockedExact) !! qName with
  | Some (Some v) => Some (qName, Some v)
  | _ => None
  end.

Definition eval_prefix (m : PatternMatcher V T) (qName : bytes) : option (bytes * option V) :=
  match trie_longest qName m.(blockedPrefixes) with
  | Some (p, xval) => Some (p ++ str "*", xval)
  | None => None
  end.

(** [Eval]: whether the name is matched, the reason, and the rule's value. *)
Definition Eval (m : PatternMatcher V T) (qName : bytes) : bool * bytes * option V :=
  if (length qName <? 2)%nat then (false, [], None)
  else
    match eval_exact m qName with
    | Some (reason, v) => (true, reason, v)
    | None =>
    match eval_suffix m (StringReverse qName) with
    | Some (reason, v) => (true, reason, v)
    | None =>
    match eval_prefix m qName with
    | Some (reason, v) => (true, reason, v)
    | None =>
    match eval_substring m qName with
    | Some (reason, v) => (true, reason, v)
    | None =>
    match eval_pattern m qName with
    | Some (reason, v) => (true, reason, v)
    | None => (false, [], None)
    end end end end end.

Definition rejects (m : PatternMatcher V T) (qName : bytes) : bool := (Eval m qName).1.1.
End Matcher.

(** * Specification *)

(** [name] is [zone] or a name below it. *)
Definition in_zone (name zone : bytes) : Prop := name = zone ∨ ∃ r, name = r ++ 46 :: zone.

(** What the rule file means: the name equals an exact rule, lies in the zone of
    a suffix rule, starts with a prefix rule, contains a substring rule, or
    matches a glob rule. *)
Inductive rule_matches {V T} `{PrefixTrie (option V) T} (m : PatternMatcher V T) (q : bytes) : Prop :=
  | match_exact v : m.(blockedExact) !! q = Some (Some v) → rule_matches m q
  | match_suffix k v : trie_view m.(blockedSuffixes) !! k = Some v → in_zone q (reverse k) →
      rule_matches m q
  | match_prefix p v : trie_view m.(blockedPrefixes) !! p = Some v → HasPrefix q p = true →
      rule_matches m q
  | match_substring s : s ∈ m.(blockedSubstrings) → Contains q s = true → rule_matches m q
  | match_pattern p : p ∈ m.(blockedPatterns) → filepath_Match p q = Some true → rule_matches m q.

Lemma on_label_zone (q k : bytes) :
  HasPrefix (reverse q) k = true → on_label (reverse q) k = true ↔ in_zone q (reverse k).
Proof.
  intros [t Ht]%HasPrefix_spec. unfold on_label.
  rewrite orb_true_iff, Nat.eqb_eq, bool_decide_eq_true, Ht.
  assert (q = reverse t ++ reverse k) as ->.
  { rewrite <-(reverse_involutive q), Ht. by rewrite reverse_app. }
  split.
  - intros [Hl|Hl].
    + left. destruct t; [done|]. len_lia.
    + right. rewrite lookup_app_r, Nat.sub_diag in Hl by lia. destruct t as [|c t]; [done|].
      injection Hl as ->. exists (reverse t). rewrite reverse_cons. by rewrite <-app_assoc.
  - intros [Heq|[r Hr]].
    + left. apply (f_equal length) in Heq. len_lia.
    + right. rewrite lookup_app_r, Nat.sub_diag by lia.
      replace (r ++ 46 :: reverse k) with ((r ++ [46]) ++ reverse k) in Hr by by rewrite <-app_assoc.
      apply app_inv_tail in Hr. apply (f_equal reverse) in Hr.
      rewrite reverse_involutive, reverse_app in Hr. by rewrite Hr.
Qed.

Lemma HasPrefix_take_le (s p : bytes) n :
  HasPrefix (take n s) p = true → HasPrefix s p = true.
Proof.
  rewrite !HasPrefix_spec. intros [r Hr]. exists (r ++ drop n s).
  by rewrite app_assoc, <-Hr, take_drop.
Qed.

Section Spec.
Context {V T : Type} `{UnicodeTables} `{PrefixTrieLaws (option V) T}.
Implicit Types (m : PatternMatcher V T) (q : bytes).

Lemma eval_suffix_sound m q r :
  eval_suffix m (reverse q) = Some r →
  ∃ k v, trie_view m.(blockedSuffixes) !! k = Some v ∧ in_zone q (reverse k).
Proof.
  unfold eval_suffix.
  destruct (trie_longest (reverse q) _) as [[p xval]|] eqn:Hl; [|done].
  apply longest_Some in Hl as (Hp & Hpre & _).
  destruct (on_label (reverse q) p) eqn:Hlab.
  { intros _. exists p, xval. split; [done|]. by apply on_label_zone. }
  destruct (_ && _); [|done].
  destruct (LastIndexByte (reverse q) 46) as [[|i]|] eqn:Hi; [done| |done].
  destruct (trie_longest (take (S i) (reverse q)) _) as [[p2 v2]|] eqn:Hl2; [|done].
  apply longest_Some in Hl2 as (Hp2 & Hpre2 & _).
  destruct (on_label _ p2) eqn:Hlab2; [|done]. intros _.
  exists p2, v2. split; [done|]. apply on_label_zone.
  { by eapply HasPrefix_take_le. }
  apply LastIndexByte_Some in Hi as [Hi _].
  pose proof (lookup_lt_Some _ _ _ Hi) as Hlt.
  unfold on_label in *. apply orb_true_iff in Hlab2 as [Heq%Nat.eqb_eq|Hd%bool_decide_eq_true].
  - rewrite length_take, Nat.min_l in Heq by lia. rewrite Heq.
    rewrite orb_true_iff, bool_decide_eq_true. by right.
  - rewrite orb_true_iff, bool_decide_eq_true. right.
    apply lookup_take_Some in Hd. tauto.
Qed.

Lemma list_find_true (f : bytes → bool) (l : list bytes) i s :
  list_find (λ x, f x = true) l = Some (i, s) → s ∈ l ∧ f s = true.
Proof. intros (Hi & Hf & _)%list_find_Some. split; [by eapply list_elem_of_lookup_2|done]. Qed.

Lemma list_find_ex (f : bytes → bool) (l : list bytes) s :
  s ∈ l → f s = true → ∃ r, list_find (λ x, f x = true) l = Some r.
Proof. intros Hs Hf. destruct (list_find_elem_of (λ x, f x = true) l s Hs Hf) as [r Hr]. by exists r. Qed.

(** The cascade of [Eval] rejects iff one of its stages answers. *)
Lemma rejects_cascade m q :
  ascii q → (2 ≤ length q)%nat →
  rejects m q = true ↔
    is_Some (eval_exact m q) ∨ is_Some (eval_suffix m (reverse q)) ∨ is_Some (eval_prefix m q) ∨
    is_Some (eval_substring m q) ∨ is_Some (eval_pattern m q).
Proof.
  intros Ha Hl. unfold rejects, Eval. rewrite (proj2 (Nat.ltb_ge _ _)) by lia.
  rewrite StringReverse_ascii by done.
  destruct (eval_exact m q) as [[??]|]; [naive_solver|].
  destruct (eval_suffix m (reverse q)) as [[??]|]; [naive_solver|].
  destruct (eval_prefix m q) as [[??]|]; [naive_solver|].
  destruct (eval_substring m q) as [[??]|]; [naive_solver|].
  destruct (eval_pattern m q) as [[??]|]; [naive_solver|].
  split; [done|]. intros [[??]|[[??]|[[??]|[[??]|[??]]]]]; done.
Qed.

Lemma eval_exact_iff m q : is_Some (eval_exact m q) ↔ ∃ v, m.(blockedExact) !! q = Some (Some v).
Proof. unfold eval_exact. destruct (_ !! q) as [[v|]|]; naive_solver. Qed.

Lemma eval_prefix_iff m q :
  is_Some (eval_prefix m q) ↔
  ∃ p v, trie_view m.(blockedPrefixes) !! p = Some v ∧ HasPrefix q p = true.
Proof.
  unfold eval_prefix. destruct (trie_longest q _) as [[p v]|] eqn:Hl.
  - split; [|eauto]. intros _. apply longest_Some in Hl as (? & ? & _). eauto.
  - split; [by intros [??]|]. intros (p & v & Hp & Hq).
    apply (longest_None _ _ p) in Hl; [congruence|]. by eexists.
Qed.

Lemma eval_substring_iff m q :
  is_Some (eval_substring m q) ↔ ∃ s, s ∈ m.(blockedSubstrings) ∧ Contains q s = true.
Proof.
  unfold eval_substring. destruct (list_find _ _) as [[i s]|] eqn:Hf.
  - apply (list_find_true (Contains q)) in Hf. split; [eauto|by eexists].
  - split; [by intros [??]|]. intros (s & Hs & Hc).
    destruct (list_find_ex (Contains q) _ s Hs Hc). congruence.
Qed.

Lemma eval_pattern_iff m q :
  is_Some (eval_pattern m q) ↔ ∃ p, p ∈ m.(blockedPatterns) ∧ filepath_Match p q = Some true.
Proof.
  unfold eval_pattern. destruct (list_find _ _) as [[i p]|] eqn:Hf.
  - apply list_find_Some in Hf as (Hi & Hm & _). split; [|by eexists].
    intros _. exists p. split; [by eapply list_elem_of_lookup_2|done].
  - split; [by intros [??]|]. intros (p & Hp & Hm).
    destruct (list_find_elem_of (λ p, filepath_Match p q = Some true) _ p Hp Hm). congruence.
Qed.

(** When the longest byte suffix stored lies on a label boundary, the first
    lookup answers. *)
Lemma eval_suffix_complete m q k v :
  trie_view m.(blockedSuffixes) !! k = Some v → in_zone q (reverse k) →
  (∀ j, is_Some (trie_view m.(blockedSuffixes) !! j) → (length k ≤ length j)%nat →
        HasPrefix (reverse q) j = true → in_zone q (reverse j)) →
  is_Some (eval_suffix m (reverse q)).
Proof.
  intros Hk Hz Hall. unfold eval_suffix.
  assert (HasPrefix (reverse q) k = true) as Hpre.
  { apply HasPrefix_spec. destruct Hz as [->|[r ->]].
    - exists []. by rewrite app_nil_r, reverse_involutive.
    - rewrite reverse_app, reverse_cons, reverse_involutive. eexists. by rewrite <-app_assoc. }
  destruct (trie_longest (reverse q) _) as [[p xval]|] eqn:Hl.
  - apply longest_Some in Hl as (Hp & Hpp & Hmax).
    assert (on_label (reverse q) p = true) as ->; [|by eexists].
    apply on_label_zone; [done|]. apply Hall; [by eexists| |done]. apply Hmax; [by eexists|done].
  - apply (longest_None _ _ k) in Hl; [congruence|by eexists].
Qed.

Lemma rejects_sound m q : ascii q → rejects m q = true → rule_matches m q.
Proof.
  intros Ha Hr. destruct (decide (2 ≤ length q)%nat) as [Hl|Hl].
  - apply rejects_cascade in Hr as [Hr|[[r Hr]|[Hr|[Hr|Hr]]]]; [..|done|done].
    + apply eval_exact_iff in Hr as [v Hv]. by eapply match_exact.
    + apply eval_suffix_sound in Hr as (k & v & ? & ?). by eapply match_suffix.
    + apply eval_prefix_iff in Hr as (p & v & ? & ?). by eapply match_prefix.
    + apply eval_substring_iff in Hr as (s & ? & ?). by eapply match_substring.
    + apply eval_pattern_iff in Hr as (p & ? & ?). by eapply match_pattern.
  - unfold rejects, Eval in Hr. by rewrite (proj2 (Nat.ltb_lt _ _)) in Hr by lia.
Qed.

(** [no_inner_suffix m q n]: every suffix rule of at least [n] bytes that is a
    byte suffix of [q] starts at a label of [q]. *)
Definition no_inner_suffix m q (n : nat) : Prop :=
  ∀ j, is_Some (trie_view m.(blockedSuffixes) !! j) → (n ≤ length j)%nat →
       HasPrefix (reverse q) j = true → in_zone q (reverse j).

Lemma rejects_complete m q :
  ascii q → (2 ≤ length q)%nat → rule_matches m q →
  (∀ k v, trie_view m.(blockedSuffixes) !! k = Some v → in_zone q (reverse k) →
          no_inner_suffix m q (length k)) →
  rejects m q = true.
Proof.
  intros Ha Hl Hm Hall. apply rejects_cascade; [done..|].
  destruct Hm as [v Hv|k v Hk Hz|p v Hp Hq|s Hs Hc|p Hp Hq].
  - left. apply eval_exact_iff. by eexists.
  - right. left. eapply eval_suffix_complete; eauto. intros. eapply (Hall k); eauto.
  - right. right. left. apply eval_prefix_iff. eauto.
  - do 3 right. left. apply eval_substring_iff. eauto.
  - do 4 right. apply eval_pattern_iff. eauto.
Qed.

(** ** Adding one rule to an empty matcher *)

(** A rule body without wildcards, classes, upper case or leading markers. *)
Definition plain (p : bytes) : Prop :=
  (∃ c r, p = c :: r ∧ c ≠ 46 ∧ c ≠ 61) ∧
  Forall (λ c, 0 ≤ c < 128 ∧ c ≠ 42 ∧ c ≠ 63 ∧ c ≠ 91 ∧ lowerASCII c = c) p.

Lemma plain_ascii p : plain p → ascii p.
Proof. intros [_ Hp]. eapply list.Forall_impl; [exact Hp|]. cbn. tauto. Qed.

Lemma plain_lower p : plain p → ToLower p = p.
Proof.
  intros Hp. rewrite ToLower_ascii by by apply plain_ascii. destruct Hp as [_ Hp].
  induction Hp as [|c p (_ & _ & _ & _ & Hc) Hp IH]; [done|]. cbn. by rewrite Hc, IH.
Qed.

Lemma plain_no_star p : plain p → 42 ∉ p.
Proof. intros [_ Hp] Hin. rewrite list.Forall_forall in Hp. apply Hp in Hin. tauto. Qed.

Lemma glob_candidate_false (s : bytes) :
  ascii s →
  (∀ j c, s !! j = Some c → c ≠ 63 ∧ c ≠ 91 ∧ (c = 42 → j = 0%nat ∨ j = (length s - 1)%nat)) →
  isGlobCandidate s = false.
Proof.
  intros Ha Hs. unfold isGlobCandidate. rewrite segs_ascii by done.
  assert (∀ l i, (∀ j c, l !! j = Some c → s !! (i + j)%nat = Some c) →
    glob_candidate_go ((λ c, (c, [c])) <$> l) i (length s) = false) as Hgo.
  { induction l as [|c l IH]; intros i Hl; cbn; [done|].
    pose proof (Hl 0%nat c eq_refl) as Hc. rewrite Nat.add_0_r in Hc.
    apply Hs in Hc as (H63 & H91 & H42).
    rewrite (proj2 (Z.eqb_neq _ _) H63), (proj2 (Z.eqb_neq _ _) H91). cbn.
    destruct (Z.eqb_spec c 42) as [->|]; cbn.
    - destruct (H42 eq_refl) as [->| ->]; cbn.
      + apply IH. intros j c Hj. by apply (Hl (S j)).
      + rewrite Nat.eqb_refl. cbn. rewrite andb_false_r.
        apply IH. intros j c Hj. replace (_ + 1 + j)%nat with (length s - 1 + S j)%nat by lia.
        by apply (Hl (S j)).
    - apply IH. intros j d Hj. replace (i + 1 + j)%nat with (i + S j)%nat by lia.
      by apply (Hl (S j)). }
  apply Hgo. done.
Qed.

(** The four rule forms around a plain body: leading text [a], trailing [b]. *)
Lemma glob_plain (a b p : bytes) :
  plain p → ascii a → ascii b → (length a ≤ 1)%nat → (length b ≤ 1)%nat →
  63 ∉ a ++ b → 91 ∉ a ++ b → isGlobCandidate (a ++ p ++ b) = false.
Proof.
  intros Hp Ha Hb Hla Hlb H63 H91. apply glob_candidate_false.
  { apply Forall_app; split; [done|]. apply Forall_app; split; [by apply plain_ascii|done]. }
  intros j c Hj. pose proof (plain_no_star p Hp) as Hstar. destruct Hp as [_ Hp].
  apply lookup_app_Some in Hj as [Hj|[Hge Hj]].
  { pose proof (lookup_lt_Some _ _ _ Hj). apply list_elem_of_lookup_2 in Hj.
    split_and!; [set_solver..|]. intros _. left. lia. }
  apply lookup_app_Some in Hj as [Hj|[Hge' Hj]].
  - apply list_elem_of_lookup_2 in Hj. rewrite list.Forall_forall in Hp.
    apply Hp in Hj as (_ & ? & ? & ? & _). tauto.
  - pose proof (lookup_lt_Some _ _ _ Hj). apply list_elem_of_lookup_2 in Hj.
    split_and!; [set_solver..|]. intros _. right. len_lia.
Qed.

Lemma plain_length p : plain p → (1 ≤ length p)%nat.
Proof. intros [(c & r & -> & _) _]. cbn. lia. Qed.

Lemma plain_last_star a p : plain p → HasSuffix (a ++ p) (str "*") = false.
Proof.
  intros Hp. apply not_true_is_false. intros [r Hr]%HasSuffix_spec.
  pose proof (plain_no_star p Hp) as Hn. pose proof (plain_length p Hp) as Hl.
  destruct p as [|c p' _] using rev_ind; [cbn in Hl; lia|].
  rewrite app_assoc in Hr. apply app_inj_tail in Hr as [_ ->]. set_solver.
Qed.

Lemma plain_head p b : plain p →
  HasPrefix (p ++ b) (str "*") = false ∧ HasPrefix (p ++ b) (str "=") = false ∧
  TrimPrefix p (str ".") = p.
Proof.
  intros Hp. pose proof (plain_no_star p Hp). destruct Hp as [(c & r & -> & H46 & H61) _].
  unfold TrimPrefix. split_and!.
  - apply not_true_is_false. intros [s Hs]%HasPrefix_spec. injection Hs as -> _. set_solver.
  - apply not_true_is_false. intros [s Hs]%HasPrefix_spec. injection Hs as -> _. done.
  - destruct (HasPrefix (c :: r) (str ".")) eqn:E; [|done].
    apply HasPrefix_spec in E as [s Hs]. by injection Hs as -> _.
Qed.

Ltac glob_side :=
  first [done | cbn; lia | apply Forall_nil_2 | apply Forall_singleton; cbn; lia
        | apply (bool_decide_unpack _); vm_compute; exact I].

Lemma classify_plain p : plain p → classify p = Ok (PatternTypeSuffix, p).
Proof.
  intros Hp. unfold classify.
  assert (isGlobCandidate p = false) as ->.
  { rewrite <-(app_nil_r p). apply (glob_plain [] []); glob_side. }
  pose proof (plain_last_star [] p Hp) as Hl. cbn [app] in Hl. rewrite Hl.
  destruct (plain_head p [] Hp) as (Hs & He & Ht). rewrite app_nil_r in Hs, He.
  by rewrite Hs, He, Ht.
Qed.

Lemma classify_wild p : plain p → classify (str "*." ++ p) = Ok (PatternTypeSuffix, p).
Proof.
  intros Hp. unfold classify.
  assert (isGlobCandidate (str "*." ++ p) = false) as ->.
  { apply glob_candidate_false.
    - apply Forall_app; split; [|by apply plain_ascii]. repeat constructor; cbn; lia.
    - destruct Hp as [_ Hp]. rewrite list.Forall_forall in Hp.
      intros [|[|j]] c Hj; [by injection Hj as <-; eauto..|].
      cbn in Hj. apply list_elem_of_lookup_2 in Hj. apply Hp in Hj. tauto. }
  rewrite plain_last_star by done. cbn [HasPrefix]. 
  by destruct p.
Qed.

Lemma classify_exact p : plain p → classify (str "=" ++ p) = Ok (PatternTypeExact, p).
Proof.
  intros Hp. unfold classify.
  assert (isGlobCandidate (str "=" ++ p) = false) as ->.
  { rewrite <-(app_nil_r p). apply (glob_plain (str "=") []); glob_side. }
  rewrite plain_last_star by done. pose proof (plain_length p Hp).
  destruct p; [cbn in *; lia|]. cbn. by destruct p.
Qed.

Lemma HasSuffix_star a : HasSuffix (a ++ str "*") (str "*") = true.
Proof. apply HasSuffix_spec. by exists a. Qed.

Lemma classify_prefix p : plain p → classify (p ++ str "*") = Ok (PatternTypePrefix, p).
Proof.
  intros Hp. unfold classify.
  assert (isGlobCandidate (p ++ str "*") = false) as ->.
  { apply (glob_plain [] (str "*")); glob_side. }
  rewrite HasSuffix_star. destruct (plain_head p (str "*") Hp) as (Hs & _ & _). rewrite Hs.
  pose proof (plain_length p Hp). cbn [andb].
  change (str "*") with [42]. rewrite (proj2 (Nat.ltb_ge _ _)) by len_lia.
  rewrite length_app, Nat.add_sub. by rewrite take_app_length.
Qed.

Lemma classify_substring p :
  plain p → classify (str "*" ++ p ++ str "*") = Ok (PatternTypeSubstring, p).
Proof.
  intros Hp. unfold classify.
  assert (isGlobCandidate (str "*" ++ p ++ str "*") = false) as ->.
  { apply (glob_plain (str "*") (str "*")); glob_side. }
  rewrite app_assoc, HasSuffix_star. pose proof (plain_length p Hp).
  assert (HasPrefix ((str "*" ++ p) ++ str "*") (str "*") = true) as ->.
  { apply HasPrefix_spec. eexists. by rewrite <-app_assoc. }
  cbn [andb]. change (str "*") with [42]. rewrite (proj2 (Nat.ltb_ge _ _)) by len_lia.
  do 2 f_equal. cbn. replace (length (p ++ [42%Z]) - 1)%nat with (length p) by len_lia.
  apply take_app_length.
Qed.

Lemma view_single k (v : option V) k' v' :
  trie_view (trie_insert k v (trie_new (T:=T))) !! k' = Some v' ↔ k' = k ∧ v' = v.
Proof.
  rewrite view_insert, view_new, lookup_empty, lookup_insert_Some, lookup_empty. naive_solver.
Qed.

Lemma view_none k (v : option V) : trie_view (trie_new (T:=T)) !! k = Some v ↔ False.
Proof. by rewrite view_new, lookup_empty. Qed.

Lemma rule_matches_alt m q :
  rule_matches m q ↔
    (∃ v, m.(blockedExact) !! q = Some (Some v)) ∨
    (∃ k v, trie_view m.(blockedSuffixes) !! k = Some v ∧ in_zone q (reverse k)) ∨
    (∃ p v, trie_view m.(blockedPrefixes) !! p = Some v ∧ HasPrefix q p = true) ∨
    (∃ s, s ∈ m.(blockedSubstrings) ∧ Contains q s = true) ∨
    (∃ p, p ∈ m.(blockedPatterns) ∧ filepath_Match p q = Some true).
Proof.
  split.
  - intros [v ?|k v ??|p v ??|s ??|p ??]; eauto 10.
  - intros [[v ?]|[(k & v & ? & ?)|[(p & v & ? & ?)|[(s & ? & ?)|(p & ? & ?)]]]].
    + by eapply match_exact.
    + by eapply match_suffix.
    + by eapply match_prefix.
    + by eapply match_substring.
    + by eapply match_pattern.
Qed.

(** A matcher whose suffix rules are at most one never misses. *)
Lemma rejects_iff m q :
  ascii q → (2 ≤ length q)%nat →
  (∀ k j, is_Some (trie_view m.(blockedSuffixes) !! k) →
          is_Some (trie_view m.(blockedSuffixes) !! j) → j = k) →
  rejects m q = true ↔ rule_matches m q.
Proof.
  intros Ha Hl Hone. split; [by apply rejects_sound|]. intros Hm.
  apply rejects_complete; [done..|]. intros k v Hk Hz j Hj _ _.
  by rewrite (Hone k j) by (done || by eexists).
Qed.
End Spec.

(** * Properties *)

Section Properties.
Context {V T : Type} `{UnicodeTables} `{PrefixTrieLaws (option V) T}.
Implicit Types (m : PatternMatcher V T) (q : bytes).

(** C30: [Eval] rejects a name only if some rule matches it in the documented
    sense: the name equals an exact rule, is in the zone of a suffix rule (never
    a mere byte suffix), starts with a prefix rule, contains a substring rule or
    matches a glob rule. *)
Theorem Eval_sound m q :
  ascii q → rejects m q = true → rule_matches m q.
Proof. apply rejects_sound. Qed.

(** C31: Conversely every matching rule of a name of two bytes or more makes
    [Eval] reject it, provided no other suffix rule at least as long as a
    matching one is a byte suffix of the name that falls inside a label. *)
Theorem Eval_complete m q :
  ascii q → (2 ≤ length q)%nat → rule_matches m q →
  (∀ k v, trie_view m.(blockedSuffixes) !! k = Some v → in_zone q (reverse k) →
          no_inner_suffix m q (length k)) →
  rejects m q = true.
Proof. apply rejects_complete. Qed.

(** What a rule without wildcards in its body means, once added to an empty
    matcher: [p] and [*.p] match the zone [p], [=p] matches [p] only, [p*] the
    names starting with [p], [*p*] the names containing [p]. *)
Theorem Add_rule_forms (p q : bytes) (v : V) :
  plain p → ascii q → (2 ≤ length q)%nat →
  (∃ m, Add (T:=T) NewPatternMatcher p (Some v) = Ok m ∧ (rejects m q = true ↔ in_zone q p)) ∧
  (∃ m, Add (T:=T) NewPatternMatcher (str "*." ++ p) (Some v) = Ok m ∧
        (rejects m q = true ↔ in_zone q p)) ∧
  (∃ m, Add (T:=T) NewPatternMatcher (str "=" ++ p) (Some v) = Ok m ∧
        (rejects m q = true ↔ q = p)) ∧
  (∃ m, Add (T:=T) NewPatternMatcher (p ++ str "*") (Some v) = Ok m ∧
        (rejects m q = true ↔ HasPrefix q p = true)) ∧
  (∃ m, Add (T:=T) NewPatternMatcher (str "*" ++ p ++ str "*") (Some v) = Ok m ∧
        (rejects m q = true ↔ Contains q p = true)).
Proof.
  intros Hp Hq Hl. unfold Add.
  rewrite classify_plain, classify_wild, classify_exact, classify_prefix, classify_substring by done.
  cbn [mbind Out_bind]. rewrite plain_lower, StringReverse_ascii by (done || by apply plain_ascii).
  split_and!; (eexists; split; [reflexivity|]); rewrite rejects_iff by
    (done || (cbn; intros k j [??] [??]; rewrite ?view_single, ?view_none in *; naive_solver));
    rewrite rule_matches_alt; cbn.
  1,2: setoid_rewrite view_none; setoid_rewrite view_single; pose proof (reverse_involutive p); split;
    [intros [[??]|[(k & ? & [-> _] & ?)|[(? & ? & [] & _)|[(? & []%elem_of_nil & _)|(? & []%elem_of_nil & _)]]]];
       [done|congruence]
    |intros; right; left; exists (reverse p), (Some v); split; [done|congruence]].
  - setoid_rewrite view_none. setoid_rewrite lookup_insert_Some. set_solver.
  - setoid_rewrite view_none. setoid_rewrite view_single. set_solver.
  - setoid_rewrite view_none. set_solver.
Qed.
End Properties.

(** ** Instances *)

Section Examples.
#[local] Existing Instance ascii_tables.

Abbreviation matcher := (PatternMatcher nat (gmap bytes (option nat))).

(** Adds rules numbered from [i]. *)
Fixpoint add_rules (m : matcher) (rules : list bytes) (i : nat) : Out matcher :=
  match rules with
  | [] => Ok m
  | r :: rules => m ← Add m r (Some i); add_rules m rules (S i)
  end.

Definition rules_of (l : list string) : matcher :=
  match add_rules NewPatternMatcher (str <$> l) 0 with Ok m => m | _ => NewPatternMatcher end.

Definition sample_rules : matcher :=
  rules_of ["example.com"; "=exact.org"; "ads*"; "*track*"; "ads[0-9].*.net"].

Example Eval_sound_wit :
  ascii (str "www.example.com") ∧ rejects sample_rules (str "www.example.com") = true ∧
  rule_matches sample_rules (str "www.example.com").
Proof.
  assert (ascii (str "www.example.com")) by by (apply (bool_decide_unpack _); vm_compute).
  assert (rejects sample_rules (str "www.example.com") = true) by by vm_compute.
  split_and!; [done..|]. by apply Eval_sound.
Defined.

Example Eval_complete_wit :
  rejects sample_rules (str "www.tracker.org") = true.
Proof.
  apply Eval_complete.
  - by apply (bool_decide_unpack _); vm_compute.
  - by vm_compute; lia.
  - eapply (match_substring _ _ (str "track")); [|done].
    by apply (bool_decide_unpack _); vm_compute.
  - intros k v Hk Hz j [v' Hj] _ Hpre. exfalso.
    change (({[StringReverse (str "example.com") := Some 0%nat]} : gmap bytes (option nat)) !! j = Some v') in Hj.
    apply lookup_singleton_Some in Hj as [<- _]. by vm_compute in Hpre.
Defined.

Example Add_rule_forms_wit :
  (∃ m, Add (T:=gmap bytes (option nat)) NewPatternMatcher (str "example.com") (Some 1%nat) = Ok m ∧
     (rejects m (str "notexample.com") = true ↔ in_zone (str "notexample.com") (str "example.com"))).
Proof.
  apply (Add_rule_forms (T:=gmap bytes (option nat)) (str "example.com") (str "notexample.com") 1%nat).
  - split; [by eexists _, _|]. by apply (bool_decide_unpack _); vm_compute.
  - by apply (bool_decide_unpack _); vm_compute.
  - vm_compute. lia.
Defined.

(** The completeness bound is needed. With the rules [com] and
    [example.com], the name [x.aexample.com] is in the zone [com] and yet is not
    rejected: the longest stored byte suffix, [example.com], falls inside the
    label [aexample], and the second lookup, which only drops the first label,
    finds it again. Rules added later can thus disable an earlier one. *)
Theorem Eval_misses_suffix_rule :
  rejects (rules_of ["com"]) (str "x.aexample.com") = true ∧
  rejects (rules_of ["com"; "example.com"]) (str "x.aexample.com") = false ∧
  rule_matches (rules_of ["com"; "example.com"]) (str "x.aexample.com").
Proof.
  split_and!; [by vm_compute..|].
  eapply (match_suffix _ _ (StringReverse (str "com")) (Some 0%nat)).
  - by vm_compute.
  - right. exists (str "x.aexample"). by vm_compute.
Qed.

(** The second lookup returns the value attached to the rule of the first.
    With [com] carrying 0 and [example.com] carrying 1, [aexample.com] is
    rejected for the reason [*.com] and with the value of [example.com]. *)
Theorem Eval_wrong_value :
  Eval (rules_of ["com"; "example.com"]) (str "aexample.com") = (true, str "*.com", Some 1%nat) ∧
  Eval (rules_of ["com"]) (str "aexample.com") = (true, str "*.com", Some 0%nat).
Proof. by split; vm_compute. Qed.

(** The bundled example documents [ads[0-9]*] as ads followed by digits; as a
    glob it is one digit and then anything. *)
Example glob_digit_star :
  rejects (rules_of ["ads[0-9]*"]) (str "ads1x.example.com") = true.
Proof. by vm_compute. Qed.
End Examples.
