(* ===== verification/DnsMsg.v ===== *)
(** The DNS messages of package miekg/dns as the proxy uses them: message and
    record types, the OPT accessors, and the codec as an interface. *)
From S2P Require Import Prelude.
From S2P Require Import Common.
From S2P Require Import ServerTypes.

(** * Constants *)

Definition TypeA : Z := 1.
Definition TypeNS : Z := 2.
Definition TypeCNAME : Z := 5.
Definition TypeSOA : Z := 6.
Definition TypePTR : Z := 12.
Definition TypeHINFO : Z := 13.
Definition TypeMX : Z := 15.
Definition TypeTXT : Z := 16.
Definition TypeAAAA : Z := 28.
Definition TypeOPT : Z := 41.
Definition TypeSVCB : Z := 64.
Definition TypeHTTPS : Z := 65.
Definition ClassINET : Z := 1.

Definition RcodeSuccess : Z := 0.
Definition RcodeServerFailure : Z := 2.
Definition RcodeNameError : Z := 3.
Definition RcodeRefused : Z := 5.
Definition RcodeNotAuth : Z := 9.

Definition EDNS0SUBNET : Z := 8.
Definition EDNS0PADDING : Z := 12.

(** * Records *)

Record RR_Header := { Name : bytes; Rrtype : Z; Class_ : Z; Ttl : Z }.

#[export] Instance RR_Header_eq_dec : EqDecision RR_Header.
Proof. solve_decision. Defined.

(** The EDNS0 options the proxy looks at; any other option keeps its code and
    contents. *)
Inductive EDNS0 :=
  | EDNS0_PADDING (Padding : bytes)
  | EDNS0_SUBNET (Family SourceNetmask SourceScope : Z) (Address : IP)
  | EDNS0_OTHER (code : Z) (data : bytes).

#[export] Instance EDNS0_eq_dec : EqDecision EDNS0.
Proof. solve_decision. Defined.

(** The [Option()] method. *)
Definition Option_ (o : EDNS0) : Z :=
  match o with
  | EDNS0_PADDING _ => EDNS0PADDING
  | EDNS0_SUBNET _ _ _ _ => EDNS0SUBNET
  | EDNS0_OTHER code _ => code
  end.

(** The dynamic type of a [dns.RR], with the fields the proxy reads or writes;
    every other type is kept as opaque data. *)
Inductive RData :=
  | rA (A : IP)
  | rAAAA (AAAA : IP)
  | rCNAME (Target : bytes)
  | rPTR (Ptr : bytes)
  | rHINFO (Cpu Os : bytes)
  | rTXT (Txt : list bytes)
  | rSOA (Ns Mbox : bytes) (Serial Refresh Retry Expire Minttl : Z)
  | rSVCB (Priority : Z) (Target : bytes)
  | rHTTPS (Priority : Z) (Target : bytes)
  | rOPT (Option : list EDNS0)
  | rOther (data : bytes).

#[export] Instance RData_eq_dec : EqDecision RData.
Proof. solve_decision. Defined.

Record RR := { Hdr : RR_Header; Data : RData }.

#[export] Instance RR_eq_dec : EqDecision RR.
Proof. solve_decision. Defined.

(** [rr.Header().Ttl = ttl]. *)
Definition set_Ttl (ttl : Z) (rr : RR) : RR :=
  {| Hdr := {| Name := rr.(Hdr).(Name); Rrtype := rr.(Hdr).(Rrtype);
               Class_ := rr.(Hdr).(Class_); Ttl := ttl |};
     Data := rr.(Data) |}.

Record Question := { qn_Name : bytes; Qtype : Z; Qclass : Z }.

#[export] Instance Question_eq_dec : EqDecision Question.
Proof. solve_decision. Defined.

(** [dns.Msg] with its embedded [MsgHdr]. *)
Record Msg := {
  Id : Z;
  Response : bool;
  Opcode : Z;
  Authoritative : bool;
  Truncated : bool;
  RecursionDesired : bool;
  RecursionAvailable : bool;
  Zero : bool;
  AuthenticatedData : bool;
  CheckingDisabled : bool;
  Rcode_ : Z;
  Compress : bool;
  Questions : list Question;
  Answer : list RR;
  Ns : list RR;
  Extra : list RR
}.

#[export] Instance Msg_eq_dec : EqDecision Msg.
Proof. solve_decision. Defined.

#[export] Instance eta_Msg : Eta Msg := λ m, {|
  Id := m.(Id); Response := m.(Response); Opcode := m.(Opcode);
  Authoritative := m.(Authoritative); Truncated := m.(Truncated);
  RecursionDesired := m.(RecursionDesired); RecursionAvailable := m.(RecursionAvailable);
  Zero := m.(Zero); AuthenticatedData := m.(AuthenticatedData);
  CheckingDisabled := m.(CheckingDisabled); Rcode_ := m.(Rcode_); Compress := m.(Compress);
  Questions := m.(Questions); Answer := m.(Answer); Ns := m.(Ns); Extra := m.(Extra) |}.

(** [dns.Msg{}]. *)
Definition empty_Msg : Msg := {|
  Id := 0; Response := false; Opcode := 0; Authoritative := false; Truncated := false;
  RecursionDesired := false; RecursionAvailable := false; Zero := false;
  AuthenticatedData := false; CheckingDisabled := false; Rcode_ := 0; Compress := false;
  Questions := []; Answer := []; Ns := []; Extra := [] |}.

(** * EDNS0 *)

Definition is_OPT (rr : RR) : bool := rr.(Hdr).(Rrtype) =? TypeOPT.

(** The scan of [IsEdns0] from the last additional record to the first: the
    position of the OPT record it returns. *)
Definition opt_position (extra : list RR) : option nat :=
  match list_find (λ rr, is_OPT rr = true) (reverse extra) with
  | Some (i, _) => Some (length extra - 1 - i)%nat
  | None => None
  end.

(** [IsEdns0]: the record found, [None] for nil. The type assertion panics if a
    record of type OPT is not an [*OPT]. *)
Definition IsEdns0 (m : Msg) : Out (option (RR * list EDNS0)) :=
  match list_find (λ rr, is_OPT rr = true) (reverse m.(Extra)) with
  | None => Ok None
  | Some (_, rr) =>
      match rr.(Data) with
      | rOPT options => Ok (Some (rr, options))
      | _ => Panic
      end
  end.

Definition UDPSize (opt : RR) : Z := opt.(Hdr).(Class_).
Definition DO : Z := 0x8000.
Definition Do (opt : RR) : bool := Z.land opt.(Hdr).(Ttl) DO =? DO.

Definition new_OPT (udpsize : Z) (do : bool) (options : list EDNS0) : RR := {|
  Hdr := {| Name := str "."; Rrtype := TypeOPT; Class_ := udpsize;
            Ttl := if do then Z.lor 0 DO else 0 |};
  Data := rOPT options |}.

(** [SetEdns0]: appends an OPT record. *)
Definition SetEdns0 (m : Msg) (udpsize : Z) (do : bool) : Msg :=
  m <| Extra := m.(Extra) ++ [new_OPT udpsize do []] |>.

(** A record whose header says OPT holds options. Unpacking guarantees it. *)
Definition opt_wf (rr : RR) : Prop := is_OPT rr = true → ∃ o, rr.(Data) = rOPT o.
Definition msg_wf (m : Msg) : Prop := Forall opt_wf m.(Extra).

(** The header constructor used for synthesised records. *)
Definition inet (name : bytes) (rrtype ttl : Z) : RR_Header :=
  {| Name := name; Rrtype := rrtype; Class_ := ClassINET; Ttl := ttl |}.

(** [SetQuestion] with the random identifier [id]. *)
Definition SetQuestion (m : Msg) (id : Z) (z : bytes) (t : Z) : Msg :=
  m <| Id := id |> <| RecursionDesired := true |>
    <| Questions := [{| qn_Name := z; Qtype := t; Qclass := ClassINET |}] |>.

(** ** Lemmas *)

Lemma find_reverse_snoc (rr : RR) (l : list RR) :
  is_OPT rr = true →
  list_find (λ rr, is_OPT rr = true) (reverse (l ++ [rr])) = Some (0%nat, rr).
Proof. intros Hr. rewrite reverse_snoc. cbn. by rewrite decide_True. Qed.

Lemma IsEdns0_SetEdns0 m size do :
  IsEdns0 (SetEdns0 m size do) = Ok (Some (new_OPT size do [], [])).
Proof. unfold IsEdns0, SetEdns0. cbn [set_field Extra]. by rewrite find_reverse_snoc. Qed.

Lemma UDPSize_new size do o : UDPSize (new_OPT size do o) = size.
Proof. done. Qed.

Lemma Do_new size do o : Do (new_OPT size do o) = do.
Proof. by destruct do. Qed.

Lemma IsEdns0_wf m : msg_wf m →
  (∃ rr o, IsEdns0 m = Ok (Some (rr, o)) ∧ rr ∈ m.(Extra) ∧ is_OPT rr = true ∧ rr.(Data) = rOPT o) ∨
  (IsEdns0 m = Ok None ∧ Forall (λ rr, is_OPT rr = false) m.(Extra)).
Proof.
  unfold IsEdns0, msg_wf. intros Hwf.
  destruct (list_find _ _) as [[i rr]|] eqn:Hf.
  - left. apply list_find_Some in Hf as (Hi & Ho & _).
    apply list_elem_of_lookup_2 in Hi. rewrite elem_of_reverse in Hi.
    rewrite list.Forall_forall in Hwf. destruct (Hwf rr Hi Ho) as [o Hd].
    exists rr, o. by rewrite Hd.
  - right. split; [done|]. apply list_find_None in Hf. rewrite list.Forall_forall in Hf |- *.
    intros rr Hin. apply not_true_is_false, Hf. by apply elem_of_reverse.
Qed.

(** * The codec *)

Definition flag (b : bool) (bit : Z) : Z := if b then bit else 0.

(** The [Header.Bits] word built by [packBufferWithCompressionMap]. *)
Definition header_bits (m : Msg) : Z :=
  let bits := Z.lor (u16 (Z.shiftl m.(Opcode) 11)) (Z.land m.(Rcode_) 0xF) in
  let bits := Z.lor bits (flag m.(Response) 0x8000) in
  let bits := Z.lor bits (flag m.(Authoritative) 0x400) in
  let bits := Z.lor bits (flag m.(Truncated) 0x200) in
  let bits := Z.lor bits (flag m.(RecursionDesired) 0x100) in
  let bits := Z.lor bits (flag m.(RecursionAvailable) 0x80) in
  let bits := Z.lor bits (flag m.(Zero) 0x40) in
  let bits := Z.lor bits (flag m.(AuthenticatedData) 0x20) in
  Z.lor bits (flag m.(CheckingDisabled) 0x10).

(** [Header.pack]. *)
Definition packMsgHdr (m : Msg) : bytes :=
  PutUint16 m.(Id) ++ PutUint16 (header_bits m) ++
  PutUint16 (len m.(Questions)) ++ PutUint16 (len m.(Answer)) ++
  PutUint16 (len m.(Ns)) ++ PutUint16 (len m.(Extra)).

(** [unpackMsgHdr] and [setHdr]: [None] if the packet is too short. *)
Definition unpackMsgHdr (p : bytes) : option (Z * Z) :=
  if (length p <? 12)%nat then None
  else id ← Uint16 p; bits ← Uint16 (drop 2 p); Some (id, bits).

Definition bit (bits : Z) (i : Z) : bool := negb (Z.land bits (Z.shiftl 1 i) =? 0).

Definition setHdr (id bits : Z) (m : Msg) : Msg :=
  m <| Id := id |> <| Response := bit bits 15 |>
    <| Opcode := Z.land (Z.shiftr bits 11) 0xF |> <| Authoritative := bit bits 10 |>
    <| Truncated := bit bits 9 |> <| RecursionDesired := bit bits 8 |>
    <| RecursionAvailable := bit bits 7 |> <| Zero := bit bits 6 |>
    <| AuthenticatedData := bit bits 5 |> <| CheckingDisabled := bit bits 4 |>
    <| Rcode_ := Z.land bits 0xF |>.

(** [Msg.Pack], and [Msg.Unpack] into an empty message. *)
Class Codec := {
  Pack : Msg → Out bytes;
  Unpack : bytes → Out Msg
}.

(** What the proxy relies on: neither function panics, the header is where
    [packMsgHdr] and [setHdr] put it, response codes above 0xFFF are refused, and
    unpacked OPT records are of type [*OPT]. *)
Class CodecLaws `{Codec} := {
  Pack_no_panic m : msg_wf m → Pack m ≠ Panic ∧ Pack m ≠ Fatal;
  Unpack_no_panic p : Unpack p ≠ Panic ∧ Unpack p ≠ Fatal;
  Pack_header m p :
    Pack m = Ok p → ∃ body, p = packMsgHdr m ++ body ∧ Forall is_byte body;
  Unpack_header p m :
    Unpack p = Ok m →
    msg_wf m ∧ ∃ id bits, unpackMsgHdr p = Some (id, bits) ∧ m = setHdr id bits m
}.

Lemma bit_testbit bits i : 0 ≤ i → bit bits i = Z.testbit bits i.
Proof.
  intros Hi. unfold bit. rewrite Z.shiftl_1_l.
  destruct (Z.testbit bits i) eqn:E.
  - apply negb_true_iff, Z.eqb_neq. intros H0.
    assert (Z.testbit (Z.land bits (2 ^ i)) i = true) as H1.
    { rewrite Z.land_spec, E, Z.pow2_bits_true by done. done. }
    rewrite H0, Z.bits_0 in H1. done.
  - apply negb_false_iff, Z.eqb_eq. apply Z.bits_inj'. intros j Hj.
    rewrite Z.land_spec, Z.bits_0. destruct (decide (i = j)) as [<-|].
    + by rewrite E.
    + rewrite Z.pow2_bits_false by done. apply andb_false_r.
Qed.

Lemma flag_testbit b k i : 0 ≤ i → 0 ≤ k → Z.testbit (flag b (2 ^ k)) i = b && (k =? i).
Proof.
  intros Hi Hk. destruct b; cbn [flag]; [|by rewrite Z.bits_0].
  rewrite Z.pow2_bits_eqb by done. done.
Qed.

(** The flags of the header word, by position. *)
Lemma header_bits_flags m :
  Z.testbit (header_bits m) 15 = Z.testbit m.(Opcode) 4 || m.(Response) ∧
  Z.testbit (header_bits m) 9 = m.(Truncated) ∧
  Z.land (header_bits m) 15 = Z.land m.(Rcode_) 15.
Proof.
  assert (Hop : ∀ i, 0 ≤ i → Z.testbit (u16 (Z.shiftl m.(Opcode) 11)) i =
    (i <? 16) && (11 <=? i) && Z.testbit m.(Opcode) (i - 11)).
  { intros i Hi. unfold u16. destruct (Z.ltb_spec i 16).
    - rewrite Z.mod_pow2_bits_low by lia. destruct (Z.leb_spec 11 i).
      + by rewrite Z.shiftl_spec by lia.
      + by rewrite Z.shiftl_spec_low by lia.
    - by rewrite Z.mod_pow2_bits_high by lia. }
  assert (Hrc : ∀ i, 0 ≤ i → Z.testbit (Z.land m.(Rcode_) 15) i = Z.testbit m.(Rcode_) i && (i <? 4)).
  { intros i Hi. rewrite Z.land_spec. f_equal. change 15 with (Z.ones 4).
    destruct (Z.ltb_spec i 4); [by rewrite Z.ones_spec_low by lia|by rewrite Z.ones_spec_high by lia]. }
  assert (Hb : ∀ i, 0 ≤ i → Z.testbit (header_bits m) i =
    ((i <? 16) && (11 <=? i) && Z.testbit m.(Opcode) (i - 11)) || (Z.testbit m.(Rcode_) i && (i <? 4)) ||
    (m.(Response) && (15 =? i)) || (m.(Authoritative) && (10 =? i)) || (m.(Truncated) && (9 =? i)) ||
    (m.(RecursionDesired) && (8 =? i)) || (m.(RecursionAvailable) && (7 =? i)) ||
    (m.(Zero) && (6 =? i)) || (m.(AuthenticatedData) && (5 =? i)) || (m.(CheckingDisabled) && (4 =? i))).
  { intros i Hi. unfold header_bits. rewrite !Z.lor_spec, Hop, Hrc by done.
    change 0x8000 with (2 ^ 15). change 0x400 with (2 ^ 10). change 0x200 with (2 ^ 9).
    change 0x100 with (2 ^ 8). change 0x80 with (2 ^ 7). change 0x40 with (2 ^ 6).
    change 0x20 with (2 ^ 5). change 0x10 with (2 ^ 4). rewrite !flag_testbit by lia. done. }
  split_and!.
  - rewrite Hb by lia. cbn. rewrite !andb_false_r, !andb_true_r, !orb_false_r. done.
  - rewrite Hb by lia. cbn. rewrite !andb_false_r, !andb_true_r, !orb_false_r. done.
  - apply Z.bits_inj'. intros i Hi. rewrite Z.land_spec, Hrc, Hb by done.
    change 15 with (Z.ones 4) at 2. destruct (Z.ltb_spec i 4).
    + rewrite Z.ones_spec_low, andb_true_r, andb_true_r by lia.
      rewrite !(proj2 (Z.eqb_neq _ _)), (proj2 (Z.leb_gt _ _)) by lia.
      by rewrite !andb_false_r, !orb_false_r.
    + rewrite Z.ones_spec_high by lia. by rewrite !andb_false_r.
Qed.

Lemma u8_u16 x : u8 (u16 x) = u8 x.
Proof.
  unfold u8, u16. apply Z.bits_inj'. intros i Hi. destruct (decide (i < 8)).
  - by rewrite !Z.mod_pow2_bits_low by lia.
  - by rewrite !Z.mod_pow2_bits_high by lia.
Qed.

Lemma u8_shiftr_u16 x : u8 (Z.shiftr (u16 x) 8) = u8 (Z.shiftr x 8).
Proof.
  unfold u8, u16. apply Z.bits_inj'. intros i Hi. destruct (decide (i < 8)).
  - rewrite !Z.mod_pow2_bits_low, !Z.shiftr_spec by lia.
    by rewrite Z.mod_pow2_bits_low by lia.
  - by rewrite !Z.mod_pow2_bits_high by lia.
Qed.

Lemma land_15_range x : 0 ≤ Z.land x 15 < 16.
Proof. change 15 with (Z.ones 4). rewrite Z.land_ones by lia. apply Z.mod_pos_bound. lia. Qed.

(** The identifier, flag bytes and response code of a packed message. *)
Lemma Pack_wire `{CodecLaws} m p :
  Pack m = Ok p →
  (12 ≤ length p)%nat ∧ Forall is_byte p ∧ Uint16 p = Some (u16 m.(Id)) ∧
  (∃ b, p !! 2%nat = Some b ∧ Z.testbit b 1 = m.(Truncated) ∧
        Z.testbit b 7 = Z.testbit m.(Opcode) 4 || m.(Response)) ∧
  (∃ b, p !! 3%nat = Some b ∧ Z.land b 15 = Z.land m.(Rcode_) 15).
Proof.
  intros (body & -> & Hb)%Pack_header. destruct (header_bits_flags m) as (H15 & H9 & Hr).
  split_and!.
  - unfold packMsgHdr. rewrite !length_app. cbn. lia.
  - apply Forall_app; split; [|done]. unfold packMsgHdr.
    rewrite !Forall_app. split_and!; apply PutUint16_bytes.
  - unfold packMsgHdr. rewrite <-app_assoc.
    rewrite <-(Uint16_PutUint16 (u16 m.(Id)) (PutUint16 0)).
    + unfold PutUint16. by rewrite u8_u16, u8_shiftr_u16.
    + unfold is_u16, u16. apply (Z.mod_pos_bound _ (2 ^ 16)). lia.
  - eexists. split; [reflexivity|]. unfold u8.
    rewrite !Z.mod_pow2_bits_low, !Z.shiftr_spec by lia. done.
  - eexists. split; [reflexivity|]. unfold u8. rewrite <-Hr.
    apply Z.bits_inj'. intros i Hi. rewrite !Z.land_spec. destruct (decide (i < 8)).
    + by rewrite Z.mod_pow2_bits_low by lia.
    + change 15 with (Z.ones 4). rewrite Z.ones_spec_high by lia. by rewrite !andb_false_r.
Qed.

Lemma Unpack_id `{CodecLaws} p m :
  Unpack p = Ok m →
  (12 ≤ length p)%nat ∧ msg_wf m ∧ Uint16 p = Some m.(Id) ∧
  0 ≤ m.(Opcode) < 16 ∧ 0 ≤ m.(Rcode_) < 16.
Proof.
  intros (Hwf & id & bits & Hu & Hm)%Unpack_header. unfold unpackMsgHdr in Hu.
  destruct (Nat.ltb_spec (length p) 12); [done|].
  destruct (Uint16 p) as [id'|] eqn:Hid; [|done]. cbn in Hu.
  destruct (Uint16 (drop 2 p)); [|done]. cbn in Hu. injection Hu as -> ->.
  split_and!; try done.
  - by rewrite Hm.
  - rewrite Hm. cbn. apply land_15_range.
  - rewrite Hm. cbn. apply land_15_range.
  - rewrite Hm. cbn. apply land_15_range.
  - rewrite Hm. cbn. apply land_15_range.
Qed.

(** ** A codec that carries the header and one question name *)

Definition tiny_body (m : Msg) : bytes :=
  match m.(Questions) with q :: _ => u8 <$> q.(qn_Name) | [] => [] end.

#[local] Instance tiny_codec : Codec := {
  Pack m := Ok (packMsgHdr m ++ tiny_body m);
  Unpack p :=
    match unpackMsgHdr p with
    | None => Err (EMsg "dns: overflow unpacking uint16")
    | Some (id, bits) =>
        let q := match p !! 5%nat with Some 0 => [] | _ =>
          [{| qn_Name := drop 12 p; Qtype := TypeA; Qclass := ClassINET |}] end in
        Ok (setHdr id bits (empty_Msg <| Questions := q |>))
    end
}.

#[local] Instance tiny_codec_laws : CodecLaws.
Proof.
  split.
  - done.
  - intros p. cbn. by destruct (unpackMsgHdr p) as [[??]|].
  - intros m p [= <-]. eexists. split; [done|]. unfold tiny_body.
    destruct m.(Questions) as [|q ?]; [constructor|].
    apply Forall_fmap, list.Forall_forall. intros x _. unfold compose, is_byte, u8.
    apply (Z.mod_pos_bound _ (2 ^ 8)). lia.
  - intros p m. cbn. destruct (unpackMsgHdr p) as [[id bits]|] eqn:Hu; [|done].
    intros [= <-]. split; [constructor|]. by exists id, bits.
Qed.
