(* ===== verification/DnsUtils.v ===== *)
(** dnsutils.go: synthesised responses, raw header access, names, TTLs, EDNS0
    padding, TXT unescaping, and the exchange used to fetch certificates. *)
From S2P Require Import Prelude.
From S2P Require Import GoStrings.
From S2P Require Import Common.
From S2P Require Import ServerTypes.
From S2P Require Import DnsMsg.

(** Durations and instants are in nanoseconds. *)
Definition Second : Z := 1000000000.

(** * Responses *)

Definition EmptyResponseFromMessage (srcMsg : Msg) : Out Msg :=
  let dstMsg := srcMsg <| Compress := true |> <| Answer := [] |> <| Ns := [] |> <| Extra := [] |> in
  let dstMsg := dstMsg <| Questions := srcMsg.(Questions) |> <| Response := true |> in
  let dstMsg := if srcMsg.(RecursionDesired) then dstMsg <| RecursionAvailable := true |> else dstMsg in
  let dstMsg := dstMsg <| RecursionDesired := false |> <| CheckingDisabled := false |>
                       <| AuthenticatedData := false |> in
  let! edns0 := IsEdns0 srcMsg in
  match edns0 with
  | Some (opt, _) => Ok (SetEdns0 dstMsg (UDPSize opt) (Do opt))
  | None => Ok dstMsg
  end.

Section Truncated.
Context `{Codec}.

Definition TruncatedResponse (packet : bytes) : Out bytes :=
  let! srcMsg := Unpack packet in
  let! dstMsg := EmptyResponseFromMessage srcMsg in
  Pack (dstMsg <| Truncated := true |>).
End Truncated.

Definition hinfo_cpu : bytes := str "This query has been locally blocked".
Definition hinfo_os : bytes := str "by dnscrypt-proxy".

(** An address is absent when it is the empty list, Go's nil [net.IP]. *)
Definition RefusedResponseFromMessage (srcMsg : Msg) (refusedCode : bool) (ipv4 ipv6 : IP) (ttl : Z)
    : Out Msg :=
  let! dstMsg := EmptyResponseFromMessage srcMsg in
  if refusedCode then Ok (dstMsg <| Rcode_ := RcodeRefused |>)
  else
    let dstMsg := dstMsg <| Rcode_ := RcodeSuccess |> in
    match srcMsg.(Questions) with
    | [] => Ok dstMsg
    | question :: _ =>
        let name := question.(qn_Name) in
        let hinfo := {| Hdr := inet name TypeHINFO ttl; Data := rHINFO hinfo_cpu hinfo_os |} in
        let answer :=
          if negb (bool_decide (ipv4 = [])) && (question.(Qtype) =? TypeA) then
            if bool_decide (To4 ipv4 = []) then hinfo
            else {| Hdr := inet name TypeA ttl; Data := rA (To4 ipv4) |}
          else if negb (bool_decide (ipv6 = [])) && (question.(Qtype) =? TypeAAAA) then
            if bool_decide (To16 ipv6 = []) then hinfo
            else {| Hdr := inet name TypeAAAA ttl; Data := rAAAA (To16 ipv6) |}
          else hinfo in
        Ok (dstMsg <| Answer := [answer] |>)
    end.

(** * Raw packets *)

Definition HasTCFlag (packet : bytes) : Out bool :=
  let! b := orPanic (index packet 2) in Ok (Z.land b 2 =? 2).

Definition TransactionID (packet : bytes) : Out Z :=
  let! hd := orPanic (slice packet 0 2) in orPanic (Uint16 hd).

Definition SetTransactionID (packet : bytes) (tid : Z) : Out bytes :=
  let! _ := orPanic (slice packet 0 2) in Ok (PutUint16 tid ++ drop 2 packet).

Definition Rcode (packet : bytes) : Out Z :=
  let! b := orPanic (index packet 3) in Ok (Z.land b 0xf).

(** * Names *)

Definition NormalizeRawQName (name : bytes) : bytes :=
  (λ c, if (65 <=? c) && (c <=? 90) then c + 32 else c) <$> name.

Definition isUpper (c : Z) : bool := (65 <=? c) && (c <=? 90).

(** The first loop of [NormalizeQName]: [None] if a byte is not ASCII, otherwise
    whether an upper-case letter was seen. *)
Fixpoint has_upper (s : bytes) (acc : bool) : option bool :=
  match s with
  | [] => Some acc
  | c :: s => if 0x80 <=? c then None else has_upper s (acc || isUpper c)
  end.

Definition NormalizeQName (s : bytes) : Out bytes :=
  if bool_decide (s = [] ∨ s = str ".") then Ok (str ".")
  else
    let s := TrimSuffix s (str ".") in
    match has_upper s false with
    | None => Err (EMsg "Query name is not an ASCII string")
    | Some false => Ok s
    | Some true => Ok ((λ c, if isUpper c then c + 32 else c) <$> s)
    end.

(** * TTLs *)

(** The loops [if rr.Header().Ttl < ttl { ttl = rr.Header().Ttl }]. *)
Definition lowest_ttl (ttl : Z) (rrs : list RR) : Z :=
  foldl (λ ttl rr, if rr.(Hdr).(Ttl) <? ttl then rr.(Hdr).(Ttl) else ttl) ttl rrs.

Definition getMinTTL (msg : Msg) (minTTL maxTTL cacheNegMinTTL cacheNegMaxTTL : Z) : Z :=
  let rc := msg.(Rcode_) in
  if (negb (rc =? RcodeSuccess) && negb (rc =? RcodeNameError)) ||
     ((length msg.(Answer) =? 0)%nat && (length msg.(Ns) =? 0)%nat)
  then cacheNegMinTTL * Second
  else
    let ttl := if rc =? RcodeSuccess then maxTTL else cacheNegMaxTTL in
    let ttl := if negb (length msg.(Answer) =? 0)%nat
               then lowest_ttl ttl msg.(Answer) else lowest_ttl ttl msg.(Ns) in
    let ttl := if rc =? RcodeSuccess
               then if ttl <? minTTL then minTTL else ttl
               else if ttl <? cacheNegMinTTL then cacheNegMinTTL else ttl in
    ttl * Second.

Definition cap_ttl (ttl : Z) (rr : RR) : RR :=
  if ttl <? rr.(Hdr).(Ttl) then set_Ttl ttl rr else rr.

Definition setMaxTTL (msg : Msg) (ttl : Z) : Msg :=
  msg <| Answer := cap_ttl ttl <$> msg.(Answer) |>
      <| Ns := cap_ttl ttl <$> msg.(Ns) |>
      <| Extra := (λ rr, if is_OPT rr then rr else cap_ttl ttl rr) <$> msg.(Extra) |>.

(** The TTL written by [updateTTL] for a remaining duration [until]. *)
Definition ttl_of (until : Z) : Z :=
  if 0 <? until then
    let ttl := u32 (until / Second) in
    if Second / 2 <=? until - ttl * Second then u32 (ttl + 1) else ttl
  else 0.

Definition updateTTL (msg : Msg) (expiration now : Z) : Msg :=
  let ttl := ttl_of (expiration - now) in
  msg <| Answer := set_Ttl ttl <$> msg.(Answer) |>
      <| Ns := set_Ttl ttl <$> msg.(Ns) |>
      <| Extra := (λ rr, if is_OPT rr then rr else set_Ttl ttl rr) <$> msg.(Extra) |>.

(** * EDNS0 options *)

Definition is_padding (o : EDNS0) : bool := Option_ o =? EDNS0PADDING.

Definition has_padding (options : list EDNS0) : bool := existsb is_padding options.

(** Writes the options of the record [IsEdns0] returns. *)
Definition set_options (m : Msg) (options : list EDNS0) : Msg :=
  match opt_position m.(Extra) with
  | Some i => m <| Extra := alter (λ rr, {| Hdr := rr.(Hdr); Data := rOPT options |}) i m.(Extra) |>
  | None => m
  end.

Section Padding.
Context `{Codec}.

Definition hasEDNS0Padding (packet : bytes) : Out bool :=
  let! msg := Unpack packet in
  let! edns0 := IsEdns0 msg in
  match edns0 with
  | Some (_, options) => Ok (has_padding options)
  | None => Ok false
  end.

(** The message after the call and the packet to send. *)
Definition addEDNS0PaddingIfNoneFound (msg : Msg) (unpaddedPacket : bytes) (paddingLen : Z)
    : Out (Msg * Out bytes) :=
  let! edns0 := IsEdns0 msg in
  let! (msg, edns0) :=
    match edns0 with
    | Some (_, options) => Ok (msg, Some options)
    | None =>
        let msg := SetEdns0 msg (u16 MaxDNSPacketSize) false in
        let! edns0 := IsEdns0 msg in
        Ok (msg, snd <$> edns0)
    end in
  match edns0 with
  | None => Ok (msg, Ok unpaddedPacket)
  | Some options =>
      if has_padding options then Ok (msg, Ok unpaddedPacket)
      else if paddingLen <? 0 then Panic
      else
        let ext := EDNS0_PADDING (replicate (Z.to_nat paddingLen) 88) in
        let msg := set_options msg (options ++ [ext]) in
        Ok (msg, Pack msg)
  end.
End Padding.

Definition removeEDNS0Options (msg : Msg) : Out (Msg * bool) :=
  let! edns0 := IsEdns0 msg in
  match edns0 with
  | None => Ok (msg, false)
  | Some _ => Ok (set_options msg [], true)
  end.

(** * TXT records *)

Definition isDigit (b : Z) : bool := (48 <=? b) && (b <=? 57).

(** Arithmetic on [byte]. *)
Definition dddToByte (s0 s1 s2 : Z) : Z :=
  u8 (u8 (u8 (u8 (s0 - 48) * 100) + u8 (u8 (s1 - 48) * 10)) + u8 (s2 - 48)).

(** The byte an escaped letter stands for. *)
Definition unescape (a : Z) : Z :=
  if a =? 116 then 9 else if a =? 114 then 13 else if a =? 110 then 10 else a.

(** The loop of [PackTXTRR] on the bytes left. *)
Fixpoint PackTXTRR (bs : bytes) : bytes :=
  match bs with
  | [] => []
  | 92 :: [] => []
  | 92 :: (a :: rest) =>
      match rest with
      | b :: c :: rest' =>
          if isDigit a && isDigit b && isDigit c then dddToByte a b c :: PackTXTRR rest'
          else unescape a :: PackTXTRR rest
      | _ => unescape a :: PackTXTRR rest
      end
  | a :: rest => a :: PackTXTRR rest
  end.

(** How miekg/dns presents a TXT byte ([unpackString], [escapeByte]). *)
Definition digit (d : Z) : Z := 48 + d.
Definition escapeByte (b : Z) : bytes := [92; digit (b / 100); digit (b / 10 mod 10); digit (b mod 10)].
Definition writeTXTStringByte (b : Z) : bytes :=
  if (b =? 34) || (b =? 92) then [92; b]
  else if (b <? 32) || (126 <? b) then escapeByte b
  else [b].
Definition txt_string (bs : bytes) : bytes := bs ≫= writeTXTStringByte.

(** * Exchanges *)

Definition anonymizedDNSHeader : bytes :=
  [0xff; 0xff; 0xff; 0xff; 0xff; 0xff; 0xff; 0xff; 0x00; 0x00].

(** [prepareForRelay] (proxy.go): the query as sent to a relay. *)
Definition prepareForRelay (ip : IP) (port : Z) (encryptedQuery : bytes) : bytes :=
  anonymizedDNSHeader ++ To16 ip ++ PutUint16 (u16 port) ++ encryptedQuery.

Record DNSExchangeResponse := {
  response : option Msg;
  ex_rtt : Z;
  priority : Z;
  ex_fragmentsBlocked : bool;
  ex_err : option error
}.

#[export] Instance DNSExchangeResponse_eq_dec : EqDecision DNSExchangeResponse.
Proof. solve_decision. Defined.

Definition failed (e : error) : DNSExchangeResponse :=
  {| response := None; ex_rtt := 0; priority := 0; ex_fragmentsBlocked := false; ex_err := Some e |}.

(** The network, as seen by one exchange: name resolution, a UDP round trip to
    an address with its duration, and a TCP connection on which a message has been
    written, with the time until the response has been read. *)
Record Network := {
  ResolveAddr : string → bytes → Out Addr;
  exchangeUDP : Addr → bytes → Out (bytes * Z);
  exchangeTCP : Addr → bytes → Out (conn * Z)
}.

(** The padding record [_dnsExchange] puts in the additional section. Its
    header only has its name set. *)
Definition padding_OPT (padding : Z) : RR := {|
  Hdr := {| Name := str "."; Rrtype := 0; Class_ := 0; Ttl := 0 |};
  Data := rOPT [EDNS0_PADDING (replicate (Z.to_nat padding) 0)] |}.

Section Exchange.
Context `{Codec} (net : Network).

Definition lift {A} (m : Out A) (k : A → Out DNSExchangeResponse) : Out DNSExchangeResponse :=
  match m with
  | Ok a => k a
  | Err e => Ok (failed e)
  | Panic => Panic
  | Fatal => Fatal
  end.

Definition answered (packet : bytes) (rtt : Z) : Out DNSExchangeResponse :=
  lift (Unpack packet) (λ msg,
    Ok {| response := Some msg; ex_rtt := rtt; priority := 0;
          ex_fragmentsBlocked := false; ex_err := None |}).

Definition dnsExchange (proto : string) (query : Msg) (serverAddress : bytes)
    (relay : option DNSCryptRelay) (paddedLen : Z) : Out DNSExchangeResponse :=
  if (proto =? "udp")%string then
    let! question := orPanic (head query.(Questions)) in
    let qNameLen := len question.(qn_Name) in
    let padding := if qNameLen <? paddedLen then paddedLen - qNameLen else 0 in
    let query := if 0 <? padding then query <| Extra := [padding_OPT padding] |> else query in
    lift (Pack query) (λ binQuery,
    lift (ResolveAddr net proto serverAddress) (λ udpAddr,
    let '(binQuery, upstreamAddr) :=
      match relay with
      | Some r => (prepareForRelay udpAddr.(addr_IP) udpAddr.(addr_Port) binQuery, r.(RelayUDPAddr))
      | None => (binQuery, udpAddr)
      end in
    lift (exchangeUDP net upstreamAddr binQuery) (λ '(packet, rtt),
    answered (take (Z.to_nat MaxDNSPacketSize) packet) rtt)))
  else
    lift (Pack query) (λ binQuery,
    lift (ResolveAddr net proto serverAddress) (λ tcpAddr,
    let '(binQuery, upstreamAddr) :=
      match relay with
      | Some r => (prepareForRelay tcpAddr.(addr_IP) tcpAddr.(addr_Port) binQuery, r.(RelayTCPAddr))
      | None => (binQuery, tcpAddr)
      end in
    lift (PrefixWithSize binQuery) (λ binQuery,
    lift (exchangeTCP net upstreamAddr binQuery) (λ '(c, rtt),
    match ReadPrefixed c with
    | None => Ok (failed ETimeout)
    | Some r => lift r (λ packet, answered packet rtt)
    end)))).

(** One attempt: the copy of the query, its padded length and its priority. *)
Record Attempt := { at_query : Msg; at_paddedLen : Z; at_priority : Z }.

(** The attempts started by [DNSExchange], in order; [options] numbers them and
    offsets the identifiers. *)
Definition attempts (query : Msg) (tryFragmentsSupport : bool) : list Attempt :=
  let copy options := query <| Id := u16 (query.(Id) + options) |> in
  if tryFragmentsSupport then
    [0; 2; 4] ≫= λ tries,
    [{| at_query := copy tries; at_paddedLen := 1500; at_priority := 0 |};
     {| at_query := copy (tries + 1); at_paddedLen := 480; at_priority := 1 |}]
  else
    (λ options, {| at_query := copy options; at_paddedLen := 480; at_priority := 1 |}) <$> [0; 1; 2].

(** What an attempt sends on the channel when it is not canceled. *)
Definition run_attempt (proto : string) (serverAddress : bytes) (relay : option DNSCryptRelay)
    (a : Attempt) : Out DNSExchangeResponse :=
  let! r := dnsExchange proto a.(at_query) serverAddress relay a.(at_paddedLen) in
  Ok {| response := r.(response); ex_rtt := r.(ex_rtt); priority := a.(at_priority);
        ex_fragmentsBlocked := a.(at_priority) =? 1; ex_err := r.(ex_err) |}.
End Exchange.

(** The selection loop over the responses in order of arrival; it stops at the
    first success of priority 0. *)
Fixpoint select_best (arrivals : list DNSExchangeResponse) (best : option DNSExchangeResponse)
    (err : option error) : option DNSExchangeResponse * option error :=
  match arrivals with
  | [] => (best, err)
  | r :: arrivals =>
      match r.(ex_err) with
      | Some e => select_best arrivals best (Some e)
      | None =>
          let better :=
            match best with
            | None => true
            | Some b => (r.(priority) <? b.(priority)) ||
                        ((r.(priority) =? b.(priority)) && (r.(ex_rtt) <? b.(ex_rtt)))
            end in
          if better then
            if r.(priority) =? 0 then (Some r, err) else select_best arrivals (Some r) err
          else select_best arrivals best err
      end
  end.

(** [DNSExchange]. [arrivals relay] are the responses in order of arrival when
    the attempts go through [relay]. Without success the direct connection is tried
    if the configuration allows it. *)
Definition DNSExchange (anonDirectCertFallback : bool) (relay : option DNSCryptRelay)
    (arrivals : option DNSCryptRelay → list DNSExchangeResponse)
    : Out (option Msg * Z * bool) :=
  let finish err := Err (default (EMsg "Unable to reach the server") err) in
  let found b := Ok (b.(response), b.(ex_rtt), b.(ex_fragmentsBlocked)) in
  match select_best (arrivals relay) None None with
  | (Some b, _) => found b
  | (None, err) =>
      match relay with
      | None => finish err
      | Some _ =>
          if negb anonDirectCertFallback then finish err
          else
            match select_best (arrivals None) None None with
            | (Some b, _) => found b
            | (None, err) => finish err
            end
      end
  end.

(** * Lemmas *)

(** A header-only copy of [m] turned into a response, with an OPT record that
    repeats the size and DO bit of the query's. *)
Record is_empty_response (m r : Msg) : Prop := {
  er_id : r.(Id) = m.(Id);
  er_opcode : r.(Opcode) = m.(Opcode);
  er_response : r.(Response) = true;
  er_truncated : r.(Truncated) = m.(Truncated);
  er_rcode : r.(Rcode_) = m.(Rcode_);
  er_rd : r.(RecursionDesired) = false;
  er_ra : r.(RecursionAvailable) = m.(RecursionDesired) || m.(RecursionAvailable);
  er_ad : r.(AuthenticatedData) = false;
  er_cd : r.(CheckingDisabled) = false;
  er_questions : r.(Questions) = m.(Questions);
  er_answer : r.(Answer) = [];
  er_ns : r.(Ns) = [];
  er_extra :
    (IsEdns0 m = Ok None ∧ r.(Extra) = []) ∨
    (∃ opt o, IsEdns0 m = Ok (Some (opt, o)) ∧ r.(Extra) = [new_OPT (UDPSize opt) (Do opt) []])
}.

Lemma EmptyResponse_ok m :
  msg_wf m → ∃ r, EmptyResponseFromMessage m = Ok r ∧ is_empty_response m r.
Proof.
  intros Hwf. unfold EmptyResponseFromMessage.
  destruct (IsEdns0_wf m Hwf) as [(opt & o & Ho & _)|[Ho _]]; rewrite Ho; cbn [obind];
    (eexists; split; [reflexivity|]); destruct m.(RecursionDesired) eqn:Hrd;
    (split; cbn; rewrite ?Hrd, ?Ho; try done; [by right; eexists _, _| ..]) ||
    (split; cbn; rewrite ?Hrd, ?Ho; try done; by left).
Qed.

Lemma new_OPT_wf size do o : opt_wf (new_OPT size do o).
Proof. intros _. by eexists. Qed.

Lemma empty_response_wf m r : is_empty_response m r → msg_wf r.
Proof.
  intros [? ? ? ? ? ? ? ? ? ? ? ? Hx]. unfold msg_wf.
  destruct Hx as [[_ ->]|(opt & o & _ & ->)]; [constructor|].
  apply Forall_singleton, new_OPT_wf.
Qed.

Lemma HasTCFlag_bit p b : p !! 2%nat = Some b → HasTCFlag p = Ok (Z.testbit b 1).
Proof.
  intros Hb. unfold HasTCFlag, index. rewrite decide_True by lia.
  change (Z.to_nat 2) with 2%nat. rewrite Hb. cbn [orPanic obind]. f_equal.
  rewrite <-bit_testbit by lia. unfold bit. change (Z.shiftl 1 1) with 2.
  assert (Z.land b 2 = 0 ∨ Z.land b 2 = 2) as [-> | ->]; [|done..].
  destruct (Z.testbit b 1) eqn:E; [right|left]; apply Z.bits_inj'; intros i Hi;
    rewrite Z.land_spec; change 2 with (2 ^ 1); rewrite Z.pow2_bits_eqb by lia;
    destruct (Z.eqb_spec 1 i) as [<-|]; rewrite ?E, ?Z.bits_0, ?andb_false_r; done.
Qed.

Lemma TransactionID_Uint16 p i : Uint16 p = Some i → TransactionID p = Ok i.
Proof.
  destruct p as [|a [|b p]]; [done..|]. intros Hi. unfold TransactionID.
  rewrite slice_ok by (len_lia || lia). injection Hi as <-. reflexivity.
Qed.

Lemma lowest_ttl_spec ttl rrs :
  lowest_ttl ttl rrs ≤ ttl ∧ Forall (λ rr, lowest_ttl ttl rrs ≤ rr.(Hdr).(Ttl)) rrs ∧
  (lowest_ttl ttl rrs = ttl ∨ ∃ rr, rr ∈ rrs ∧ lowest_ttl ttl rrs = rr.(Hdr).(Ttl)).
Proof.
  revert ttl. induction rrs as [|rr rrs IH]; intros ttl; cbn.
  { split_and!; [lia|constructor|by left]. }
  specialize (IH (if Ttl (Hdr rr) <? ttl then Ttl (Hdr rr) else ttl)) as (H1 & H2 & H3).
  unfold lowest_ttl in *. destruct (Z.ltb_spec (Ttl (Hdr rr)) ttl); split_and!; try lia.
  - apply Forall_cons_2; [lia|done].
  - right. destruct H3 as [H3|(x & Hx & H3)].
    + exists rr. split; [by left|done].
    + exists x. split; [by right|done].
  - apply Forall_cons_2; [lia|done].
  - destruct H3 as [H3|(x & Hx & H3)]; [by left|]. right. exists x. split; [by right|done].
Qed.

Lemma ttl_of_round until :
  0 ≤ until → until < 4294967295 * Second →
  0 ≤ ttl_of until ∧ Z.abs (2 * (ttl_of until * Second - until)) ≤ Second.
Proof.
  intros H0 H1. unfold ttl_of, u32. change (Second / 2) with 500000000.
  change (2 ^ 32) with 4294967296. unfold Second in *.
  destruct (Z.ltb_spec 0 until); [|lia].
  pose proof (Z.div_mod until 1000000000). pose proof (Z.mod_pos_bound until 1000000000).
  assert (0 ≤ until / 1000000000 < 4294967295).
  { split; [apply Z.div_pos; lia|apply Z.div_lt_upper_bound; lia]. }
  rewrite (Z.mod_small (until / 1000000000)) by lia.
  destruct (Z.leb_spec 500000000 (until - until / 1000000000 * 1000000000)); [|lia].
  rewrite Z.mod_small by lia. lia.
Qed.

Lemma has_upper_spec s acc :
  match has_upper s acc with
  | None => ∃ c, c ∈ s ∧ 0x80 ≤ c
  | Some b => Forall (λ c, c < 0x80) s ∧ b = acc || existsb isUpper s
  end.
Proof.
  revert acc. induction s as [|c s IH]; intros acc; cbn; [split; [constructor|by rewrite orb_false_r]|].
  destruct (Z.leb_spec 128 c).
  - exists c. split; [by left|done].
  - specialize (IH (acc || isUpper c)). destruct (has_upper s _).
    + destruct IH as [? ->]. split; [by constructor|]. by rewrite orb_assoc.
    + destruct IH as (x & ? & ?). exists x. split; [by right|done].
Qed.

Lemma lower_no_upper s :
  existsb isUpper s = false → (λ c, if isUpper c then c + 32 else c) <$> s = s.
Proof.
  induction s as [|c s IH]; cbn; [done|]. intros [-> Hs]%orb_false_iff. by rewrite IH.
Qed.

(** Digits of an escaped byte decode to it. *)
Lemma dddToByte_digits b :
  is_byte b → dddToByte (digit (b / 100)) (digit (b / 10 mod 10)) (digit (b mod 10)) = b.
Proof.
  unfold is_byte. intros Hb.
  assert (∀ n : nat, (n < 256)%nat → dddToByte (digit (Z.of_nat n / 100)) (digit (Z.of_nat n / 10 mod 10)) (digit (Z.of_nat n mod 10)) = Z.of_nat n) as H.
  { intros n Hn. apply Nat.ltb_lt in Hn. revert n Hn.
    assert (forallb (λ n, dddToByte (digit (Z.of_nat n / 100)) (digit (Z.of_nat n / 10 mod 10)) (digit (Z.of_nat n mod 10)) =? Z.of_nat n) (seq 0 256) = true) as Hall by by vm_compute.
    rewrite forallb_forall in Hall. intros n Hn%Nat.ltb_lt. apply Z.eqb_eq, Hall, in_seq. lia. }
  specialize (H (Z.to_nat b)). rewrite Z2Nat.id in H by lia. apply H. lia.
Qed.

Lemma isDigit_digit d : 0 ≤ d < 10 → isDigit (digit d) = true.
Proof. intros. unfold isDigit, digit. apply andb_true_iff. rewrite !Z.leb_le. lia. Qed.

Lemma PackTXTRR_byte b r :
  is_byte b → PackTXTRR (writeTXTStringByte b ++ r) = b :: PackTXTRR r.
Proof.
  unfold is_byte, writeTXTStringByte. intros Hb.
  destruct (Z.eqb_spec b 34) as [->|]; [by destruct r as [|? [|? ?]]|].
  destruct (Z.eqb_spec b 92) as [->|]; [by destruct r as [|? [|? ?]]|]. cbn [orb].
  destruct ((b <? 32) || (126 <? b)) eqn:E.
  - cbn [escapeByte app PackTXTRR]. rewrite !isDigit_digit.
    + cbn [andb]. by rewrite dddToByte_digits.
    + apply Z.mod_pos_bound. lia.
    + apply Z.mod_pos_bound. lia.
    + split; [apply Z.div_pos|apply Z.div_lt_upper_bound]; lia.
  - cbn [app]. destruct b as [|p|p]; [done| |lia].
    do 8 (destruct p as [p|p|]; try done).
Qed.

(** A success in [arrivals], and the order on successes. *)
Definition success (r : DNSExchangeResponse) : Prop := r.(ex_err) = None.

Definition no_worse (a b : DNSExchangeResponse) : Prop :=
  a.(priority) < b.(priority) ∨ (a.(priority) = b.(priority) ∧ (a.(priority) = 0 ∨ a.(ex_rtt) ≤ b.(ex_rtt))).

Lemma select_best_spec arrivals best err :
  Forall (λ r, 0 ≤ r.(priority)) arrivals →
  (∀ b, best = Some b → 0 < b.(priority)) →
  match select_best arrivals best err with
  | (Some b, _) =>
      (best = Some b ∨ b ∈ arrivals ∧ success b) ∧
      (∀ b0, best = Some b0 → no_worse b b0) ∧
      (∀ r, r ∈ arrivals → success r → no_worse b r)
  | (None, e) => best = None ∧ Forall (λ r, ex_err r ≠ None) arrivals ∧
      (arrivals ≠ [] → e ≠ None)
  end.
Proof.
  unfold success, no_worse. revert best err. induction arrivals as [|r arrivals IH]; intros best err Hp Hb; cbn.
  { destruct best as [b|]; [|done]. split_and!; [by left| |set_solver].
    intros ? [= <-]. lia. }
  apply list.Forall_cons in Hp as [Hr Hp].
  destruct (ex_err r) as [e|] eqn:He.
  { specialize (IH best (Some e) Hp Hb). destruct (select_best arrivals best (Some e)) as [[b|] e'] eqn:Hs.
    - destruct IH as (H1 & H2 & H3). split_and!; [set_solver|done|].
      intros x [->|Hx]%elem_of_cons Hsx; [congruence|auto].
    - destruct IH as (H1 & H2 & H3). split_and!; [done|constructor; [congruence|done]|].
      intros _. destruct arrivals; [cbn in Hs; congruence|]. by apply H3. }
  set (better := match best with None => true | Some b => _ end).
  assert (Hbetter : if better then ∀ b0, best = Some b0 → r.(priority) < b0.(priority) ∨
      (r.(priority) = b0.(priority) ∧ r.(ex_rtt) < b0.(ex_rtt))
    else ∃ b0, best = Some b0 ∧ (b0.(priority) < r.(priority) ∨
      (b0.(priority) = r.(priority) ∧ b0.(ex_rtt) ≤ r.(ex_rtt)))).
  { unfold better. destruct best as [b|]; [|done].
    destruct (Z.ltb_spec r.(priority) b.(priority)); cbn; [intros ? [= <-]; by left|].
    destruct (Z.eqb_spec r.(priority) b.(priority)); cbn; [|exists b; split; [done|lia]].
    destruct (Z.ltb_spec r.(ex_rtt) b.(ex_rtt)); [intros ? [= <-]; by right|].
    exists b. split; [done|lia]. }
  clearbody better. destruct better.
  - destruct (Z.eqb_spec r.(priority) 0) as [Hz|Hz].
    + split_and!; [right; split; [by left|done]| |].
      * intros b0 Hb0. specialize (Hbetter b0 Hb0). lia.
      * intros x [->|Hx]%elem_of_cons _; [lia|]. rewrite list.Forall_forall in Hp.
        specialize (Hp x Hx). lia.
    + specialize (IH (Some r) err Hp).
      destruct (select_best arrivals (Some r) err) as [[b|] e'].
      * destruct IH as (H1 & H2 & H3); [intros ? [= <-]; lia|].
        specialize (H2 r eq_refl). split_and!.
        -- destruct H1 as [[= <-]|[? ?]]; right; (split; [|done]); [by left|by right].
        -- intros b0 Hb0. specialize (Hbetter b0 Hb0). lia.
        -- intros x [->|Hx]%elem_of_cons Hsx; [done|auto].
      * by destruct IH as (? & _); [intros ? [= <-]; lia|].
  - destruct Hbetter as (b0 & -> & Hb0). specialize (IH (Some b0) err Hp Hb).
    specialize (Hb b0 eq_refl).
    destruct (select_best arrivals (Some b0) err) as [[b|] e'].
    + destruct IH as (H1 & H2 & H3). specialize (H2 b0 eq_refl). split_and!.
      * destruct H1 as [?|[? ?]]; [by left|]. right. split; [by right|done].
      * intros ? [= <-]. done.
      * intros x [->|Hx]%elem_of_cons Hsx; [lia|auto].
    + by destruct IH as (? & _).
Qed.

Lemma select_best_err arrivals best err b e :
  select_best arrivals best err = (b, Some e) →
  err = Some e ∨ ∃ r, r ∈ arrivals ∧ r.(ex_err) = Some e.
Proof.
  revert best err. induction arrivals as [|r arrivals IH]; intros best err; cbn.
  { intros [= _ ->]. by left. }
  destruct (ex_err r) as [e0|] eqn:He.
  - intros [[= ->]|(x & Hx & Hxe)]%IH; right; [exists r|exists x]; (split; [|done]); [by left|by right].
  - destruct (match best with None => true | Some b0 => _ end); [destruct (priority r =? 0)|].
    + intros [= _ ->]. by left.
    + intros [?|(x & Hx & Hxe)]%IH; [by left|]. right. exists x. split; [by right|done].
    + intros [?|(x & Hx & Hxe)]%IH; [by left|]. right. exists x. split; [by right|done].
Qed.

(** What a relay reads: the fixed header, the server's address and port, and
    the query to forward. *)
Definition relay_parse (packet : bytes) : option (IP * Z * bytes) :=
  if decide (take 10 packet = anonymizedDNSHeader ∧ (28 ≤ length packet)%nat) then
    port ← Uint16 (drop 26 packet);
    Some (take 16 (drop 10 packet), port, drop 28 packet)
  else None.

(** * Properties *)

(** A truncated response made from any packet that parses carries the
    packet's transaction id, has the TC and QR bits set and an answer to no
    question but the client's; making it never panics. *)
Theorem TruncatedResponse_spec `{CodecLaws} (p : bytes) :
  Forall is_byte p →
  TruncatedResponse p ≠ Panic ∧
  ∀ q, TruncatedResponse p = Ok q →
    HasTCFlag q = Ok true ∧ TransactionID q = TransactionID p ∧
    ∃ b, q !! 2%nat = Some b ∧ Z.testbit b 7 = true.
Proof.
  intros Hp. unfold TruncatedResponse. destruct (Unpack p) as [m| | |] eqn:Hu; cbn [obind]; try done.
  2:{ by destruct (Unpack_no_panic p) as [? _]. }
  destruct (Unpack_id _ _ Hu) as (_ & Hwf & Hid & Hop & _).
  destruct (EmptyResponse_ok m Hwf) as (r & -> & Hr). cbn [obind].
  pose proof (empty_response_wf _ _ Hr) as Hrwf.
  split; [by apply (Pack_no_panic (r <| Truncated := true |>))|].
  intros q (_ & Hb & Hq & (b & Hb2 & Htc & Hqr) & _)%Pack_wire. cbn [Id Truncated Response set_field] in *.
  split_and!.
  - rewrite (HasTCFlag_bit _ _ Hb2). by rewrite Htc.
  - rewrite (TransactionID_Uint16 _ _ Hid), (TransactionID_Uint16 _ _ Hq), (er_id _ _ Hr).
    f_equal. unfold u16. apply Z.mod_small. by apply (Uint16_range p).
  - exists b. split; [done|]. rewrite Hqr, (er_response _ _ Hr). apply orb_true_r.
Qed.

Example TruncatedResponse_spec_wit :
  ∃ q, @TruncatedResponse tiny_codec (replicate 12 7) = Ok q ∧ HasTCFlag q = Ok true.
Proof.
  eexists. split; [vm_compute; reflexivity|].
  apply (@TruncatedResponse_spec tiny_codec tiny_codec_laws (replicate 12 7)).
  - by apply (bool_decide_unpack _); vm_compute.
  - by vm_compute.
Defined.

(** The answer given for a blocked query. In the REFUSED mode it has that
    code and no record. Otherwise it has exactly one record, owned by the queried
    name and with the configured TTL: the configured IPv4 address for an A query,
    the configured IPv6 (or mapped) address for an AAAA query, and an HINFO record
    in every other case. The query's id, question and EDNS0 size are kept. *)
Theorem RefusedResponse_spec (m : Msg) (refused : bool) (ipv4 ipv6 : IP) (ttl : Z) q rest :
  msg_wf m → m.(Questions) = q :: rest →
  ∃ r, RefusedResponseFromMessage m refused ipv4 ipv6 ttl = Ok r ∧
    r.(Id) = m.(Id) ∧ r.(Questions) = m.(Questions) ∧ r.(Response) = true ∧ r.(Ns) = [] ∧
    (refused = true → r.(Rcode_) = RcodeRefused ∧ r.(Answer) = []) ∧
    (refused = false →
       r.(Rcode_) = RcodeSuccess ∧
       ∃ a, r.(Answer) = [a] ∧ a.(Hdr).(Name) = q.(qn_Name) ∧ a.(Hdr).(Ttl) = ttl ∧
         ((q.(Qtype) = TypeA ∧ a.(Data) = rA (To4 ipv4) ∧ length (To4 ipv4) = 4%nat) ∨
          (q.(Qtype) = TypeAAAA ∧ a.(Data) = rAAAA (To16 ipv6) ∧ length (To16 ipv6) = 16%nat) ∨
          a.(Data) = rHINFO hinfo_cpu hinfo_os)).
Proof.
  intros Hwf Hq. unfold RefusedResponseFromMessage.
  destruct (EmptyResponse_ok m Hwf) as (r & -> & []). cbn [obind]. rewrite Hq.
  destruct refused; (eexists; split; [reflexivity|]); cbn [Id Questions Response Ns Rcode_ Answer set_field];
    (split_and!; [congruence..|intros; done || by split|]); [done|].
  intros _. split; [done|]. eexists. split; [reflexivity|].
  destruct (negb (bool_decide (ipv4 = [])) && (Qtype q =? TypeA)) eqn:E4.
  { apply andb_true_iff in E4 as [_ E4%Z.eqb_eq].
    case_bool_decide as Hn; cbn [Hdr Data inet Name Ttl]; (split; [done|split; [done|]]); [by right; right|].
    left. split_and!; [done..|]. unfold To4 in *. case_ifs; [done| |done]. destruct_and!. len_lia. }
  clear E4. destruct (negb (bool_decide (ipv6 = [])) && (Qtype q =? TypeAAAA)) eqn:E6.
  { apply andb_true_iff in E6 as [_ E6%Z.eqb_eq].
    case_bool_decide as Hn; cbn [Hdr Data inet Name Ttl]; (split; [done|split; [done|]]); [by right; right|].
    right. left. split_and!; [done..|]. by apply To16_length. }
  cbn. split_and!; try done. by right; right.
Qed.

Example RefusedResponse_spec_wit :
  ∃ r a, RefusedResponseFromMessage
      (empty_Msg <| Questions := [{| qn_Name := str "x."; Qtype := TypeA; Qclass := ClassINET |}] |>)
      false [192; 0; 2; 1] [] 10 = Ok r ∧ r.(Answer) = [a].
Proof.
  destruct (RefusedResponse_spec
    (empty_Msg <| Questions := [{| qn_Name := str "x."; Qtype := TypeA; Qclass := ClassINET |}] |>)
    false [192; 0; 2; 1] [] 10 {| qn_Name := str "x."; Qtype := TypeA; Qclass := ClassINET |} [])
    as (r & Hr & _ & _ & _ & _ & _ & Ha); [constructor|done|].
  destruct (Ha eq_refl) as (_ & a & Haa & _). by exists r, a.
Defined.

(** The records [getMinTTL] looks at. *)
Definition ttl_records (m : Msg) : list RR :=
  match m.(Answer) with [] => m.(Ns) | _ => m.(Answer) end.

(** The time a response is cached. For a successful (resp. NXDOMAIN) response
    with records it lies between the configured (resp. negative) minimum and
    maximum, and exceeds no record's TTL except to reach the minimum; every other
    response is kept for the negative minimum. *)
Theorem getMinTTL_bounds (m : Msg) (minTTL maxTTL negMin negMax : Z) :
  minTTL ≤ maxTTL → negMin ≤ negMax →
  let d := getMinTTL m minTTL maxTTL negMin negMax in
  (ttl_records m ≠ [] → m.(Rcode_) = RcodeSuccess →
     minTTL * Second ≤ d ≤ maxTTL * Second ∧
     Forall (λ rr, d ≤ Z.max minTTL rr.(Hdr).(Ttl) * Second) (ttl_records m)) ∧
  (ttl_records m ≠ [] → m.(Rcode_) = RcodeNameError →
     negMin * Second ≤ d ≤ negMax * Second ∧
     Forall (λ rr, d ≤ Z.max negMin rr.(Hdr).(Ttl) * Second) (ttl_records m)) ∧
  (ttl_records m = [] ∨ (m.(Rcode_) ≠ RcodeSuccess ∧ m.(Rcode_) ≠ RcodeNameError) →
     d = negMin * Second).
Proof.
  intros Hmin Hneg. cbn zeta. unfold getMinTTL.
  assert (He : ((length m.(Answer) =? 0)%nat && (length m.(Ns) =? 0)%nat) = bool_decide (ttl_records m = [])).
  { unfold ttl_records. destruct m.(Answer); [|done]. by destruct m.(Ns). }
  assert (Hlt : ∀ t, (if negb (length m.(Answer) =? 0)%nat then lowest_ttl t m.(Answer)
                else lowest_ttl t m.(Ns)) = lowest_ttl t (ttl_records m)).
  { intros t. unfold ttl_records. by destruct m.(Answer). }
  rewrite Hlt, He. clear He Hlt. unfold Second.
  split_and!.
  - intros Hne ->. rewrite bool_decide_eq_false_2 by done. cbn.
    destruct (lowest_ttl_spec maxTTL (ttl_records m)) as (H1 & H2 & _).
    split; [destruct (Z.ltb_spec (lowest_ttl maxTTL (ttl_records m)) minTTL); lia|].
    eapply list.Forall_impl; [exact H2|]. cbn. intros rr Hrr.
    destruct (Z.ltb_spec (lowest_ttl maxTTL (ttl_records m)) minTTL); lia.
  - intros Hne ->. rewrite bool_decide_eq_false_2 by done. cbn.
    destruct (lowest_ttl_spec negMax (ttl_records m)) as (H1 & H2 & _).
    split; [destruct (Z.ltb_spec (lowest_ttl negMax (ttl_records m)) negMin); lia|].
    eapply list.Forall_impl; [exact H2|]. cbn. intros rr Hrr.
    destruct (Z.ltb_spec (lowest_ttl negMax (ttl_records m)) negMin); lia.
  - intros [H|[H1 H2]].
    + rewrite bool_decide_eq_true_2 by done. by rewrite orb_true_r.
    + by rewrite (proj2 (Z.eqb_neq _ _) H1), (proj2 (Z.eqb_neq _ _) H2).
Qed.

Example getMinTTL_bounds_wit :
  60 * Second ≤ getMinTTL (empty_Msg <| Answer := [{| Hdr := inet (str "x.") TypeA 5; Data := rA [1;2;3;4] |}] |>)
     60 86400 60 600 ≤ 86400 * Second.
Proof. apply getMinTTL_bounds; done || lia. Defined.

(** [NormalizeQName]. A name with a byte outside ASCII is an error; otherwise
    the result is the name in lower case without its final dot (["."] for the
    root), so names that differ by case or by a final dot get the same result. *)
Theorem NormalizeQName_spec (s : bytes) :
  Forall (λ c, 0 ≤ c) s →
  (NormalizeQName s = Err (EMsg "Query name is not an ASCII string") ↔ ¬ ascii s) ∧
  (ascii s → s ≠ [] → s ≠ str "." →
     NormalizeQName s = Ok (lowerASCII <$> TrimSuffix s (str "."))) ∧
  (s = [] ∨ s = str "." → NormalizeQName s = Ok (str ".")).
Proof.
  intros Hs. unfold NormalizeQName.
  assert (Hsplit : ∀ P : Z → Prop, P 46 → Forall P s ↔ Forall P (TrimSuffix s (str "."))).
  { intros P HP. unfold TrimSuffix. destruct (HasSuffix s (str ".")) eqn:E; [|done].
    apply HasSuffix_spec in E as [r ->]. rewrite length_app, Nat.add_sub, take_app_length, Forall_app.
    split; [tauto|]. intros; split; [done|]. by apply Forall_singleton. }
  pose proof (has_upper_spec (TrimSuffix s (str ".")) false) as Hu.
  assert (Hasc : ascii s ↔ Forall (λ c, c < 0x80) s).
  { unfold ascii. split; intros Ha; rewrite list.Forall_forall in *; intros c Hc;
      specialize (Ha c Hc); specialize (Hs c Hc); cbn in *; lia. }
  case_bool_decide as Hroot.
  { split_and!; [|naive_solver|done]. split; [done|]. intros Hn. exfalso. apply Hn, Hasc.
    destruct Hroot as [-> | ->]; [constructor|]. by apply Forall_singleton. }
  rewrite (Hsplit (λ c, c < 0x80)) in Hasc by lia.
  destruct (has_upper _ false) as [b|] eqn:Hb.
  - destruct Hu as [Ha Hbu]. split_and!; [|intros _ _ _|tauto].
    + split; [by destruct b|tauto].
    + destruct b; [done|]. f_equal. symmetry. by apply lower_no_upper.
  - destruct Hu as (c & Hc & Hc80). assert (¬ ascii s) as Hna.
    { rewrite Hasc, list.Forall_forall. intros Ha. specialize (Ha c Hc). cbn in Ha. lia. }
    split_and!; [done|tauto..].
Qed.

Example NormalizeQName_spec_wit :
  NormalizeQName (str "wWw.Example.COM.") = Ok (lowerASCII <$> TrimSuffix (str "wWw.Example.COM.") (str ".")).
Proof.
  apply NormalizeQName_spec; [|..|done|done]; by apply (bool_decide_unpack _); vm_compute.
Defined.

(** A TXT string survives presentation: unescaping what the DNS library
    shows for any byte string gives the bytes back, which is how certificates are
    recovered from TXT records. *)
Theorem PackTXTRR_txt_string (bs : bytes) :
  Forall is_byte bs → PackTXTRR (txt_string bs) = bs.
Proof.
  unfold txt_string. induction 1 as [|b bs Hb Hbs IH]; [done|].
  rewrite bind_cons, PackTXTRR_byte by done. by rewrite IH.
Qed.

Example PackTXTRR_txt_string_wit :
  PackTXTRR (txt_string [0; 34; 92; 57; 57; 57; 200; 116]) = [0; 34; 92; 57; 57; 57; 200; 116].
Proof. apply PackTXTRR_txt_string. by apply (bool_decide_unpack _); vm_compute. Defined.

(** Whatever the order in which the attempts answer, a direct [DNSExchange]
    fails only if all of them failed, and otherwise returns a successful response
    that none beats: one sent without fragmentation trouble (priority 0) if any
    came, and the fastest of the others if none did. *)
Theorem DNSExchange_best (fallback : bool) (arrivals : option DNSCryptRelay → list DNSExchangeResponse) :
  let l := arrivals None in
  Forall (λ r, 0 ≤ r.(priority)) l → l ≠ [] →
  (Forall (λ r, ex_err r ≠ None) l →
     ∃ r e, r ∈ l ∧ r.(ex_err) = Some e ∧ DNSExchange fallback None arrivals = Err e) ∧
  (Exists (λ r, ex_err r = None) l →
     ∃ b, b ∈ l ∧ b.(ex_err) = None ∧
       DNSExchange fallback None arrivals = Ok (b.(response), b.(ex_rtt), b.(ex_fragmentsBlocked)) ∧
       ∀ r, r ∈ l → r.(ex_err) = None → no_worse b r).
Proof.
  cbn zeta. intros Hp Hne. unfold DNSExchange.
  pose proof (select_best_spec (arrivals None) None None Hp) as Hs.
  pose proof (select_best_err (arrivals None) None None) as He.
  destruct (select_best (arrivals None) None None) as [[b|] e].
  - destruct Hs as ([?|[Hin Hok]] & _ & Hbest); [done|done|]. split.
    + intros Hall. rewrite list.Forall_forall in Hall. by destruct (Hall b Hin).
    + intros _. by exists b.
  - destruct Hs as (_ & Hall & Hee); [done|]. split.
    + intros _. specialize (Hee Hne). destruct e as [e|]; [|done].
      destruct (He None e eq_refl) as [?|(r & Hr & Hre)]; [done|]. by exists r, e.
    + intros [r [Hr Hre]]%list.Exists_exists. rewrite list.Forall_forall in Hall. by destruct (Hall r Hr).
Qed.

Example DNSExchange_best_wit :
  ∃ b, DNSExchange true None (λ _, [failed ETimeout;
    {| response := None; ex_rtt := 3; priority := 1; ex_fragmentsBlocked := true; ex_err := None |}]) = Ok b.
Proof.
  edestruct (DNSExchange_best true (λ _, [failed ETimeout;
    {| response := None; ex_rtt := 3; priority := 1; ex_fragmentsBlocked := true; ex_err := None |}]))
    as [_ (b & _ & _ & Hb & _)].
  - by apply (bool_decide_unpack _); vm_compute.
  - done.
  - right. left. done.
  - eexists. exact Hb.
Defined.

(** A relay that strips the anonymized-DNS header recovers the address of the
    server (IPv4 addresses in their mapped form), its port and the query. *)
Theorem prepareForRelay_parse (ip : IP) (port : Z) (query : bytes) :
  To16 ip ≠ [] → is_u16 port →
  relay_parse (prepareForRelay ip port query) = Some (To16 ip, port, query).
Proof.
  intros Hip Hport. pose proof (To16_length ip Hip) as Hl.
  unfold relay_parse, prepareForRelay, u16. rewrite Z.mod_small by done.
  rewrite decide_True.
  2:{ split; [done|]. rewrite !length_app, Hl. cbn. lia. }
  assert (drop 26 (anonymizedDNSHeader ++ To16 ip ++ PutUint16 port ++ query) = PutUint16 port ++ query) as ->.
  { rewrite app_assoc. apply drop_app_length'. by rewrite length_app, Hl. }
  rewrite Uint16_PutUint16 by done. cbn [mbind option_bind]. do 3 f_equal.
  - rewrite drop_app_length' by done. by apply take_app_length'.
  - rewrite !app_assoc. apply drop_app_length'. by rewrite !length_app, Hl.
Qed.

Example prepareForRelay_parse_wit :
  relay_parse (prepareForRelay [192; 0; 2; 7] 443 [1; 2; 3]) =
  Some (v4InV6Prefix ++ [192; 0; 2; 7], 443, [1; 2; 3]).
Proof. apply (prepareForRelay_parse [192; 0; 2; 7] 443 [1; 2; 3]); done. Defined.

(** The padding record of certificate queries is not an OPT record for a
    receiver: its type is left at zero. *)
Example padding_OPT_untyped (m : Msg) (n : Z) :
  IsEdns0 (m <| Extra := [padding_OPT n] |>) = Ok None.
Proof. done. Qed.
