(* ===== verification/Certs.v ===== *)
(** dnscrypt_certs.go: retrieval and selection of the certificate of a DNSCrypt
    server. *)
From S2P Require Import Prelude.
From S2P Require Import GoStrings.
From S2P Require Import Common.
From S2P Require Import ServerTypes.
From S2P Require Import Crypto.
From S2P Require Import DnsMsg.
From S2P Require Import DnsUtils.

(** [ed25519.Verify(publicKey, message, sig)]. *)
Class Ed25519 := Verify : bytes → bytes → bytes → bool.

Record CertInfo := {
  ci_ServerPk : bytes;
  ci_SharedKey : bytes;
  ci_MagicQuery : bytes;
  ci_CryptoConstruction : CryptoConstruction;
  ForwardSecurity : bool
}.

#[export] Instance eta_CertInfo : Eta CertInfo := λ c, {|
  ci_ServerPk := c.(ci_ServerPk); ci_SharedKey := c.(ci_SharedKey);
  ci_MagicQuery := c.(ci_MagicQuery); ci_CryptoConstruction := c.(ci_CryptoConstruction);
  ForwardSecurity := c.(ForwardSecurity) |}.

Definition zero_cert : CertInfo := {|
  ci_ServerPk := replicate 32 0; ci_SharedKey := replicate 32 0; ci_MagicQuery := replicate 8 0;
  ci_CryptoConstruction := UndefinedConstruction; ForwardSecurity := false |}.

(** The fields of a certificate whose magic, version, signature and period have
    been accepted. *)
Record Cert := {
  c_construction : CryptoConstruction;
  c_serial : Z;
  c_begin : Z;
  c_end : Z;
  c_pk : bytes;
  c_magic : bytes
}.

Section Certs.
Context `{CryptoPrims} `{Ed25519}.

(** Reads one certificate, up to the comparison of its two dates. [Ok None] is
    [continue]. *)
Definition read_cert (pk binCert : bytes) : Out (option Cert) :=
  if len binCert <? 124 then Ok None
  else
    let! magic := orPanic (slice binCert 0 4) in
    if negb (bool_decide (magic = CertMagic)) then Ok None
    else
      let! v := orPanic (slice binCert 4 6) in
      let! esVersion := orPanic (Uint16 v) in
      match (if esVersion =? 1 then Some XSalsa20Poly1305
             else if esVersion =? 2 then Some XChacha20Poly1305 else None) with
      | None => Ok None
      | Some cryptoConstruction =>
          let! signature := orPanic (slice binCert 8 72) in
          let! signed := orPanic (slice binCert 72 (len binCert)) in
          if negb (Verify pk signed signature) then Ok None
          else
            let! s := orPanic (slice binCert 112 116) in
            let! serial := orPanic (Uint32 s) in
            let! b := orPanic (slice binCert 116 120) in
            let! tsBegin := orPanic (Uint32 b) in
            let! e := orPanic (slice binCert 120 124) in
            let! tsEnd := orPanic (Uint32 e) in
            if tsEnd <=? tsBegin then Ok None
            else
              let! serverPk := orPanic (slice binCert 72 104) in
              let! magicQuery := orPanic (slice binCert 104 112) in
              Ok (Some {| c_construction := cryptoConstruction; c_serial := serial;
                          c_begin := tsBegin; c_end := tsEnd;
                          c_pk := serverPk; c_magic := magicQuery |})
      end.

(** The days left reported for a certificate with a long period, in [uint32]. *)
Definition daysLeft (tsEnd now : Z) : Z := u32 (tsEnd - now) / 86400.

Definition construction_lt (a b : CryptoConstruction) : bool := construction_Z a <? construction_Z b.

(** What the loop keeps between certificates. *)
Record Selection := { certInfo : CertInfo; highestSerial : Z }.

(** The rest of the loop body for an accepted certificate. *)
Definition consider (secretKey rnd : bytes) (certIgnoreTimestamp : bool) (now : Z)
    (st : Selection) (c : Cert) : Selection :=
  let ttl := u32 (c.(c_end) - c.(c_begin)) in
  let info := st.(certInfo) <| ForwardSecurity := ttl <=? 86400 * 7 |> in
  let skip := {| certInfo := info; highestSerial := st.(highestSerial) |} in
  if negb certIgnoreTimestamp && ((c.(c_end) <? now) || (now <? c.(c_begin))) then skip
  else if c.(c_serial) <? st.(highestSerial) then skip
  else if (c.(c_serial) =? st.(highestSerial)) &&
          construction_lt c.(c_construction) info.(ci_CryptoConstruction) then skip
  else
    let sharedKey := ComputeSharedKey c.(c_construction) secretKey c.(c_pk) rnd in
    {| certInfo := info <| ci_SharedKey := sharedKey |>
                        <| ci_CryptoConstruction := c.(c_construction) |>
                        <| ci_ServerPk := c.(c_pk) |> <| ci_MagicQuery := c.(c_magic) |>;
       highestSerial := c.(c_serial) |}.

(** The loop over the answer records. *)
Fixpoint select_cert (pk secretKey rnd : bytes) (certIgnoreTimestamp : bool) (now : Z)
    (answer : list RR) (st : Selection) : Out Selection :=
  match answer with
  | [] => Ok st
  | rr :: answer =>
      match rr.(Data) with
      | rTXT txt =>
          let! cert := read_cert pk (PackTXTRR (concat txt)) in
          select_cert pk secretKey rnd certIgnoreTimestamp now answer
            (match cert with
             | Some c => consider secretKey rnd certIgnoreTimestamp now st c
             | None => st
             end)
      | _ => select_cert pk secretKey rnd certIgnoreTimestamp now answer st
      end
  end.

(** The fields of [Proxy] read here. *)
Record CertProxy := {
  cp_secretKey : bytes;
  cp_certIgnoreTimestamp : bool;
  cp_anonDirectCertFallback : bool
}.

(** The name queried. *)
Definition fqdn_provider (providerName : bytes) : bytes :=
  if HasSuffix providerName (str ".") then providerName else providerName ++ str ".".

(** The relay kept for the exchange: a non-standard provider name is only
    queried through a relay when direct queries are forbidden. *)
Definition cert_relay (proxy : CertProxy) (providerName : bytes) (relay : option DNSCryptRelay)
    : option DNSCryptRelay :=
  if HasPrefix providerName (str "2.dnscrypt-cert.") then relay
  else
    match relay with
    | Some r => if negb proxy.(cp_anonDirectCertFallback) then Some r else None
    | None => None
    end.

(** [FetchCurrentDNSCryptCert]. [arrivals query relay tryFragments] are the
    responses received by the exchange, [id] and [rnd] are random, [now] is the
    Unix time. *)
Definition FetchCurrentDNSCryptCert (proxy : CertProxy) (pk : bytes) (providerName : bytes)
    (relay : option DNSCryptRelay) (bugs : ServerBugs) (id now : Z) (rnd : bytes)
    (arrivals : Msg → bool → option DNSCryptRelay → list DNSExchangeResponse)
    : Out (CertInfo * Z * bool) :=
  if negb (len pk =? 32) then Err (EMsg "Invalid public key length")
  else
    let providerName := fqdn_provider providerName in
    let query := SetQuestion empty_Msg id providerName TypeTXT in
    let relay := cert_relay proxy providerName relay in
    let tryFragmentsSupport := negb bugs.(fragmentsBlocked) in
    let! (inn, rtt, blocked) := DNSExchange proxy.(cp_anonDirectCertFallback) relay
                                  (arrivals query tryFragmentsSupport) in
    let! inn := orPanic inn in
    let! st := select_cert pk proxy.(cp_secretKey) rnd proxy.(cp_certIgnoreTimestamp) (u32 now)
                 inn.(Answer) {| certInfo := zero_cert; highestSerial := 0 |} in
    if bool_decide (st.(certInfo).(ci_CryptoConstruction) = UndefinedConstruction)
    then Err (EMsg "No useable certificate found")
    else Ok (st.(certInfo), Z.quot rtt 1000000, blocked).
End Certs.

(** * Specification *)

(** TXT strings of bytes, as the codec produces them. *)
Definition rr_bytes (rr : RR) : Prop :=
  match rr.(Data) with rTXT txt => Forall is_byte (concat txt) | _ => True end.

Lemma u8_is_byte x : is_byte (u8 x).
Proof. unfold is_byte, u8. apply (Z.mod_pos_bound _ (2 ^ 8)). lia. Qed.

Lemma PackTXTRR_bytes bs : Forall is_byte bs → Forall is_byte (PackTXTRR bs).
Proof.
  induction bs as [bs IH'] using (induction_ltof1 _ length). unfold ltof in IH'. intros Hb.
  destruct bs as [|a rest]; [constructor|]. apply list.Forall_cons in Hb as [Ha Hr].
  assert (Hplain : Forall is_byte (a :: PackTXTRR rest)) by (constructor; [done|apply IH'; [cbn; lia|done]]).
  destruct (decide (a = 92)) as [->|Hne].
  2:{ destruct a as [|p|p]; [done| |done].
      do 7 (try (destruct p as [p|p|]; try exact Hplain)). done. }
  destruct rest as [|a rest]; [constructor|].
  apply list.Forall_cons in Hr as [Ha' Hr].
  assert (Hesc : Forall is_byte (unescape a :: PackTXTRR rest)).
  { constructor; [|apply IH'; [cbn; lia|done]]. unfold unescape.
    repeat case_match; unfold is_byte in *; lia. }
  destruct rest as [|b [|c rest]]; [exact Hesc..|].
  change (Forall is_byte (if isDigit a && isDigit b && isDigit c then dddToByte a b c :: PackTXTRR rest
                          else unescape a :: PackTXTRR (b :: c :: rest))).
  destruct (isDigit a && isDigit b && isDigit c); [|exact Hesc].
  constructor; [apply u8_is_byte|]. apply list.Forall_cons in Hr as [_ Hr].
  apply list.Forall_cons in Hr as [_ Hr]. apply IH'; [cbn; lia|done].
Qed.

Lemma Uint32_nonneg b v : Forall is_byte b → Uint32 b = Some v → 0 ≤ v.
Proof.
  unfold Uint32. destruct b as [|b0 [|b1 [|b2 [|b3 b]]]]; [done..|]. intros Hb [= <-].
  unfold is_byte in Hb. decompose_Forall_hyps.
  rewrite !Z.lor_nonneg, !Z.shiftl_nonneg. lia.
Qed.

Section Spec.
Context `{CryptoPrims} `{Ed25519}.

(** [signed_cert pk bin c]: [bin] is laid out as a certificate signed by the
    provider key [pk], with contents [c]. *)
Definition signed_cert (pk bin : bytes) (c : Cert) : Prop :=
  ∃ ver minor signature rest,
    bin = CertMagic ++ ver ++ minor ++ signature ++ (c.(c_pk) ++ c.(c_magic) ++ rest) ∧
    len ver = 2 ∧ len minor = 2 ∧ len signature = 64 ∧ len c.(c_pk) = 32 ∧ len c.(c_magic) = 8 ∧
    Verify pk (c.(c_pk) ++ c.(c_magic) ++ rest) signature = true ∧
    ((ver = [0; 1] ∧ c.(c_construction) = XSalsa20Poly1305) ∨
     (ver = [0; 2] ∧ c.(c_construction) = XChacha20Poly1305)) ∧
    Uint32 rest = Some c.(c_serial) ∧ Uint32 (drop 4 rest) = Some c.(c_begin) ∧
    Uint32 (drop 8 rest) = Some c.(c_end) ∧ c.(c_begin) < c.(c_end).

Lemma cut {A} (n m : nat) (l : list A) : drop n l = take m (drop n l) ++ drop (n + m) l.
Proof. by rewrite <-drop_drop, take_drop. Qed.

Lemma slice_nat {A} (l r : list A) i j :
  slice l i j = Some r → 0 ≤ i ∧ r = take (Z.to_nat (j - i)) (drop (Z.to_nat i) l) ∧ len r = j - i.
Proof. intros (? & ? & ? & ?)%slice_Some. split_and!; [lia|done|done]. Qed.

Lemma version_bytes v n :
  len v = 2 → Forall is_byte v → 0 ≤ n < 256 → Uint16 v = Some n → v = [0; n].
Proof.
  destruct v as [|a [|b [|? v]]]; try (intros ?; len_lia). intros _ Hv Hn. cbn.
  unfold is_byte in Hv. decompose_Forall_hyps. intros [= Hl].
  rewrite lor_shiftl_add in Hl by lia. change (2 ^ 8) with 256 in Hl.
  assert (a = 0) as -> by lia. f_equal. f_equal. lia.
Qed.

Lemma Uint32_take l n : (4 ≤ n)%nat → Uint32 (take n l) = Uint32 l.
Proof. intros Hn. destruct l as [|? [|? [|? [|? ?]]]]; do 4 (destruct n; [lia|]); done. Qed.

Lemma read_cert_spec pk bin c :
  Forall is_byte bin → read_cert pk bin = Ok (Some c) → signed_cert pk bin c ∧ 0 ≤ c.(c_serial).
Proof.
  intros Hb. unfold read_cert. destruct (Z.ltb_spec (len bin) 124) as [|Hlen]; [done|].
  intros Hr. apply obind_Ok in Hr as (magic & Hmag%orPanic_Ok & Hr).
  case_bool_decide as Hm; [|done]. cbn [negb] in Hr. subst magic.
  apply obind_Ok in Hr as (v & Hv%orPanic_Ok & Hr).
  apply obind_Ok in Hr as (es & Hes%orPanic_Ok & Hr).
  destruct (if es =? 1 then _ else _) as [cons|] eqn:Hcons; [|done].
  apply obind_Ok in Hr as (sg & Hsg%orPanic_Ok & Hr).
  apply obind_Ok in Hr as (signed & Hsigned%orPanic_Ok & Hr).
  destruct (Verify pk signed sg) eqn:Hver; [|done]. cbn [negb] in Hr.
  apply obind_Ok in Hr as (s & Hs%orPanic_Ok & Hr).
  apply obind_Ok in Hr as (serial & Hserial%orPanic_Ok & Hr).
  apply obind_Ok in Hr as (b & Hbg%orPanic_Ok & Hr).
  apply obind_Ok in Hr as (tb & Htb%orPanic_Ok & Hr).
  apply obind_Ok in Hr as (e & He%orPanic_Ok & Hr).
  apply obind_Ok in Hr as (te & Hte%orPanic_Ok & Hr).
  destruct (Z.leb_spec te tb) as [|Hlt]; [done|].
  apply obind_Ok in Hr as (spk & Hpk%orPanic_Ok & Hr).
  apply obind_Ok in Hr as (mq & Hmq%orPanic_Ok & Hr).
  injection Hr as <-. cbn.
  apply slice_nat in Hmag as (_ & Hmag & _).
  repeat match goal with H : slice bin _ _ = Some _ |- _ => apply slice_nat in H as (_ & -> & ?) end.
  change (Z.to_nat (6 - 4)) with 2%nat in *. change (Z.to_nat 4) with 4%nat in *.
  change (Z.to_nat (72 - 8)) with 64%nat in *. change (Z.to_nat 8) with 8%nat in *.
  change (Z.to_nat 72) with 72%nat in *. change (Z.to_nat (104 - 72)) with 32%nat in *.
  change (Z.to_nat 104) with 104%nat in *. change (Z.to_nat (112 - 104)) with 8%nat in *.
  change (Z.to_nat 112) with 112%nat in *. change (Z.to_nat (116 - 112)) with 4%nat in *.
  change (Z.to_nat 116) with 116%nat in *. change (Z.to_nat (120 - 116)) with 4%nat in *.
  change (Z.to_nat 120) with 120%nat in *. change (Z.to_nat (124 - 120)) with 4%nat in *.
  rewrite Uint32_take in Hserial, Htb, Hte by lia.
  rewrite (take_ge (drop 72 bin)) in Hver by len_lia.
  assert (Hd : ∀ n, Forall is_byte (drop n bin)) by (intros; by apply Forall_drop).
  assert (E72 : take 32 (drop 72 bin) ++ take 8 (drop 104 bin) ++ drop 112 bin = drop 72 bin).
  { symmetry. etransitivity; [apply (cut 72 32)|]. f_equal. apply (cut 104 8). }
  split; [|by apply (Uint32_nonneg (drop 112 bin))].
  exists (take 2 (drop 4 bin)), (take 2 (drop 6 bin)), (take 64 (drop 8 bin)), (drop 112 bin).
  cbn [c_pk c_magic c_serial c_begin c_end c_construction]. rewrite E72, !drop_drop.
  split_and!; try done; try len_lia.
  - rewrite Hmag. change (Z.to_nat (4 - 0)) with 4%nat. change (Z.to_nat 0) with 0%nat.
    etransitivity; [symmetry; apply (take_drop 4)|]. f_equal.
    etransitivity; [apply (cut 4 2)|]. f_equal. etransitivity; [apply (cut 6 2)|]. f_equal.
    apply (cut 8 64).
  - assert (Hvb : Forall is_byte (take 2 (drop 4 bin))) by by apply Forall_take.
    destruct (Z.eqb_spec es 1) as [->|]; [|destruct (Z.eqb_spec es 2) as [->|]]; [..|done];
      injection Hcons as <-; [left|right]; (split; [|done]); by apply version_bytes.
Qed.

(** ** Which certificate is kept *)

(** A signed certificate of the answer that is valid now. *)
Definition usable (pk : bytes) (ignore : bool) (now : Z) (answer : list RR) (c : Cert) : Prop :=
  ∃ rr txt, rr ∈ answer ∧ rr.(Data) = rTXT txt ∧ read_cert pk (PackTXTRR (concat txt)) = Ok (Some c) ∧
    (ignore = true ∨ c.(c_begin) ≤ now ≤ c.(c_end)).

(** The order of preference: serial number, then construction. *)
Definition cert_le (a b : Cert) : Prop :=
  a.(c_serial) < b.(c_serial) ∨
  (a.(c_serial) = b.(c_serial) ∧ construction_Z a.(c_construction) ≤ construction_Z b.(c_construction)).

(** [info] was taken from [c]. *)
Definition from_cert (secretKey rnd : bytes) (info : CertInfo) (c : Cert) : Prop :=
  info.(ci_ServerPk) = c.(c_pk) ∧ info.(ci_MagicQuery) = c.(c_magic) ∧
  info.(ci_CryptoConstruction) = c.(c_construction) ∧
  info.(ci_SharedKey) = ComputeSharedKey c.(c_construction) secretKey c.(c_pk) rnd.

(** [st] holds the best of the usable certificates satisfying [P]. *)
Definition holds_best (secretKey rnd : bytes) (P : Cert → Prop) (st : Selection) : Prop :=
  ((∀ c, ¬ P c) ∧ st.(certInfo).(ci_CryptoConstruction) = UndefinedConstruction ∧ st.(highestSerial) = 0) ∨
  (∃ c, P c ∧ from_cert secretKey rnd st.(certInfo) c ∧ st.(highestSerial) = c.(c_serial) ∧
        ∀ c', P c' → cert_le c' c).

Lemma consider_best secretKey rnd ignore now P st c :
  holds_best secretKey rnd P st → 0 ≤ c.(c_serial) →
  holds_best secretKey rnd
    (λ c', P c' ∨ (c' = c ∧ (ignore = true ∨ c.(c_begin) ≤ now ≤ c.(c_end))))
    (consider secretKey rnd ignore now st c).
Proof.
  intros Hst Hc. unfold consider.
  set (valid := ignore = true ∨ c_begin c ≤ now ≤ c_end c).
  assert (Hskip : ∀ st', st'.(highestSerial) = st.(highestSerial) →
    (∀ k, from_cert secretKey rnd st.(certInfo) k → from_cert secretKey rnd st'.(certInfo) k) →
    st'.(certInfo).(ci_CryptoConstruction) = st.(certInfo).(ci_CryptoConstruction) →
    (valid → c.(c_serial) < st.(highestSerial) ∨ (c.(c_serial) = st.(highestSerial) ∧
       construction_Z c.(c_construction) < construction_Z st.(certInfo).(ci_CryptoConstruction))) →
    holds_best secretKey rnd (λ c', P c' ∨ (c' = c ∧ valid)) st').
  { intros st' Hs Hf Hcc Hv. destruct Hst as [(Hno & Hu & Hz)|(c0 & HP & Hf0 & Hs0 & Hmax)].
    - left. split_and!; [|congruence..]. intros c' [?|[-> Hvalid]]; [naive_solver|].
      specialize (Hv Hvalid). rewrite Hu, Hz in Hv. destruct (c_construction c); cbn in Hv; lia.
    - right. exists c0. split_and!; [by left|auto|congruence|].
      intros c' [?|[-> Hvalid]]; [auto|]. specialize (Hv Hvalid).
      destruct Hf0 as (_ & _ & Hcc0 & _). rewrite Hcc0, Hs0 in Hv. unfold cert_le. lia. }
  destruct (negb ignore && _) eqn:Hval.
  { apply Hskip; cbn; try done. intros Hv. exfalso. unfold valid in Hv.
    apply andb_true_iff in Hval as [Hi%negb_true_iff Ht%orb_true_iff].
    rewrite !Z.ltb_lt in Ht. destruct Hv; [congruence|lia]. }
  assert (Hvalid : valid).
  { apply andb_false_iff in Hval as [Hi%negb_false_iff|Ht]; [by left|right].
    apply orb_false_iff in Ht. rewrite !Z.ltb_ge in Ht. lia. }
  destruct (Z.ltb_spec c.(c_serial) st.(highestSerial)).
  { apply Hskip; cbn; try done. by left. }
  clear Hval. unfold construction_lt. destruct (_ && _) eqn:Hcons.
  { apply andb_true_iff in Hcons as [?%Z.eqb_eq ?%Z.ltb_lt].
    apply Hskip; cbn; try done. by right. }
  right. exists c. split_and!; [by right|done|done|].
  intros c' [Hp|[-> _]]; [|unfold cert_le; lia].
  destruct Hst as [(Hno & _)|(c0 & _ & (_ & _ & Hcc & _) & Hs & Hmax)]; [naive_solver|].
  specialize (Hmax c' Hp). rewrite andb_false_iff, Z.eqb_neq, Z.ltb_ge in Hcons. cbn in Hcons.
  rewrite Hcc, Hs in *. unfold cert_le in *. lia.
Qed.

Lemma holds_best_ext secretKey rnd (P Q : Cert → Prop) st :
  (∀ c, P c ↔ Q c) → holds_best secretKey rnd P st → holds_best secretKey rnd Q st.
Proof.
  intros HPQ [(Hno & ?)|(c & HP & ? & ? & Hmax)]; [left|right].
  - split; [|done]. intros c. rewrite <-HPQ. apply Hno.
  - exists c. rewrite <-HPQ. split_and!; [done..|]. intros c'. rewrite <-HPQ. apply Hmax.
Qed.

Lemma usable_cons pk ignore now rr answer c :
  usable pk ignore now (rr :: answer) c ↔
  usable pk ignore now [rr] c ∨ usable pk ignore now answer c.
Proof. unfold usable. set_solver. Qed.

Lemma Uint32_some l : len l = 4 → ∃ v, Uint32 l = Some v.
Proof. destruct l as [|? [|? [|? [|? ?]]]]; try (intros; len_lia). by eexists. Qed.

Lemma read_cert_total pk bin : ∃ r, read_cert pk bin = Ok r.
Proof.
  unfold read_cert. destruct (Z.ltb_spec (len bin) 124); [by eexists|].
  assert (Hs : ∀ i j, 0 ≤ i ≤ j → j ≤ 124 → ∃ r, slice bin i j = Some r ∧ len r = j - i).
  { intros i j Hi Hj. rewrite slice_ok by lia. eexists. split; [done|].
    rewrite len_take, len_drop. lia. }
  destruct (Hs 0 4) as (? & -> & _); [lia..|]. cbn [orPanic obind].
  destruct (negb _); [by eexists|].
  destruct (Hs 4 6) as (v & -> & Hv); [lia..|]. cbn [orPanic obind].
  destruct (Uint16 v) eqn:?; [|destruct v as [|? [|? ?]]; (len_lia || done)]. cbn [orPanic obind].
  destruct (if _ =? 1 then _ else _); [|by eexists].
  destruct (Hs 8 72) as (? & -> & _); [lia..|]. cbn [orPanic obind].
  rewrite (slice_ok bin 72) by lia. cbn [orPanic obind]. destruct (negb _); [by eexists|].
  destruct (Hs 112 116) as (? & -> & Hn1); [lia..|]. cbn [orPanic obind].
  apply Uint32_some in Hn1 as [? ->]. cbn [orPanic obind].
  destruct (Hs 116 120) as (? & -> & Hn2); [lia..|]. cbn [orPanic obind].
  apply Uint32_some in Hn2 as [? ->]. cbn [orPanic obind].
  destruct (Hs 120 124) as (? & -> & Hn3); [lia..|]. cbn [orPanic obind].
  apply Uint32_some in Hn3 as [? ->]. cbn [orPanic obind].
  destruct (_ <=? _); [by eexists|].
  destruct (Hs 72 104) as (? & -> & _); [lia..|]. destruct (Hs 104 112) as (? & -> & _); [lia..|].
  by eexists.
Qed.

Lemma select_cert_best pk secretKey rnd ignore now answer (P : Cert → Prop) st :
  Forall rr_bytes answer → holds_best secretKey rnd P st →
  ∃ st', select_cert pk secretKey rnd ignore now answer st = Ok st' ∧
    holds_best secretKey rnd (λ c, P c ∨ usable pk ignore now answer c) st'.
Proof.
  revert P st. induction answer as [|rr answer IH]; intros P st Hb Hst; cbn.
  { eexists. split; [done|]. eapply holds_best_ext; [|done]. unfold usable. set_solver. }
  apply list.Forall_cons in Hb as [Hrr Hb].
  destruct rr.(Data) as [| | | | |txt| | | | |] eqn:Hd;
    try (destruct (IH P st Hb Hst) as (st' & Hs & Hh); exists st'; split; [done|];
         eapply holds_best_ext; [|exact Hh]; intros c; rewrite usable_cons;
         assert (¬ usable pk ignore now [rr] c)
           by (intros (rr' & txt' & ->%list_elem_of_singleton & Hd' & _); congruence); tauto).
  unfold rr_bytes in Hrr. rewrite Hd in Hrr. apply PackTXTRR_bytes in Hrr.
  destruct (read_cert_total pk (PackTXTRR (concat txt))) as [[c|] Hr]; rewrite Hr; cbn [obind].
  - destruct (read_cert_spec _ _ _ Hrr Hr) as [_ Hser].
    destruct (IH _ _ Hb (consider_best _ _ ignore now _ _ c Hst Hser)) as (st' & Hs & Hh).
    exists st'. split; [done|]. eapply holds_best_ext; [|exact Hh]. intros c'.
    rewrite usable_cons. enough (usable pk ignore now [rr] c' ↔ c' = c ∧ (ignore = true ∨ c_begin c ≤ now ≤ c_end c)) by tauto.
    unfold usable. split.
    + intros (rr' & txt' & ->%list_elem_of_singleton & Hd' & Hr' & Hv). rewrite Hd in Hd'. injection Hd' as <-.
      rewrite Hr in Hr'. injection Hr' as <-. done.
    + intros [-> Hv]. exists rr, txt. split_and!; [by left|done..].
  - destruct (IH P st Hb Hst) as (st' & Hs & Hh). exists st'. split; [done|].
    eapply holds_best_ext; [|exact Hh]. intros c'. rewrite usable_cons.
    enough (¬ usable pk ignore now [rr] c') by tauto.
    intros (rr' & txt' & ->%list_elem_of_singleton & Hd' & Hr' & Hv). congruence.
Qed.

(** * Properties *)

End Spec.

(** ** Examples *)

(** A verifier that accepts every signature. *)
Definition any_signature : Ed25519 := λ _ _ _, true.

Section Examples.
#[local] Existing Instance toy_prims.
#[local] Existing Instance any_signature.

Definition be32 (v : Z) : bytes := PutUint16 (Z.shiftr v 16) ++ PutUint16 v.

(** A certificate record with the given construction, key byte, serial and dates. *)
Definition cert_rr (es key serial tsBegin tsEnd : Z) : RR := {|
  Hdr := inet (str "2.dnscrypt-cert.example.") TypeTXT 60;
  Data := rTXT [txt_string (CertMagic ++ [0; es; 0; 0] ++ replicate 64 0 ++ replicate 32 key ++
    replicate 8 key ++ be32 serial ++ be32 tsBegin ++ be32 tsEnd)] |}.

Definition one_arrival (answer : list RR) (_ : Msg) (_ : bool) (_ : option DNSCryptRelay)
    : list DNSExchangeResponse :=
  [{| response := Some (empty_Msg <| Answer := answer |>); ex_rtt := 5000000; priority := 0;
      ex_fragmentsBlocked := false; ex_err := None |}].

Definition cert_proxy : CertProxy :=
  {| cp_secretKey := replicate 32 1; cp_certIgnoreTimestamp := false; cp_anonDirectCertFallback := false |}.

Definition fetch_answer (answer : list RR) : Out (CertInfo * Z * bool) :=
  FetchCurrentDNSCryptCert cert_proxy (replicate 32 9) (str "2.dnscrypt-cert.example") None
    {| fragmentsBlocked := false |} 77 1000 (replicate 32 0) (one_arrival answer).

Definition sample_answer : list RR :=
  [cert_rr 1 7 4 900 2000; cert_rr 2 8 4 900 2000; cert_rr 2 9 3 900 2000].


(** The forward-security flag is that of the last well-formed certificate of
    the answer, not of the certificate that is used. With a short-lived valid
    certificate followed by an expired long-lived one, the first is used and the
    flag is false; in the opposite order of periods it is true although the
    certificate used is long-lived. *)
Theorem ForwardSecurity_of_skipped_cert :
  (∃ info, fetch_answer [cert_rr 2 7 4 900 2000; cert_rr 2 8 3 0 900000] = Ok (info, 5, false) ∧
     info.(ci_ServerPk) = replicate 32 7 ∧ info.(ForwardSecurity) = false) ∧
  (∃ info, fetch_answer [cert_rr 2 7 4 0 900000; cert_rr 2 8 3 900 2000] = Ok (info, 5, false) ∧
     info.(ci_ServerPk) = replicate 32 7 ∧ info.(ForwardSecurity) = true).
Proof.
  split; (eexists; split; [by vm_compute|]); by split; vm_compute.
Qed.

(** For a certificate that has expired the number of days left wraps around,
    so the operator is told that it is still valid for more than 68 years. *)
Theorem daysLeft_expired (tsEnd now : Z) :
  0 ≤ tsEnd < now → now < 2 ^ 31 → 24855 ≤ daysLeft tsEnd now.
Proof.
  intros H1 H2. unfold daysLeft, u32. change (2 ^ 31) with 2147483648 in H2.
  rewrite <-(Z.mod_add _ 1) by lia. rewrite Z.mod_small by lia.
  apply Z.div_le_lower_bound; lia.
Qed.

Example daysLeft_expired_wit : 24855 ≤ daysLeft 5 100.
Proof. apply (daysLeft_expired 5 100); lia. Defined.
End Examples.
