(* ===== verification/ServersInfo.v ===== *)
(** serversInfo.go, first half: the registry of servers and relays, the load
    balancing strategies, the latency estimator and the choice of a server. The
    retrieval of a server's parameters is an interface here; Routes.v implements
    it. *)
From Stdlib Require Import QArith Sorted.
From S2P Require Import Prelude.
From S2P Require Import Common.
From S2P Require Import ServerTypes.
From S2P Require Import Estimators.

#[local] Close Scope Q_scope.
#[local] Open Scope Z_scope.

(** [rand.Intn(n)] where [rnd] is the random number drawn. *)
Definition Intn (rnd n : Z) : Out Z := if n <=? 0 then Panic else Ok (rnd mod n).

Lemma Intn_Ok rnd n : 0 < n → ∃ i, Intn rnd n = Ok i ∧ 0 ≤ i < n.
Proof.
  intros Hn. unfold Intn. destruct (Z.leb_spec n 0); [lia|].
  eexists. split; [done|]. by apply Z.mod_pos_bound.
Qed.

(** * Load balancing strategies *)

Inductive LBStrategy :=
  | LBStrategyP2
  | LBStrategyPN (n : Z)
  | LBStrategyPH
  | LBStrategyFirst
  | LBStrategyRandom.

Definition DefaultLBStrategy : LBStrategy := LBStrategyP2.

Definition getActiveCount (s : LBStrategy) (serversCount : Z) : Z :=
  match s with
  | LBStrategyP2 => Min serversCount 2
  | LBStrategyPN n => Min serversCount n
  | LBStrategyPH => Max (Min serversCount 2) (Z.quot serversCount 2)
  | LBStrategyFirst => 1
  | LBStrategyRandom => serversCount
  end.

Definition getCandidate (s : LBStrategy) (serversCount rnd : Z) : Out Z :=
  match s with
  | LBStrategyP2 => Intn rnd (Min serversCount 2)
  | LBStrategyPN n => Intn rnd (Min serversCount n)
  | LBStrategyPH => Intn rnd (Max (Min serversCount 2) (Z.quot serversCount 2))
  | LBStrategyFirst => Ok 0
  | LBStrategyRandom => Intn rnd serversCount
  end.

(** A strategy that can choose: [LBStrategyPN] needs at least one server. *)
Definition lb_wf (s : LBStrategy) : Prop :=
  match s with LBStrategyPN n => 1 ≤ n | _ => True end.

(** * The registry *)

Record ServersInfo (E : Type) := {
  inner : list (ServerInfo E);
  registeredServers : list RegisteredServer;
  registeredRelays : list RegisteredServer;
  lbStrategy : LBStrategy;
  lbEstimator : bool
}.
Arguments inner {_} _. Arguments registeredServers {_} _. Arguments registeredRelays {_} _.
Arguments lbStrategy {_} _. Arguments lbEstimator {_} _.

#[export] Instance eta_ServersInfo {E} : Eta (ServersInfo E) := λ s,
  {| inner := s.(inner); registeredServers := s.(registeredServers);
     registeredRelays := s.(registeredRelays); lbStrategy := s.(lbStrategy);
     lbEstimator := s.(lbEstimator) |}.

Definition NewServersInfo {E} : ServersInfo E :=
  {| inner := []; registeredServers := []; registeredRelays := [];
     lbStrategy := DefaultLBStrategy; lbEstimator := true |}.

(** Replaces the first element whose key is [name], or appends. *)
Fixpoint replace_or_append {A} (key : A → bytes) (name : bytes) (x : A) (l : list A) : list A :=
  match l with
  | [] => [x]
  | y :: l => if decide (key y = name) then x :: l else y :: replace_or_append key name x l
  end.

Definition registerServer {E} (s : ServersInfo E) (name : bytes) (stamp : ServerStamp) : ServersInfo E :=
  s <| registeredServers := replace_or_append rs_name name
         {| rs_name := name; rs_stamp := stamp; rs_description := [] |} s.(registeredServers) |>.

Definition registerRelay {E} (s : ServersInfo E) (name : bytes) (stamp : ServerStamp) : ServersInfo E :=
  s <| registeredRelays := replace_or_append rs_name name
         {| rs_name := name; rs_stamp := stamp; rs_description := [] |} s.(registeredRelays) |>.

Section Servers.
Context {E : Type} `{MovingAverage E} (ewma0 : E).

(** [fetchServerInfo]: retrieves the parameters of a server. *)
Class Fetcher := fetchServerInfo : bytes → ServerStamp → bool → Out (ServerInfo E).

Definition known (s : ServersInfo E) (name : bytes) : bool :=
  existsb (λ o, bool_decide (si_Name o = name)) s.(inner).

(** [refreshServer]; [ewma0] is the moving average the call allocates. *)
Definition refreshServer `{Fetcher} (s : ServersInfo E) (name : bytes) (stamp : ServerStamp)
    : Out (ServersInfo E) :=
  let! newServer := fetchServerInfo name stamp (negb (known s name)) in
  if negb (bool_decide (name = newServer.(si_Name))) then Fatal
  else
    let newServer := newServer <| rtt := ma_Set ewma0 (inject_Z newServer.(initialRtt)) |> in
    let s' := s <| inner := replace_or_append si_Name name newServer s.(inner) |> in
    Ok (if known s name then s' else registerServer s' name stamp).

(** [sort.SliceStable] by initial latency: a stable insertion. *)
Fixpoint insert_by_rtt (x : ServerInfo E) (l : list (ServerInfo E)) : list (ServerInfo E) :=
  match l with
  | [] => [x]
  | y :: l' => if x.(initialRtt) <=? y.(initialRtt) then x :: l else y :: insert_by_rtt x l'
  end.

Definition sort_by_rtt (l : list (ServerInfo E)) : list (ServerInfo E) :=
  foldr insert_by_rtt [] l.

(** The loop of [refresh] over a copy of the registered servers: the state, the
    number of live servers and the error of the last call. *)
Fixpoint refresh_loop `{Fetcher} (l : list RegisteredServer) (s : ServersInfo E) (live : Z)
    (err : option error) : Out (ServersInfo E * Z * option error) :=
  match l with
  | [] => Ok (s, live, err)
  | r :: l =>
      match refreshServer s r.(rs_name) r.(rs_stamp) with
      | Ok s => refresh_loop l s (live + 1) None
      | Err e => refresh_loop l s live (Some e)
      | Panic => Panic
      | Fatal => Fatal
      end
  end.

Definition refresh `{Fetcher} (s : ServersInfo E) : Out (ServersInfo E * Z * option error) :=
  let! (s, live, err) := refresh_loop s.(registeredServers) s 0 None in
  Ok (s <| inner := sort_by_rtt s.(inner) |>, live, err).

(** * The estimator *)

Definition Value (s : ServerInfo E) : Q := ma_Value s.(rtt).

(** The single pass over the servers when a latency changed. *)
Fixpoint bubble (x : ServerInfo E) (l : list (ServerInfo E)) : list (ServerInfo E) :=
  match l with
  | [] => [x]
  | y :: l => if Qltb (Value y) (Value x) then y :: bubble x l else x :: bubble y l
  end.

Definition partial_sort (l : list (ServerInfo E)) : list (ServerInfo E) :=
  match l with [] => [] | x :: l => bubble x l end.

(** [estimatorUpdate]; [rnd] is the random number drawn and [now] the time. *)
Definition estimatorUpdate (s : ServersInfo E) (currentActive rnd now : Z) : Out (ServersInfo E) :=
  let serversCount := len s.(inner) in
  let activeCount := getActiveCount s.(lbStrategy) serversCount in
  if activeCount =? serversCount then Ok s
  else
    let! r := Intn rnd (serversCount - activeCount) in
    let candidate := r + activeCount in
    let! cand := orPanic (index s.(inner) candidate) in
    let! cur := orPanic (index s.(inner) currentActive) in
    let candidateRtt := Value cand in
    let currentActiveRtt := Value cur in
    if Qltb currentActiveRtt 0 then
      Ok (s <| inner := <[Z.to_nat currentActive := cur <| rtt := ma_Set cur.(rtt) candidateRtt |>]> s.(inner) |>)
    else if Qltb candidateRtt currentActiveRtt then
      Ok (s <| inner := partial_sort (swap s.(inner) (Z.to_nat candidate) (Z.to_nat currentActive)) |>)
    else if Qltb 0 candidateRtt then
      let! first := orPanic (index s.(inner) 0) in
      let! last := orPanic (index s.(inner) (activeCount - 1)) in
      if Qle_bool ((Value first + Value last) / 2 * 4)%Q candidateRtt then
        if 60000000000 <? now - cand.(lastActionTS) then
          let cand' := cand <| rtt := ma_Add cand.(rtt) (candidateRtt / 2)%Q |> in
          Ok (s <| inner := partial_sort (<[Z.to_nat candidate := cand']> s.(inner)) |>)
        else Ok s
      else Ok s
    else Ok s.

(** [getOne]: the server for a query, or nil. *)
Definition getOne (s : ServersInfo E) (rnd1 rnd2 now : Z) : Out (ServersInfo E * option (ServerInfo E)) :=
  let serversCount := len s.(inner) in
  if serversCount <=? 0 then Ok (s, None)
  else
    let! candidate := getCandidate s.(lbStrategy) serversCount rnd1 in
    let! s := if s.(lbEstimator) then estimatorUpdate s candidate rnd2 now else Ok s in
    let! serverInfo := orPanic (index s.(inner) candidate) in
    Ok (s, Some serverInfo).

(** * Notifications *)

Definition noticeFailure (timeout : Z) (s : ServerInfo E) : ServerInfo E :=
  s <| rtt := ma_Add s.(rtt) (inject_Z (Z.quot timeout 1000000)) |>.

Definition noticeBegin (now : Z) (s : ServerInfo E) : ServerInfo E :=
  s <| lastActionTS := now |>.

Definition noticeSuccess (timeout now : Z) (s : ServerInfo E) : ServerInfo E :=
  let elapsed := now - s.(lastActionTS) in
  let elapsedMs := Z.quot elapsed 1000000 in
  if (0 <? elapsedMs) && (elapsed <? timeout)
  then s <| rtt := ma_Add s.(rtt) (inject_Z elapsedMs) |> else s.
End Servers.

(** * Lemmas *)

Section Lemmas.
Context {A : Type} (key : A → bytes).

Lemma replace_or_append_keys name x (l : list A) :
  key x = name →
  key <$> replace_or_append key name x l =
    if decide (name ∈ key <$> l) then key <$> l else (key <$> l) ++ [name].
Proof.
  intros <-. induction l as [|y l IH]; cbn; [done|].
  destruct (decide (key y = key x)) as [He|He]; cbn.
  - rewrite decide_True by (rewrite He; by left). by rewrite He.
  - rewrite IH. destruct (decide (key x ∈ key <$> l)) as [Hi|Hi].
    + by rewrite decide_True by by right.
    + rewrite decide_False; [done|]. intros [?|?]%elem_of_cons; congruence.
Qed.

Lemma replace_or_append_NoDup name x (l : list A) :
  key x = name → NoDup (key <$> l) → NoDup (key <$> replace_or_append key name x l).
Proof.
  intros Hk Hn. rewrite replace_or_append_keys by done.
  case_decide as Hi; [done|]. apply list.NoDup_app. split_and!; [done| |apply NoDup_singleton].
  intros k Hk1 ->%list_elem_of_singleton. done.
Qed.

Lemma replace_or_append_elem name x y (l : list A) :
  key x = name → NoDup (key <$> l) →
  y ∈ replace_or_append key name x l ↔ y = x ∨ (y ∈ l ∧ key y ≠ name).
Proof.
  intros Hk. induction l as [|z l IH]; cbn; intros Hn; [set_solver|].
  apply list.NoDup_cons in Hn as [Hz Hn].
  destruct (decide (key z = name)) as [He|He].
  - rewrite !elem_of_cons. split; [intros [->|Hy]|intros [->|[[->|Hy] Hne]]]; [by left| |by left|done|by right].
    right. split; [by right|]. intros Hyn. apply Hz. rewrite He, <-Hyn. by apply list_elem_of_fmap_2.
  - rewrite !elem_of_cons, IH by done. split; [intros [->|[->|[? ?]]]|intros [->|[[->|?] ?]]]; auto.
Qed.
End Lemmas.

Lemma active_bounds s n : lb_wf s → 1 ≤ n → 1 ≤ getActiveCount s n ≤ n.
Proof.
  intros Hw Hn. destruct s; cbn in *; rewrite ?Max_spec, ?Min_spec, ?Z.quot_div_nonneg by lia; try lia.
  pose proof (Z.div_mod n 2). pose proof (Z.mod_pos_bound n 2). lia.
Qed.

Lemma candidate_active s n rnd :
  lb_wf s → 1 ≤ n → ∃ c, getCandidate s n rnd = Ok c ∧ 0 ≤ c < getActiveCount s n.
Proof.
  intros Hw Hn. pose proof (active_bounds s n Hw Hn) as Ha.
  destruct s; cbn in *; try (apply Intn_Ok; lia). by exists 0.
Qed.

Section ServerLemmas.
Context {E : Type} `{MovingAverage E} (ewma0 : E).
Implicit Types (x y : ServerInfo E) (l : list (ServerInfo E)) (s : ServersInfo E).

Lemma bubble_perm x l : bubble x l ≡ₚ x :: l.
Proof.
  revert x. induction l as [|y l IH]; intros x; cbn; [done|].
  destruct (Qltb _ _); rewrite IH; [apply Permutation_swap|done].
Qed.

Lemma partial_sort_perm l : partial_sort l ≡ₚ l.
Proof. destruct l; [done|apply bubble_perm]. Qed.

Lemma Qltb_lt a b : Qltb a b = true ↔ (a < b)%Q.
Proof.
  unfold Qltb. rewrite negb_true_iff. split.
  - intros Hb. apply Qnot_le_lt. rewrite <-Qle_bool_iff. congruence.
  - intros Hb. apply not_true_is_false. rewrite Qle_bool_iff. by apply Qlt_not_le.
Qed.

(** After the pass no server is slower than the last one. *)
Lemma bubble_max x l : ∃ l' z, bubble x l = l' ++ [z] ∧ Forall (λ y, (Value y <= Value z)%Q) (x :: l).
Proof.
  revert x. induction l as [|y l IH]; intros x; cbn.
  { exists [], x. split; [done|]. apply Forall_singleton, Qle_refl. }
  destruct (Qltb (Value y) (Value x)) eqn:Hlt.
  - destruct (IH x) as (l' & z & -> & Hz). exists (y :: l'), z. split; [done|].
    apply list.Forall_cons in Hz as [Hx Hz]. repeat (apply Forall_cons_2; try done).
    eapply Qle_trans; [|exact Hx]. apply Qlt_le_weak. by apply Qltb_lt.
  - destruct (IH y) as (l' & z & -> & Hz). exists (x :: l'), z. split; [done|].
    apply list.Forall_cons in Hz as [Hy Hz]. repeat (apply Forall_cons_2; try done).
    eapply Qle_trans; [|exact Hy]. apply Qnot_lt_le. rewrite <-Qltb_lt. congruence.
Qed.

(** A server without its moving average. *)
Definition identity x : ServerInfo E := x <| rtt := ewma0 |>.

Lemma insert_identity l i x y :
  l !! i = Some x → identity y = identity x → identity <$> <[i:=y]> l = identity <$> l.
Proof.
  intros Hi Hy. rewrite list_fmap_insert, Hy. apply list_insert_id.
  by rewrite list_lookup_fmap, Hi.
Qed.

Lemma estimatorUpdate_perm s cur rnd now :
  lb_wf s.(lbStrategy) → 1 ≤ len s.(inner) → 0 ≤ cur < len s.(inner) →
  ∃ l, estimatorUpdate s cur rnd now = Ok (s <| inner := l |>) ∧
       identity <$> l ≡ₚ identity <$> s.(inner).
Proof.
  intros Hw Hn Hcur. pose proof (active_bounds _ _ Hw Hn) as Ha.
  assert (Hid : Ok s = Ok (s <| inner := s.(inner) |>)) by by destruct s.
  unfold estimatorUpdate. destruct (Z.eqb_spec (getActiveCount (lbStrategy s) (len (inner s))) (len (inner s))).
  { by exists s.(inner). }
  destruct (Intn_Ok rnd (len (inner s) - getActiveCount (lbStrategy s) (len (inner s)))) as (r & -> & Hr); [lia|].
  cbn [obind]. set (cnd := r + getActiveCount _ _) in *.
  destruct (proj1 (index_lt s.(inner) cnd)) as [c Hc]; [lia|].
  destruct (proj1 (index_lt s.(inner) cur) Hcur) as [a Hca]. rewrite Hc, Hca. cbn [orPanic obind].
  apply index_Some in Hc as [_ Hc], Hca as [_ Hca].
  destruct (Qltb (Value a) 0).
  { eexists. split; [done|]. by erewrite insert_identity. }
  destruct (Qltb (Value c) (Value a)).
  { eexists. split; [done|]. by rewrite partial_sort_perm, swap_perm. }
  destruct (Qltb 0 (Value c)); [|by exists s.(inner)].
  destruct (proj1 (index_lt s.(inner) 0)) as [f ->]; [lia|].
  destruct (proj1 (index_lt s.(inner) (getActiveCount (lbStrategy s) (len (inner s)) - 1))) as [z ->]; [lia|].
  cbn [orPanic obind]. destruct (Qle_bool _ _); [|by exists s.(inner)].
  destruct (_ <? _); [|by exists s.(inner)].
  eexists. split; [done|]. rewrite partial_sort_perm. by erewrite insert_identity.
Qed.

Lemma insert_by_rtt_perm x l : insert_by_rtt x l ≡ₚ x :: l.
Proof.
  induction l as [|y l IH]; cbn; [done|]. destruct (_ <=? _); [done|].
  rewrite IH. apply Permutation_swap.
Qed.

Lemma sort_by_rtt_perm l : sort_by_rtt l ≡ₚ l.
Proof. induction l as [|x l IH]; cbn; [done|]. by rewrite insert_by_rtt_perm, IH. Qed.

Definition rtt_le x y : Prop := x.(initialRtt) ≤ y.(initialRtt).

Lemma insert_by_rtt_sorted x l : StronglySorted rtt_le l → StronglySorted rtt_le (insert_by_rtt x l).
Proof.
  unfold rtt_le. induction 1 as [|y l Hl IH Hy]; cbn; [repeat constructor|].
  destruct (Z.leb_spec x.(initialRtt) y.(initialRtt)).
  - constructor; [by constructor|]. constructor; [done|].
    eapply list.Forall_impl; [exact Hy|]. cbn. intros. lia.
  - constructor; [done|]. rewrite insert_by_rtt_perm. constructor; [lia|done].
Qed.

Lemma sort_by_rtt_sorted l : StronglySorted rtt_le (sort_by_rtt l).
Proof. induction l; cbn; [constructor|by apply insert_by_rtt_sorted]. Qed.

(** Servers with the same latency keep their order. *)
Lemma sort_by_rtt_stable l v :
  filter (λ x, x.(initialRtt) = v) (sort_by_rtt l) = filter (λ x, x.(initialRtt) = v) l.
Proof.
  induction l as [|x l IH]; [done|].
  change (sort_by_rtt (x :: l)) with (insert_by_rtt x (sort_by_rtt l)).
  assert (Hi : ∀ k, filter (λ x, x.(initialRtt) = v) (insert_by_rtt x k) =
                    filter (λ x, x.(initialRtt) = v) (x :: k)).
  { induction k as [|y k IHk]; cbn [insert_by_rtt]; [done|].
    destruct (Z.leb_spec x.(initialRtt) y.(initialRtt)); [done|].
    rewrite !filter_cons in *. rewrite IHk. case_ifs; (done || lia). }
  rewrite Hi, !filter_cons, IH. done.
Qed.
End ServerLemmas.

(** * Properties *)

Section Properties.
Context {E : Type} `{MovingAverage E} (ewma0 : E).

(** Every strategy picks a server inside its active set, which is not empty
    and never exceeds the number of servers. *)
Theorem getCandidate_in_active (s : LBStrategy) (n rnd : Z) :
  lb_wf s → 1 ≤ n →
  ∃ c, getCandidate s n rnd = Ok c ∧ 0 ≤ c < getActiveCount s n ∧ getActiveCount s n ≤ n.
Proof.
  intros Hw Hn. destruct (candidate_active s n rnd Hw Hn) as (c & ? & ?).
  pose proof (active_bounds s n Hw Hn). exists c. split_and!; [done|lia..].
Qed.

Lemma getOne_facts (s : ServersInfo E) (rnd1 rnd2 now : Z) :
  lb_wf s.(lbStrategy) →
  ∃ l r, getOne s rnd1 rnd2 now = Ok (s <| inner := l |>, r) ∧
    identity ewma0 <$> l ≡ₚ identity ewma0 <$> s.(inner) ∧
    (r = None ↔ s.(inner) = []) ∧ (∀ x, r = Some x → x ∈ l).
Proof.
  intros Hw. unfold getOne. destruct (Z.leb_spec (len s.(inner)) 0) as [Hl|Hl].
  { exists s.(inner), None. split_and!; [by destruct s|done| |done].
    split; [|done]. intros _. apply len_zero. pose proof (len_nonneg s.(inner)). lia. }
  destruct (candidate_active s.(lbStrategy) (len s.(inner)) rnd1 Hw) as (c & -> & Hc); [lia|].
  pose proof (active_bounds s.(lbStrategy) (len s.(inner)) Hw) as Ha.
  cbn [obind].
  assert (∃ l, (if s.(lbEstimator) then estimatorUpdate s c rnd2 now else Ok s) = Ok (s <| inner := l |>) ∧
    identity ewma0 <$> l ≡ₚ identity ewma0 <$> s.(inner)) as (l & -> & Hp).
  { destruct s.(lbEstimator); [apply estimatorUpdate_perm; [done|lia..]|].
    exists s.(inner). by destruct s. }
  cbn [obind].
  assert (Hlen : len l = len s.(inner)).
  { apply Permutation_length in Hp. rewrite !length_fmap in Hp. unfold len. by rewrite Hp. }
  destruct (proj1 (index_lt l c)) as [x Hx]; [lia|].
  cbn [inner set_field]. rewrite Hx. cbn [orPanic obind].
  exists l, (Some x). split_and!; [done|done| |].
  - split; [done|]. intros He. rewrite He in Hl. by cbn in Hl.
  - intros ? [= <-]. apply index_Some in Hx as [_ Hx]. by eapply list_elem_of_lookup_2.
Qed.

(** Choosing a server never panics, returns one whenever some server is
    known, and only reorders the servers and updates latencies: the list keeps
    the same servers, and the one returned is among them. *)
Theorem getOne_spec (s : ServersInfo E) (rnd1 rnd2 now : Z) :
  lb_wf s.(lbStrategy) →
  ∃ l r, getOne s rnd1 rnd2 now = Ok (s <| inner := l |>, r) ∧
    identity ewma0 <$> l ≡ₚ identity ewma0 <$> s.(inner) ∧
    (r = None ↔ s.(inner) = []) ∧ (∀ x, r = Some x → x ∈ l).
Proof. apply getOne_facts. Qed.

(** Registering a server (resp. a relay) keeps names unique; the registry
    then holds the new stamp under the name, and the other entries unchanged. *)
Theorem registerServer_spec (s : ServersInfo E) (name : bytes) (stamp : ServerStamp) :
  NoDup (rs_name <$> s.(registeredServers)) →
  NoDup (rs_name <$> (registerServer s name stamp).(registeredServers)) ∧
  ∀ r, r ∈ (registerServer s name stamp).(registeredServers) ↔
    r = {| rs_name := name; rs_stamp := stamp; rs_description := [] |} ∨
    (r ∈ s.(registeredServers) ∧ r.(rs_name) ≠ name).
Proof.
  intros Hn. split.
  - by apply replace_or_append_NoDup.
  - intros r. by apply replace_or_append_elem.
Qed.

(** [refresh_inv s]: server names are unique and every known server is
    registered. *)
Definition refresh_inv (s : ServersInfo E) : Prop :=
  NoDup (si_Name <$> s.(inner)) ∧ NoDup (rs_name <$> s.(registeredServers)) ∧
  ∀ n, n ∈ si_Name <$> s.(inner) → n ∈ rs_name <$> s.(registeredServers).

Lemma known_spec (s : ServersInfo E) n : known s n = true ↔ n ∈ si_Name <$> s.(inner).
Proof.
  unfold known. rewrite existsb_exists, list_elem_of_fmap. split.
  - intros (x & Hx & He%bool_decide_eq_true). exists x. split; [done|]. by apply list_elem_of_In.
  - intros (x & -> & Hx). exists x. split; [by apply list_elem_of_In|]. by apply bool_decide_eq_true.
Qed.

Lemma refreshServer_inv `{Fetcher (E:=E)} s name stamp s' :
  refresh_inv s → refreshServer ewma0 s name stamp = Ok s' →
  refresh_inv s' ∧ name ∈ si_Name <$> s'.(inner) ∧
  (∀ n, n ∈ si_Name <$> s.(inner) → n ∈ si_Name <$> s'.(inner)).
Proof.
  intros (Hi & Hr & Hsub). unfold refreshServer. intros Hs.
  apply obind_Ok in Hs as (x & _ & Hs). case_bool_decide as Hname; [|done]. cbn [negb] in Hs.
  set (x' := x <| rtt := _ |>) in Hs. assert (Hx : si_Name x' = name) by done. clearbody x'.
  pose proof (replace_or_append_keys si_Name name x' s.(inner) Hx) as Hk.
  destruct (known s name) eqn:Hkn; injection Hs as <-; unfold refresh_inv;
    cbn [inner registeredServers registerServer set_field].
  - apply known_spec in Hkn. rewrite decide_True in Hk by done. rewrite Hk. done.
  - assert (name ∉ si_Name <$> s.(inner)) as Hni by (rewrite <-known_spec; congruence).
    rewrite decide_False in Hk by done. rewrite Hk.
    rewrite replace_or_append_keys by done. split_and!.
    + rewrite <-Hk. by apply replace_or_append_NoDup.
    + rewrite <-replace_or_append_keys with (x := {| rs_name := name; rs_stamp := stamp; rs_description := [] |}) by done.
      by apply replace_or_append_NoDup.
    + intros n. case_decide; set_solver.
    + set_solver.
    + set_solver.
Qed.

Lemma refresh_loop_inv `{Fetcher (E:=E)} l s live err s' live' err' :
  refresh_inv s → refresh_loop ewma0 l s live err = Ok (s', live', err') →
  refresh_inv s' ∧ live ≤ live' ≤ live + len l ∧
  (∀ n, n ∈ si_Name <$> s.(inner) → n ∈ si_Name <$> s'.(inner)) ∧
  (live' = live + len l → ∀ r, r ∈ l → r.(rs_name) ∈ si_Name <$> s'.(inner)).
Proof.
  revert s live err. induction l as [|r l IH]; intros s live err Hinv; cbn.
  { intros [= <- <- <-]. split_and!; [done|lia|len_lia|done|set_solver]. }
  rewrite len_cons. destruct (refreshServer ewma0 s (rs_name r) (rs_stamp r)) as [s1|e| |] eqn:Hs; [| |done..].
  - destruct (refreshServer_inv _ _ _ _ Hinv Hs) as (Hinv1 & Hin & Hmono).
    intros (Hi & Hb & Hm & Hall)%IH; [|done]. split_and!; [done|lia|lia|auto|].
    intros Hl x [->|Hx]%elem_of_cons; [auto|]. apply Hall; [lia|done].
  - intros (Hi & Hb & Hm & Hall)%IH; [|done]. split_and!; [done|lia|lia|auto|].
    intros Hl. lia.
Qed.

Lemma refresh_facts `{Fetcher (E:=E)} (s s' : ServersInfo E) (live : Z) (err : option error) :
  refresh_inv s → refresh ewma0 s = Ok (s', live, err) →
  refresh_inv s' ∧
  (∀ n, n ∈ si_Name <$> s.(inner) → n ∈ si_Name <$> s'.(inner)) ∧
  0 ≤ live ≤ len s.(registeredServers) ∧
  (live = len s.(registeredServers) →
     ∀ r, r ∈ s.(registeredServers) → r.(rs_name) ∈ si_Name <$> s'.(inner)) ∧
  StronglySorted rtt_le s'.(inner).
Proof.
  intros Hinv. unfold refresh. intros Hr. apply obind_Ok in Hr as ([[s1 l1] e1] & Hloop & Hr).
  injection Hr as <- <- <-.
  destruct (refresh_loop_inv _ _ _ _ _ _ _ Hinv Hloop) as ((H1 & H2 & H3) & Hb & Hm & Hall).
  unfold refresh_inv. cbn [inner registeredServers set_field].
  pose proof (sort_by_rtt_perm s1.(inner)) as Hp.
  assert (Hin : ∀ n, n ∈ si_Name <$> sort_by_rtt s1.(inner) ↔ n ∈ si_Name <$> s1.(inner)).
  { intros n. by rewrite Hp. }
  split_and!; auto; try lia.
  - by rewrite Hp.
  - intros n. rewrite Hin. auto.
  - intros n Hn. rewrite Hin. auto.
  - intros Hl r Hr. rewrite Hin. apply Hall; [lia|done].
  - apply sort_by_rtt_sorted.
Qed.

(** C33: A refresh keeps the invariant (unique names, every live server registered),
    loses no server that was known, counts at most the registered servers and,
    when it counts them all, knows each of them; the servers end up sorted by
    initial latency. *)
Theorem refresh_spec `{Fetcher (E:=E)} (s s' : ServersInfo E) (live : Z) (err : option error) :
  refresh_inv s → refresh ewma0 s = Ok (s', live, err) →
  refresh_inv s' ∧
  (∀ n, n ∈ si_Name <$> s.(inner) → n ∈ si_Name <$> s'.(inner)) ∧
  0 ≤ live ≤ len s.(registeredServers) ∧
  (live = len s.(registeredServers) →
     ∀ r, r ∈ s.(registeredServers) → r.(rs_name) ∈ si_Name <$> s'.(inner)) ∧
  StronglySorted rtt_le s'.(inner).
Proof. apply refresh_facts. Qed.
End Properties.

(** ** Instances *)

Definition sample_server (name : bytes) (ms : Z) : ServerInfo Q := {|
  lastActionTS := 0; rtt := inject_Z ms; si_Name := name; HostName := [];
  UDPAddr := {| addr_IP := []; addr_Port := 443 |}; TCPAddr := {| addr_IP := []; addr_Port := 443 |};
  si_Relay := None; URL := no_url; initialRtt := ms; Timeout := 0;
  si_CryptoConstruction := XSalsa20Poly1305; ServerPk := []; SharedKey := []; MagicQuery := [];
  knownBugs := {| fragmentsBlocked := false |}; Proto := StampProtoTypeDNSCrypt; useGet := false;
  odohTargetConfigs := [] |}.

Definition sample_stamp : ServerStamp := {|
  ServerAddrStr := str "192.0.2.1:443"; stamp_ServerPk := []; Hashes := []; ProviderName := [];
  Path := []; Props := 0; stamp_Proto := StampProtoTypeDNSCrypt |}.

(** Two registered servers, of which the second is already known. *)
Definition sample_servers : ServersInfo Q :=
  (registerServer (registerServer NewServersInfo (str "a") sample_stamp) (str "b") sample_stamp)
    <| inner := [sample_server (str "b") 40] |>.

Example getCandidate_in_active_wit : ∃ c, getCandidate (LBStrategyPN 3) 7 11 = Ok c ∧ 0 ≤ c < 3.
Proof.
  destruct (getCandidate_in_active (LBStrategyPN 3) 7 11) as (c & Hc & Hb & _); [cbn; lia..|].
  by exists c.
Defined.

Example getOne_spec_wit :
  ∃ l r, getOne (sample_servers <| inner := [sample_server (str "a") 9; sample_server (str "b") 50;
                                             sample_server (str "c") 1] |>) 1 0 0
         = Ok (sample_servers <| inner := l |>, Some r) ∧ r ∈ l.
Proof.
  destruct (getOne_spec (E:=Q) 0%Q (sample_servers <| inner := [sample_server (str "a") 9;
    sample_server (str "b") 50; sample_server (str "c") 1] |>) 1 0 0) as (l & [r|] & Hg & _ & Hn & Hin); [done| |].
  - exists l, r. split; [exact Hg|by apply Hin].
  - by destruct (proj1 Hn eq_refl).
Defined.

Example registerServer_spec_wit :
  NoDup (rs_name <$> (registerServer sample_servers (str "a") sample_stamp).(registeredServers)).
Proof.
  apply (registerServer_spec sample_servers (str "a") sample_stamp).
  by apply (bool_decide_unpack _); vm_compute.
Defined.

(** A fetcher that reaches every server. *)
#[local] Instance sample_fetcher : Fetcher (E:=Q) := λ name _ _, Ok (sample_server name 20).

Example refresh_spec_wit :
  ∃ s', refresh 0%Q sample_servers = Ok (s', 2, None) ∧ StronglySorted rtt_le s'.(inner).
Proof.
  eexists. split; [vm_compute; reflexivity|].
  eapply (refresh_spec 0%Q sample_servers _ 2 None); [|vm_compute; reflexivity].
  split_and!; [by apply (bool_decide_unpack _); vm_compute..|].
  intros n Hn. vm_compute in Hn. vm_compute. set_solver.
Defined.
