(* ===== verification/XTransport.v ===== *)
(** xtransport.go: the cache of server addresses, its resolution through
    bootstrap resolvers or the system, and the HTTP exchanges built on it. *)
From S2P Require Import Prelude.
From S2P Require Import GoStrings.
From S2P Require Import Common.
From S2P Require Import ServerTypes.
From S2P Require Import DnsMsg.
From S2P Require Import DnsUtils.
From S2P Require Import ServersInfo.

(** * Addresses as text *)

(** [net.ParseIP] (the empty list is nil; other results have 16 bytes) and
    [IP.String]. *)
Class NetLib := {
  net_ParseIP : bytes → IP;
  IP_String : IP → bytes
}.

(** [strings.TrimLeft(s, c)] and [strings.TrimRight(s, c)] for one character. *)
Definition TrimLeft (s : bytes) (c : Z) : bytes := dropWhile (λ x, x =? c) s.
Definition TrimRight (s : bytes) (c : Z) : bytes := reverse (dropWhile (λ x, x =? c) (reverse s)).

Definition ParseIP `{NetLib} (ipStr : bytes) : IP := net_ParseIP (TrimRight (TrimLeft ipStr 91) 93).

(** * State *)

Definition Hour : Z := 3600 * Second.
Definition Minute : Z := 60 * Second.
Definition SystemResolverIPTTL : Z := 24 * Hour.
Definition MinResolverIPTTL : Z := 12 * Hour.
Definition ExpiredCachedIPGraceTTL : Z := 15 * Minute.

Record CachedIPItem := { ci_ip : IP; ci_expiration : option Z }.

Record XTransport := {
  cachedIPs : gmap bytes CachedIPItem;
  altSupport : gmap bytes Z;
  bootstrapResolvers : list bytes;
  mainProto : bytes;
  ignoreSystemDNS : bool;
  useIPv4 : bool;
  useIPv6 : bool;
  http3 : bool;
  has_proxyDialer : bool;
  has_httpProxy : bool;
  tlsCipherSuite : option (list Z)
}.

#[export] Instance eta_XTransport : Eta XTransport := λ x,
  {| cachedIPs := x.(cachedIPs); altSupport := x.(altSupport);
     bootstrapResolvers := x.(bootstrapResolvers); mainProto := x.(mainProto);
     ignoreSystemDNS := x.(ignoreSystemDNS); useIPv4 := x.(useIPv4); useIPv6 := x.(useIPv6);
     http3 := x.(http3); has_proxyDialer := x.(has_proxyDialer); has_httpProxy := x.(has_httpProxy);
     tlsCipherSuite := x.(tlsCipherSuite) |}.

Definition DefaultBootstrapResolver : bytes := str "9.9.9.9:53".

Definition NewXTransport : XTransport :=
  {| cachedIPs := ∅; altSupport := ∅; bootstrapResolvers := [DefaultBootstrapResolver];
     mainProto := []; ignoreSystemDNS := true; useIPv4 := true; useIPv6 := false;
     http3 := false; has_proxyDialer := false; has_httpProxy := false; tlsCipherSuite := None |}.

(** * The address cache *)

Definition saveCachedIP (x : XTransport) (host : bytes) (ip : IP) (ttl now : Z) : XTransport :=
  let item :=
    if 0 <=? ttl then
      let ttl := if ttl <? MinResolverIPTTL then MinResolverIPTTL else ttl in
      {| ci_ip := ip; ci_expiration := Some (now + ttl) |}
    else {| ci_ip := ip; ci_expiration := None |} in
  x <| cachedIPs := <[host := item]> x.(cachedIPs) |>.

Definition loadCachedIP (x : XTransport) (host : bytes) (now : Z) : IP * bool :=
  match x.(cachedIPs) !! host with
  | None => ([], false)
  | Some item =>
      (item.(ci_ip),
       match item.(ci_expiration) with
       | Some expiration => expiration - now <? 0
       | None => false
       end)
  end.

(** * Resolution *)

(** What a resolution gets from outside: the clock, a random number, an
    identifier for its queries, the system resolver and the DNS client. *)
Record ResolveEnv := {
  re_now : Z;
  re_rnd : Z;
  re_id : Z;
  LookupHost : bytes → Out (list bytes);
  Exchange : bytes → Msg → bytes → Out Msg
}.

Section Resolve.
Context `{NetLib} (env : ResolveEnv).

(** The addresses kept by [resolveUsingSystem]. With both families enabled an
    IPv4 address is kept twice. *)
Definition system_ips (x : XTransport) (found : list bytes) : list IP :=
  found ≫= λ s,
    let foundIP := net_ParseIP s in
    if bool_decide (foundIP = []) then []
    else
      (if x.(useIPv4) && negb (bool_decide (To4 foundIP = [])) then [foundIP] else []) ++
      (if x.(useIPv6) && negb (bool_decide (To16 foundIP = [])) then [foundIP] else []).

(** The results (ip, ttl, err) of a resolution. *)
Definition Resolved : Type := IP * Z * option error.

Definition resolveUsingSystem (x : XTransport) (host : bytes) : Out Resolved :=
  match LookupHost env host with
  | Ok found =>
      let ips := system_ips x found in
      if (length ips =? 0)%nat then Ok ([], SystemResolverIPTTL, None)
      else
        let! i := Intn env.(re_rnd) (len ips) in
        let! ip := orPanic (index ips i) in
        Ok (ip, SystemResolverIPTTL, None)
  | Err e => Ok ([], SystemResolverIPTTL, Some e)
  | Panic => Panic
  | Fatal => Fatal
  end.

(** [dns.IsFqdn]: a final dot that is not escaped. The index of the last rune that
    is no backslash is that of its first byte, and -1 if there is none. *)
Definition IsFqdn (s : bytes) : bool :=
  let s2 := TrimSuffix s (str ".") in
  if decide (s = s2) then false
  else
    let l := reverse (segs s2) in
    let l' := dropWhile (λ p, p.1 =? 92) l in
    let last := match l' with (_, b) :: _ => length b | [] => 1%nat end in
    Nat.odd (length l - length l' + last).

Definition Fqdn (s : bytes) : bytes := if IsFqdn s then s else s ++ str ".".

(** One address family: the error of the exchange, and the record chosen. *)
Definition query_family (proto host resolver : bytes) (qtype : Z) : Out (option error * option RR) :=
  let msg := SetEdns0 (SetQuestion empty_Msg env.(re_id) (Fqdn host) qtype) (u16 MaxDNSPacketSize) true in
  match Exchange env proto msg resolver with
  | Ok inn =>
      let answers := filter (λ rr, rr.(Hdr).(Rrtype) = qtype) inn.(Answer) in
      if (length answers =? 0)%nat then Ok (None, None)
      else
        let! i := Intn env.(re_rnd) (len answers) in
        let! answer := orPanic (index answers i) in
        Ok (None, Some answer)
  | Err e => Ok (Some e, None)
  | Panic => Panic
  | Fatal => Fatal
  end.

Definition resolveUsingResolver (x : XTransport) (proto host resolver : bytes) : Out Resolved :=
  let! (err, answer) := if x.(useIPv4) then query_family proto host resolver TypeA else Ok (None, None) in
  match answer with
  | Some rr =>
      match rr.(Data) with rA ip => Ok (ip, rr.(Hdr).(Ttl) * Second, err) | _ => Panic end
  | None =>
      if x.(useIPv6) then
        let! (err, answer) := query_family proto host resolver TypeAAAA in
        match answer with
        | Some rr =>
            match rr.(Data) with rAAAA ip => Ok (ip, rr.(Hdr).(Ttl) * Second, err) | _ => Panic end
        | None => Ok ([], 0, err)
        end
      else Ok ([], 0, err)
  end.

(** The loop of [resolveUsingResolvers] from resolver [i]: the results of the
    last call, and the index of the resolver that answered. *)
Fixpoint try_resolvers (x : XTransport) (proto host : bytes) (l : list bytes) (i : nat) (last : Resolved)
    : Out (Resolved * option nat) :=
  match l with
  | [] => Ok (last, None)
  | resolver :: l =>
      let! r := resolveUsingResolver x proto host resolver in
      match r.2 with
      | None => Ok (r, Some i)
      | Some _ => try_resolvers x proto host l (S i) r
      end
  end.

(** [resolveUsingResolvers] on the transport's resolvers: the one that answered
    is moved to the front. *)
Definition resolveUsingResolvers (x : XTransport) (proto host : bytes) : Out (XTransport * Resolved) :=
  let! (r, i) := try_resolvers x proto host x.(bootstrapResolvers) 0 ([], 0, None) in
  match i with
  | Some (S i) => Ok (x <| bootstrapResolvers := swap x.(bootstrapResolvers) 0 (S i) |>, r)
  | _ => Ok (x, r)
  end.

Definition resolve_protos (x : XTransport) : list bytes :=
  if bool_decide (x.(mainProto) = str "tcp") then [str "tcp"; str "udp"] else [str "udp"; str "tcp"].

(** The loop over the two transports. *)
Fixpoint try_protos (x : XTransport) (host : bytes) (protos : list bytes) (last : Resolved)
    : Out (XTransport * Resolved) :=
  match protos with
  | [] => Ok (x, last)
  | proto :: protos =>
      let! (x, r) := resolveUsingResolvers x proto host in
      match r.2 with
      | None => Ok (x, r)
      | Some _ => try_protos x host protos r
      end
  end.

Definition resolveAndUpdateCache (x : XTransport) (host : bytes) : Out (XTransport * option error) :=
  if x.(has_proxyDialer) || x.(has_httpProxy) then Ok (x, None)
  else if negb (bool_decide (ParseIP host = [])) then Ok (x, None)
  else
    let '(cachedIP, expired) := loadCachedIP x host env.(re_now) in
    if negb (bool_decide (cachedIP = [])) && negb expired then Ok (x, None)
    else
      let! r := if negb x.(ignoreSystemDNS) then resolveUsingSystem x host else Ok ([], 0, None) in
      let! (x, r) :=
        if x.(ignoreSystemDNS) || bool_decide (is_Some r.2)
        then try_protos x host (resolve_protos x) r else Ok (x, r) in
      let! (foundIP, ttl, err) :=
        if bool_decide (is_Some r.2) && x.(ignoreSystemDNS) then resolveUsingSystem x host else Ok r in
      let ttl := if ttl <? MinResolverIPTTL then MinResolverIPTTL else ttl in
      match err with
      | None => Ok (saveCachedIP x host foundIP ttl env.(re_now), None)
      | Some e =>
          if bool_decide (cachedIP = []) then Ok (x, Some e)
          else Ok (saveCachedIP x host cachedIP ExpiredCachedIPGraceTTL env.(re_now), None)
      end.

(** The address the transport's [DialContext] connects to. *)
Definition dial_address (x : XTransport) (addrStr : bytes) : bytes :=
  let '(host, port) := ExtractHostAndPort addrStr 443 in
  let cachedIP := (loadCachedIP x host env.(re_now)).1 in
  let ipOnly :=
    if negb (bool_decide (cachedIP = [])) then
      if negb (bool_decide (To4 cachedIP = [])) then IP_String (To4 cachedIP)
      else str "[" ++ IP_String cachedIP ++ str "]"
    else host in
  ipOnly ++ str ":" ++ Itoa port.
End Resolve.

(** * HTTP *)

(** The parts of [tls.ConnectionState] that are read: whether the handshake is
    complete and the signed part of the peer's certificates. *)
Record TLSState := { HandshakeComplete : bool; PeerCertificates : list bytes }.

Record HttpResponse := {
  StatusCode : Z;
  Alt_Svc : option (list bytes);
  resp_TLS : option TLSState;
  resp_body : Out bytes
}.

(** The error of [client.Do]: its value, and whether its text mentions a
    handshake failure. *)
Record HttpError := { he_error : error; he_handshake : bool }.

Record Request := {
  rq_method : bytes;
  rq_url : Url;
  rq_accept : bytes;
  rq_contentType : bytes;
  rq_body : option bytes;
  rq_timeout : Z;
  rq_http3 : bool
}.

(** What [Fetch] returns. *)
Record FetchResult := {
  f_bin : option bytes;
  f_status : Z;
  f_tls : option TLSState;
  f_rtt : Z;
  f_err : option error
}.

(** SHA-512, hexadecimal and base64url encodings. *)
Class WebLib := {
  sha512 : bytes → bytes;
  hex_EncodeToString : bytes → bytes;
  base64_RawURLEncoding : bytes → bytes
}.

Definition MaxHTTPBodyLength : Z := 1000000.

(** [strconv.ParseUint(v, 10, 16)]. *)
Definition ParseUint16 (v : bytes) : option Z :=
  match v with
  | [] => None
  | _ => n ← digits_go v 0; if n <=? 65535 then Some n else None
  end.

Definition h3_prefix : bytes := str "h3=" ++ [34; 58].

(** One [;]-separated part of an Alt-Svc header. *)
Definition alt_part (v : bytes) : option Z :=
  let v := TrimSpace v in
  if HasPrefix v h3_prefix then ParseUint16 (TrimSuffix (TrimPrefix v h3_prefix) [34]) else None.

Fixpoint alt_parts (i j : nat) (parts : list bytes) (altPort : Z) : Z :=
  match parts with
  | [] => altPort
  | v :: parts =>
      if (8 <? i)%nat || (16 <? j)%nat then altPort
      else
        match alt_part v with
        | Some p => u16 p
        | None => alt_parts i (S j) parts altPort
        end
  end.

Fixpoint alt_port (i : nat) (alt : list bytes) (altPort : Z) : Z :=
  match alt with
  | [] => altPort
  | xalt :: alt => alt_port (S i) alt (alt_parts i 0 (Split xalt (str ";")) altPort)
  end.

Section Http.
Context `{NetLib} `{WebLib} (env : ResolveEnv).

(** [client.Do] with its duration; a nil response is [None]. *)
Context (client_Do : Request → (HttpError + option HttpResponse) * Z).
Context (default_timeout : Z).

Definition failed_fetch (status rtt : Z) (e : error) : FetchResult :=
  {| f_bin := None; f_status := status; f_tls := None; f_rtt := rtt; f_err := Some e |}.

Definition Fetch (x : XTransport) (method : bytes) (url : Url) (accept contentType : bytes)
    (body : option bytes) (timeout : Z) : Out (XTransport * FetchResult) :=
  let timeout := if timeout <=? 0 then default_timeout else timeout in
  let '(host, port) := ExtractHostAndPort url.(u_Host) 443 in
  let h3 := x.(http3) && bool_decide (x.(altSupport) !! url.(u_Host) = Some port) in
  let url' :=
    match body with
    | Some b => add_query url (str "body_hash") (hex_EncodeToString (take 32 (sha512 b)))
    | None => url
    end in
  if negb x.(has_proxyDialer) && HasSuffix host (str ".onion") then
    Ok (x, failed_fetch 0 0 (EMsg "Onion service is not reachable without Tor"))
  else
    let! (x, err) := resolveAndUpdateCache env x host in
    match err with
    | Some e => Ok (x, failed_fetch 0 0 e)
    | None =>
        let req := {| rq_method := method; rq_url := url'; rq_accept := accept;
                      rq_contentType := contentType; rq_body := body; rq_timeout := timeout;
                      rq_http3 := h3 |} in
        let '(r, rtt) := client_Do req in
        let fail (x : XTransport) status e handshake :=
          let x := if bool_decide (is_Some x.(tlsCipherSuite)) && handshake
                   then x <| tlsCipherSuite := None |> else x in
          Ok (x, failed_fetch status rtt e) in
        match r with
        | inl e => fail x 503 e.(he_error) e.(he_handshake)
        | inr None => fail x 503 (EMsg "Webserver returned an error") false
        | inr (Some resp) =>
            if (resp.(StatusCode) <? 200) || (299 <? resp.(StatusCode))
            then fail x resp.(StatusCode) (EMsg "HTTP status") false
            else
              let x :=
                match resp.(Alt_Svc) with
                | Some alt =>
                    if x.(http3)
                    then x <| altSupport := <[url.(u_Host) := alt_port 0 alt (u16 port)]> x.(altSupport) |>
                    else x
                | None => x
                end in
              match resp.(resp_body) with
              | Ok b =>
                  Ok (x, {| f_bin := Some (take (Z.to_nat MaxHTTPBodyLength) b);
                            f_status := resp.(StatusCode); f_tls := resp.(resp_TLS);
                            f_rtt := rtt; f_err := None |})
              | Err e =>
                  Ok (x, {| f_bin := None; f_status := resp.(StatusCode); f_tls := resp.(resp_TLS);
                            f_rtt := rtt; f_err := Some e |})
              | Panic => Panic
              | Fatal => Fatal
              end
        end
    end.

Definition Get (x : XTransport) (url : Url) (accept : bytes) (timeout : Z) :=
  Fetch x (str "GET") url accept [] None timeout.

Definition Post (x : XTransport) (url : Url) (accept contentType : bytes) (body : bytes) (timeout : Z) :=
  Fetch x (str "POST") url accept contentType (Some body) timeout.

Definition dohLikeQuery (dataType : bytes) (x : XTransport) (useGet : bool) (url : Url) (body : bytes)
    (timeout : Z) : Out (XTransport * FetchResult) :=
  if useGet then Get x (add_query url (str "dns") (base64_RawURLEncoding body)) dataType timeout
  else Post x url dataType dataType body timeout.

Definition DoHQuery := dohLikeQuery (str "application/dns-message").
Definition ObliviousDoHQuery := dohLikeQuery (str "application/oblivious-dns-message").
End Http.

(** * Lemmas *)

Lemma load_save (x : XTransport) (host host' : bytes) (ip : IP) (ttl now t : Z) :
  loadCachedIP (saveCachedIP x host ip ttl now) host' t =
    if decide (host' = host)
    then (ip, (0 <=? ttl) && (now + Z.max ttl MinResolverIPTTL <? t))
    else loadCachedIP x host' t.
Proof.
  unfold loadCachedIP, saveCachedIP. cbn [cachedIPs set_field].
  destruct (decide (host' = host)) as [->|Hne]; [|by rewrite lookup_insert_ne by congruence].
  rewrite lookup_insert_eq. destruct (Z.leb_spec 0 ttl); cbn [ci_ip ci_expiration andb]; [|done].
  f_equal. destruct (Z.ltb_spec ttl MinResolverIPTTL), (Z.ltb_spec (now + Z.max ttl MinResolverIPTTL) t);
    (apply Z.ltb_lt || apply Z.ltb_ge); lia.
Qed.

Lemma saved_fresh x host ip ttl now :
  is_Some ((saveCachedIP x host ip ttl now).(cachedIPs) !! host) ∧
  (loadCachedIP (saveCachedIP x host ip ttl now) host now).2 = false.
Proof.
  split.
  - cbn [saveCachedIP cachedIPs set_field]. rewrite lookup_insert_eq. by eexists.
  - rewrite load_save, decide_True by done. cbn. apply andb_false_iff. right.
    apply Z.ltb_ge. unfold MinResolverIPTTL, Hour, Second. lia.
Qed.

(** An environment in which every resolution fails. *)
Definition unreachable (env : ResolveEnv) (e : error) : Prop :=
  (∀ h, LookupHost env h = Err e) ∧ (∀ p m r, Exchange env p m r = Err e).

Section Unreachable.
Context `{NetLib} (env : ResolveEnv) (e : error) (Hun : unreachable env e).

Lemma try_resolvers_fail x proto host l i last :
  x.(useIPv4) || x.(useIPv6) = true → l ≠ [] ∨ last = ([], 0, Some e) →
  try_resolvers env x proto host l i last = Ok (([], 0, Some e), None).
Proof.
  intros Hfam. revert i last. induction l as [|r l IH]; intros i last Hl; cbn [try_resolvers].
  { by destruct Hl as [?| ->]. }
  assert (resolveUsingResolver env x proto host r = Ok ([], 0, Some e)) as ->.
  { unfold resolveUsingResolver, query_family. destruct Hun as [_ He]. rewrite !He.
    destruct x.(useIPv4), x.(useIPv6); done. }
  cbn [obind snd]. apply IH. by right.
Qed.

Lemma try_protos_fail x host protos last :
  x.(useIPv4) || x.(useIPv6) = true → x.(bootstrapResolvers) ≠ [] →
  protos ≠ [] ∨ last = ([], 0, Some e) →
  try_protos env x host protos last = Ok (x, ([], 0, Some e)).
Proof.
  intros Hfam Hres. revert last. induction protos as [|p protos IH]; intros last Hl; cbn [try_protos].
  { by destruct Hl as [?| ->]. }
  unfold resolveUsingResolvers. rewrite try_resolvers_fail by (done || by left).
  cbn [obind snd]. apply IH. by right.
Qed.
End Unreachable.

(** * Properties *)

Section Properties.
Context `{NetLib}.

(** An address saved for a host is the one loaded for it afterwards. Saved
    with a negative lifetime it never expires; otherwise it expires once the
    lifetime, raised to twelve hours if shorter, has passed. Other hosts are not
    affected. *)
Theorem loadCachedIP_saveCachedIP (x : XTransport) (host host' : bytes) (ip : IP) (ttl now t : Z) :
  loadCachedIP (saveCachedIP x host ip ttl now) host' t =
    if decide (host' = host)
    then (ip, (0 <=? ttl) && (now + Z.max ttl MinResolverIPTTL <? t))
    else loadCachedIP x host' t.
Proof. apply load_save. Qed.

(** When [resolveAndUpdateCache] reports no error, the host needs no address
    (a proxy is used or the host is a literal) or has an entry in the cache that
    has not expired, so that [DialContext] finds it. *)
Theorem resolveAndUpdateCache_cached (env : ResolveEnv) (x x' : XTransport) (host : bytes) :
  resolveAndUpdateCache env x host = Ok (x', None) →
  x.(has_proxyDialer) || x.(has_httpProxy) = true ∨ ParseIP host ≠ [] ∨
  (is_Some (x'.(cachedIPs) !! host) ∧ (loadCachedIP x' host env.(re_now)).2 = false).
Proof.
  unfold resolveAndUpdateCache. destruct (_ || _); [by left|].
  case_bool_decide as Hip; [|by right; left]. cbn [negb]. intros Hr. right. right.
  destruct (loadCachedIP x host env.(re_now)) as [cachedIP expired] eqn:Hload.
  destruct (negb (bool_decide (cachedIP = [])) && negb expired) eqn:Hc.
  { injection Hr as <-. apply andb_true_iff in Hc as [Hc%negb_true_iff He%negb_true_iff].
    apply bool_decide_eq_false in Hc. rewrite Hload. split; [|done].
    unfold loadCachedIP in Hload. destruct (cachedIPs x !! host); [by eexists|congruence]. }
  apply obind_Ok in Hr as (r1 & _ & Hr). apply obind_Ok in Hr as ([x1 r2] & _ & Hr).
  apply obind_Ok in Hr as ([[ip ttl] [er|]] & _ & Hr); [case_bool_decide|]; simplify_eq; apply saved_fresh.
Qed.

(** The grace period of a stale address. When neither the bootstrap resolvers
    nor the system resolver answer, the expired address is used again, and it is
    kept for twelve hours: the fifteen minutes of [ExpiredCachedIPGraceTTL] never
    apply. *)
Theorem grace_period_is_twelve_hours (env : ResolveEnv) (e : error) (x : XTransport) (host : bytes) (ip : IP) :
  unreachable env e → x.(has_proxyDialer) || x.(has_httpProxy) = false → ParseIP host = [] →
  x.(useIPv4) || x.(useIPv6) = true → x.(bootstrapResolvers) ≠ [] →
  loadCachedIP x host env.(re_now) = (ip, true) → ip ≠ [] →
  ∃ x', resolveAndUpdateCache env x host = Ok (x', None) ∧
    x'.(cachedIPs) !! host = Some {| ci_ip := ip; ci_expiration := Some (env.(re_now) + MinResolverIPTTL) |}.
Proof.
  intros Hun Hprox Hip Hfam Hres Hload Hne. pose proof Hun as [Hl Hx].
  unfold resolveAndUpdateCache. rewrite Hprox, Hip, bool_decide_eq_true_2 by done. cbn [negb].
  rewrite Hload, bool_decide_eq_false_2 by done. cbn [negb andb].
  assert (Hsys : resolveUsingSystem env x host = Ok ([], SystemResolverIPTTL, Some e))
    by (unfold resolveUsingSystem; by rewrite Hl).
  assert (Hpr : ∀ last, try_protos env x host (resolve_protos x) last = Ok (x, ([], 0, Some e))).
  { intros last. apply try_protos_fail; try done. left. unfold resolve_protos. by case_bool_decide. }
  destruct x.(ignoreSystemDNS) eqn:Hig; cbn [negb orb obind].
  - rewrite Hpr. cbn [obind]. rewrite Hig, bool_decide_eq_true_2 by by eexists. cbn [andb].
    rewrite Hsys. cbn [obind]. eexists. split; [done|]. apply lookup_insert_eq.
  - rewrite Hsys. cbn [obind]. rewrite bool_decide_eq_true_2 by by eexists.
    rewrite Hpr. cbn [obind]. rewrite Hig, andb_false_r. cbn [obind].
    eexists. split; [done|]. apply lookup_insert_eq.
Qed.
End Properties.

(** ** Instances *)

(** Literals are dotted quads of one-digit numbers. *)
#[local] Instance tiny_net : NetLib := {
  net_ParseIP s := match s with
    | [a; 46; b; 46; c; 46; d] => v4InV6Prefix ++ [a - 48; b - 48; c - 48; d - 48]
    | _ => [] end;
  IP_String ip := match ip with
    | [a; b; c; d] => [a + 48; 46; b + 48; 46; c + 48; 46; d + 48]
    | _ => str "::" end
}.

(** Resolvers that answer without any record. *)
Definition empty_answers : ResolveEnv := {|
  re_now := 0; re_rnd := 0; re_id := 1;
  LookupHost _ := Err (EMsg "no system resolver");
  Exchange _ m _ := Ok m |}.

Definition silent : ResolveEnv := {|
  re_now := 2 * MinResolverIPTTL; re_rnd := 0; re_id := 1;
  LookupHost _ := Err ETimeout; Exchange _ _ _ := Err ETimeout |}.

Definition resolved_example : XTransport :=
  match resolveAndUpdateCache empty_answers NewXTransport (str "doh.example") with
  | Ok (x, _) => x | _ => NewXTransport end.

Example resolveAndUpdateCache_cached_wit :
  is_Some (resolved_example.(cachedIPs) !! str "doh.example").
Proof.
  destruct (resolveAndUpdateCache_cached empty_answers NewXTransport resolved_example (str "doh.example"))
    as [H|[H|[H _]]]; [by vm_compute|done..|exact H].
Defined.

Example grace_period_is_twelve_hours_wit :
  ∃ x', resolveAndUpdateCache silent
      (saveCachedIP NewXTransport (str "doh.example") [1; 2; 3; 4] 0 0) (str "doh.example") = Ok (x', None) ∧
    x'.(cachedIPs) !! str "doh.example" =
      Some {| ci_ip := [1; 2; 3; 4]; ci_expiration := Some (silent.(re_now) + MinResolverIPTTL) |}.
Proof.
  apply (grace_period_is_twelve_hours silent ETimeout); done.
Defined.

(** A bootstrap answer without address records counts as a success. The
    query that follows finds no address in the cache and dials the host by name,
    which leaves its resolution to the operating system although the system
    resolver is configured to be ignored. *)
Theorem empty_answer_dials_by_name :
  ∃ x', resolveAndUpdateCache empty_answers NewXTransport (str "doh.example") = Ok (x', None) ∧
    NewXTransport.(ignoreSystemDNS) = true ∧
    dial_address empty_answers x' (str "doh.example:443") = str "doh.example:443".
Proof. eexists. split_and!; [by vm_compute..|]. reflexivity. Qed.
