(* ===== verification/Bootstrap.v ===== *)
(** xtransport.go: the list of bootstrap resolvers while names are resolved at the same time.

    [resolveUsingResolvers] moves the resolver that answered to the front of a slice that all
    goroutines share, without a lock. Here each access to the slice is a step. Alone, a
    goroutine exchanges two elements ([swap_alone], as in [XTransport.resolveUsingResolvers]). Among
    others, the slice keeps its length and has configured resolvers only ([resolvers_configured]), but a
    resolver can be lost for good ([resolver_lost]). *)
From S2P Require Import Prelude.
From S2P Require Import GoStrings.
From S2P Require Import Common.

(** * Goroutines *)

(** Where a goroutine is: the resolver it is at in its loop, the two reads of the assignment
    that exchanges, its two writes, and the end, with the resolver that answered. *)
Inductive Resolver :=
  | AtResolver (i : nat)
  | Exchanging (i : nat) (r : bytes)
  | ReadingI (i : nat) (r : bytes)
  | Reading0 (i : nat) (r a : bytes)
  | Writing0 (i : nat) (r a b : bytes)
  | WritingI (i : nat) (r b : bytes)
  | Done (r : option bytes).

(** A step of a goroutine on the slice. An exchange may fail or succeed. *)
Inductive resolver_turn : list bytes → Resolver → list bytes → Resolver → Prop :=
  | r_next l i r : l !! i = Some r → resolver_turn l (AtResolver i) l (Exchanging i r)
  | r_none l i : (length l ≤ i)%nat → resolver_turn l (AtResolver i) l (Done None)
  | r_fails l i r : resolver_turn l (Exchanging i r) l (AtResolver (S i))
  | r_first l r : resolver_turn l (Exchanging 0 r) l (Done (Some r))
  | r_other l i r : resolver_turn l (Exchanging (S i) r) l (ReadingI (S i) r)
  | r_read_i l i r a : l !! i = Some a → resolver_turn l (ReadingI i r) l (Reading0 i r a)
  | r_read_0 l i r a b : l !! 0%nat = Some b → resolver_turn l (Reading0 i r a) l (Writing0 i r a b)
  | r_write_0 l i r a b : resolver_turn l (Writing0 i r a b) (<[0%nat := a]> l) (WritingI i r b)
  | r_write_i l i r b : resolver_turn l (WritingI i r b) (<[i := b]> l) (Done (Some r)).

(** Resolutions begin at any time, and any goroutine makes its next step. *)
Inductive resolver_step : list Resolver * list bytes → list Resolver * list bytes → Prop :=
  | rs_begins ts l : resolver_step (ts, l) (ts ++ [AtResolver 0], l)
  | rs_turn ts l j p l' p' : ts !! j = Some p → resolver_turn l p l' p' → resolver_step (ts, l) (<[j := p']> ts, l').

(** * A goroutine alone *)

Lemma turn_alone p l p' l' st : resolver_turn l p l' p' → rtc resolver_step ([p'], l') st → rtc resolver_step ([p], l) st.
Proof. intros Ht. apply rtc_l. by apply (rs_turn [p] l 0 p l' p'). Qed.

(** When the exchange with the resolver at [i] succeeds, that resolver and the first one are exchanged. *)
Lemma swap_alone l i r :
  l !! S i = Some r → rtc resolver_step ([Exchanging (S i) r], l) ([Done (Some r)], swap l 0 (S i)).
Proof.
  intros Hi. destruct l as [|b l]; [done|]. eapply turn_alone; [apply r_other|]. eapply turn_alone; [by apply r_read_i|].
  eapply turn_alone; [by apply r_read_0|]. eapply turn_alone; [apply r_write_0|]. eapply turn_alone; [apply r_write_i|].
  unfold swap. rewrite Hi. reflexivity.
Qed.

(** * Among others *)

Section Among.
Context (configured : list bytes).

(** What a goroutine has read is configured, and its index is in the slice. *)
Definition holds_configured (p : Resolver) : Prop :=
  match p with
  | AtResolver _ | Done None => True
  | Exchanging i r | ReadingI i r => (i < length configured)%nat ∧ r ∈ configured
  | Reading0 i r a => (i < length configured)%nat ∧ r ∈ configured ∧ a ∈ configured
  | Writing0 i r a b => (i < length configured)%nat ∧ r ∈ configured ∧ a ∈ configured ∧ b ∈ configured
  | WritingI i r b => (i < length configured)%nat ∧ r ∈ configured ∧ b ∈ configured
  | Done (Some r) => r ∈ configured
  end.

Definition resolvers_inv (st : list Resolver * list bytes) : Prop :=
  length st.2 = length configured ∧ Forall (.∈ configured) st.2 ∧ Forall holds_configured st.1.

Lemma resolver_turn_inv l p l' p' :
  length l = length configured → Forall (.∈ configured) l → holds_configured p → resolver_turn l p l' p' →
  length l' = length configured ∧ Forall (.∈ configured) l' ∧ holds_configured p'.
Proof.
  intros Hlen Hl Hp Ht. rewrite list.Forall_forall in Hl.
  assert (∀ i a, l !! i = Some a → a ∈ configured) as Hin by (intros i a Ha; by apply Hl, (list_elem_of_lookup_2 _ i)).
  destruct Ht; cbn in *; rewrite ?length_insert; (split; [done|]); (split; [try apply Forall_insert; try (by apply list.Forall_forall); tauto|]).
  - split; [|by eapply Hin]. rewrite <-Hlen. by eapply lookup_lt_Some.
  - done.
  - done.
  - tauto.
  - done.
  - destruct Hp. split_and!; [done..|by eapply Hin].
  - destruct Hp as (? & ? & ?). split_and!; [done..|by eapply Hin].
  - tauto.
  - tauto.
Qed.

Lemma resolvers_reachable st : rtc resolver_step ([], configured) st → resolvers_inv st.
Proof.
  apply (rtc_ind_r resolvers_inv).
  - split_and!; [done|by apply list.Forall_forall|constructor].
  - intros x y _ Hst (Hlen & Hl & Hts). destruct Hst as [ts l|ts l j p l' p' Hj Ht]; cbn in *.
    + split_and!; [done..|]. apply Forall_app_2; [done|by repeat constructor].
    + destruct (resolver_turn_inv l p l' p' Hlen Hl (Forall_lookup_1 _ _ _ _ Hts Hj) Ht) as (? & ? & ?).
      split_and!; [done..|]. by apply Forall_insert.
Qed.

(** Whatever the interleaving, only configured resolvers are asked, and the slice
    keeps its length. *)
Theorem resolvers_configured ts l r :
  rtc resolver_step ([], configured) (ts, l) →
  length l = length configured ∧ Forall (.∈ configured) l ∧ (Done (Some r) ∈ ts → r ∈ configured).
Proof.
  intros Hr. destruct (resolvers_reachable _ Hr) as (Hlen & Hl & Hts). split_and!; [done..|]. cbn in Hts.
  rewrite list.Forall_forall in Hts. intros Hin. exact (Hts _ Hin).
Qed.

End Among.

(** A finding: the elements of the slice are exchanged without a lock. Of three resolvers, one
    answers a goroutine and another one a second goroutine; when both exchange at the
    same time, the resolver that answered the first is in the list no more, and one that failed twice. *)
Theorem resolver_lost a b c :
  ∃ ts, rtc resolver_step ([], [a; b; c]) (ts, [c; a; a]) ∧ Forall (λ p, is_Some (match p with Done r => r | _ => None end)) ts.
Proof.
  exists [Done (Some b); Done (Some c)]. split; [|by repeat constructor; eexists].
  eapply rtc_l; [apply rs_begins|]. eapply rtc_l; [apply rs_begins|]. cbn [app].
  do 3 (eapply rtc_l; [eapply (rs_turn _ _ 0); [reflexivity|first [apply r_fails|by apply r_next]]|]; cbn [insert list_insert]).
  do 5 (eapply rtc_l; [eapply (rs_turn _ _ 1); [reflexivity|first [apply r_fails|by apply r_next]]|]; cbn [insert list_insert]).
  eapply rtc_l; [eapply (rs_turn _ _ 0); [reflexivity|apply r_other]|]; cbn [insert list_insert].
  do 2 (eapply rtc_l; [eapply (rs_turn _ _ 0); [reflexivity|first [by apply r_read_i|by apply r_read_0]]|]; cbn [insert list_insert]).
  eapply rtc_l; [eapply (rs_turn _ _ 1); [reflexivity|apply r_other]|]; cbn [insert list_insert].
  do 2 (eapply rtc_l; [eapply (rs_turn _ _ 1); [reflexivity|first [by apply r_read_i|by apply r_read_0]]|]; cbn [insert list_insert]).
  do 2 (eapply rtc_l; [eapply (rs_turn _ _ 0); [reflexivity|first [apply r_write_0|apply r_write_i]]|]; cbn [insert list_insert]).
  do 2 (eapply rtc_l; [eapply (rs_turn _ _ 1); [reflexivity|first [apply r_write_0|apply r_write_i]]|]; cbn [insert list_insert]).
  reflexivity.
Qed.
