(* ===== verification/ODoH.v ===== *)
(** oblivious_doh.go: parsing of the configurations of an Oblivious DoH target,
    encryption of queries to it and decryption of its responses. HPKE is an
    interface. *)
From S2P Require Import Prelude.
From S2P Require Import Common.
From S2P Require Import ServerTypes.

Definition odohVersion : Z := 0x0001.
Definition odohTestVersion : Z := 0xff06.
Definition maxODoHConfigs : nat := 10.

(** [hpkecompact]. A suite is given by its KEM, KDF and AEAD identifiers, a
    client context has type [Ctx]. Encapsulation is randomised: [rnd]. *)
Class HPKE (Ctx : Type) := {
  NewSuite : Z * Z * Z → Out unit;
  NewClientContext : Z * Z * Z → bytes → bytes → bytes → Out (Ctx * bytes);
  EncryptToServer : Ctx → bytes → bytes → Out bytes;
  Export : Ctx → bytes → Z → Out bytes;
  Extract : Z * Z * Z → bytes → bytes → bytes;
  Expand : Z * Z * Z → bytes → bytes → Z → Out bytes;
  HashSize : Z * Z * Z → Z;
  KeyBytes : Z * Z * Z → Z;
  NonceBytes : Z * Z * Z → Z;
  NewRawCipher : Z * Z * Z → bytes → Out unit;
  cipher_Open : bytes → bytes → bytes → bytes → Out bytes;
  cipher_Seal : bytes → bytes → bytes → bytes → bytes
}.

Definition encodeLengthValue (b : bytes) : bytes := PutUint16 (u16 (len b)) ++ b.

Definition malformed_config : error := EMsg "Malformed config".
Definition malformed_response : error := EMsg "Malformed response".

Section ODoH.
Context {Ctx : Type} `{HPKE Ctx}.

Definition parseODoHTargetConfig (rnd config : bytes) : Out ODoHTargetConfig :=
  if len config <? 8 then Err malformed_config
  else
    let! k := orPanic (slice config 0 2) in let! kemID := orPanic (Uint16 k) in
    let! k := orPanic (slice config 2 4) in let! kdfID := orPanic (Uint16 k) in
    let! k := orPanic (slice config 4 6) in let! aeadID := orPanic (Uint16 k) in
    let! k := orPanic (slice config 6 8) in let! publicKeyLength := orPanic (Uint16 k) in
    let! publicKey := orPanic (slice config 8 (len config)) in
    if negb (len publicKey =? publicKeyLength) then Err malformed_config
    else
      let suite := (kemID, kdfID, aeadID) in
      let! _ := NewSuite suite in
      let! _ := NewClientContext suite publicKey (str "odoh query") rnd in
      let! keyID := Expand suite (Extract suite config []) (str "odoh key id") (u16 (HashSize suite)) in
      Ok {| cfg_suite := suite; cfg_publicKey := publicKey; cfg_keyID := encodeLengthValue keyID |}.

(** The loop of [parseODoHTargetConfigs] from [offset]. [spare] are the bytes
    between the length of [configs] and its capacity, which a slice expression may
    reach. [None] means that the fuel is exhausted. *)
Fixpoint parse_configs_loop (fuel : nat) (rnd configs spare : bytes) (offset : Z)
    (targets : list ODoHTargetConfig) : option (Out (list ODoHTargetConfig)) :=
  match fuel with
  | O => None
  | S fuel =>
      if (len configs <? offset + 4) || (maxODoHConfigs <=? length targets)%nat then Some (Ok targets)
      else
        let header :=
          let! v := orPanic (slice configs offset (offset + 2)) in
          let! configVersion := orPanic (Uint16 v) in
          let! l := orPanic (slice configs (offset + 2) (offset + 4)) in
          let! configLength := orPanic (Uint16 l) in
          Ok (configVersion, configLength) in
        match header with
        | Ok (configVersion, configLength) =>
            let next := offset + configLength + 4 in
            if (configVersion =? odohVersion) || (configVersion =? odohTestVersion) then
              match slice (configs ++ spare) (offset + 4) (offset + 4 + configLength) with
              | None => Some Panic
              | Some c =>
                  match parseODoHTargetConfig rnd c with
                  | Ok target => parse_configs_loop fuel rnd configs spare next (targets ++ [target])
                  | Err _ => parse_configs_loop fuel rnd configs spare next targets
                  | Panic => Some Panic
                  | Fatal => Some Fatal
                  end
              end
            else parse_configs_loop fuel rnd configs spare next targets
        | Err e => Some (Err e)
        | Panic => Some Panic
        | Fatal => Some Fatal
        end
  end.

Definition parseODoHTargetConfigs (rnd configs spare : bytes) : option (Out (list ODoHTargetConfig)) :=
  if len configs <=? 2 then Some (Err (EMsg "Server didn't return any ODoH configurations"))
  else
    match Uint16 configs with
    | None => Some Panic
    | Some length =>
        if negb (len configs =? length + 2) then Some (Err (EMsg "Malformed configs"))
        else parse_configs_loop (S (Datatypes.length configs)) rnd configs spare 2 []
    end.

Record ODoHQuery := {
  q_suite : Z * Z * Z;
  q_ctx : Ctx;
  odohPlaintext : bytes;
  odohMessage : bytes
}.

Definition encryptQuery (t : ODoHTargetConfig) (rnd query : bytes) : Out ODoHQuery :=
  let! (clientCtx, encryptedSharedSecret) :=
    NewClientContext t.(cfg_suite) t.(cfg_publicKey) (str "odoh query") rnd in
  let odohPlaintext := PutUint16 (u16 (len query)) ++ query ++ [0; 0] in
  let aad := 0x01 :: t.(cfg_keyID) in
  let! ciphertext := EncryptToServer clientCtx odohPlaintext aad in
  let encryptedMessage := encodeLengthValue (encryptedSharedSecret ++ ciphertext) in
  Ok {| q_suite := t.(cfg_suite); q_ctx := clientCtx; odohPlaintext := odohPlaintext;
        odohMessage := (0x01 :: t.(cfg_keyID)) ++ encryptedMessage |}.

(** The padding check: bytes of [response], not of the plaintext, from [i] on. *)
Fixpoint padding_valid (n : nat) (response : bytes) (i : Z) (valid : bool) : Out bool :=
  match n with
  | O => Ok valid
  | S n =>
      let! b := orPanic (index response i) in
      padding_valid n response (i + 1) (valid && (b =? 0))
  end.

Definition decryptResponse (q : ODoHQuery) (response : bytes) : Out bytes :=
  if len response <? 3 then Err malformed_response
  else
    let! messageType := orPanic (index response 0) in
    if negb (messageType =? 2) then Err malformed_response
    else
      let! n := orPanic (slice response 1 3) in
      let! responseNonceLength := orPanic (Uint16 n) in
      if len response <? 5 + responseNonceLength then Err malformed_response
      else
        let! responseNonceEnc := orPanic (slice response 1 (u16 (3 + responseNonceLength))) in
        let suite := q.(q_suite) in
        let! secret := Export q.(q_ctx) (str "odoh response") (KeyBytes suite) in
        let salt := q.(odohPlaintext) ++ responseNonceEnc in
        let prk := Extract suite secret salt in
        let! key := Expand suite prk (str "odoh key") (KeyBytes suite) in
        let! nonce := Expand suite prk (str "odoh nonce") (NonceBytes suite) in
        let! _ := NewRawCipher suite key in
        let! l := orPanic (slice response (3 + responseNonceLength) (5 + responseNonceLength)) in
        let! ctLength := orPanic (Uint16 l) in
        let! ct := orPanic (slice response (5 + responseNonceLength) (len response)) in
        if negb (ctLength =? len ct) then Err malformed_response
        else
          let! aad := orPanic (slice response 0 (3 + responseNonceLength)) in
          let! responsePlaintext := cipher_Open key nonce ct aad in
          let! rl := orPanic (slice responsePlaintext 0 2) in
          let! responseLength := orPanic (Uint16 rl) in
          let! valid := padding_valid (Z.to_nat (len responsePlaintext - (4 + responseLength)))
                          response (4 + responseLength) true in
          if negb valid then Err malformed_response
          else orPanic (slice responsePlaintext 2 (2 + responseLength)).
End ODoH.
Arguments ODoHQuery : clear implicits.

(** * Specification *)

(** What the code relies on: the cipher opens what it sealed with the same key,
    nonce and associated data; the operations used on configurations return. *)
Class HPKELaws (Ctx : Type) `{HPKE Ctx} := {
  cipher_Open_Seal key nonce pt aad : cipher_Open key nonce (cipher_Seal key nonce pt aad) aad = Ok pt;
  NewSuite_returns s : NewSuite s ≠ Panic ∧ NewSuite s ≠ Fatal;
  NewClientContext_returns s pk info rnd :
    NewClientContext s pk info rnd ≠ Panic ∧ NewClientContext s pk info rnd ≠ Fatal;
  Expand_returns s prk info n : Expand s prk info n ≠ Panic ∧ Expand s prk info n ≠ Fatal
}.

Lemma Uint16_nonneg b v : Forall is_byte b → Uint16 b = Some v → 0 ≤ v.
Proof. intros Hb Hv. pose proof (Uint16_range b v Hb Hv) as Hr. unfold is_u16 in Hr. lia. Qed.

Lemma slice_bytes b i j r : Forall is_byte b → slice b i j = Some r → Forall is_byte r.
Proof. intros Hb (_ & _ & _ & ->)%slice_Some. by apply Forall_take, Forall_drop. Qed.

Lemma PutUint16_len v : len (PutUint16 v) = 2.
Proof. done. Qed.

Lemma encodeLengthValue_len b : len (encodeLengthValue b) = 2 + len b.
Proof. unfold encodeLengthValue. by rewrite len_app, PutUint16_len. Qed.

Section Lemmas.
Context {Ctx : Type} `{HPKELaws Ctx}.

Lemma slice_16 b i j :
  0 ≤ i → j = i + 2 → j ≤ len b → ∃ v r, slice b i j = Some r ∧ Uint16 r = Some v.
Proof.
  intros Hi -> Hl. rewrite slice_ok by lia.
  assert (Hr : len (take (Z.to_nat (i + 2 - i)) (drop (Z.to_nat i) b)) = 2)
    by (rewrite len_take, len_drop; lia).
  destruct (take _ _) as [|a [|c ?]]; [len_lia..|]. by eexists _, _.
Qed.

Lemma parse_configs_loop_total rnd configs spare fuel offset targets :
  Forall is_byte configs → 0 ≤ offset → (length targets ≤ maxODoHConfigs)%nat →
  len configs - offset < Z.of_nat fuel → (1 ≤ fuel)%nat →
  ∃ r, parse_configs_loop fuel rnd configs spare offset targets = Some r ∧
    ∀ l, r = Ok l → (length l ≤ maxODoHConfigs)%nat.
Proof.
  intros Hb. revert offset targets. induction fuel as [|fuel IH]; intros offset targets Ho Ht Hf H1; [lia|].
  cbn [parse_configs_loop].
  destruct (Z.ltb_spec (len configs) (offset + 4)); cbn [orb].
  { eexists. split; [done|]. by intros ? [= <-]. }
  destruct (Nat.leb_spec maxODoHConfigs (length targets)).
  { eexists. split; [done|]. by intros ? [= <-]. }
  destruct (slice_16 configs offset (offset + 2)) as (v & r1 & Hs1 & Hv); [lia..|].
  destruct (slice_16 configs (offset + 2) (offset + 4)) as (n & r2 & Hs2 & Hn); [lia..|].
  rewrite Hs1. cbn [orPanic obind]. rewrite Hv. cbn [orPanic obind].
  rewrite Hs2. cbn [orPanic obind]. rewrite Hn. cbn [orPanic obind].
  pose proof (Uint16_nonneg r2 n (slice_bytes _ _ _ _ Hb Hs2) Hn) as Hn0.
  destruct (_ || _); [|apply IH; lia].
  destruct (slice (configs ++ spare) _ _) as [c|]; [|by eexists].
  destruct (parseODoHTargetConfig rnd c) as [t|e| |]; [..|by eexists|by eexists].
  - apply IH; try lia. rewrite length_app. cbn. lia.
  - apply IH; lia.
Qed.

Lemma parseODoHTargetConfig_returns rnd c :
  (∃ t, parseODoHTargetConfig rnd c = Ok t) ∨ (∃ e, parseODoHTargetConfig rnd c = Err e).
Proof.
  unfold parseODoHTargetConfig. destruct (Z.ltb_spec (len c) 8); [by right; eexists|].
  destruct (slice_16 c 0 2) as (? & ? & -> & Hv1); [lia..|]. cbn [orPanic obind]. rewrite Hv1. cbn [orPanic obind].
  destruct (slice_16 c 2 4) as (? & ? & -> & Hv2); [lia..|]. cbn [orPanic obind]. rewrite Hv2. cbn [orPanic obind].
  destruct (slice_16 c 4 6) as (? & ? & -> & Hv3); [lia..|]. cbn [orPanic obind]. rewrite Hv3. cbn [orPanic obind].
  destruct (slice_16 c 6 8) as (? & ? & -> & Hv4); [lia..|]. cbn [orPanic obind]. rewrite Hv4. cbn [orPanic obind].
  rewrite slice_ok by lia. cbn [orPanic obind]. destruct (negb _); [by right; eexists|].
  match goal with |- context [NewSuite ?s] => destruct (NewSuite s) eqn:E1;
    [|by right; eexists|by destruct (NewSuite_returns s)..] end. cbn [obind].
  match goal with |- context [NewClientContext ?s ?k ?i ?r] => destruct (NewClientContext s k i r) eqn:E2;
    [|by right; eexists|by destruct (NewClientContext_returns s k i r)..] end. cbn [obind].
  match goal with |- context [Expand ?s ?k ?i ?r] => destruct (Expand s k i r) eqn:E3;
    [|by right; eexists|by destruct (Expand_returns s k i r)..] end. cbn [obind].
  by left; eexists.
Qed.

(** A configuration on the wire, and what it contributes. *)
Definition encode_config (vc : Z * bytes) : bytes := PutUint16 vc.1 ++ encodeLengthValue vc.2.

Definition config_target (rnd : bytes) (vc : Z * bytes) : option ODoHTargetConfig :=
  if (vc.1 =? odohVersion) || (vc.1 =? odohTestVersion) then
    match parseODoHTargetConfig rnd vc.2 with Ok t => Some t | _ => None end
  else None.

Definition wire_config (vc : Z * bytes) : Prop := is_u16 vc.1 ∧ len vc.2 < 65536.

Lemma encode_config_len vc : len (encode_config vc) = 4 + len vc.2.
Proof. unfold encode_config. rewrite len_app, PutUint16_len, encodeLengthValue_len. lia. Qed.

Lemma parse_configs_loop_ok rnd (cs : list (Z * bytes)) fuel pre spare targets :
  Forall wire_config cs → (length targets + length cs ≤ maxODoHConfigs)%nat →
  (length cs < fuel)%nat →
  parse_configs_loop fuel rnd (pre ++ (cs ≫= encode_config)) spare (len pre) targets =
    Some (Ok (targets ++ omap (config_target rnd) cs)).
Proof.
  revert fuel pre targets. induction cs as [|[v c] cs IH]; intros fuel pre targets Hw Hn Hf;
    (destruct fuel as [|fuel]; [cbn in Hf; lia|]); cbn [parse_configs_loop].
  { cbn [mbind list_bind]. rewrite app_nil_r. destruct (Z.ltb_spec (len pre) (len pre + 4)); [|lia]. cbn.
    by rewrite app_nil_r. }
  apply list.Forall_cons in Hw as [[Hv Hc] Hw]. cbn in Hv, Hc. cbn in Hn.
  rewrite bind_cons. set (rest := cs ≫= encode_config).
  pose proof (len_nonneg c). pose proof (len_nonneg rest).
  set (configs := pre ++ encode_config (v, c) ++ rest).
  assert (Hlen : len configs = len pre + (4 + len c) + len rest)
    by (unfold configs; rewrite !len_app, encode_config_len; cbn [snd]; lia).
  destruct (Z.ltb_spec (len configs) (len pre + 4)); [lia|]. cbn [orb].
  destruct (Nat.leb_spec maxODoHConfigs (length targets)); [lia|].
  assert (Hs1 : slice configs (len pre) (len pre + 2) = Some (PutUint16 v)).
  { unfold configs, encode_config. cbn [fst snd]. rewrite <-app_assoc.
    apply (slice_app_mid pre (PutUint16 v)). }
  assert (Hs2 : slice configs (len pre + 2) (len pre + 4) = Some (PutUint16 (len c))).
  { unfold configs, encode_config, encodeLengthValue, u16. cbn [fst snd]. rewrite Z.mod_small by lia.
    rewrite <-!app_assoc, (app_assoc pre).
    replace (len pre + 2) with (len (pre ++ PutUint16 v)) by (rewrite len_app; done).
    replace (len pre + 4) with (len (pre ++ PutUint16 v) + len (PutUint16 (len c))) by (rewrite len_app, !PutUint16_len; lia).
    apply slice_app_mid. }
  assert (Hs3 : slice (configs ++ spare) (len pre + 4) (len pre + 4 + len c) = Some c).
  { unfold configs, encode_config, encodeLengthValue, u16. cbn [fst snd]. rewrite Z.mod_small by lia.
    rewrite <-!app_assoc, (app_assoc (PutUint16 v)), (app_assoc pre).
    replace (len pre + 4) with (len (pre ++ PutUint16 v ++ PutUint16 (len c))) by (rewrite !len_app, !PutUint16_len; lia).
    apply slice_app_mid. }
  rewrite Hs1. cbn [orPanic obind].
  rewrite <-(app_nil_r (PutUint16 v)), Uint16_PutUint16 by done. cbn [orPanic obind].
  rewrite Hs2. cbn [orPanic obind].
  rewrite <-(app_nil_r (PutUint16 (len c))), Uint16_PutUint16 by (unfold is_u16; lia). cbn [orPanic obind].
  rewrite Hs3.
  assert (Hnext : ∀ tg, (length tg ≤ S (length targets))%nat →
    parse_configs_loop fuel rnd configs spare (len pre + len c + 4) tg = Some (Ok (tg ++ omap (config_target rnd) cs))).
  { intros tg Htg. unfold configs. rewrite app_assoc.
    replace (len pre + len c + 4) with (len (pre ++ encode_config (v, c)))
      by (rewrite len_app, encode_config_len; cbn [snd]; lia).
    apply IH; [done|lia|cbn in Hf; lia]. }
  cbn [omap list_omap]. unfold config_target at 1. cbn [fst snd].
  destruct ((v =? odohVersion) || (v =? odohTestVersion)); [|apply Hnext; lia].
  destruct (parseODoHTargetConfig_returns rnd c) as [[t Ht]|[e Ht]]; rewrite Ht; [|apply Hnext; lia].
  rewrite Hnext by (rewrite length_app; cbn; lia). by rewrite <-app_assoc.
Qed.
End Lemmas.

(** ** The target's side *)

Section Target.
Context {Ctx : Type} `{HPKE Ctx}.

(** The key and nonce of the response, from the query and the response nonce. *)
Definition response_keys (q : ODoHQuery Ctx) (responseNonceEnc : bytes) : Out (bytes * bytes) :=
  let! secret := Export q.(q_ctx) (str "odoh response") (KeyBytes q.(q_suite)) in
  let prk := Extract q.(q_suite) secret (q.(odohPlaintext) ++ responseNonceEnc) in
  let! key := Expand q.(q_suite) prk (str "odoh key") (KeyBytes q.(q_suite)) in
  let! nonce := Expand q.(q_suite) prk (str "odoh nonce") (NonceBytes q.(q_suite)) in
  let! _ := NewRawCipher q.(q_suite) key in
  Ok (key, nonce).

(** A response with [padding] zero bytes (RFC 9230, section 6.2). *)
Definition target_response (key nonce responseNonce packet : bytes) (padding : nat) : bytes :=
  let header := [2] ++ encodeLengthValue responseNonce in
  let plaintext := encodeLengthValue packet ++ encodeLengthValue (replicate padding 0) in
  header ++ encodeLengthValue (cipher_Seal key nonce plaintext header).
End Target.

Section Decrypt.
Context {Ctx : Type} `{HPKELaws Ctx}.

Lemma Uint16_encode n : 0 ≤ n < 65536 → Uint16 (PutUint16 (u16 n)) = Some n.
Proof.
  intros Hn. unfold u16. rewrite Z.mod_small by done.
  rewrite <-(app_nil_r (PutUint16 n)). by apply Uint16_PutUint16.
Qed.

Lemma target_response_slices key nonce rn packet padding :
  let header := [2] ++ encodeLengthValue rn in
  let ct := cipher_Seal key nonce (encodeLengthValue packet ++ encodeLengthValue (replicate padding 0)) header in
  let r := target_response key nonce rn packet padding in
  len r = 5 + len rn + len ct ∧ index r 0 = Some 2 ∧
  slice r 1 3 = Some (PutUint16 (u16 (len rn))) ∧
  slice r 1 (3 + len rn) = Some (encodeLengthValue rn) ∧
  slice r (3 + len rn) (5 + len rn) = Some (PutUint16 (u16 (len ct))) ∧
  slice r (5 + len rn) (len r) = Some ct ∧ slice r 0 (3 + len rn) = Some header.
Proof.
  cbn zeta. set (header := [2] ++ encodeLengthValue rn). set (ct := cipher_Seal _ _ _ header).
  set (r := target_response key nonce rn packet padding).
  assert (Hr : r = [2] ++ PutUint16 (u16 (len rn)) ++ rn ++ PutUint16 (u16 (len ct)) ++ ct).
  { unfold r, target_response. fold header. fold ct. unfold header, encodeLengthValue. by rewrite <-!app_assoc. }
  pose proof (len_nonneg rn). pose proof (len_nonneg ct).
  assert (Hlen : len r = 5 + len rn + len ct).
  { rewrite Hr, !len_app, !PutUint16_len. change (len [2]) with 1. lia. }
  split_and!; [done|by rewrite Hr| | | | |].
  - rewrite Hr. apply (slice_app_mid [2]).
  - rewrite Hr, (app_assoc (PutUint16 _)).
    replace (3 + len rn) with (len [2] + len (PutUint16 (u16 (len rn)) ++ rn))
      by (rewrite len_app, PutUint16_len; change (len [2]) with 1; lia).
    apply (slice_app_mid [2]).
  - rewrite Hr, (app_assoc [2]), (app_assoc ([2] ++ _)).
    replace (3 + len rn) with (len (([2] ++ PutUint16 (u16 (len rn))) ++ rn))
      by (rewrite !len_app, PutUint16_len; change (len [2]) with 1; lia).
    replace (5 + len rn) with (len (([2] ++ PutUint16 (u16 (len rn))) ++ rn) + len (PutUint16 (u16 (len ct))))
      by (rewrite !len_app, !PutUint16_len; change (len [2]) with 1; lia).
    apply slice_app_mid.
  - rewrite Hlen, Hr, (app_assoc [2]), (app_assoc ([2] ++ _)), (app_assoc (([2] ++ _) ++ _)).
    replace (5 + len rn) with (len ((([2] ++ PutUint16 (u16 (len rn))) ++ rn) ++ PutUint16 (u16 (len ct))))
      by (rewrite !len_app, !PutUint16_len; change (len [2]) with 1; lia).
    apply slice_app_r.
  - rewrite Hr, (app_assoc [2]), (app_assoc ([2] ++ _)).
    replace (3 + len rn) with (@len Z [] + len (([2] ++ PutUint16 (u16 (len rn))) ++ rn))
      by (rewrite !len_app, PutUint16_len; change (len [2]) with 1; change (@len Z []) with 0; lia).
    etransitivity; [apply (slice_app_mid [])|]. unfold header, encodeLengthValue. by rewrite <-app_assoc.
Qed.

(** C34: An unpadded response made by the target for a query decrypts to the DNS
    message it carries. *)
Theorem decryptResponse_target (q : ODoHQuery Ctx) (key nonce responseNonce packet : bytes) :
  response_keys q (encodeLengthValue responseNonce) = Ok (key, nonce) →
  len responseNonce ≤ 65532 → len packet < 65536 →
  len (cipher_Seal key nonce (encodeLengthValue packet ++ [0; 0])
         ([2] ++ encodeLengthValue responseNonce)) < 65536 →
  decryptResponse q (target_response key nonce responseNonce packet 0) = Ok packet.
Proof.
  intros Hk Hn Hp Hct.
  destruct (target_response_slices key nonce responseNonce packet 0) as (Hl & Hs0 & Hs1 & Hs2 & Hs3 & Hs4 & Hs5).
  cbn [replicate] in *. change (encodeLengthValue []) with [0; 0] in *.
  set (r := target_response _ _ _ _ _) in *. set (ct := cipher_Seal _ _ _ _) in *.
  pose proof (len_nonneg responseNonce). pose proof (len_nonneg ct). pose proof (len_nonneg packet).
  unfold decryptResponse, response_keys in *. rewrite Hs0, Hs1. cbn [orPanic obind Z.eqb Pos.eqb negb].
  rewrite Uint16_encode by lia. cbn [orPanic obind].
  destruct (Z.ltb_spec (len r) 3); [lia|]. destruct (Z.ltb_spec (len r) (5 + len responseNonce)); [lia|].
  unfold u16. rewrite Z.mod_small by lia. rewrite Hs2. cbn [orPanic obind].
  apply obind_Ok in Hk as (secret & -> & Hk). cbn [obind].
  apply obind_Ok in Hk as (k & -> & Hk). cbn [obind].
  apply obind_Ok in Hk as (n & -> & Hk). cbn [obind].
  apply obind_Ok in Hk as (u & Hu & Hk). injection Hk as -> ->. rewrite Hu. cbn [obind].
  rewrite Hs3. cbn [orPanic obind]. rewrite Uint16_encode by lia. cbn [orPanic obind].
  rewrite Hs4. cbn [orPanic obind]. rewrite Z.eqb_refl. cbn [negb].
  rewrite Hs5. cbn [orPanic obind]. unfold ct. rewrite cipher_Open_Seal. cbn [obind].
  assert (Hpl : slice (encodeLengthValue packet ++ [0; 0]) 0 2 = Some (PutUint16 (u16 (len packet)))).
  { unfold encodeLengthValue. rewrite <-app_assoc. apply (slice_app_mid []). }
  rewrite Hpl. cbn [orPanic obind]. rewrite Uint16_encode by lia. cbn [orPanic obind].
  rewrite len_app, encodeLengthValue_len. change (len [0; 0]) with 2.
  replace (2 + len packet + 2 - (4 + len packet)) with 0 by lia. cbn [Z.to_nat padding_valid obind negb].
  assert (slice (encodeLengthValue packet ++ [0; 0]) 2 (2 + len packet) = Some packet) as ->; [|done].
  unfold encodeLengthValue. rewrite <-app_assoc. apply (slice_app_mid (PutUint16 _)).
Qed.

(** Parsing the configurations of a target always ends, and yields at most
    ten of them. *)
Theorem parseODoHTargetConfigs_total (rnd configs spare : bytes) :
  Forall is_byte configs →
  ∃ r, parseODoHTargetConfigs rnd configs spare = Some r ∧ ∀ l, r = Ok l → (length l ≤ 10)%nat.
Proof.
  intros Hb. unfold parseODoHTargetConfigs.
  destruct (Z.leb_spec (len configs) 2); [by eexists|].
  destruct (Uint16 configs); [|by eexists]. destruct (negb _); [by eexists|].
  apply (parse_configs_loop_total rnd configs spare); [done|lia|cbn; lia|unfold len; lia|lia].
Qed.

(** A list of at most ten configurations, length-prefixed as RFC 9230
    prescribes, is parsed into those of a known version that are well-formed, in
    their order. *)
Theorem parseODoHTargetConfigs_encode (rnd spare : bytes) (cs : list (Z * bytes)) :
  Forall wire_config cs → cs ≠ [] → (length cs ≤ 10)%nat → len (cs ≫= encode_config) < 65536 →
  parseODoHTargetConfigs rnd (encodeLengthValue (cs ≫= encode_config)) spare =
    Some (Ok (omap (config_target rnd) cs)).
Proof.
  intros Hw Hne Hn Hl. unfold parseODoHTargetConfigs. rewrite encodeLengthValue_len.
  assert (0 < len (cs ≫= encode_config)).
  { destruct cs as [|vc cs]; [done|]. rewrite bind_cons, len_app, encode_config_len.
    pose proof (len_nonneg vc.2). pose proof (len_nonneg (cs ≫= encode_config)). lia. }
  destruct (Z.leb_spec (2 + len (cs ≫= encode_config)) 2); [lia|].
  unfold encodeLengthValue, u16. rewrite Z.mod_small by lia.
  rewrite Uint16_PutUint16 by (unfold is_u16; lia).
  rewrite (Z.add_comm 2), Z.eqb_refl. cbn [negb].
  apply (parse_configs_loop_ok rnd cs _ (PutUint16 _) spare []); [done|cbn; unfold maxODoHConfigs; lia|].
  rewrite length_app. cbn. unfold len in *.
  enough (length cs ≤ length (cs ≫= encode_config))%nat by lia.
  clear. induction cs as [|vc cs IH]; [done|]. rewrite bind_cons, length_app.
  pose proof (encode_config_len vc). pose proof (len_nonneg vc.2). unfold len in *. cbn. lia.
Qed.
End Decrypt.

(** ** Instances *)

(** A cipher that complements the bytes and appends a constant tag. *)
#[local] Instance tiny_hpke : HPKE unit := {
  NewSuite _ := Ok tt;
  NewClientContext _ _ _ _ := Ok (tt, [7]);
  EncryptToServer _ pt _ := Ok pt;
  Export _ _ _ := Ok [1];
  Extract _ _ _ := [];
  Expand _ _ _ n := Ok (replicate (Z.to_nat n) 5);
  HashSize _ := 32;
  KeyBytes _ := 16;
  NonceBytes _ := 12;
  NewRawCipher _ _ := Ok tt;
  cipher_Open _ _ ct _ := Ok (Z.sub 255 <$> take (length ct - 1) ct);
  cipher_Seal _ _ pt _ := (Z.sub 255 <$> pt) ++ [99]
}.

#[local] Instance tiny_hpke_laws : HPKELaws unit.
Proof.
  split; [|done..]. intros key nonce pt aad. cbn. rewrite length_app, Nat.add_sub, take_app_length.
  rewrite <-list_fmap_compose. f_equal. rewrite <-(list_fmap_id pt) at 2.
  apply list_fmap_ext. intros i b _. unfold compose, id. lia.
Qed.

Definition tiny_query : ODoHQuery unit :=
  {| q_suite := (32, 1, 1); q_ctx := tt; odohPlaintext := []; odohMessage := [] |}.

Definition tiny_response (padding : nat) : bytes :=
  target_response (replicate 16 5) (replicate 12 5) (replicate 16 3) (replicate 20 4) padding.

Example decryptResponse_target_wit : decryptResponse tiny_query (tiny_response 0) = Ok (replicate 20 4).
Proof. apply (decryptResponse_target tiny_query); [reflexivity|by vm_compute..]. Defined.

Example parseODoHTargetConfigs_total_wit :
  ∃ r, parseODoHTargetConfigs [] [0; 4; 0; 1; 0; 0] [] = Some r ∧ ∀ l, r = Ok l → (length l ≤ 10)%nat.
Proof.
  apply (parseODoHTargetConfigs_total [] [0; 4; 0; 1; 0; 0] []).
  by apply (bool_decide_unpack _); vm_compute.
Defined.

Definition tiny_config : bytes := [0; 32; 0; 1; 0; 1; 0; 3; 9; 9; 9].

Example parseODoHTargetConfigs_encode_wit :
  parseODoHTargetConfigs [] (encodeLengthValue ([(1, tiny_config); (7, [1]); (0xff06, tiny_config)] ≫= encode_config)) [] =
    Some (Ok (omap (config_target []) [(1, tiny_config); (7, [1]); (0xff06, tiny_config)])).
Proof.
  apply parseODoHTargetConfigs_encode; [|done|cbn; lia|by vm_compute].
  repeat (apply Forall_cons_2 || apply Forall_nil_2); by vm_compute.
Defined.

(** A response that the target padded, as RFC 9230 allows, is refused: the
    check reads the padding in the encrypted message instead of the plaintext. *)
Theorem padded_response_refused :
  decryptResponse tiny_query (tiny_response 1) = Err malformed_response.
Proof. by vm_compute. Qed.

(** Hostile input reaches run-time panics: a configuration whose length runs
    past the buffer, and a response nonce length for which [3 + length] wraps
    around in 16 bits. *)
Theorem odoh_hostile_input_panics (q : ODoHQuery unit) (rest : bytes) :
  parseODoHTargetConfigs [] [0; 4; 0; 1; 0; 9] [] = Some Panic ∧
  (65535 ≤ len rest → decryptResponse q (2 :: 255 :: 253 :: rest) = Panic).
Proof.
  split; [by vm_compute|]. intros Hr. unfold decryptResponse.
  assert (Hl : len (2 :: 255 :: 253 :: rest) = 3 + len rest) by (rewrite !len_cons; lia).
  destruct (Z.ltb_spec (len (2 :: 255 :: 253 :: rest)) 3); [lia|]. cbn [index decide].
  assert (index (2 :: 255 :: 253 :: rest) 0 = Some 2) as -> by done. cbn [orPanic obind Z.eqb Pos.eqb negb].
  assert (slice (2 :: 255 :: 253 :: rest) 1 3 = Some [255; 253]) as ->.
  { rewrite slice_ok by lia. done. }
  cbn [orPanic obind]. change (Uint16 [255; 253]) with (Some 65533). cbn [orPanic obind].
  destruct (Z.ltb_spec (len (2 :: 255 :: 253 :: rest)) (5 + 65533)); [lia|].
  change (u16 (3 + 65533)) with 0.
  assert (slice (2 :: 255 :: 253 :: rest) 1 0 = None) as ->; [|done].
  apply slice_None. lia.
Qed.
