(* ===== verification/Routes.v ===== *)
(** serversInfo.go, second half: the choice of a relay for a server and the
    retrieval of the parameters of DNSCrypt, DoH and ODoH servers. *)
From S2P Require Import Prelude.
From S2P Require Import GoStrings.
From S2P Require Import Common.
From S2P Require Import ServerTypes.
From S2P Require Import Crypto.
From S2P Require Import DnsMsg.
From S2P Require Import DnsUtils.
From S2P Require Import Certs.
From S2P Require Import ServersInfo.
From S2P Require Import XTransport.
From S2P Require Import ODoH.

(** The fields of [Proxy] read here. *)
Record RouteProxy (E : Type) := {
  rp_serversInfo : ServersInfo E;
  rp_registeredServers : list RegisteredServer;
  routes : option (gmap bytes (list bytes));
  serversBlockingFragments : list bytes;
  skipAnonIncompatibleResolvers : bool;
  rp_timeout : Z;
  rp_cert : CertProxy
}.
Arguments rp_serversInfo {_} _. Arguments rp_registeredServers {_} _. Arguments routes {_} _.
Arguments serversBlockingFragments {_} _. Arguments skipAnonIncompatibleResolvers {_} _.
Arguments rp_timeout {_} _. Arguments rp_cert {_} _.

(** * Relays *)

(** [bits.LeadingZeros8]. *)
Definition LeadingZeros8 (x : Z) : Z := if x =? 0 then 8 else 7 - Z.log2 x.

(** The loop counting the leading bits two addresses share, from byte [i]. *)
Fixpoint same_prefix (n : nat) (a b : IP) (i acc : Z) : Out Z :=
  match n with
  | O => Ok acc
  | S n =>
      let! x := orPanic (index a i) in
      let! y := orPanic (index b i) in
      let x := Z.lxor x y in
      let acc := acc + LeadingZeros8 x in
      if negb (x =? 0) then Ok acc else same_prefix n a b (i + 1) acc
  end.

Section Relays.
Context `{NetLib} {E : Type}.

(** The bits shared by a relay's address and the server's; [None] if the relay
    is skipped. *)
Definition relay_bits (serverAddr : IP) (relayStamp : ServerStamp) : Out (option Z) :=
  if negb (bool_decide (relayStamp.(stamp_Proto) = StampProtoTypeDNSCryptRelay)) then Ok None
  else
    let relayAddr := net_ParseIP (ExtractHostAndPort relayStamp.(ServerAddrStr) 443).1 in
    if bool_decide (relayAddr = []) then Ok None
    else
      let relayIsIPv6 := bool_decide (To4 relayAddr = []) in
      if negb (Bool.eqb relayIsIPv6 (bool_decide (To4 serverAddr = []))) then Ok None
      else
        let firstByte := if relayIsIPv6 then 0 else 12 in
        let! b := same_prefix (Z.to_nat (16 - firstByte)) serverAddr relayAddr firstByte 0 in
        Ok (Some b).

(** The loop over the relays: the fewest shared bits seen and the indexes kept. *)
Fixpoint best_relays (serverAddr : IP) (relayStamps : list ServerStamp) (relayIdx : nat)
    (best : Z) (idxs : list nat) : Out (list nat) :=
  match relayStamps with
  | [] => Ok idxs
  | r :: relayStamps =>
      let! b := relay_bits serverAddr r in
      match b with
      | Some samePrefixBits =>
          if samePrefixBits <=? best
          then best_relays serverAddr relayStamps (S relayIdx) samePrefixBits (idxs ++ [relayIdx])
          else best_relays serverAddr relayStamps (S relayIdx) best idxs
      | None => best_relays serverAddr relayStamps (S relayIdx) best idxs
      end
  end.

(** [&relayStamps[idxs[rand.Intn(len(idxs))]]]. *)
Definition pick (rnd : Z) (relayStamps : list ServerStamp) (idxs : list nat) : Out (option ServerStamp) :=
  let! i := Intn rnd (len idxs) in
  let! j := orPanic (index idxs i) in
  let! s := orPanic (relayStamps !! j) in
  Ok (Some s).

(** The indexes of the stamps of a protocol. *)
Fixpoint proto_indexes (p : StampProtoType) (l : list ServerStamp) (i : nat) : list nat :=
  match l with
  | [] => []
  | s :: l => if decide (s.(stamp_Proto) = p) then i :: proto_indexes p l (S i) else proto_indexes p l (S i)
  end.

Definition findFarthestRoute (proxy : RouteProxy E) (name : bytes) (relayStamps : list ServerStamp) (rnd : Z)
    : Out (option ServerStamp) :=
  match list_find (λ r, r.(rs_name) = name) proxy.(rp_serversInfo).(registeredServers) with
  | None => Ok None
  | Some (_, server) =>
      if decide (server.(rs_stamp).(stamp_Proto) = StampProtoTypeODoHTarget) then
        pick rnd relayStamps (proto_indexes StampProtoTypeODoHRelay relayStamps 0)
      else if negb (bool_decide (server.(rs_stamp).(stamp_Proto) = StampProtoTypeDNSCrypt)) then Ok None
      else
        let serverAddr := net_ParseIP (ExtractHostAndPort server.(rs_stamp).(ServerAddrStr) 443).1 in
        if bool_decide (serverAddr = []) then Ok None
        else if (length proxy.(rp_serversInfo).(registeredRelays) =? 0)%nat then Ok None
        else
          let! idxs := best_relays serverAddr relayStamps 0 128 [] in
          pick rnd relayStamps idxs
  end.
End Relays.

Definition relayProtoForServerProto (proto : StampProtoType) : Out StampProtoType :=
  match proto with
  | StampProtoTypeDNSCrypt => Ok StampProtoTypeDNSCryptRelay
  | StampProtoTypeODoHTarget => Ok StampProtoTypeODoHRelay
  | _ => Err (EMsg "protocol cannot be anonymized")
  end.

(** Stamps, addresses and URLs as text. *)
Class StampLib := {
  NewServerStampFromString : bytes → Out ServerStamp;
  ResolveUDPAddr : bytes → Out Addr;
  ResolveTCPAddr : bytes → Out Addr;
  PathEscape : bytes → bytes;
  url_Parse : bytes → Out Url
}.

(** ** Effects on the transport *)

(** Code that reads and writes the transport's state; the changes made before an
    error remain. *)
Definition XM (A : Type) : Type := XTransport → XTransport * Out A.

Definition xret {A} (o : Out A) : XM A := λ x, (x, o).

Definition xbind {A B} (m : XM A) (k : A → XM B) : XM B := λ x,
  match m x with
  | (x, Ok a) => k a x
  | (x, Err e) => (x, Err e)
  | (x, Panic) => (x, Panic)
  | (x, Fatal) => (x, Fatal)
  end.
Notation "'do!' x := m 'in' k" := (xbind m (λ x, k))
  (at level 10, x pattern, m at level 100, k at level 200,
   format "'[v' 'do!'  x  :=  m  'in' '/' k ']'").

(** A call whose results include an error value. *)
Definition xcall {A} (f : XTransport → Out (XTransport * A)) : XM A := λ x,
  match f x with
  | Ok (x, a) => (x, Ok a)
  | Err e => (x, Err e)
  | Panic => (x, Panic)
  | Fatal => (x, Fatal)
  end.

Section Route.
Context `{NetLib} `{StampLib} {E : Type} (now : Z).

(** [if ip := ParseIP(ipOnly); ip != nil { saveCachedIP(host, ip, -1s) }]. *)
Definition pin_address (serverAddrStr providerName : bytes) : XM unit := λ x,
  if (length serverAddrStr =? 0)%nat then (x, Ok tt)
  else
    let ip := ParseIP (ExtractHostAndPort serverAddrStr (-1)).1 in
    if bool_decide (ip = []) then (x, Ok tt)
    else (saveCachedIP x (ExtractHostAndPort providerName (-1)).1 ip (- Second) now, Ok tt).

(** The stamps of the relays named by a route, and whether [*] was met. *)
Fixpoint collect_relays (proxy : RouteProxy E) (relayProto : StampProtoType) (relayNames : list bytes)
    (wildcard : bool) (acc : list ServerStamp) : list ServerStamp * bool :=
  match relayNames with
  | [] => (acc, wildcard)
  | relayName :: relayNames =>
      match NewServerStampFromString relayName with
      | Ok relayStamp =>
          collect_relays proxy relayProto relayNames wildcard
            (if decide (relayStamp.(stamp_Proto) = relayProto) then acc ++ [relayStamp] else acc)
      | _ =>
          if decide (relayName = str "*") then
            (acc ++ (rs_stamp <$> filter (λ r, r.(rs_stamp).(stamp_Proto) = relayProto)
                                    proxy.(rp_serversInfo).(registeredRelays)), true)
          else
            collect_relays proxy relayProto relayNames wildcard
              (match list_find (λ r, r.(rs_name) = relayName ∧ r.(rs_stamp).(stamp_Proto) = relayProto)
                       proxy.(rp_serversInfo).(registeredRelays) with
               | Some (_, r) => acc ++ [r.(rs_stamp)]
               | None => acc
               end)
      end
  end.

(** The relay made from the chosen stamp. *)
Definition relay_of_stamp (proxy : RouteProxy E) (name : bytes) (s : ServerStamp) : XM (option Relay) :=
  match s.(stamp_Proto) with
  | StampProtoTypeDNSCrypt | StampProtoTypeDNSCryptRelay =>
      do! relayUDPAddr := xret (ResolveUDPAddr s.(ServerAddrStr)) in
      do! relayTCPAddr := xret (ResolveTCPAddr s.(ServerAddrStr)) in
      xret (Ok (Some {| relay_Proto := StampProtoTypeDNSCryptRelay;
                        Dnscrypt := Some {| RelayUDPAddr := relayUDPAddr; RelayTCPAddr := relayTCPAddr |};
                        ODoH := None |}))
  | StampProtoTypeODoHRelay =>
      do! base := xret (url_Parse (str "https://" ++ PathEscape s.(ProviderName) ++ s.(Path))) in
      match list_find (λ r, r.(rs_name) = name ∧ r.(rs_stamp).(stamp_Proto) = StampProtoTypeODoHTarget)
              proxy.(rp_registeredServers) with
      | None => xret (Err (EMsg "Relay not found"))
      | Some (_, server) =>
          let url := add_query (add_query base (str "targethost") server.(rs_stamp).(ProviderName))
                       (str "targetpath") server.(rs_stamp).(Path) in
          do! _ := pin_address s.(ServerAddrStr) s.(ProviderName) in
          xret (Ok (Some {| relay_Proto := StampProtoTypeODoHRelay; Dnscrypt := None;
                            ODoH := Some {| odoh_URL := url |} |}))
      end
  | _ => xret (Err (EMsg "Invalid relay set for server"))
  end.

Definition route (proxy : RouteProxy E) (name : bytes) (serverProto : StampProtoType) (rnd : Z)
    : XM (option Relay) :=
  match proxy.(routes) with
  | None => xret (Ok None)
  | Some rs =>
      let '(found, wildcard) :=
        match rs !! name with
        | Some l => (Some l, false)
        | None => (rs !! str "*", true)
        end in
      match found with
      | None | Some [] => xret (Ok None)
      | Some relayNames =>
          match relayProtoForServerProto serverProto with
          | Ok relayProto =>
              let '(relayStamps, wildcard) := collect_relays proxy relayProto relayNames wildcard [] in
              if (length relayStamps =? 0)%nat then xret (Err (EMsg "Non-existent relay set for server"))
              else
                do! candidate := xret (
                  if negb wildcard || (length relayStamps =? 1)%nat
                  then pick rnd relayStamps (seq 0 (length relayStamps))
                  else findFarthestRoute proxy name relayStamps rnd) in
                match candidate with
                | None => xret (Err (EMsg "No valid relay for server"))
                | Some s => relay_of_stamp proxy name s
                end
          | _ => xret (Ok None)
          end
      end
  end.
End Route.

(** * Server parameters *)

(** The two probes sent to DoH and ODoH servers. [padding] is random, [label] a
    random label of 16 letters, [id0] the identifier drawn by [SetQuestion]. *)
Section Probes.
Context `{Codec}.

Definition probe (name : bytes) (msgID id0 : Z) (padding : bytes) : Out bytes :=
  let msg := SetQuestion empty_Msg id0 name TypeNS in
  let msg := msg <| Id := msgID |> <| RecursionDesired := true |> in
  let msg := SetEdns0 msg (u16 MaxDNSPacketSize) false in
  let! edns0 := IsEdns0 msg in
  let! (_, options) := orPanic edns0 in
  let msg := set_options msg (options ++ [EDNS0_PADDING padding]) in
  match Pack msg with
  | Ok body => Ok body
  | Err _ => Fatal
  | Panic => Panic
  | Fatal => Fatal
  end.

Definition dohTestPacket (msgID id0 : Z) (padding : bytes) : Out bytes :=
  probe (str ".") msgID id0 padding.

Definition dohNXTestPacket (label : bytes) (msgID id0 : Z) (padding : bytes) : Out bytes :=
  probe (label ++ str ".test.dnscrypt.") msgID id0 padding.
End Probes.

(** The search of a pinned certificate hash among the peer's certificates. *)
Definition hash_found (sha256 : bytes → bytes) (certs : list bytes) (hashes : list bytes) : bool :=
  existsb (λ cert, existsb (λ hash, (length hash =? 32)%nat && bool_decide (sha256 cert = hash)) hashes) certs.

(** The check of the response to a probe sent with identifier 0xcafe. *)
Definition expected_probe_response (r : bytes) : bool :=
  negb ((len r <? MinDNSPacketSize) || (MaxDNSPacketSize <? len r) ||
        negb (bool_decide (r !! 0%nat = Some 0xca)) || negb (bool_decide (r !! 1%nat = Some 0xfe)) ||
        negb (bool_decide (r !! 4%nat = Some 0x00)) || negb (bool_decide (r !! 5%nat = Some 0x01))).

(** What the retrieval of a server's parameters gets from outside. *)
Record FetchEnv := {
  fe_resolve : ResolveEnv;
  fe_client : Request → (HttpError + option HttpResponse) * Z;
  fe_defaultTimeout : Z;
  fe_sha256 : bytes → bytes;
  fe_hexDecode : bytes → Out bytes;
  fe_rnd : bytes;
  fe_label : bytes;
  fe_id : Z;
  fe_arrivals : Msg → bool → option DNSCryptRelay → list DNSExchangeResponse;
  fe_route_rnd : Z
}.

Section Fetch.
Context `{NetLib} `{StampLib} `{WebLib} `{Codec} `{CryptoPrims} `{Ed25519} {Ctx : Type} `{HPKE Ctx}.
Context {E : Type} (ewma_nil : E) (fe : FetchEnv).

Definition blank_server : ServerInfo E := {|
  lastActionTS := 0; rtt := ewma_nil; si_Name := []; HostName := [];
  UDPAddr := {| addr_IP := []; addr_Port := 0 |}; TCPAddr := {| addr_IP := []; addr_Port := 0 |};
  si_Relay := None; URL := no_url; initialRtt := 0; Timeout := 0;
  si_CryptoConstruction := UndefinedConstruction; ServerPk := replicate 32 0;
  SharedKey := replicate 32 0; MagicQuery := replicate 8 0;
  knownBugs := {| fragmentsBlocked := false |}; Proto := StampProtoTypePlain; useGet := false;
  odohTargetConfigs := [] |}.

(** The Ed25519 key of a stamp, which old stamps hold in hexadecimal. *)
Definition stamp_pk (stamp : ServerStamp) : Out bytes :=
  if len stamp.(stamp_ServerPk) =? 32 then Ok stamp.(stamp_ServerPk)
  else
    match fe_hexDecode fe (filter (λ c, c ≠ 58) stamp.(stamp_ServerPk)) with
    | Ok pk => if len pk =? 32 then Ok pk else Fatal
    | _ => Fatal
    end.

(** When the certificate cannot be fetched the whole call fails; whether the
    server also blocks fragments then only selects the message. *)
Definition fetchDNSCryptServerInfo (proxy : RouteProxy E) (name : bytes) (stamp : ServerStamp)
    : XM (ServerInfo E) :=
  do! pk := xret (stamp_pk stamp) in
  let knownBugs := {| fragmentsBlocked := bool_decide (name ∈ proxy.(serversBlockingFragments)) |} in
  do! relay := route (re_now (fe_resolve fe)) proxy name stamp.(stamp_Proto) (fe_route_rnd fe) in
  let dnscryptRelay := r ← relay; r.(Dnscrypt) in
  let cert := FetchCurrentDNSCryptCert proxy.(rp_cert) pk stamp.(ProviderName) dnscryptRelay knownBugs
                (fe_id fe) (re_now (fe_resolve fe) / Second) (fe_rnd fe) (fe_arrivals fe) in
  let blocked := match cert with Ok (_, _, b) => b | _ => false end in
  let knownBugs := {| fragmentsBlocked := knownBugs.(fragmentsBlocked) || blocked |} in
  let unreachable := knownBugs.(fragmentsBlocked) && bool_decide (is_Some dnscryptRelay) in
  if unreachable && proxy.(skipAnonIncompatibleResolvers)
  then xret (Err (EMsg "Resolver couldn't be reached anonymously"))
  else
    let relay := if unreachable then None else relay in
    do! (certInfo, rtt, _) := xret cert in
    do! remoteUDPAddr := xret (ResolveUDPAddr stamp.(ServerAddrStr)) in
    do! remoteTCPAddr := xret (ResolveTCPAddr stamp.(ServerAddrStr)) in
    xret (Ok (blank_server
      <| Proto := StampProtoTypeDNSCrypt |> <| MagicQuery := certInfo.(ci_MagicQuery) |>
      <| ServerPk := certInfo.(ci_ServerPk) |> <| SharedKey := certInfo.(ci_SharedKey) |>
      <| si_CryptoConstruction := certInfo.(ci_CryptoConstruction) |> <| si_Name := name |>
      <| Timeout := proxy.(rp_timeout) |> <| UDPAddr := remoteUDPAddr |> <| TCPAddr := remoteTCPAddr |>
      <| si_Relay := relay |> <| initialRtt := rtt |> <| ServerTypes.knownBugs := knownBugs |>)).

Definition doh (useGet : bool) (url : Url) (body : bytes) (timeout : Z) : XM FetchResult :=
  xcall (λ x, DoHQuery (fe_resolve fe) (fe_client fe) (fe_defaultTimeout fe) x useGet url body timeout).

Definition odoh (useGet : bool) (url : Url) (body : bytes) (timeout : Z) : XM FetchResult :=
  xcall (λ x, ObliviousDoHQuery (fe_resolve fe) (fe_client fe) (fe_defaultTimeout fe) x useGet url body timeout).

(** [err != nil] as a result. *)
Definition ok_or_err (r : FetchResult) : Out FetchResult :=
  match r.(f_err) with Some e => Err e | None => Ok r end.

(** A POST and, if it fails, a GET: whether GET must be used. *)
Definition detect_method (q : bool → XM FetchResult) : XM bool :=
  do! r := q false in
  match r.(f_err) with
  | None => xret (Ok false)
  | Some _ =>
      do! r := q true in
      do! _ := xret (ok_or_err r) in
      xret (Ok true)
  end.

(** The checks on the answer to the second probe, common to DoH and ODoH. *)
Definition check_server (stamp : ServerStamp) (tls : option TLSState) (serverResponse : bytes) : Out unit :=
  let! _ := Unpack serverResponse in
  let certs := match tls with Some t => t.(PeerCertificates) | None => [] end in
  if negb (hash_found (fe_sha256 fe) certs stamp.(Hashes)) && (0 <? length stamp.(Hashes))%nat
  then Err (EMsg "Certificate hash not found")
  else if negb (expected_probe_response serverResponse)
  then Err (EMsg "Webserver returned an unexpected response")
  else Ok tt.

Definition fetchDoHServerInfo (proxy : RouteProxy E) (name : bytes) (stamp : ServerStamp)
    : XM (ServerInfo E) :=
  do! _ := pin_address (re_now (fe_resolve fe)) stamp.(ServerAddrStr) stamp.(ProviderName) in
  let url := {| u_Host := stamp.(ProviderName); u_Path := stamp.(Path); u_Query := [] |} in
  do! body := xret (dohTestPacket 0xcafe (fe_id fe) (fe_rnd fe)) in
  do! useGet := detect_method (λ g, doh g url body proxy.(rp_timeout)) in
  do! body := xret (dohNXTestPacket (fe_label fe) 0xcafe (fe_id fe) (fe_rnd fe)) in
  do! r := doh useGet url body proxy.(rp_timeout) in
  do! r := xret (ok_or_err r) in
  let complete := match r.(f_tls) with Some t => t.(HandshakeComplete) | None => false end in
  if negb complete then xret (Err (EMsg "TLS handshake failed"))
  else
    let serverResponse := default [] r.(f_bin) in
    do! _ := xret (check_server stamp r.(f_tls) serverResponse) in
    xret (Ok (blank_server
      <| Proto := StampProtoTypeDoH |> <| si_Name := name |> <| Timeout := proxy.(rp_timeout) |>
      <| URL := url |> <| HostName := stamp.(ProviderName) |>
      <| initialRtt := Z.quot r.(f_rtt) 1000000 |> <| ServerTypes.useGet := useGet |>)).

Definition fetchTargetConfigsFromWellKnown (url : Url) : XM (list ODoHTargetConfig) :=
  do! r := xcall (λ x, Get (fe_resolve fe) (fe_client fe) (fe_defaultTimeout fe) x url
                         (str "application/binary") 0) in
  do! r := xret (ok_or_err r) in
  if (r.(f_status) <? 200) || (300 <=? r.(f_status)) then xret (Err (EMsg "HTTP status code"))
  else
    match parseODoHTargetConfigs (fe_rnd fe) (default [] r.(f_bin)) [] with
    | Some o => xret o
    | None => xret Panic
    end.

(** [continue] on an error, otherwise the server or an early return. *)
Definition or_continue {A} (m : XM A) (k : A → XM (ServerInfo E)) (next : XM (ServerInfo E))
    : XM (ServerInfo E) := λ x,
  match m x with
  | (x, Ok a) => k a x
  | (x, Err _) => next x
  | (x, Panic) => (x, Panic)
  | (x, Fatal) => (x, Fatal)
  end.

(** The loop over the (shuffled) configurations of an ODoH target. A
    configuration whose response decrypts ends it, with success or not. *)
Fixpoint probe_configs (proxy : RouteProxy E) (name : bytes) (stamp : ServerStamp) (relay : Relay) (url : Url)
    (configs : list ODoHTargetConfig) : XM (ServerInfo E) :=
  match configs with
  | [] => xret (Err (EMsg "No valid network configuration"))
  | c :: configs =>
      let next := probe_configs proxy name stamp relay url configs in
      do! query := xret (dohTestPacket 0xcafe (fe_id fe) (fe_rnd fe)) in
      or_continue (xret (encryptQuery c (fe_rnd fe) query)) (λ odohQuery,
      or_continue (detect_method (λ g, odoh g url odohQuery.(odohMessage) proxy.(rp_timeout))) (λ useGet,
      do! query := xret (dohNXTestPacket (fe_label fe) 0xcafe (fe_id fe) (fe_rnd fe)) in
      or_continue (xret (encryptQuery c (fe_rnd fe) query)) (λ odohQuery,
      or_continue (do! r := odoh useGet url odohQuery.(odohMessage) proxy.(rp_timeout) in
                   xret (ok_or_err r)) (λ r,
      if r.(f_status) =? 401 then xret (Err (EMsg "Configuration changed during a probe"))
      else
        or_continue (xret (decryptResponse odohQuery (default [] r.(f_bin)))) (λ serverResponse,
        do! _ := xret (let! _ := Unpack serverResponse in
                       if bool_decide (is_Some r.(f_tls)) then Ok tt else Panic) in
        do! _ := xret (check_server stamp r.(f_tls) serverResponse) in
        xret (Ok (blank_server
          <| Proto := StampProtoTypeODoHTarget |> <| si_Name := name |> <| Timeout := proxy.(rp_timeout) |>
          <| URL := {| u_Host := stamp.(ProviderName); u_Path := stamp.(Path); u_Query := [] |} |>
          <| HostName := stamp.(ProviderName) |> <| initialRtt := Z.quot r.(f_rtt) 1000000 |>
          <| ServerTypes.useGet := useGet |> <| si_Relay := Some relay |>
          <| odohTargetConfigs := [c] |>)))
        next) next) next) next) next
  end.

(** [_fetchODoHTargetInfo]; [shuffle] is the permutation drawn. *)
Definition fetchODoHTargetInfo_once (shuffle : list ODoHTargetConfig → list ODoHTargetConfig)
    (proxy : RouteProxy E) (name : bytes) (stamp : ServerStamp) : XM (ServerInfo E) :=
  let configURL := {| u_Host := stamp.(ProviderName); u_Path := str "/.well-known/odohconfigs"; u_Query := [] |} in
  do! configs := fetchTargetConfigsFromWellKnown configURL in
  if (length configs =? 0)%nat then xret (Err (EMsg "empty ODoH configuration"))
  else
    do! relay := route (re_now (fe_resolve fe)) proxy name stamp.(stamp_Proto) (fe_route_rnd fe) in
    match relay with
    | None => xret (Err (EMsg "No ODoH relay"))
    | Some relay =>
        match relay.(ODoH) with
        | None => xret (Err (EMsg "Wrong ODoH relay type"))
        | Some o => probe_configs proxy name stamp relay o.(odoh_URL) (shuffle configs)
        end
    end.

(** Up to [n] attempts; the error of the last one remains. *)
Fixpoint attempts_until {A} (n : nat) (m : XM A) (last : error) : XM A :=
  match n with
  | O => xret (Err last)
  | S n => λ x,
      match m x with
      | (x, Err e) => attempts_until n m e x
      | r => r
      end
  end.

Definition fetchODoHTargetInfo shuffle (proxy : RouteProxy E) (name : bytes) (stamp : ServerStamp)
    : XM (ServerInfo E) :=
  attempts_until 3 (fetchODoHTargetInfo_once shuffle proxy name stamp) (EMsg "").

(** [fetchServerInfo]: by the protocol of the stamp. *)
Definition fetch_by_proto shuffle (proxy : RouteProxy E) (name : bytes) (stamp : ServerStamp)
    : XM (ServerInfo E) :=
  match stamp.(stamp_Proto) with
  | StampProtoTypeDNSCrypt => fetchDNSCryptServerInfo proxy name stamp
  | StampProtoTypeDoH => fetchDoHServerInfo proxy name stamp
  | StampProtoTypeODoHTarget => fetchODoHTargetInfo shuffle proxy name stamp
  | _ => xret (Err (EMsg "Unsupported protocol"))
  end.

(** The interface of the registry, implemented on a given transport state. *)
#[local] Instance net_fetcher shuffle (proxy : RouteProxy E) (x : XTransport) : Fetcher (E:=E) :=
  λ name stamp _, (fetch_by_proto shuffle proxy name stamp x).2.
End Fetch.

(** * Lemmas *)

Lemma xbind_Ok {A B} (m : XM A) (k : A → XM B) x x' b :
  xbind m k x = (x', Ok b) ↔ ∃ y a, m x = (y, Ok a) ∧ k a y = (x', Ok b).
Proof. unfold xbind. destruct (m x) as [y [a|e| |]]; naive_solver. Qed.

Lemma xbind_snd_Ok {A B} (m : XM A) (k : A → XM B) x b :
  (xbind m k x).2 = Ok b ↔ ∃ y a, m x = (y, Ok a) ∧ (k a y).2 = Ok b.
Proof. unfold xbind. destruct (m x) as [y [a|e| |]]; naive_solver. Qed.

Section RelayLemmas.
Context `{NetLib} {E : Type}.

(** The candidates of the search: a relay's index and its shared bits. *)
Definition candidate_bits (serverAddr : IP) (l : list ServerStamp) (i : nat) (b : Z) : Prop :=
  ∃ s, l !! i = Some s ∧ relay_bits serverAddr s = Ok (Some b).

Lemma pick_Ok rnd l idxs r :
  pick rnd l idxs = Ok r → ∃ j s, r = Some s ∧ j ∈ idxs ∧ l !! j = Some s.
Proof.
  unfold pick. intros Hp. apply obind_Ok in Hp as (i & _ & Hp).
  apply obind_Ok in Hp as (j & Hj%orPanic_Ok & Hp). apply obind_Ok in Hp as (s & Hs%orPanic_Ok & Hp).
  injection Hp as <-. exists j, s. split_and!; [done| |done].
  apply index_Some in Hj as [_ Hj]. by eapply list_elem_of_lookup_2.
Qed.

(** Every index kept shares no more bits with the server than the relays before
    it, and the last one is a farthest relay. *)
Lemma best_relays_spec serverAddr all l k best idxs res :
  drop k all = l →
  (∀ i b, (i < k)%nat → candidate_bits serverAddr all i b → best ≤ b) →
  (∀ i, i ∈ idxs → ∃ b, candidate_bits serverAddr all i b ∧
     ∀ j c, (j < i)%nat → candidate_bits serverAddr all j c → b ≤ c) →
  (∀ i, list.last idxs = Some i → candidate_bits serverAddr all i best) →
  (idxs = [] → best = 128) →
  best_relays serverAddr l k best idxs = Ok res →
  (∀ i, i ∈ res → ∃ b, candidate_bits serverAddr all i b ∧
     ∀ j c, (j < i)%nat → candidate_bits serverAddr all j c → b ≤ c) ∧
  (∀ i, list.last res = Some i → ∃ b, candidate_bits serverAddr all i b ∧
     ∀ j c, candidate_bits serverAddr all j c → b ≤ c).
Proof.
  revert k best idxs. induction l as [|s l IH]; intros k best idxs Hd Hbest Hidx Hlast Hnil; cbn [best_relays].
  { intros [= <-]. split; [done|]. intros i Hi. exists best. split; [auto|].
    intros j c Hc. apply (Hbest j c); [|done]. destruct Hc as (s & Hs & _).
    apply lookup_lt_Some in Hs. apply (f_equal length) in Hd. rewrite length_drop in Hd. cbn in Hd. lia. }
  assert (Hs : all !! k = Some s).
  { rewrite <-(Nat.add_0_r k), <-lookup_drop, Hd. done. }
  assert (Hd' : drop (S k) all = l).
  { rewrite <-Nat.add_1_r, <-drop_drop, Hd. done. }
  intros Hr. apply obind_Ok in Hr as (o & Ho & Hr).
  assert (Hk : ∀ b, candidate_bits serverAddr all k b → o = Some b).
  { intros b (s' & Hs' & Hb). rewrite Hs in Hs'. injection Hs' as <-. rewrite Ho in Hb. by injection Hb. }
  destruct o as [b|]; [destruct (Z.leb_spec b best)|].
  - eapply (IH (S k) b (idxs ++ [k])); [done| | | | |exact Hr].
    + intros i c Hi Hc. destruct (decide (i = k)) as [->|]; [apply Hk in Hc; simplify_eq; lia|].
      specialize (Hbest i c). assert (best ≤ c) by (apply Hbest; [lia|done]). lia.
    + intros i [Hi| ->%list_elem_of_singleton]%elem_of_app; [auto|].
      exists b. split; [by exists s|]. intros j c Hj Hc. specialize (Hbest j c Hj Hc). lia.
    + intros i. rewrite last_snoc. intros [= <-]. by exists s.
    + by destruct idxs.
  - eapply (IH (S k) best idxs); [done| |done|done|done|exact Hr].
    intros i c Hi Hc. destruct (decide (i = k)) as [->|]; [apply Hk in Hc; simplify_eq; lia|].
    apply (Hbest i c); [lia|done].
  - eapply (IH (S k) best idxs); [done| |done|done|done|exact Hr].
    intros i c Hi Hc. destruct (decide (i = k)) as [->|]; [by apply Hk in Hc|].
    apply (Hbest i c); [lia|done].
Qed.
End RelayLemmas.

(** * Properties *)

Section Properties.
Context `{NetLib} `{StampLib} {E : Type}.

(** The relays configured for a server: its own route or the default one. *)
Definition configured_relays (proxy : RouteProxy E) (name : bytes) : option (list bytes) :=
  rs ← proxy.(routes); match rs !! name with Some l => Some l | None => rs !! str "*" end.

(** A relay fit for a server protocol. *)
Definition relay_fits (serverProto : StampProtoType) (r : Relay) : Prop :=
  (serverProto = StampProtoTypeDNSCrypt → is_Some r.(Dnscrypt)) ∧
  (serverProto = StampProtoTypeODoHTarget → is_Some r.(ODoH)).

Lemma collect_relays_proto (proxy : RouteProxy E) p names w acc :
  Forall (λ s, s.(stamp_Proto) = p) acc →
  Forall (λ s, s.(stamp_Proto) = p) (collect_relays proxy p names w acc).1.
Proof.
  revert w acc. induction names as [|n names IH]; intros w acc Ha; cbn [collect_relays]; [done|].
  assert (Hone : ∀ s, s.(stamp_Proto) = p → Forall (λ s, s.(stamp_Proto) = p) (acc ++ [s])).
  { intros s Hs. apply Forall_app. split; [done|by apply Forall_singleton]. }
  assert (Hrest : Forall (λ s, s.(stamp_Proto) = p)
    (if decide (n = str "*") then
       (acc ++ (rs_stamp <$> filter (λ r, r.(rs_stamp).(stamp_Proto) = p) proxy.(rp_serversInfo).(registeredRelays)), true)
     else collect_relays proxy p names w
       (match list_find (λ r, r.(rs_name) = n ∧ r.(rs_stamp).(stamp_Proto) = p) proxy.(rp_serversInfo).(registeredRelays) with
        | Some (_, r) => acc ++ [r.(rs_stamp)] | None => acc end)).1).
  { case_decide; cbn [fst].
    - apply Forall_app. split; [done|]. apply Forall_fmap, list.Forall_forall.
      intros r Hr. by apply list_elem_of_filter in Hr as [Hr _].
    - apply IH. destruct (list_find _ _) as [[i r]|] eqn:Hf; [|done].
      apply list_find_Some in Hf as (_ & [_ Hp] & _). by apply Hone. }
  destruct (NewServerStampFromString n) as [s|e| |]; [|done..].
  apply IH. destruct (decide (stamp_Proto s = p)); [by apply Hone|done].
Qed.

Lemma findFarthestRoute_in (proxy : RouteProxy E) name l rnd s :
  findFarthestRoute proxy name l rnd = Ok (Some s) → s ∈ l.
Proof.
  unfold findFarthestRoute. intros Hf.
  assert (Hp : ∀ idxs, pick rnd l idxs = Ok (Some s) → s ∈ l).
  { intros idxs (j & s' & [= ->] & _ & Hj)%pick_Ok. by eapply list_elem_of_lookup_2. }
  destruct (list_find _ _) as [[? server]|]; [|done]. case_decide; [by eapply Hp|].
  destruct (negb _); [done|]. case_bool_decide; [done|]. destruct (_ =? _)%nat; [done|].
  apply obind_Ok in Hf as (idxs & _ & Hf). by eapply Hp.
Qed.

(** C32: The relay given to a server. A route is never silently ignored: when
    relays are configured for a server whose protocol can be anonymized, [route]
    returns a relay or fails, and the relay has the kind the protocol needs. *)
Theorem route_never_direct (now : Z) (proxy : RouteProxy E) (name : bytes) (proto : StampProtoType)
    (rnd : Z) (x : XTransport) (l : list bytes) :
  configured_relays proxy name = Some l → l ≠ [] →
  proto = StampProtoTypeDNSCrypt ∨ proto = StampProtoTypeODoHTarget →
  ∀ o, (route now proxy name proto rnd x).2 = Ok o → ∃ r, o = Some r ∧ relay_fits proto r.
Proof.
  unfold configured_relays, route. intros Hc Hl Hproto o.
  destruct proxy.(routes) as [rs|]; [|done]. cbn [mbind option_bind] in Hc.
  assert (∃ w, (match rs !! name with Some l => (Some l, false) | None => (rs !! str "*", true) end) = (Some l, w))
    as [w ->].
  { destruct (rs !! name); [|rewrite Hc]; simplify_eq; by eexists. }
  destruct l as [|n names]; [done|].
  assert (∃ p, relayProtoForServerProto proto = Ok p ∧ (p = StampProtoTypeDNSCryptRelay ∧ proto = StampProtoTypeDNSCrypt ∨
    p = StampProtoTypeODoHRelay ∧ proto = StampProtoTypeODoHTarget)) as (p & -> & Hp).
  { destruct Hproto as [-> | ->]; cbn; eauto 10. }
  pose proof (collect_relays_proto proxy p (n :: names) w []) as Hcol.
  destruct (collect_relays proxy p (n :: names) w []) as [stamps w'] eqn:Hcr. cbn [fst] in Hcol.
  destruct (length stamps =? 0)%nat; [done|].
  rewrite xbind_snd_Ok. intros (y & cand & Hcand & Ho). unfold xret in Hcand. injection Hcand as <- Hcand.
  destruct cand as [s|]; [|done].
  assert (Hs : s.(stamp_Proto) = p).
  { assert (s ∈ stamps) as Hin.
    { destruct (negb w' || _); [|by eapply findFarthestRoute_in].
      apply pick_Ok in Hcand as (j & s' & [= <-] & _ & Hj). by eapply list_elem_of_lookup_2. }
    assert (Forall (λ s, s.(stamp_Proto) = p) stamps) as Hall by (apply Hcol; constructor).
    rewrite list.Forall_forall in Hall. by apply Hall. }
  unfold relay_of_stamp in Ho. rewrite Hs in Ho. unfold relay_fits.
  destruct Hp as [[-> ->]|[-> ->]]; cbn match in Ho.
  - apply xbind_snd_Ok in Ho as (? & u & _ & Ho). apply xbind_snd_Ok in Ho as (? & t & _ & Ho).
    injection Ho as <-. eexists. split; [done|]. split; [by eexists|done].
  - apply xbind_snd_Ok in Ho as (? & u & _ & Ho). destruct (list_find _ _) as [[? server]|]; [|done].
    apply xbind_snd_Ok in Ho as (? & t & _ & Ho).
    injection Ho as <-. eexists. split; [done|]. split; [done|by eexists].
Qed.

(** The search for a relay far from the server. Each relay it may return
    shares no more leading address bits with the server than the relays listed
    before it, and the last one it keeps is among the farthest of all. *)
Theorem best_relays_farther (serverAddr : IP) (l : list ServerStamp) (idxs : list nat) :
  best_relays serverAddr l 0 128 [] = Ok idxs →
  (∀ i, i ∈ idxs → ∃ b, candidate_bits serverAddr l i b ∧
     ∀ j c, (j < i)%nat → candidate_bits serverAddr l j c → b ≤ c) ∧
  (∀ i, list.last idxs = Some i → ∃ b, candidate_bits serverAddr l i b ∧
     ∀ j c, candidate_bits serverAddr l j c → b ≤ c).
Proof. apply best_relays_spec; try done; [lia|set_solver]. Qed.
End Properties.

Section FetchProperties.
Context `{NetLib} `{StampLib} `{WebLib} `{Codec} `{CryptoPrims} `{Ed25519} {Ctx : Type} `{HPKE Ctx}.
Context {E : Type} (ewma_nil : E) (fe : FetchEnv).

Lemma probe_configs_name proxy name stamp relay url configs x s :
  (probe_configs ewma_nil fe proxy name stamp relay url configs x).2 = Ok s →
  si_Name s = name ∧ Proto s = StampProtoTypeODoHTarget ∧ si_Relay s = Some relay.
Proof.
  revert x. induction configs as [|c configs IH]; intros x; cbn [probe_configs]; [done|].
  set (next := probe_configs _ _ _ _ _ _ _ configs) in *.
  assert (Hoc : ∀ A (m : XM A) k y, (∀ a z, (k a z).2 = Ok s → si_Name s = name ∧ Proto s = StampProtoTypeODoHTarget ∧ si_Relay s = Some relay) →
    (or_continue m k next y).2 = Ok s → si_Name s = name ∧ Proto s = StampProtoTypeODoHTarget ∧ si_Relay s = Some relay).
  { intros A m k y Hk. unfold or_continue. destruct (m y) as [z [a|e| |]]; [apply Hk|apply IH|done|done]. }
  rewrite xbind_snd_Ok. intros (y & q & _ & Hr). revert Hr.
  apply Hoc. intros oq z. apply Hoc. intros g z2. rewrite xbind_snd_Ok. intros (z3 & q2 & _ & Hr). revert Hr.
  apply Hoc. intros oq2 z4. apply Hoc. intros r z5. destruct (_ =? 401); [done|].
  apply Hoc. intros resp z6. rewrite xbind_snd_Ok. intros (z7 & ? & _ & Hr).
  apply xbind_snd_Ok in Hr as (z8 & ? & _ & Hr). by injection Hr as <-.
Qed.

(** What the registry relies on: the parameters fetched for a server carry its
    name and the protocol of its stamp, so that the check of [refreshServer] that
    ends the process never fails. *)
Theorem fetch_by_proto_name shuffle (proxy : RouteProxy E) (name : bytes) (stamp : ServerStamp)
    (x : XTransport) (s : ServerInfo E) :
  (fetch_by_proto ewma_nil fe shuffle proxy name stamp x).2 = Ok s →
  si_Name s = name ∧ Proto s = stamp.(stamp_Proto).
Proof.
  unfold fetch_by_proto. destruct stamp.(stamp_Proto) eqn:Hp; try done.
  - unfold fetchDNSCryptServerInfo. rewrite xbind_snd_Ok. intros (y & pk & _ & Hr).
    apply xbind_snd_Ok in Hr as (y2 & relay & _ & Hr). destruct (_ && _); [done|].
    apply xbind_snd_Ok in Hr as (y3 & [[ci rt] ?] & _ & Hr).
    apply xbind_snd_Ok in Hr as (y4 & u & _ & Hr). apply xbind_snd_Ok in Hr as (y5 & t & _ & Hr).
    by injection Hr as <-.
  - unfold fetchDoHServerInfo. rewrite xbind_snd_Ok. intros (y & pk & _ & Hr).
    do 5 (apply xbind_snd_Ok in Hr as (? & ? & _ & Hr)). destruct (negb _); [done|].
    apply xbind_snd_Ok in Hr as (? & ? & _ & Hr). by injection Hr as <-.
  - unfold fetchODoHTargetInfo.
    assert (Honce : ∀ y, (fetchODoHTargetInfo_once ewma_nil fe shuffle proxy name stamp y).2 = Ok s →
      si_Name s = name ∧ Proto s = StampProtoTypeODoHTarget).
    { intros y. unfold fetchODoHTargetInfo_once. rewrite xbind_snd_Ok. intros (z & cs & _ & Hr).
      destruct (_ =? _)%nat; [done|]. apply xbind_snd_Ok in Hr as (z2 & [relay|] & _ & Hr); [|done].
      destruct relay.(ODoH); [|done]. apply probe_configs_name in Hr. naive_solver. }
    assert (Hatt : ∀ n last y, (attempts_until n (fetchODoHTargetInfo_once ewma_nil fe shuffle proxy name stamp) last y).2 = Ok s →
      si_Name s = name ∧ Proto s = StampProtoTypeODoHTarget).
    { induction n as [|n IH]; intros last y; cbn [attempts_until]; [done|].
      specialize (Honce y). destruct (fetchODoHTargetInfo_once _ _ _ _ _ _ y) as [z [a|e| |]]; eauto. }
    apply Hatt.
Qed.

(** Anonymity is kept. If resolvers that cannot be reached through their relay
    are to be skipped, a DNSCrypt server whose route gives a relay is only
    accepted with that relay. *)
Theorem fetchDNSCrypt_keeps_relay (proxy : RouteProxy E) (name : bytes) (stamp : ServerStamp)
    (x y z : XTransport) (relay : Relay) (s : ServerInfo E) :
  proxy.(skipAnonIncompatibleResolvers) = true →
  route (re_now (fe_resolve fe)) proxy name stamp.(stamp_Proto) (fe_route_rnd fe) x = (y, Ok (Some relay)) →
  fetchDNSCryptServerInfo ewma_nil fe proxy name stamp x = (z, Ok s) →
  si_Relay s = Some relay.
Proof.
  intros Hskip Hroute. unfold fetchDNSCryptServerInfo. rewrite xbind_Ok.
  intros (x' & pk' & Hpk & Hr). unfold xret in Hpk. injection Hpk as <- _.
  apply xbind_Ok in Hr as (y' & r & Hr' & Hr). rewrite Hroute in Hr'. injection Hr' as <- <-.
  rewrite Hskip, andb_true_r in Hr. destruct (_ && _) eqn:Hu; [done|].
  apply xbind_Ok in Hr as (? & [[ci rt] ?] & _ & Hr).
  apply xbind_Ok in Hr as (? & u & _ & Hr). apply xbind_Ok in Hr as (? & t & _ & Hr).
  unfold xret in Hr. injection Hr as _ <-. done.
Qed.

(** When the stamp of a DoH or ODoH server pins certificate hashes, the server
    is only accepted if some certificate presented over TLS has one of them. *)
Theorem check_server_pinned (stamp : ServerStamp) (tls : option TLSState) (r : bytes) :
  check_server fe stamp tls r = Ok tt →
  (stamp.(Hashes) ≠ [] → ∃ t cert, tls = Some t ∧ cert ∈ t.(PeerCertificates) ∧ fe_sha256 fe cert ∈ stamp.(Hashes)) ∧
  MinDNSPacketSize ≤ len r ≤ MaxDNSPacketSize ∧ TransactionID r = Ok 0xcafe.
Proof.
  unfold check_server. intros Hc. apply obind_Ok in Hc as (m & _ & Hc).
  destruct (negb (hash_found _ _ _) && _) eqn:Hh; [done|].
  destruct (expected_probe_response r) eqn:He; [|done]. split_and!.
  - intros Hne. apply andb_false_iff in Hh as [Hh%negb_false_iff|Hh%Nat.ltb_ge].
    2:{ destruct stamp.(Hashes); [done|]. cbn in Hh. lia. }
    unfold hash_found in Hh. apply existsb_exists in Hh as (cert & Hin%list_elem_of_In & Hh).
    apply existsb_exists in Hh as (hash & Hhin%list_elem_of_In & Hh).
    apply andb_true_iff in Hh as [_ Hh%bool_decide_eq_true].
    destruct tls as [t|]; [|by apply elem_of_nil in Hin]. exists t, cert. by rewrite Hh.
  - unfold expected_probe_response in He. apply negb_true_iff in He. rewrite !orb_false_iff in He.
    destruct He as [[[[[He _] _] _] _] _]. rewrite Z.ltb_ge in He. lia.
  - unfold expected_probe_response in He. apply negb_true_iff in He. rewrite !orb_false_iff in He.
    destruct He as [[[[[_ He] _] _] _] _]. rewrite Z.ltb_ge in He. lia.
  - unfold expected_probe_response in He. apply negb_true_iff in He. rewrite !orb_false_iff in He.
    destruct He as [[[[_ H0b] H1b] _] _]. apply negb_false_iff, bool_decide_eq_true in H0b, H1b.
    destruct r as [|a [|b r]]; [done..|]. injection H0b as ->. injection H1b as ->.
    apply TransactionID_Uint16. done.
Qed.
End FetchProperties.

(** ** Instances and findings *)

Section Examples.
#[local] Existing Instance tiny_net.

(** Stamps are never literals here; addresses resolve to loopback. *)
#[local] Instance tiny_stamps : StampLib := {
  NewServerStampFromString _ := Err (EMsg "Stamps are expected to start with sdns:");
  ResolveUDPAddr _ := Ok {| addr_IP := [127; 0; 0; 1]; addr_Port := 443 |};
  ResolveTCPAddr _ := Ok {| addr_IP := [127; 0; 0; 1]; addr_Port := 443 |};
  PathEscape s := s;
  url_Parse s := Ok {| u_Host := s; u_Path := []; u_Query := [] |}
}.

Definition stamp_at (addr : bytes) (p : StampProtoType) : ServerStamp := {|
  ServerAddrStr := addr; stamp_ServerPk := replicate 32 1; Hashes := []; ProviderName := str "2.dnscrypt-cert.x";
  Path := []; Props := 0; stamp_Proto := p |}.

Definition relay_near : ServerStamp := stamp_at (str "1.2.3.5") StampProtoTypeDNSCryptRelay.
Definition relay_far : ServerStamp := stamp_at (str "9.2.3.4") StampProtoTypeDNSCryptRelay.

(** One DNSCrypt server at 1.2.3.4, routed through any relay of [relays]. *)
Definition sample_proxy (relays : list ServerStamp) : RouteProxy unit := {|
  rp_serversInfo :=
    {| inner := []; lbStrategy := LBStrategyP2; lbEstimator := true;
       registeredServers := [{| rs_name := str "srv"; rs_stamp := stamp_at (str "1.2.3.4") StampProtoTypeDNSCrypt;
                                rs_description := [] |}];
       registeredRelays := (λ s, {| rs_name := s.(ServerAddrStr); rs_stamp := s; rs_description := [] |}) <$> relays |};
  rp_registeredServers := []; routes := Some {[str "*" := [str "*"]]};
  serversBlockingFragments := []; skipAnonIncompatibleResolvers := true; rp_timeout := 0;
  rp_cert := {| cp_secretKey := []; cp_certIgnoreTimestamp := false; cp_anonDirectCertFallback := false |} |}.

Example route_never_direct_wit :
  ∃ r, (route 0 (sample_proxy [relay_near]) (str "srv") StampProtoTypeDNSCrypt 0 NewXTransport).2 = Ok (Some r) ∧
       relay_fits StampProtoTypeDNSCrypt r.
Proof.
  eexists. split; [vm_compute; reflexivity|].
  destruct (route_never_direct 0 (sample_proxy [relay_near]) (str "srv") StampProtoTypeDNSCrypt 0 NewXTransport [str "*"])
    with (o := Some {| relay_Proto := StampProtoTypeDNSCryptRelay;
      Dnscrypt := Some {| RelayUDPAddr := {| addr_IP := [127; 0; 0; 1]; addr_Port := 443 |};
                          RelayTCPAddr := {| addr_IP := [127; 0; 0; 1]; addr_Port := 443 |} |}; ODoH := None |})
    as (r & [= <-] & Hr); [by vm_compute|done|by left|by vm_compute|exact Hr].
Defined.

Example best_relays_farther_wit :
  ∀ i, list.last [0%nat; 1%nat] = Some i → ∃ b, candidate_bits (v4InV6Prefix ++ [1; 2; 3; 4]) [relay_near; relay_far] i b ∧
     ∀ j c, candidate_bits (v4InV6Prefix ++ [1; 2; 3; 4]) [relay_near; relay_far] j c → b ≤ c.
Proof. apply (best_relays_farther (v4InV6Prefix ++ [1; 2; 3; 4]) [relay_near; relay_far] [0%nat; 1%nat]). by vm_compute. Defined.

#[local] Existing Instance tiny_codec.
#[local] Existing Instance tiny_hpke.
#[local] Existing Instance toy_prims.
#[local] Existing Instance any_signature.
#[local] Instance tiny_web : WebLib := {
  sha512 b := b; hex_EncodeToString b := b; base64_RawURLEncoding b := b }.

Definition sample_env : FetchEnv := {|
  fe_resolve := {| re_now := 1000 * Second; re_rnd := 0; re_id := 1;
                   LookupHost _ := Err ETimeout; Exchange _ _ _ := Err ETimeout |};
  fe_client _ := (inr None, 0); fe_defaultTimeout := 1; fe_sha256 _ := replicate 32 6;
  fe_hexDecode _ := Err (EMsg "hex"); fe_rnd := replicate 32 0; fe_label := []; fe_id := 1;
  fe_arrivals := one_arrival sample_answer; fe_route_rnd := 0 |}.

Definition fetched (x : XTransport) : XTransport * Out (ServerInfo unit) :=
  fetchDNSCryptServerInfo tt sample_env (sample_proxy [relay_near]) (str "srv")
    (stamp_at (str "1.2.3.4") StampProtoTypeDNSCrypt) x.

Definition fetched_server : ServerInfo unit :=
  match (fetched NewXTransport).2 with Ok s => s | _ => blank_server tt end.

Example fetch_by_proto_name_wit :
  si_Name fetched_server = str "srv" ∧ Proto fetched_server = StampProtoTypeDNSCrypt.
Proof.
  apply (fetch_by_proto_name tt sample_env id (sample_proxy [relay_near]) (str "srv")
    (stamp_at (str "1.2.3.4") StampProtoTypeDNSCrypt) NewXTransport). by vm_compute.
Defined.

Definition routed_relay : Relay :=
  match (route 0 (sample_proxy [relay_near]) (str "srv") StampProtoTypeDNSCrypt 0 NewXTransport).2 with
  | Ok (Some r) => r
  | _ => {| relay_Proto := StampProtoTypePlain; Dnscrypt := None; ODoH := None |}
  end.

Example fetchDNSCrypt_keeps_relay_wit : si_Relay fetched_server = Some routed_relay.
Proof.
  apply (fetchDNSCrypt_keeps_relay tt sample_env (sample_proxy [relay_near]) (str "srv")
    (stamp_at (str "1.2.3.4") StampProtoTypeDNSCrypt) NewXTransport NewXTransport NewXTransport);
    [done|by vm_compute..].
Defined.

Definition probe_response : bytes := [0xca; 0xfe; 0; 0; 0; 1] ++ replicate 20 0.

Example check_server_pinned_wit :
  ∃ t cert, Some {| HandshakeComplete := true; PeerCertificates := [[1]; [2]] |} = Some t ∧
    cert ∈ t.(PeerCertificates) ∧ fe_sha256 sample_env cert ∈ [replicate 32 6].
Proof.
  apply (check_server_pinned sample_env
    {| ServerAddrStr := []; stamp_ServerPk := []; Hashes := [replicate 32 6]; ProviderName := []; Path := [];
       Props := 0; stamp_Proto := StampProtoTypeDoH |}
    (Some {| HandshakeComplete := true; PeerCertificates := [[1]; [2]] |}) probe_response); [by vm_compute|done].
Defined.

(** The relay chosen need not be the farthest. Relays kept before a farther
    one was met stay eligible: with a relay one bit away from the server's address
    listed first and one that differs in the first octet listed second, the draw
    may return the first. *)
Theorem findFarthestRoute_not_farthest :
  relay_bits (v4InV6Prefix ++ [1; 2; 3; 4]) relay_near = Ok (Some 31) ∧
  relay_bits (v4InV6Prefix ++ [1; 2; 3; 4]) relay_far = Ok (Some 4) ∧
  findFarthestRoute (sample_proxy [relay_near; relay_far]) (str "srv") [relay_near; relay_far] 0 =
    Ok (Some relay_near).
Proof. by vm_compute. Qed.

(** With only relays of the other address family (or without a usable address)
    the search is left without candidates, and drawing from an empty list panics:
    the whole process stops. *)
Theorem findFarthestRoute_no_candidate_panics :
  findFarthestRoute (sample_proxy [relay_near]) (str "srv")
    [stamp_at (str "[2001:db8::1]") StampProtoTypeDNSCryptRelay;
     stamp_at (str "[2001:db8::2]") StampProtoTypeDNSCryptRelay] 0 = Panic.
Proof. by vm_compute. Qed.
End Examples.
