(* ===== verification/ARC.v ===== *)
(** vendor/github.com/hashicorp/golang-lru: the adaptive replacement cache that
    holds DNS responses (arc.go) and the LRU lists it is made of
    (simplelru/lru.go), with the contract the cache plugins rely on.

    A list is kept with its most recent entry first; the [items] map of the code
    indexes that list, so that looking a key up is looking it up in the list. *)
From S2P Require Import Prelude.

(** * The contract *)

(** A bounded store of values under byte-string keys: what it holds is a finite
    map; adding and reading may evict other entries but never changes them. *)
Class Store (V : Type) := {
  St : Type;
  NewStore : Z → Out St;
  store_Get : bytes → St → St * option V;
  store_Add : bytes → V → St → St
}.
Arguments St V {_}.

Class StoreLaws (V : Type) `{Store V} := {
  store_ok : St V → Prop;
  holds : St V → gmap bytes V;
  New_spec size :
    match NewStore size with
    | Ok c => 0 < size ∧ store_ok c ∧ holds c = ∅
    | Err _ => size ≤ 0
    | Panic | Fatal => False
    end;
  Get_ok k c : store_ok c → store_ok (store_Get k c).1;
  Get_value k c : store_ok c → (store_Get k c).2 = holds c !! k;
  Get_keeps k c : store_ok c → holds (store_Get k c).1 !! k = holds c !! k;
  Get_only_evicts k c : store_ok c → holds (store_Get k c).1 ⊆ holds c;
  Add_ok k v c : store_ok c → store_ok (store_Add k v c);
  Add_holds k v c : store_ok c → holds (store_Add k v c) !! k = Some v;
  Add_only_evicts k v c : store_ok c → holds (store_Add k v c) ⊆ <[k := v]> (holds c)
}.

(** * LRU lists *)

Section LRU.
Context {V : Type}.

Record LRU := { lru_size : Z; evictList : list (bytes * V) }.

Definition NewLRU (size : Z) : Out LRU :=
  if size <=? 0 then Err (EMsg "Must provide a positive size")
  else Ok {| lru_size := size; evictList := [] |}.

Definition items (c : LRU) : gmap bytes V := list_to_map c.(evictList).

Definition with_list (c : LRU) (l : list (bytes * V)) : LRU :=
  {| lru_size := c.(lru_size); evictList := l |}.

Definition lru_Len (c : LRU) : Z := len c.(evictList).
Definition lru_Peek (k : bytes) (c : LRU) : option V := items c !! k.
Definition lru_Contains (k : bytes) (c : LRU) : bool := bool_decide (is_Some (items c !! k)).

Definition without (k : bytes) (l : list (bytes * V)) : list (bytes * V) := filter (λ e, e.1 ≠ k) l.

Definition lru_Remove (k : bytes) (c : LRU) : LRU := with_list c (without k c.(evictList)).

Definition lru_RemoveOldest (c : LRU) : LRU * option (bytes * V) :=
  (with_list c (take (length c.(evictList) - 1) c.(evictList)), list.last c.(evictList)).

Definition lru_Add (k : bytes) (v : V) (c : LRU) : LRU :=
  if lru_Contains k c then with_list c ((k, v) :: without k c.(evictList))
  else
    let c1 := with_list c ((k, v) :: c.(evictList)) in
    if c1.(lru_size) <? lru_Len c1 then (lru_RemoveOldest c1).1 else c1.

Definition lru_Get (k : bytes) (c : LRU) : LRU * option V :=
  match items c !! k with
  | Some v => (with_list c ((k, v) :: without k c.(evictList)), Some v)
  | None => (c, None)
  end.

Definition lru_inv (c : LRU) : Prop :=
  NoDup c.(evictList).*1 ∧ 0 < c.(lru_size) ∧ lru_Len c ≤ c.(lru_size).

End LRU.
Arguments LRU : clear implicits.

(** * The cache *)

Section ARC.
Context {V : Type}.

Record ARCCache := {
  size : Z;
  p : Z;
  t1 : LRU V;
  b1 : LRU unit;
  t2 : LRU V;
  b2 : LRU unit
}.

#[export] Instance eta_ARCCache : Eta ARCCache := λ c, {|
  size := c.(size); p := c.(p); t1 := c.(t1); b1 := c.(b1); t2 := c.(t2); b2 := c.(b2) |}.

Definition NewARC (size : Z) : Out ARCCache :=
  let! b1 := NewLRU size in
  let! b2 := NewLRU size in
  let! t1 := NewLRU size in
  let! t2 := NewLRU size in
  Ok {| size := size; p := 0; t1 := t1; b1 := b1; t2 := t2; b2 := b2 |}.

Definition Get (key : bytes) (c : ARCCache) : ARCCache * option V :=
  match lru_Peek key c.(t1) with
  | Some val => (c <| t1 := lru_Remove key c.(t1) |> <| t2 := lru_Add key val c.(t2) |>, Some val)
  | None =>
      let '(t2', val) := lru_Get key c.(t2) in
      (c <| t2 := t2' |>, val)
  end.

Definition replace (b2ContainsKey : bool) (c : ARCCache) : ARCCache :=
  let t1Len := lru_Len c.(t1) in
  if (0 <? t1Len) && ((c.(p) <? t1Len) || ((t1Len =? c.(p)) && b2ContainsKey)) then
    let '(t1', old) := lru_RemoveOldest c.(t1) in
    let c1 := c <| t1 := t1' |> in
    match old with Some (k, _) => c1 <| b1 := lru_Add k tt c.(b1) |> | None => c1 end
  else
    let '(t2', old) := lru_RemoveOldest c.(t2) in
    let c1 := c <| t2 := t2' |> in
    match old with Some (k, _) => c1 <| b2 := lru_Add k tt c.(b2) |> | None => c1 end.

Definition make_room (b2ContainsKey : bool) (c : ARCCache) : ARCCache :=
  if c.(size) <=? lru_Len c.(t1) + lru_Len c.(t2) then replace b2ContainsKey c else c.

Definition Add (key : bytes) (value : V) (c : ARCCache) : ARCCache :=
  if lru_Contains key c.(t1) then
    c <| t1 := lru_Remove key c.(t1) |> <| t2 := lru_Add key value c.(t2) |>
  else if lru_Contains key c.(t2) then
    c <| t2 := lru_Add key value c.(t2) |>
  else if lru_Contains key c.(b1) then
    let b1Len := lru_Len c.(b1) in
    let b2Len := lru_Len c.(b2) in
    let delta := if b1Len <? b2Len then b2Len / b1Len else 1 in
    let c1 := c <| p := if c.(size) <=? c.(p) + delta then c.(size) else c.(p) + delta |> in
    let c2 := make_room false c1 in
    c2 <| b1 := lru_Remove key c2.(b1) |> <| t2 := lru_Add key value c2.(t2) |>
  else if lru_Contains key c.(b2) then
    let b1Len := lru_Len c.(b1) in
    let b2Len := lru_Len c.(b2) in
    let delta := if b2Len <? b1Len then b1Len / b2Len else 1 in
    let c1 := c <| p := if c.(p) <=? delta then 0 else c.(p) - delta |> in
    let c2 := make_room true c1 in
    c2 <| b2 := lru_Remove key c2.(b2) |> <| t2 := lru_Add key value c2.(t2) |>
  else
    let c1 := make_room false c in
    let c2 := if c1.(size) - c1.(p) <? lru_Len c1.(b1) then c1 <| b1 := (lru_RemoveOldest c1.(b1)).1 |> else c1 in
    let c3 := if c2.(p) <? lru_Len c2.(b2) then c2 <| b2 := (lru_RemoveOldest c2.(b2)).1 |> else c2 in
    c3 <| t1 := lru_Add key value c3.(t1) |>.

(** Everything the cache answers for. *)
Definition contents (c : ARCCache) : gmap bytes V := items c.(t1) ∪ items c.(t2).

(** The four lists are well formed, and no key is both recent and frequent. *)
Definition arc_inv (c : ARCCache) : Prop :=
  lru_inv c.(t1) ∧ lru_inv c.(t2) ∧ lru_inv c.(b1) ∧ lru_inv c.(b2) ∧
  items c.(t1) ##ₘ items c.(t2).

End ARC.
Arguments ARCCache : clear implicits.

(** * Lemmas: LRU lists *)

Section LRULemmas.
Context {V : Type}.
Implicit Types (c : LRU V) (l : list (bytes * V)).

Lemma items_without k l : (list_to_map (without k l) : gmap bytes V) = delete k (list_to_map l).
Proof.
  induction l as [|[j v] l IH]; [cbn; by rewrite delete_empty|].
  unfold without in *. rewrite filter_cons. cbn. case_decide as Hj; cbn.
  - by rewrite IH, delete_insert_ne.
  - assert (j = k) as -> by (destruct (decide (j = k)); [done|tauto]). by rewrite delete_insert_eq.
Qed.

Lemma without_keys k l : (without k l).*1 = filter (.≠ k) l.*1.
Proof.
  induction l as [|[j v] l IH]; [done|]. unfold without in *. rewrite fmap_cons, !filter_cons.
  cbn. case_decide; cbn; by rewrite IH.
Qed.

Lemma without_length k l : (length (without k l) ≤ length l)%nat.
Proof. apply length_filter. Qed.

Lemma items_lookup_key (l : list (bytes * V)) k :
  is_Some ((list_to_map l : gmap bytes V) !! k) ↔ k ∈ l.*1.
Proof.
  rewrite <- not_eq_None_Some, <- not_elem_of_list_to_map.
  destruct (decide (k ∈ l.*1)); naive_solver.
Qed.

Lemma without_length_lt k l : k ∈ l.*1 → (length (without k l) < length l)%nat.
Proof.
  intros Hk. rewrite <- (length_fmap fst l), <- (length_fmap fst (without k l)), without_keys.
  apply length_filter_lt with k; [done|naive_solver].
Qed.

Lemma items_take n l : (list_to_map (take n l) : gmap bytes V) ⊆ list_to_map l.
Proof.
  transitivity (list_to_map (take n l ++ drop n l) : gmap bytes V); [|by rewrite take_drop].
  rewrite list_to_map_app. apply map_union_subseteq_l.
Qed.

Lemma empty_lru_inv n : 0 < n → lru_inv {| lru_size := n; evictList := [] : list (bytes * V) |}.
Proof. intros. split_and!; cbn; [apply base.NoDup_nil_2|done|unfold lru_Len, len; cbn; lia]. Qed.

Lemma lru_Remove_inv k c : lru_inv c → lru_inv (lru_Remove k c).
Proof.
  intros (Hnd & Hs & Hl). repeat split; cbn; [|done|].
  - rewrite without_keys. by apply list.NoDup_filter.
  - pose proof (without_length k (evictList c)). unfold lru_Len in *. cbn [lru_Remove with_list evictList lru_size] in *. len_lia.
Qed.

Lemma items_Remove k c : items (lru_Remove k c) = delete k (items c).
Proof. apply items_without. Qed.

Lemma lru_RemoveOldest_inv c : lru_inv c → lru_inv (lru_RemoveOldest c).1.
Proof.
  intros (Hnd & Hs & Hl). repeat split; cbn; [|done|].
  - rewrite fmap_take. by eapply sublist_NoDup, sublist_take.
  - unfold lru_Len in *. cbn. len_lia.
Qed.

Lemma items_RemoveOldest c : items (lru_RemoveOldest c).1 ⊆ items c.
Proof. apply items_take. Qed.

Lemma lru_front_inv k v c :
  lru_inv c → k ∈ c.(evictList).*1 → lru_inv (with_list c ((k, v) :: without k c.(evictList))).
Proof.
  intros (Hnd & Hs & Hl) Hk. repeat split; cbn; [|done|].
  - rewrite without_keys. constructor; [|by apply list.NoDup_filter]. rewrite list_elem_of_filter. tauto.
  - pose proof (without_length_lt _ _ Hk). unfold lru_Len in *. cbn. len_lia.
Qed.

Lemma items_front k v c : items (with_list c ((k, v) :: without k c.(evictList))) = <[k := v]> (items c).
Proof. unfold items. cbn. by rewrite items_without, insert_delete_eq. Qed.

Lemma lru_Contains_key k c : lru_Contains k c = true ↔ k ∈ c.(evictList).*1.
Proof. unfold lru_Contains. rewrite bool_decide_eq_true. apply items_lookup_key. Qed.

Lemma lru_Add_inv k v c : lru_inv c → lru_inv (lru_Add k v c).
Proof.
  intros Hc. unfold lru_Add. destruct (lru_Contains k c) eqn:Hk.
  { apply lru_Contains_key in Hk. by apply lru_front_inv. }
  destruct Hc as (Hnd & Hs & Hl).
  assert (k ∉ c.(evictList).*1) as Hnk by (rewrite <- lru_Contains_key; congruence).
  cbn [lru_size with_list]. destruct (Z.ltb_spec (lru_size c) (lru_Len (with_list c ((k, v) :: evictList c)))).
  - repeat split; cbn [lru_RemoveOldest fst with_list evictList lru_size]; [|done|].
    + rewrite fmap_take. eapply sublist_NoDup; [|apply sublist_take]. by constructor.
    + unfold lru_Len in *. cbn [evictList with_list] in *. len_lia.
  - repeat split; cbn; [by constructor|done|done].
Qed.

Lemma items_Add k v c : lru_inv c →
  items (lru_Add k v c) !! k = Some v ∧ items (lru_Add k v c) ⊆ <[k := v]> (items c).
Proof.
  intros (Hnd & Hs & Hl). unfold lru_Add. destruct (lru_Contains k c) eqn:Hk.
  { rewrite items_front, lookup_insert_eq. done. }
  cbn [lru_size with_list]. destruct (Z.ltb_spec (lru_size c) (lru_Len (with_list c ((k, v) :: evictList c)))).
  - split; [|apply items_take].
    unfold items, lru_RemoveOldest. cbn. unfold lru_Len in *. cbn in *.
    rewrite Nat.sub_0_r. destruct (evictList c) as [|e l]; [len_lia|]. cbn. by rewrite lookup_insert_eq.
  - split; [cbn; by rewrite lookup_insert_eq|done].
Qed.

Lemma lru_Get_inv k c : lru_inv c → lru_inv (lru_Get k c).1.
Proof.
  intros Hc. unfold lru_Get. destruct (items c !! k) eqn:Hk; [|done].
  apply lru_front_inv; [done|]. apply items_lookup_key. by eexists.
Qed.

Lemma items_Get k c : items (lru_Get k c).1 = items c ∧ (lru_Get k c).2 = items c !! k.
Proof.
  unfold lru_Get. destruct (items c !! k) eqn:Hk; cbn [fst snd]; [|done].
  rewrite items_front. split; [|done]. by apply insert_id.
Qed.

End LRULemmas.

(** * Lemmas: the cache *)

Section ARCLemmas.
Context {V : Type}.
Implicit Types (c : ARCCache V).

Lemma union_insert_delete (m1 m2 m2' : gmap bytes V) k v :
  m1 ##ₘ m2 → m2' !! k = Some v → m2' ⊆ <[k := v]> m2 →
  delete k m1 ##ₘ m2' ∧ (delete k m1 ∪ m2') !! k = Some v ∧
  delete k m1 ∪ m2' ⊆ <[k := v]> (m1 ∪ m2).
Proof.
  intros Hd Hk Hs. rewrite map_subseteq_spec in Hs.
  assert (delete k m1 ##ₘ m2') as Hd'.
  { apply map_disjoint_spec. intros i x y Hx Hy. apply lookup_delete_Some in Hx as [Hne Hx].
    apply Hs in Hy. rewrite lookup_insert_ne in Hy by done. by eapply map_disjoint_spec. }
  split; [done|]. split; [by apply lookup_union_Some_r|].
  apply map_subseteq_spec. intros i x Hi. apply lookup_union_Some in Hi as [Hi|Hi]; [| |done].
  - apply lookup_delete_Some in Hi as [Hne Hi]. rewrite lookup_insert_ne by done. by apply lookup_union_Some_l.
  - apply Hs in Hi. destruct (decide (k = i)) as [->|Hne]; [by rewrite lookup_insert_eq in *|].
    rewrite lookup_insert_ne in * by done. by apply lookup_union_Some_r.
Qed.

(** Adding a key that is in neither list to the second one. *)
Lemma union_insert_fresh (m1 m2 m2' : gmap bytes V) k v :
  m1 ##ₘ m2 → m1 !! k = None → m2' !! k = Some v → m2' ⊆ <[k := v]> m2 →
  m1 ##ₘ m2' ∧ (m1 ∪ m2') !! k = Some v ∧ m1 ∪ m2' ⊆ <[k := v]> (m1 ∪ m2).
Proof.
  intros Hd Hn Hk Hs. pose proof (union_insert_delete m1 m2 m2' k v Hd Hk Hs) as Hu.
  by rewrite delete_id in Hu.
Qed.

Lemma replace_spec b c :
  arc_inv c → arc_inv (replace b c) ∧ items (replace b c).(t1) ⊆ items c.(t1) ∧
  items (replace b c).(t2) ⊆ items c.(t2) ∧ size (replace b c) = size c.
Proof.
  intros (H1 & H2 & H3 & H4 & Hd). unfold replace.
  pose proof (items_RemoveOldest c.(t1)) as Ho1. pose proof (items_RemoveOldest c.(t2)) as Ho2.
  pose proof (lru_RemoveOldest_inv _ H1) as Hi1. pose proof (lru_RemoveOldest_inv _ H2) as Hi2.
  destruct (_ && _).
  - destruct (lru_RemoveOldest c.(t1)) as [l [[k v]|]]; cbn in *; unfold arc_inv; cbn;
      split_and!; try apply lru_Add_inv; try done; by eapply map_disjoint_weaken_l.
  - destruct (lru_RemoveOldest c.(t2)) as [l [[k v]|]]; cbn in *; unfold arc_inv; cbn;
      split_and!; try apply lru_Add_inv; try done; by eapply map_disjoint_weaken_r.
Qed.

Lemma make_room_spec b c :
  arc_inv c → arc_inv (make_room b c) ∧ items (make_room b c).(t1) ⊆ items c.(t1) ∧
  items (make_room b c).(t2) ⊆ items c.(t2).
Proof. intros Hc. unfold make_room. destruct (_ <=? _); [|done]. pose proof (replace_spec b c Hc). tauto. Qed.

Lemma set_p_inv c q : arc_inv c → arc_inv (c <| p := q |>).
Proof. done. Qed.

Lemma not_contained {A} k (c : LRU A) : lru_Contains k c = false → items c !! k = None.
Proof. unfold lru_Contains. rewrite bool_decide_eq_false, <- not_eq_None_Some. destruct (items c !! k); naive_solver. Qed.

Lemma contents_mono c c' :
  items c'.(t1) ⊆ items c.(t1) → items c'.(t2) ⊆ items c.(t2) → arc_inv c → contents c' ⊆ contents c.
Proof.
  intros Hs1 Hs2 (_ & _ & _ & _ & Hd). apply map_subseteq_spec. intros i x Hi.
  unfold contents in *. apply lookup_union_Some_raw in Hi as [Hi|[_ Hi]].
  - apply lookup_union_Some_l. by eapply lookup_weaken.
  - apply lookup_union_Some_r; [done|]. by eapply lookup_weaken.
Qed.

(** Adding to the frequent list a key that neither list holds, and adding one to
    the recent list. *)
Lemma add_t2_spec k v c c' :
  arc_inv c → c'.(t1) = c.(t1) → c'.(t2) = lru_Add k v c.(t2) →
  lru_inv c'.(b1) → lru_inv c'.(b2) → items c.(t1) !! k = None →
  arc_inv c' ∧ contents c' !! k = Some v ∧ contents c' ⊆ <[k := v]> (contents c).
Proof.
  intros (H1 & H2 & H3 & H4 & Hd) E1 E2 Hb1 Hb2 Hn.
  destruct (items_Add k v c.(t2) H2) as [Hk Hs].
  destruct (union_insert_fresh _ _ _ k v Hd Hn Hk Hs) as (Hd' & Hk' & Hs').
  unfold arc_inv, contents. rewrite E1, E2. split_and!; try done; by apply lru_Add_inv.
Qed.

Lemma add_t1_spec k v c :
  arc_inv c → items c.(t2) !! k = None →
  let c' := c <| t1 := lru_Add k v c.(t1) |> in
  arc_inv c' ∧ contents c' !! k = Some v ∧ contents c' ⊆ <[k := v]> (contents c).
Proof.
  intros (H1 & H2 & H3 & H4 & Hd) Hn c'.
  destruct (items_Add k v c.(t1) H1) as [Hk Hs].
  destruct (union_insert_fresh _ _ _ k v (symmetry Hd) Hn Hk Hs) as (Hd' & Hk' & Hs').
  unfold arc_inv, contents. change (t1 c') with (lru_Add k v c.(t1)).
  change (t2 c') with c.(t2).
  rewrite (map_union_comm (items (lru_Add _ _ _))), (map_union_comm (items c.(t1))) by done.
  split_and!; try done; by apply lru_Add_inv.
Qed.

(** Moving a key from the recent to the frequent list. *)
Lemma promote_spec k v c :
  arc_inv c →
  let c' := c <| t1 := lru_Remove k c.(t1) |> <| t2 := lru_Add k v c.(t2) |> in
  arc_inv c' ∧ contents c' !! k = Some v ∧ contents c' ⊆ <[k := v]> (contents c).
Proof.
  intros (H1 & H2 & H3 & H4 & Hd) c'.
  destruct (items_Add k v c.(t2) H2) as [Hk Hs].
  destruct (union_insert_delete _ _ _ k v Hd Hk Hs) as (Hd' & Hk' & Hs').
  unfold arc_inv, contents. change (t1 c') with (lru_Remove k c.(t1)).
  change (t2 c') with (lru_Add k v c.(t2)). rewrite items_Remove.
  split_and!; try done; [by apply lru_Remove_inv|by apply lru_Add_inv].
Qed.

(** The step shared by both ghost hits: make room, forget the ghost, and put the
    entry in the frequent list. *)
Lemma ghost_hit_spec k v b q c c' :
  let c2 := make_room b (c <| p := q |>) in
  arc_inv c → items c.(t1) !! k = None → c'.(t1) = c2.(t1) → c'.(t2) = lru_Add k v c2.(t2) →
  c'.(b1) = lru_Remove k c2.(b1) ∧ c'.(b2) = c2.(b2) ∨ c'.(b1) = c2.(b1) ∧ c'.(b2) = lru_Remove k c2.(b2) →
  arc_inv c' ∧ contents c' !! k = Some v ∧ contents c' ⊆ <[k := v]> (contents c).
Proof.
  intros c2 Hc Hn E1 E2 Hb. destruct (make_room_spec b _ (set_p_inv c q Hc)) as (Hr & Hr1 & Hr2).
  change (t1 (c <| p := q |>)) with (t1 c) in Hr1. change (t2 (c <| p := q |>)) with (t2 c) in Hr2.
  fold c2 in Hr, Hr1, Hr2.
  assert (items c2.(t1) !! k = None) as Hn'.
  { eapply lookup_weaken_None; [exact Hn|exact Hr1]. }
  assert (lru_inv c'.(b1) ∧ lru_inv c'.(b2)) as [Hb1 Hb2].
  { destruct Hr as (?&?&?&?&?), Hb as [[-> ->]|[-> ->]]; split; try done; by apply lru_Remove_inv. }
  destruct (add_t2_spec k v c2 c') as (Ha & Hk & Hs); [done..|].
  split_and!; [done..|]. etrans; [done|]. apply insert_mono. by apply contents_mono.
Qed.

Lemma Add_spec k v c :
  arc_inv c →
  arc_inv (Add k v c) ∧ contents (Add k v c) !! k = Some v ∧ contents (Add k v c) ⊆ <[k := v]> (contents c).
Proof.
  intros Hc. unfold Add.
  destruct (lru_Contains k c.(t1)) eqn:Ht1; [by apply promote_spec|]. apply not_contained in Ht1.
  destruct (lru_Contains k c.(t2)) eqn:Ht2.
  { apply add_t2_spec; try done; apply Hc. }
  apply not_contained in Ht2.
  destruct (lru_Contains k c.(b1)).
  { eapply (ghost_hit_spec k v false); try done. by left. }
  destruct (lru_Contains k c.(b2)).
  { eapply (ghost_hit_spec k v true); try done. by right. }
  destruct (make_room_spec false c Hc) as (Hr & Hr1 & Hr2).
  set (c1 := make_room false c) in *. cbv zeta.
  set (c3 := if _ <? lru_Len (b2 _) then _ else _).
  assert (arc_inv c3 ∧ t1 c3 = t1 c1 ∧ t2 c3 = t2 c1) as (Hc3 & E1 & E2).
  { unfold c3. destruct Hr as (?&?&?&?&?).
    destruct (_ <? lru_Len (b1 c1)), (_ <? _); unfold arc_inv; cbn; split_and!; try done; by apply lru_RemoveOldest_inv. }
  destruct (add_t1_spec k v c3) as (Ha & Hk & Hs); [done|rewrite E2; by eapply lookup_weaken_None|].
  split_and!; [done..|]. etrans; [done|]. apply insert_mono.
  apply contents_mono; [by rewrite E1|by rewrite E2|done].
Qed.

Lemma Get_spec k c :
  arc_inv c →
  arc_inv (Get k c).1 ∧ (Get k c).2 = contents c !! k ∧ contents (Get k c).1 !! k = contents c !! k ∧
  contents (Get k c).1 ⊆ contents c.
Proof.
  intros Hc. unfold Get, lru_Peek. destruct (items c.(t1) !! k) as [v|] eqn:Hk.
  - destruct (promote_spec k v c Hc) as (Ha & Hv & Hs). cbn [fst snd].
    assert (contents c !! k = Some v) as Hcv by (by apply lookup_union_Some_l).
    rewrite insert_id in Hs by done. rewrite Hcv. done.
  - pose proof (items_Get k c.(t2)) as [Hg Hv]. pose proof (lru_Get_inv k c.(t2)) as Hi.
    destruct (lru_Get k c.(t2)) as [t2' r]. cbn [fst snd] in *.
    assert (contents c !! k = items c.(t2) !! k) as Hck by (by apply lookup_union_r).
    destruct Hc as (?&?&?&?&?). unfold arc_inv, contents in *. cbn. rewrite Hg.
    split_and!; auto. congruence.
Qed.

End ARCLemmas.

(** The vendored cache keeps the contract. *)
#[export] Instance arc_store V : Store V := {|
  St := ARCCache V; NewStore := NewARC; store_Get := Get; store_Add := Add |}.

Lemma NewARC_spec {V} n :
  match NewARC (V := V) n with
  | Ok c => 0 < n ∧ arc_inv c ∧ contents c = ∅
  | Err _ => n ≤ 0
  | Panic | Fatal => False
  end.
Proof.
  unfold NewARC, NewLRU. destruct (Z.leb_spec n 0); cbn; [done|].
  split_and!; [done| |done]. split_and!; [by apply empty_lru_inv..|]. apply map_disjoint_empty_l.
Qed.

#[export] Instance arc_store_laws V : StoreLaws V := {|
  store_ok := arc_inv; holds := contents;
  New_spec := NewARC_spec;
  Get_ok k c Hc := proj1 (Get_spec k c Hc);
  Get_value k c Hc := proj1 (proj2 (Get_spec k c Hc));
  Get_keeps k c Hc := proj1 (proj2 (proj2 (Get_spec k c Hc)));
  Get_only_evicts k c Hc := proj2 (proj2 (proj2 (Get_spec k c Hc)));
  Add_ok k v c Hc := proj1 (Add_spec k v c Hc);
  Add_holds k v c Hc := proj1 (proj2 (Add_spec k v c Hc));
  Add_only_evicts k v c Hc := proj2 (proj2 (Add_spec k v c Hc)) |}.

(** The cache may hold more entries than its size: when the recent list alone
    fills it and the preference [p] has reached the size, a hit in the ghost list
    of recent entries evicts nothing. *)
Example ARC_exceeds_size :
  ∃ c, NewARC 1 = Ok c ∧
  let c' := Add [97] 3 (Add [98] 2 (Add [97] 1 c)) in
  size c' = 1 ∧ contents c' = {[ [97] := 3; [98] := 2 ]}.
Proof. eexists. split; [reflexivity|]. split; [reflexivity|]. by apply (bool_decide_unpack _); vm_compute. Qed.

(** * The cache against a plain map *)

Section Refinement.
Context {V : Type}.

Inductive Op := OpGet (k : bytes) | OpAdd (k : bytes) (v : V).

(** What the reads of a sequence of operations return, on the cache and on a map
    that never evicts. *)
Fixpoint run_cache (ops : list Op) (c : ARCCache V) : list (option V) :=
  match ops with
  | [] => []
  | OpGet k :: ops => (Get k c).2 :: run_cache ops (Get k c).1
  | OpAdd k v :: ops => run_cache ops (Add k v c)
  end.

Fixpoint run_map (ops : list Op) (m : gmap bytes V) : list (option V) :=
  match ops with
  | [] => []
  | OpGet k :: ops => m !! k :: run_map ops m
  | OpAdd k v :: ops => run_map ops (<[k := v]> m)
  end.

(** A read misses or returns what the map has. *)
Definition miss_or_same (r s : option V) : Prop := r = None ∨ r = s.

Lemma run_simulation ops c m :
  arc_inv c → contents c ⊆ m → Forall2 miss_or_same (run_cache ops c) (run_map ops m).
Proof.
  revert c m. induction ops as [|[k|k v] ops IH]; intros c m Hc Hm; cbn [run_cache run_map].
  - constructor.
  - destruct (Get_spec k c Hc) as (Hi & Hv & _ & Hs). constructor.
    + rewrite Hv. destruct (contents c !! k) as [x|] eqn:Hx; [|by left].
      right. symmetry. by eapply lookup_weaken.
    + apply IH; [done|]. by etrans.
  - destruct (Add_spec k v c Hc) as (Hi & _ & Hs). apply IH; [done|]. etrans; [done|]. by apply insert_mono.
Qed.

End Refinement.

(** C15: The vendored cache, from its creation and under every sequence of reads
    and writes, answers every read with nothing or with the value most recently
    added under that key: evictions and promotions never return another key's
    value nor an overwritten one. An entry just added is found. *)
Theorem ARC_refines_map {V} (n : Z) (c : ARCCache V) (ops : list (Op (V := V))) :
  NewARC n = Ok c →
  Forall2 miss_or_same (run_cache ops c) (run_map ops ∅) ∧
  ∀ k (v : V) d, arc_inv d → (Get k (Add k v d)).2 = Some v.
Proof.
  intros HN. pose proof (NewARC_spec (V := V) n) as Hs. rewrite HN in Hs. destruct Hs as (_ & Hc & He). split; [apply run_simulation; [done|by rewrite He]|].
  intros k v d Hd. destruct (Add_spec k v d Hd) as (Ha & Hk & _).
  destruct (Get_spec k _ Ha) as (_ & -> & _). done.
Qed.

Definition sample_ops : list (Op (V := Z)) :=
  [OpAdd [1] 10; OpGet [1]; OpAdd [2] 20; OpAdd [3] 30; OpGet [1]; OpAdd [1] 11; OpGet [1]; OpGet [2]].

Example ARC_refines_map_wit :
  ∃ c, NewARC 2 = Ok c ∧ Forall2 miss_or_same (run_cache sample_ops c) (run_map sample_ops ∅) ∧
       run_cache sample_ops c = [Some 10; Some 10; Some 11; None].
Proof.
  eexists. split; [reflexivity|]. split; [|vm_compute; reflexivity].
  exact (proj1 (ARC_refines_map 2 _ sample_ops eq_refl)).
Defined.
