(* ===== verification/Plugins.v ===== *)
(** plugins.go and logger output: the state a query carries through the plugins,
    the effects plugins have on the world, and what they get from it. *)
From S2P Require Import Prelude.
From S2P Require Import GoStrings.
From S2P Require Import Common.
From S2P Require Import LogLines.
From S2P Require Import ServerTypes.
From S2P Require Import Crypto.
From S2P Require Import DnsMsg.
From S2P Require Import DnsUtils.

(** * Actions and return codes *)

Inductive PluginsAction :=
  | PluginsActionNone
  | PluginsActionContinue
  | PluginsActionDrop
  | PluginsActionReject
  | PluginsActionSynth.

#[export] Instance PluginsAction_eq_dec : EqDecision PluginsAction.
Proof. solve_decision. Defined.

Inductive PluginsReturnCode :=
  | PluginsReturnCodePass
  | PluginsReturnCodeForward
  | PluginsReturnCodeDrop
  | PluginsReturnCodeReject
  | PluginsReturnCodeSynth
  | PluginsReturnCodeParseError
  | PluginsReturnCodeNXDomain
  | PluginsReturnCodeResponseError
  | PluginsReturnCodeServFail
  | PluginsReturnCodeNetworkError
  | PluginsReturnCodeCloak
  | PluginsReturnCodeServerTimeout
  | PluginsReturnCodeNotReady.

#[export] Instance PluginsReturnCode_eq_dec : EqDecision PluginsReturnCode.
Proof. solve_decision. Defined.

Definition PluginsReturnCodeToString (c : PluginsReturnCode) : bytes :=
  match c with
  | PluginsReturnCodePass => str "PASS"
  | PluginsReturnCodeForward => str "FORWARD"
  | PluginsReturnCodeDrop => str "DROP"
  | PluginsReturnCodeReject => str "REJECT"
  | PluginsReturnCodeSynth => str "SYNTH"
  | PluginsReturnCodeParseError => str "PARSE_ERROR"
  | PluginsReturnCodeNXDomain => str "NXDOMAIN"
  | PluginsReturnCodeResponseError => str "RESPONSE_ERROR"
  | PluginsReturnCodeServFail => str "SERVFAIL"
  | PluginsReturnCodeNetworkError => str "NETWORK_ERROR"
  | PluginsReturnCodeCloak => str "CLOAK"
  | PluginsReturnCodeServerTimeout => str "SERVER_TIMEOUT"
  | PluginsReturnCodeNotReady => str "NOT_READY"
  end.

(** * The state of a query *)

(** The dynamic type of a client's [net.Addr]. *)
Inductive ClientAddr := UDPClient (ip : IP) | TCPClient (ip : IP).

(** [sessionData] only ever holds the keys "whitelisted" and "stale". *)
Record PluginsState := {
  requestStart : Z;
  requestEnd : Z;
  clientProto : bytes;
  serverName : bytes;
  serverProto : bytes;
  qName : bytes;
  clientAddr : option ClientAddr;
  synthResponse : option Msg;
  questionMsg : option Msg;
  whitelisted : bool;
  stale : option Msg;
  action : PluginsAction;
  ps_timeout : Z;
  returnCode : PluginsReturnCode;
  maxPayloadSize : Z;
  cacheSize : Z;
  originalMaxPayloadSize : Z;
  maxUnencryptedUDPSafePayloadSize : Z;
  rejectTTL : Z;
  cacheMaxTTL : Z;
  cacheNegMaxTTL : Z;
  cacheNegMinTTL : Z;
  cacheMinTTL : Z;
  cacheHit : bool;
  dnssec : bool
}.

#[export] Instance eta_PluginsState : Eta PluginsState := λ s, {|
  requestStart := s.(requestStart); requestEnd := s.(requestEnd); clientProto := s.(clientProto);
  serverName := s.(serverName); serverProto := s.(serverProto); qName := s.(qName);
  clientAddr := s.(clientAddr); synthResponse := s.(synthResponse); questionMsg := s.(questionMsg);
  whitelisted := s.(whitelisted); stale := s.(stale); action := s.(action);
  ps_timeout := s.(ps_timeout); returnCode := s.(returnCode); maxPayloadSize := s.(maxPayloadSize);
  cacheSize := s.(cacheSize); originalMaxPayloadSize := s.(originalMaxPayloadSize);
  maxUnencryptedUDPSafePayloadSize := s.(maxUnencryptedUDPSafePayloadSize);
  rejectTTL := s.(rejectTTL); cacheMaxTTL := s.(cacheMaxTTL); cacheNegMaxTTL := s.(cacheNegMaxTTL);
  cacheNegMinTTL := s.(cacheNegMinTTL); cacheMinTTL := s.(cacheMinTTL); cacheHit := s.(cacheHit);
  dnssec := s.(dnssec) |}.

(** The settings of [Proxy] that [NewPluginsState] copies. *)
Record StateConfig := {
  cfg_cacheSize : Z;
  cfg_cacheNegMinTTL : Z;
  cfg_cacheNegMaxTTL : Z;
  cfg_cacheMinTTL : Z;
  cfg_cacheMaxTTL : Z;
  cfg_rejectTTL : Z;
  cfg_timeout : Z
}.

Definition NewPluginsState (proxy : StateConfig) (clientProto : bytes) (clientAddr : option ClientAddr)
    (serverProto : bytes) (start : Z) : PluginsState := {|
  requestStart := start; requestEnd := 0; clientProto := clientProto; serverName := str "-";
  serverProto := serverProto; qName := []; clientAddr := clientAddr; synthResponse := None;
  questionMsg := None; whitelisted := false; stale := None; action := PluginsActionContinue;
  ps_timeout := proxy.(cfg_timeout); returnCode := PluginsReturnCodePass;
  maxPayloadSize := MaxDNSUDPPacketSize - ResponseOverhead; cacheSize := proxy.(cfg_cacheSize);
  originalMaxPayloadSize := 0; maxUnencryptedUDPSafePayloadSize := MaxDNSUDPSafePacketSize;
  rejectTTL := proxy.(cfg_rejectTTL); cacheMaxTTL := proxy.(cfg_cacheMaxTTL);
  cacheNegMaxTTL := proxy.(cfg_cacheNegMaxTTL); cacheNegMinTTL := proxy.(cfg_cacheNegMinTTL);
  cacheMinTTL := proxy.(cfg_cacheMinTTL); cacheHit := false; dnssec := false |}.

(** [pluginsState.synthResponse = synth; action = Synth; returnCode = rc]. *)
Definition answer_with (s : PluginsState) (synth : Msg) (rc : PluginsReturnCode) : PluginsState :=
  s <| synthResponse := Some synth |> <| action := PluginsActionSynth |> <| returnCode := rc |>.

(** * The world around plugins *)

(** A cloaking rule's target; rules point to a shared, mutable entry. *)
Record CloakedName := {
  cl_target : bytes;
  cl_ipv4 : option (list IP);
  cl_ipv6 : option (list IP);
  cl_lastUpdate : option Z;
  cl_lineNo : Z;
  cl_isIP : bool;
  cl_PTR : list bytes
}.

#[export] Instance eta_CloakedName : Eta CloakedName := λ c, {|
  cl_target := c.(cl_target); cl_ipv4 := c.(cl_ipv4); cl_ipv6 := c.(cl_ipv6);
  cl_lastUpdate := c.(cl_lastUpdate); cl_lineNo := c.(cl_lineNo); cl_isIP := c.(cl_isIP);
  cl_PTR := c.(cl_PTR) |}.

(** What plugins change besides the query's own state: the response cache (of
    type [C]; nil before its first use), the cloaking entries and the logs: what was
    written, and to which file. *)
Record World (C : Type) := {
  w_cache : option C;
  w_cloak : gmap nat CloakedName;
  w_logs : list (bytes * bytes)
}.
Arguments w_cache {_} _. Arguments w_cloak {_} _. Arguments w_logs {_} _.

#[export] Instance eta_World {C} : Eta (World C) := λ w,
  {| w_cache := w.(w_cache); w_cloak := w.(w_cloak); w_logs := w.(w_logs) |}.

(** What plugins get from outside during one call: successive readings of the
    clock, random numbers, the local date, weekday and time of day, the system
    resolver, the DNS client, and the handling of a DNS64 subquery. *)
Record PEnv := {
  clock : nat → Z;
  rand : nat → Z;
  date : Z * Z * Z;
  weekday : nat;
  hour : Z;
  minute : Z;
  second : Z;
  LookupIP : bytes → Out (list IP);
  dns_Exchange : bytes → Msg → bytes → Out Msg;
  subquery : bytes → Out (option bytes)
}.

(** The result of [Eval]: the world, the state, the message and the error
    returned. *)
Definition Evaluated (C : Type) : Type := World C * PluginsState * Msg * option error.

(** [return nil] without any change. *)
Definition unchanged {C} (w : World C) (s : PluginsState) (m : Msg) : Out (Evaluated C) := Ok (w, s, m, None).

(** ** Logs *)

(** A logger and its format. *)
Record LogConfig := { lg_file : bytes; lg_format : bytes }.

(** The client's address in a log line: dereferencing a nil address and a failed
    type assertion panic. *)
Definition clientIP (s : PluginsState) : Out IP :=
  if decide (s.(clientProto) = str "udp") then
    match s.(clientAddr) with Some (UDPClient ip) => Ok ip | _ => Panic end
  else
    match s.(clientAddr) with Some (TCPClient ip) => Ok ip | _ => Panic end.

Definition format_known (f : bytes) : bool := bool_decide (f = str "tsv" ∨ f = str "ltsv").

(** Writes a line in one of the two formats; another format ends the process. *)
Definition write_log {C} (env : PEnv) (lg : LogConfig) (tsv : list bytes) (ltsv : list (bytes * bytes)) (w : World C)
    : Out (World C) :=
  let! line :=
    if decide (lg.(lg_format) = str "tsv") then Ok (tsv_line (date env) (hour env, minute env, second env) tsv)
    else if decide (lg.(lg_format) = str "ltsv") then Ok (ltsv_line (clock env 9 / 1000000000) ltsv)
    else Fatal in
  Ok (w <| w_logs := w.(w_logs) ++ [(lg.(lg_file), line)] |>).

Lemma write_log_ok {C} env lg tsv ltsv (w : World C) :
  format_known lg.(lg_format) = true → ∃ w', write_log env lg tsv ltsv w = Ok w'.
Proof.
  unfold format_known, write_log. intros Hf%bool_decide_eq_true. destruct (decide _); [by eexists|].
  destruct (decide _); [by eexists|]. tauto.
Qed.

(** What is written is one line, if the fields are clean. *)
Lemma write_log_line {C} env lg tsv ltsv (w : World C) :
  Forall clean tsv → Forall (λ f, clean f.1 ∧ clean f.2) ltsv →
  returns (λ w', ∃ line, one_line line ∧ w' = w <| w_logs := w.(w_logs) ++ [(lg.(lg_file), line)] |>) (write_log env lg tsv ltsv w).
Proof.
  intros Ht Hl w' (line & HL & [= <-])%obind_Ok. exists line. split; [|done]. repeat case_decide; simplify_eq/=.
  - by apply tsv_one_line.
  - by apply ltsv_one_line.
Qed.
