(* ===== verification/Cache.v ===== *)
(** plugin_cache.go: the plugins that answer queries from the response cache and
    that store responses in it. The store is used through its contract
    ([ARC.StoreLaws]); the hash of a key is a parameter. *)
From S2P Require Import Prelude.
From S2P Require Import ARC.
From S2P Require Import DnsMsg.
From S2P Require Import DnsUtils.
From S2P Require Import Plugins.

(** * Definitions *)

Definition StaleResponseTTL : Z := 30 * Second.

Record CachedResponse := { expiration : Z; cr_msg : Msg }.

(** What is hashed to make the key of a question. *)
Definition key_input (q : Question) (dnssec : bool) : bytes :=
  LEPutUint16 q.(Qtype) ++ LEPutUint16 q.(Qclass) ++ [if dnssec then 1 else 0] ++
  NormalizeRawQName q.(qn_Name).

Section Cache.
Context `{Store CachedResponse} (sha512_256 : bytes → bytes).
Abbreviation Cache := (St CachedResponse).

Definition computeCacheKey (pluginsState : PluginsState) (msg : Msg) : Out bytes :=
  match msg.(Questions) with
  | [] => Panic
  | question :: _ => Ok (sha512_256 (key_input question pluginsState.(dnssec)))
  end.

(** [synth := cached.msg.Copy()] made into a response to [msg]. *)
Definition from_cache (cached msg : Msg) : Msg :=
  cached <| Id := msg.(Id) |> <| Response := true |> <| Compress := true |>
         <| Questions := msg.(Questions) |>.

(** [PluginCache.Eval]; the clock is read for [After], for the end of a stale
    answer, and by [updateTTL]. *)
Definition PluginCache_Eval (env : PEnv) (w : World Cache) (s : PluginsState) (msg : Msg)
    : Out (Evaluated Cache) :=
  let! cacheKey := computeCacheKey s msg in
  match w.(w_cache) with
  | None => unchanged w s msg
  | Some cache =>
      let '(cache, found) := store_Get cacheKey cache in
      let w := w <| w_cache := Some cache |> in
      match found with
      | None => unchanged w s msg
      | Some cached =>
          let synth := from_cache cached.(cr_msg) msg in
          if cached.(expiration) <? clock env 0 then
            let expiration2 := clock env 1 + StaleResponseTTL in
            Ok (w, s <| stale := Some (updateTTL synth expiration2 (clock env 2)) |>, msg, None)
          else
            Ok (w, s <| synthResponse := Some (updateTTL synth cached.(expiration) (clock env 1)) |>
                     <| action := PluginsActionSynth |> <| cacheHit := true |>, msg, None)
      end
  end.

(** Which responses [PluginCacheResponse.Eval] stores. *)
Definition cacheable (msg : Msg) : bool :=
  ((msg.(Rcode_) =? RcodeSuccess) || (msg.(Rcode_) =? RcodeNameError) || (msg.(Rcode_) =? RcodeNotAuth)) &&
  negb msg.(Truncated).

Definition minTTL_of (s : PluginsState) (msg : Msg) : Z :=
  getMinTTL msg s.(cacheMinTTL) s.(cacheMaxTTL) s.(cacheNegMinTTL) s.(cacheNegMaxTTL).

(** [PluginCacheResponse.Eval]. The entry holds a shallow copy of the message,
    whose records are shared with it: the TTLs [updateTTL] writes afterwards are
    those of the stored records too. *)
Definition PluginCacheResponse_Eval (env : PEnv) (w : World Cache) (s : PluginsState) (msg : Msg)
    : Out (Evaluated Cache) :=
  if negb (cacheable msg) then unchanged w s msg
  else
    let! cacheKey := computeCacheKey s msg in
    let exp := clock env 0 + minTTL_of s msg in
    let opened := match w.(w_cache) with Some cache => Ok cache | None => NewStore s.(cacheSize) end in
    match opened with
    | Err e => Ok (w, s, msg, Some e)
    | Panic => Panic
    | Fatal => Fatal
    | Ok cache =>
        let msg' := updateTTL msg exp (clock env 1) in
        let cachedResponse := {| expiration := exp; cr_msg := msg' |} in
        Ok (w <| w_cache := Some (store_Add cacheKey cachedResponse cache) |>, s, msg', None)
    end.

End Cache.

(** * Messages up to the TTLs of their records *)

Definition ttl_blind (rr : RR) : RR := set_Ttl 0 rr.
Definition ttl_blind_extra (rr : RR) : RR := if is_OPT rr then rr else ttl_blind rr.

Definition blind (m : Msg) : Msg :=
  m <| Answer := ttl_blind <$> m.(Answer) |> <| Ns := ttl_blind <$> m.(Ns) |>
    <| Extra := ttl_blind_extra <$> m.(Extra) |>.

(** Equality of messages but for the TTLs of records other than OPT. *)
Definition same_but_ttl (m1 m2 : Msg) : Prop := blind m1 = blind m2.

#[export] Instance same_but_ttl_equiv : Equivalence same_but_ttl.
Proof. split; unfold same_but_ttl; [intros ?; done|intros ???; done|intros ?????; congruence]. Qed.

Lemma set_Ttl_blind t rr : set_Ttl t (ttl_blind rr) = set_Ttl t rr.
Proof. done. Qed.

Lemma set_Ttl_extra t (l : list RR) :
  (λ rr, if is_OPT rr then rr else set_Ttl t rr) <$> (ttl_blind_extra <$> l) =
  (λ rr, if is_OPT rr then rr else set_Ttl t rr) <$> l.
Proof.
  rewrite <- list_fmap_compose. apply list_fmap_ext. intros _ rr _. unfold compose, ttl_blind_extra.
  destruct (is_OPT rr) eqn:Ho; [by rewrite Ho|]. assert (is_OPT (ttl_blind rr) = false) as -> by done. done.
Qed.

Lemma set_Ttl_all t (l : list RR) : set_Ttl t <$> (ttl_blind <$> l) = set_Ttl t <$> l.
Proof. by rewrite <- list_fmap_compose. Qed.

Lemma updateTTL_blind m e t : updateTTL (blind m) e t = updateTTL m e t.
Proof. unfold updateTTL, blind. cbn. by rewrite !set_Ttl_all, set_Ttl_extra. Qed.

(** The records' TTLs are lost when [updateTTL] sets them. *)
#[export] Instance updateTTL_proper : Proper (same_but_ttl ==> eq ==> eq ==> eq) updateTTL.
Proof.
  intros m1 m2 Hm e ? <- t ? <-. by rewrite <- (updateTTL_blind m1), <- (updateTTL_blind m2), Hm.
Qed.

Lemma from_cache_blind m q : blind (from_cache m q) = from_cache (blind m) q.
Proof. done. Qed.

#[export] Instance from_cache_proper : Proper (same_but_ttl ==> eq ==> same_but_ttl) from_cache.
Proof. intros m1 m2 Hm q ? <-. unfold same_but_ttl. by rewrite !from_cache_blind, Hm. Qed.

Lemma blind_set_Ttl t (l : list RR) : ttl_blind <$> (set_Ttl t <$> l) = ttl_blind <$> l.
Proof. by rewrite <- list_fmap_compose. Qed.

Lemma blind_extra (f : RR → RR) (l : list RR) :
  (∀ rr, ttl_blind (f rr) = ttl_blind rr) → (∀ rr, is_OPT (f rr) = is_OPT rr) →
  ttl_blind_extra <$> ((λ rr, if is_OPT rr then rr else f rr) <$> l) = ttl_blind_extra <$> l.
Proof.
  intros Hf Ho. rewrite <- list_fmap_compose. apply list_fmap_ext. intros _ rr _.
  unfold compose, ttl_blind_extra. destruct (is_OPT rr) eqn:E; [by rewrite E|]. by rewrite Ho, E, Hf.
Qed.

Lemma updateTTL_same m e t : same_but_ttl (updateTTL m e t) m.
Proof. unfold same_but_ttl, blind, updateTTL. cbn. by rewrite !blind_set_Ttl, blind_extra. Qed.

Lemma ttl_blind_cap t rr : ttl_blind (cap_ttl t rr) = ttl_blind rr.
Proof. unfold cap_ttl. by destruct (_ <? _). Qed.

(** [setMaxTTL], which runs on records shared with a cache entry, changes only TTLs. *)
Lemma setMaxTTL_same m t : same_but_ttl (setMaxTTL m t) m.
Proof.
  unfold same_but_ttl, blind, setMaxTTL. cbn.
  rewrite blind_extra by (intros rr; unfold cap_ttl; by destruct (_ <? _)).
  assert (∀ l : list RR, ttl_blind <$> (cap_ttl t <$> l) = ttl_blind <$> l) as Hl.
  { intros l. rewrite <- list_fmap_compose. apply list_fmap_ext. intros. apply ttl_blind_cap. }
  by rewrite !Hl.
Qed.

(** The answer made from a cached message does not depend on its TTLs. *)
Lemma served_same m1 m2 q e t :
  same_but_ttl m1 m2 → updateTTL (from_cache m1 q) e t = updateTTL (from_cache m2 q) e t.
Proof. intros Hm. by rewrite Hm. Qed.

(** * Keys *)

Lemma LEPutUint16_inj v w : is_u16 v → is_u16 w → LEPutUint16 v = LEPutUint16 w → v = w.
Proof.
  unfold is_u16, LEPutUint16, u8. intros Hv Hw [= H0 H1]. rewrite !Z.shiftr_div_pow2 in H1 by lia.
  change (2 ^ 8) with 256 in *. rewrite (Z.mod_small (v / 256)), (Z.mod_small (w / 256)) in H1
    by (split; [apply Z.div_pos; lia|apply Z.div_lt_upper_bound; lia]).
  rewrite (Z.div_mod v 256), (Z.div_mod w 256) by lia. lia.
Qed.

Definition question_wf (q : Question) : Prop := is_u16 q.(Qtype) ∧ is_u16 q.(Qclass).

(** Two questions the cache does not tell apart. *)
Definition same_question (q1 q2 : Question) : Prop :=
  q1.(Qtype) = q2.(Qtype) ∧ q1.(Qclass) = q2.(Qclass) ∧
  NormalizeRawQName q1.(qn_Name) = NormalizeRawQName q2.(qn_Name).

Lemma key_input_inj q1 q2 d1 d2 :
  question_wf q1 → question_wf q2 →
  key_input q1 d1 = key_input q2 d2 ↔ same_question q1 q2 ∧ d1 = d2.
Proof.
  intros [Ht1 Hc1] [Ht2 Hc2]. unfold key_input, same_question. split.
  - intros Hk. apply app_inj_1 in Hk as [Ht Hk]; [|done]. apply app_inj_1 in Hk as [Hc Hk]; [|done].
    apply LEPutUint16_inj in Ht, Hc; [|done..]. cbn in Hk. injection Hk as Hd Hn.
    destruct d1, d2; naive_solver.
  - by intros [(-> & -> & ->) ->].
Qed.

#[export] Instance same_question_dec q1 q2 : Decision (same_question q1 q2).
Proof. unfold same_question. apply _. Defined.

(** * Histories *)

(** A response given to the cache with the key's other parts and its end. *)
Record Stored := { sd_msg : Msg; sd_question : Question; sd_dnssec : bool; sd_expiration : Z }.

(** The latest response stored for a question, in a history kept newest first. *)
Definition asks (q : Question) (d : bool) (x : Stored) : Prop := same_question x.(sd_question) q ∧ x.(sd_dnssec) = d.
#[export] Instance asks_dec q d x : Decision (asks q d x).
Proof. unfold asks. apply _. Defined.
Definition latest (h : list Stored) (q : Question) (d : bool) : option Stored :=
  List.find (λ x, bool_decide (asks q d x)) h.

(** The answers served from a stored response, before and after its expiration. *)
Definition fresh_answer (env : PEnv) (x : Stored) (s : PluginsState) (m : Msg) : PluginsState :=
  s <| synthResponse := Some (updateTTL (from_cache x.(sd_msg) m) x.(sd_expiration) (clock env 1)) |>
    <| action := PluginsActionSynth |> <| cacheHit := true |>.
Definition stale_answer (env : PEnv) (x : Stored) (s : PluginsState) (m : Msg) : PluginsState :=
  s <| stale := Some (updateTTL (from_cache x.(sd_msg) m) (clock env 1 + StaleResponseTTL) (clock env 2)) |>.

Lemma map_Forall_submap {V} (P : bytes → V → Prop) (m1 m2 : gmap bytes V) :
  m1 ⊆ m2 → map_Forall P m2 → map_Forall P m1.
Proof. intros Hs Hp k x Hk. apply Hp. by eapply lookup_weaken. Qed.

Section CacheLemmas.
Context `{StoreLaws CachedResponse} (sha512_256 : bytes → bytes).
Abbreviation Cache := (St CachedResponse).

(** The states of the world in a run of the two plugins, with the responses
    stored on the way. *)
Inductive cache_reach : list Stored → World Cache → Prop :=
  | reach_start w : w.(w_cache) = None → cache_reach [] w
  | reach_read h w env s m w' s' m' e :
      cache_reach h w → PluginCache_Eval sha512_256 env w s m = Ok (w', s', m', e) → cache_reach h w'
  | reach_skip h w env s m w' s' m' e :
      cache_reach h w → PluginCacheResponse_Eval sha512_256 env w s m = Ok (w', s', m', e) →
      cacheable m = false ∨ e ≠ None → cache_reach h w'
  | reach_write h w env s m q rest w' s' m' :
      cache_reach h w → m.(Questions) = q :: rest → question_wf q → cacheable m = true →
      PluginCacheResponse_Eval sha512_256 env w s m = Ok (w', s', m', None) →
      cache_reach ({| sd_msg := m; sd_question := q; sd_dnssec := s.(dnssec);
                      sd_expiration := clock env 0 + minTTL_of s m |} :: h) w'.

Definition stored_key (x : Stored) : bytes := sha512_256 (key_input x.(sd_question) x.(sd_dnssec)).

(** An entry of the store comes from the latest response stored under its key. *)
Definition entry_ok (h : list Stored) (k : bytes) (e : CachedResponse) : Prop :=
  ∃ x, List.find (λ x, bool_decide (stored_key x = k)) h = Some x ∧
       e.(expiration) = x.(sd_expiration) ∧ same_but_ttl e.(cr_msg) x.(sd_msg).

Definition cache_ok (h : list Stored) (w : World Cache) : Prop :=
  match w.(w_cache) with
  | None => True
  | Some c => store_ok c ∧ map_Forall (entry_ok h) (holds c)
  end.

Lemma PluginCache_Eval_inv env w s m w' s' m' e q rest :
  m.(Questions) = q :: rest →
  PluginCache_Eval sha512_256 env w s m = Ok (w', s', m', e) →
  m' = m ∧ e = None ∧
  let k := sha512_256 (key_input q s.(dnssec)) in
  (w.(w_cache) = None ∧ w' = w ∧ s' = s) ∨
  ∃ c, w.(w_cache) = Some c ∧ w' = w <| w_cache := Some (store_Get k c).1 |> ∧
    match (store_Get k c).2 with
    | None => s' = s
    | Some x =>
        let r := {| sd_msg := x.(cr_msg); sd_question := q; sd_dnssec := s.(dnssec); sd_expiration := x.(expiration) |} in
        s' = if x.(expiration) <? clock env 0 then stale_answer env r s m else fresh_answer env r s m
    end.
Proof.
  intros Hq. unfold PluginCache_Eval, computeCacheKey. rewrite Hq. cbn [obind].
  destruct (w_cache w) as [c|]; [|intros [= <- <- <- <-]; split_and!; [done..|by left]].
  destruct (store_Get _ c) as [c' [x|]] eqn:Hg; cbn [fst snd].
  - destruct (_ <? _) eqn:Hx; intros [= <- <- <- <-]; (split_and!; [done..|]; right; exists c);
      rewrite Hg; cbn [fst snd]; rewrite Hx; done.
  - intros [= <- <- <- <-]. split_and!; [done..|]. right. exists c. by rewrite Hg.
Qed.

Lemma PluginCacheResponse_Eval_inv env w s m w' s' m' e q rest :
  m.(Questions) = q :: rest → cacheable m = true →
  PluginCacheResponse_Eval sha512_256 env w s m = Ok (w', s', m', e) →
  s' = s ∧
  (w' = w ∧ e ≠ None ∨
   ∃ c, match w.(w_cache) with Some c => Ok c | None => NewStore s.(cacheSize) end = Ok c ∧
     let exp := clock env 0 + minTTL_of s m in
     m' = updateTTL m exp (clock env 1) ∧ e = None ∧
     w' = w <| w_cache := Some (store_Add (sha512_256 (key_input q s.(dnssec)))
                                  {| expiration := exp; cr_msg := m' |} c) |>).
Proof.
  intros Hq Hc. unfold PluginCacheResponse_Eval, computeCacheKey. rewrite Hc, Hq. cbn [negb obind].
  destruct (match w_cache w with Some _ => _ | None => _ end) as [c|e'| |] eqn:Ho; [..|done|done].
  - intros [= <- <- <- <-]. split; [done|]. right. by exists c.
  - intros [= <- <- <- <-]. split; [done|]. by left.
Qed.

Lemma cache_ok_read h w k c :
  w.(w_cache) = Some c → cache_ok h w → cache_ok h (w <| w_cache := Some (store_Get k c).1 |>).
Proof.
  unfold cache_ok. intros -> [Hc Hall]. cbn. split; [by apply Get_ok|].
  eapply map_Forall_submap; [by apply Get_only_evicts|done].
Qed.

Lemma entry_ok_cons h k e x :
  entry_ok h k e → stored_key x ≠ k → entry_ok (x :: h) k e.
Proof. intros (y & Hy & He) Hx. exists y. cbn. by rewrite bool_decide_eq_false_2. Qed.

Lemma cache_ok_add h c x m' :
  store_ok c → map_Forall (entry_ok h) (holds c) → same_but_ttl m' x.(sd_msg) →
  let c' := store_Add (stored_key x) {| expiration := x.(sd_expiration); cr_msg := m' |} c in
  store_ok c' ∧ map_Forall (entry_ok (x :: h)) (holds c').
Proof.
  intros Hc Hall Hm c'. split; [by apply Add_ok|].
  eapply map_Forall_submap; [by apply Add_only_evicts|].
  intros k e. destruct (decide (stored_key x = k)) as [<-|Hk].
  - rewrite lookup_insert_eq. intros [= <-]. exists x. cbn. by rewrite bool_decide_eq_true_2.
  - rewrite lookup_insert_ne by done. intros He. apply entry_ok_cons; [|done]. by apply Hall.
Qed.

Lemma cache_reach_ok h w : cache_reach h w → cache_ok h w.
Proof.
  induction 1 as [w Hw|h w env s m w' s' m' e _ IH HE|h w env s m w' s' m' e _ IH HE Hs
                 |h w env s m q rest w' s' m' _ IH Hq Hwf Hc HE].
  - unfold cache_ok. by rewrite Hw.
  - destruct m.(Questions) as [|q rest] eqn:Hq.
    { unfold PluginCache_Eval, computeCacheKey in HE. by rewrite Hq in HE. }
    apply (PluginCache_Eval_inv _ _ _ _ _ _ _ _ _ _ Hq) in HE as (_ & _ & [(_ & -> & _)|(c & Hw & -> & _)]); [done|].
    by apply cache_ok_read.
  - destruct (cacheable m) eqn:Hc.
    + destruct Hs as [|Hs]; [done|]. destruct m.(Questions) as [|q rest] eqn:Hq.
      { unfold PluginCacheResponse_Eval, computeCacheKey in HE. by rewrite Hc, Hq in HE. }
      apply (PluginCacheResponse_Eval_inv _ _ _ _ _ _ _ _ _ _ Hq Hc) in HE as (_ & [[-> _]|(c & _ & _ & He & _)]); done.
    + unfold PluginCacheResponse_Eval in HE. rewrite Hc in HE. by injection HE as <- <- <- <-.
  - apply (PluginCacheResponse_Eval_inv _ _ _ _ _ _ _ _ _ _ Hq Hc) in HE as (_ & [[_ He]|(c & Ho & -> & _ & ->)]); [done|].
    assert (store_ok c ∧ map_Forall (entry_ok h) (holds c)) as [Hok Hall].
    { unfold cache_ok in IH. destruct (w_cache w); [by injection Ho as ->|].
      pose proof (New_spec (V := CachedResponse) (cacheSize s)) as HN. rewrite Ho in HN.
      destruct HN as (_ & ? & ->). split; [done|]. apply map_Forall_empty. }
    apply (cache_ok_add h c {| sd_msg := m; sd_question := q; sd_dnssec := dnssec s; sd_expiration := _ |});
      [done..|]. apply updateTTL_same.
Qed.

End CacheLemmas.

(** No response was stored whose key's hash collides with that of a question. *)
Definition no_collision (sha : bytes → bytes) (h : list Stored) (q : Question) (d : bool) : Prop :=
  Forall (λ x, question_wf x.(sd_question) ∧
    (stored_key sha x = sha (key_input q d) → key_input x.(sd_question) x.(sd_dnssec) = key_input q d)) h.

Lemma find_latest sha h q d :
  question_wf q → no_collision sha h q d →
  List.find (λ x, bool_decide (stored_key sha x = sha (key_input q d))) h = latest h q d.
Proof.
  intros Hq Hno. induction h as [|x h IH]; [done|]. apply list.Forall_cons in Hno as [[Hwf Hx] Hno].
  unfold latest in *. cbn [List.find].
  rewrite (bool_decide_ext (stored_key sha x = sha (key_input q d)) (asks q d x)), IH; [done|done|].
  unfold asks. rewrite <- (key_input_inj _ _ _ _ Hwf Hq). split; [done|].
  unfold stored_key. by intros ->.
Qed.

(** * Theorems *)

(** C9: Whatever sequence of cache reads and writes happened before, a query is
    answered from the cache only with the latest response stored for a question
    of the same type, class, DNSSEC flag and name up to the case of ASCII letters
    (provided the key's hash does not collide): until that response's expiration
    it becomes the answer, with the query's identifier and question and the
    remaining time as TTL of its records; afterwards it is only kept aside as
    a stale answer with a TTL counted from 30 seconds. Otherwise the query's state is
    unchanged. The TTLs found in the stored records, which later code may write
    to, do not matter. *)
Theorem cache_serves_latest `{StoreLaws CachedResponse} (sha : bytes → bytes) h w env s m q rest :
  cache_reach sha h w → m.(Questions) = q :: rest → question_wf q → no_collision sha h q s.(dnssec) →
  ∃ w' s', PluginCache_Eval sha env w s m = Ok (w', s', m, None) ∧
    (s' = s ∨
     ∃ x, latest h q s.(dnssec) = Some x ∧
       s' = if x.(sd_expiration) <? clock env 0 then stale_answer env x s m else fresh_answer env x s m).
Proof.
  intros Hr Hq Hwf Hno. apply cache_reach_ok in Hr.
  assert (∃ w' s' m' e, PluginCache_Eval sha env w s m = Ok (w', s', m', e)) as (w' & s' & m' & e & HE).
  { unfold PluginCache_Eval, computeCacheKey. rewrite Hq. cbn [obind]. destruct (w_cache w); [|do 4 eexists; reflexivity].
    destruct (store_Get _ _) as [c' [x|]]; [destruct (_ <? _)|]; do 4 eexists; reflexivity. }
  exists w', s'. rewrite HE.
  apply (PluginCache_Eval_inv sha _ _ _ _ _ _ _ _ _ _ Hq) in HE as (-> & -> & [(_ & _ & ->)|(c & Hc & _ & Hs)]);
    [by auto|].
  unfold cache_ok in Hr. rewrite Hc in Hr. destruct Hr as [Hok Hall].
  rewrite Get_value in Hs by done. split; [done|]. destruct (holds c !! _) as [y|] eqn:Hy; [right|by left].
  apply Hall in Hy as (x & Hx & He & Hm). rewrite find_latest in Hx by done.
  exists x. split; [done|]. rewrite Hs, He. cbn [sd_expiration].
  unfold stale_answer, fresh_answer. cbn [sd_expiration sd_msg]. by rewrite !(served_same _ _ _ _ _ Hm).
Qed.

(** A response just cached answers the next query for the same question, even
    in another case, as long as it has not expired, with TTLs equal to the
    remaining time; once expired it is available as a stale answer. *)
Theorem cache_hit_after_store `{StoreLaws CachedResponse} (sha : bytes → bytes) env env2 w s s2 r m q rest q2 rest2 :
  cacheable r = true → r.(Questions) = q :: rest → m.(Questions) = q2 :: rest2 →
  same_question q q2 → s2.(dnssec) = s.(dnssec) →
  (∀ c, w.(w_cache) = Some c → store_ok c) → 0 < s.(cacheSize) →
  let x := {| sd_msg := r; sd_question := q; sd_dnssec := s.(dnssec);
              sd_expiration := clock env 0 + minTTL_of s r |} in
  ∃ w' r' w2, PluginCacheResponse_Eval sha env w s r = Ok (w', s, r', None) ∧ same_but_ttl r' r ∧
    PluginCache_Eval sha env2 w' s2 m =
      Ok (w2, if x.(sd_expiration) <? clock env2 0 then stale_answer env2 x s2 m else fresh_answer env2 x s2 m, m, None).
Proof.
  intros Hc Hq Hq2 (Ht & Hcl & Hn) Hd Hok Hsz x.
  assert (∃ c, match w_cache w with Some c => Ok c | None => NewStore (cacheSize s) end = Ok c ∧ store_ok c)
    as (c & Ho & Hco).
  { destruct (w_cache w) as [c|]; [by eauto|]. pose proof (New_spec (V := CachedResponse) (cacheSize s)) as HN.
    destruct (NewStore (cacheSize s)) as [c|e| |]; [|lia|done..]. exists c. by destruct HN as (_ & ? & _). }
  set (e := {| expiration := sd_expiration x; cr_msg := updateTTL r (sd_expiration x) (clock env 1) |}).
  set (k := sha (key_input q s.(dnssec))).
  exists (w <| w_cache := Some (store_Add k e c) |>), (updateTTL r (sd_expiration x) (clock env 1)),
    (w <| w_cache := Some (store_Get k (store_Add k e c)).1 |>).
  split_and!; [|apply updateTTL_same|].
  - unfold PluginCacheResponse_Eval, computeCacheKey. rewrite Hc, Hq. cbn [negb obind]. by rewrite Ho.
  - unfold PluginCache_Eval, computeCacheKey. rewrite Hq2. cbn [obind].
    assert (sha (key_input q2 (dnssec s2)) = k) as ->.
    { unfold k, key_input. by rewrite Hd, Ht, Hcl, Hn. }
    cbn [w_cache set_field]. pose proof (Get_value k (store_Add k e c)) as Hg.
    destruct (store_Get k (store_Add k e c)) as [c' v]. cbn [snd] in Hg.
    rewrite Hg, Add_holds by (done || by apply Add_ok). unfold e. cbn [expiration cr_msg fst].
    unfold stale_answer, fresh_answer. rewrite !(served_same _ _ _ _ _ (updateTTL_same r _ _)). by destruct (_ <? _).
Qed.

(** A response without a question section that can be cached makes the
    process panic instead of being refused. *)
Theorem cache_panics_without_question `{Store CachedResponse} (sha : bytes → bytes) env w s r :
  r.(Questions) = [] → r.(Rcode_) = RcodeSuccess → r.(Truncated) = false →
  PluginCacheResponse_Eval sha env w s r = Panic.
Proof.
  intros Hq Hrc Ht. unfold PluginCacheResponse_Eval, cacheable, computeCacheKey. by rewrite Hq, Hrc, Ht.
Qed.

(** * A sample run *)

Definition sample_state : PluginsState :=
  NewPluginsState {| cfg_cacheSize := 4; cfg_cacheNegMinTTL := 60; cfg_cacheNegMaxTTL := 600;
                     cfg_cacheMinTTL := 60; cfg_cacheMaxTTL := 86400; cfg_rejectTTL := 600; cfg_timeout := 5000 |}
    (str "udp") (Some (UDPClient [192; 0; 2; 1])) (str "udp") 0.

Definition sample_env (now : Z) : PEnv := {|
  clock := λ _, now; rand := λ _, 0; date := (2022, 7, 5); weekday := 0; hour := 0; minute := 0; second := 0;
  LookupIP := λ _, Err (EMsg "no such host"); dns_Exchange := λ _ _ _, Err ETimeout;
  subquery := λ _, Ok None |}.

Definition sample_world : World (St CachedResponse) := {| w_cache := None; w_cloak := ∅; w_logs := [] |}.

Definition sample_question (name : string) : Question :=
  {| qn_Name := str name; Qtype := TypeA; Qclass := ClassINET |}.

Definition sample_response : Msg :=
  empty_Msg <| Id := 7 |> <| Response := true |> <| Questions := [sample_question "example.com."] |>
    <| Answer := [{| Hdr := inet (str "example.com.") TypeA 300; Data := rA [192; 0; 2; 7] |}] |>.

Definition sample_query : Msg := empty_Msg <| Id := 99 |> <| Questions := [sample_question "EXAMPLE.com."] |>.

Definition after_store : World (St CachedResponse) :=
  match PluginCacheResponse_Eval id (sample_env 0) sample_world sample_state sample_response with
  | Ok (w, _, _, _) => w | _ => sample_world end.

Example cache_hit_after_store_wit :
  ∃ r, (match PluginCache_Eval id (sample_env (100 * Second)) after_store sample_state sample_query with
        | Ok (_, s, _, _) => s.(synthResponse) | _ => None end) = Some r ∧
       r.(Id) = 99 ∧ (λ rr, rr.(Hdr).(Ttl)) <$> r.(Answer) = [200].
Proof.
  destruct (cache_hit_after_store id (sample_env 0) (sample_env (100 * Second)) sample_world sample_state sample_state
    sample_response sample_query (sample_question "example.com.") [] (sample_question "EXAMPLE.com.") [])
    as (w' & r' & w2 & Hw & _ & Hr); try done.
  unfold after_store. rewrite Hw, Hr. eexists. split; [reflexivity|]. split; vm_compute; reflexivity.
Defined.

Example cache_serves_latest_wit :
  ∃ w' s', PluginCache_Eval id (sample_env (400 * Second)) after_store sample_state sample_query = Ok (w', s', sample_query, None) ∧
    s'.(synthResponse) = None.
Proof.
  destruct (cache_serves_latest id
    [{| sd_msg := sample_response; sd_question := sample_question "example.com."; sd_dnssec := false;
        sd_expiration := 300 * Second |}] after_store (sample_env (400 * Second)) sample_state sample_query
    (sample_question "EXAMPLE.com.") []) as (w' & s' & HE & Hs).
  - apply (reach_write id [] sample_world (sample_env 0) sample_state sample_response
      (sample_question "example.com.") [] after_store sample_state
      (updateTTL sample_response (300 * Second) 0)); [by constructor|done|done|done|].
    vm_compute. reflexivity.
  - done.
  - done.
  - constructor; [|done]. split; [done|]. intros Hk. exact Hk.
  - exists w', s'. split; [done|]. destruct Hs as [->|(x & Hx & ->)]; [done|].
    vm_compute in Hx. injection Hx as <-. vm_compute. reflexivity.
Defined.

Example cache_panics_without_question_wit :
  PluginCacheResponse_Eval id (sample_env 0) sample_world sample_state (sample_response <| Questions := [] |>) = Panic.
Proof. apply cache_panics_without_question; reflexivity. Defined.
