(* ===== verification/BlockPlugins.v ===== *)
(** The plugins that block or allow queries and responses: plugin_block_name.go,
    plugin_allow_name.go, plugin_block_ip.go, plugin_allow_ip.go,
    plugin_block_ipv6.go, plugin_block_unqualified.go,
    plugin_block_undelegated.go and plugin_firefox.go. *)
From S2P Require Import Prelude.
From S2P Require Import GoStrings.
From S2P Require Import Common.
From S2P Require Import LogLines.
From S2P Require Import TimeRanges.
From S2P Require Import ServerTypes.
From S2P Require Import PatternMatcher.
From S2P Require Import DnsMsg.
From S2P Require Import DnsUtils.
From S2P Require Import XTransport.
From S2P Require Import Plugins.

(** * Names *)

(** A rule's value is a pointer to a time range, nil for a rule that always
    applies. *)
Abbreviation Ranges := (option WeeklyRanges).

Section Names.
Context `{UnicodeTables} `{NetLib} {T : Type} `{PrefixTrie (option Ranges) T}.
Context {C : Type}.
Abbreviation matcher := (PatternMatcher Ranges T).

(** One turn of the loop over the lines of a name file. *)
Definition load_name_rule (allWeeklyRanges : gmap bytes WeeklyRanges) (m : matcher) (line : bytes) : Out matcher :=
  let line := TrimAndStripInlineComments line in
  if (length line =? 0)%nat then Ok m
  else
    let add (line timeRangeName : bytes) : Out matcher :=
      let weeklyRanges := if (length timeRangeName =? 0)%nat then None else allWeeklyRanges !! timeRangeName in
      match Add m line (Some weeklyRanges) with Err _ => Ok m | r => r end in
    match Split line (str "@") with
    | [a; b] => add (TrimSpace a) (TrimSpace b)
    | _ :: _ :: _ :: _ => Ok m
    | _ => add line []
    end.

Fixpoint load_name_rules (allWeeklyRanges : gmap bytes WeeklyRanges) (m : matcher) (lines : list bytes) : Out matcher :=
  match lines with
  | [] => Ok m
  | line :: lines =>
      let! m := load_name_rule allWeeklyRanges m line in
      load_name_rules allWeeklyRanges m lines
  end.

Record NameRules := { nr_patternMatcher : matcher; nr_logger : option LogConfig }.

(** Given the contents of the rule file (or the error reading it) and the log configuration. *)
Definition PluginBlockName_Init (file : Out bytes) (allWeeklyRanges : gmap bytes WeeklyRanges)
    (logger : option LogConfig) : Out NameRules :=
  let! bin := file in
  let! m := load_name_rules allWeeklyRanges NewPatternMatcher (Split (ReadTextFile bin) [10]) in
  Ok {| nr_patternMatcher := m; nr_logger := logger |}.

(** The loop is written again, with the same steps. *)
Definition PluginAllowName_Init (file : Out bytes) (allWeeklyRanges : gmap bytes WeeklyRanges)
    (logger : option LogConfig) : Out NameRules :=
  let! bin := file in
  let! patternMatcher := load_name_rules allWeeklyRanges NewPatternMatcher (Split (ReadTextFile bin) [10]) in
  Ok {| nr_patternMatcher := patternMatcher; nr_logger := logger |}.

(** A rule applies to a name now: its reason. *)
Definition applies (env : PEnv) (rules : NameRules) (qName : bytes) : option bytes :=
  let '(found, reason, xweeklyRanges) := Eval rules.(nr_patternMatcher) qName in
  let weeklyRanges := match xweeklyRanges with Some r => r | None => None end in
  if found then
    match weeklyRanges with
    | Some r => if Match r (weekday env) (hour env) (minute env) then Some reason else None
    | None => Some reason
    end
  else None.

(** Logs the client, and the values given with their labels, if there is a logger. *)
Definition log_client (env : PEnv) (logger : option LogConfig) (s : PluginsState) (values : list (bytes * bytes))
    (w : World C) : Out (World C) :=
  match logger with
  | None => Ok w
  | Some lg =>
      let! ip := clientIP s in
      let quoted := (λ f, (f.1, StringQuote f.2)) <$> values in
      write_log env lg (IP_String ip :: quoted.*2) ((str "host", IP_String ip) :: quoted) w
  end.

Definition blockedNames_check (env : PEnv) (blockedNames : NameRules) (w : World C) (s : PluginsState)
    (qName : bytes) (aliasFor : option bytes) : Out (World C * PluginsState * bool) :=
  match applies env blockedNames qName with
  | None => Ok (w, s, false)
  | Some reason =>
      let reason := match aliasFor with
                    | Some a => reason ++ str " (alias for [" ++ a ++ str "])"
                    | None => reason
                    end in
      let s := s <| action := PluginsActionReject |> <| returnCode := PluginsReturnCodeReject |> in
      let! w := log_client env blockedNames.(nr_logger) s [(str "qname", qName); (str "message", reason)] w in
      Ok (w, s, true)
  end.

Definition PluginBlockName_Eval (env : PEnv) (blockedNames : option NameRules) (w : World C)
    (s : PluginsState) (msg : Msg) : Out (Evaluated C) :=
  match blockedNames with
  | None => unchanged w s msg
  | Some bn =>
      if s.(whitelisted) then unchanged w s msg
      else
        let! (w, s, _) := blockedNames_check env bn w s s.(qName) None in
        Ok (w, s, msg, None)
  end.

Definition aliasesLimit : nat := 8.

(** The name an answer is an alias of: [None] for other records. *)
Definition alias_target (answer : RR) : Out (option bytes) :=
  let h := answer.(Hdr) in
  if negb (h.(Class_) =? ClassINET) then Ok None
  else if h.(Rrtype) =? TypeCNAME then
    match answer.(Data) with rCNAME t => Ok (Some t) | _ => Panic end
  else if h.(Rrtype) =? TypeSVCB then
    match answer.(Data) with rSVCB p t => Ok (if p =? 0 then Some t else None) | _ => Panic end
  else if h.(Rrtype) =? TypeHTTPS then
    match answer.(Data) with rHTTPS p t => Ok (if p =? 0 then Some t else None) | _ => Panic end
  else Ok None.

(** The loop over the answers; [aliasesLeft] is never zero at its head. *)
Fixpoint check_aliases (env : PEnv) (bn : NameRules) (aliasFor : bytes) (aliasesLeft : nat)
    (answers : list RR) (w : World C) (s : PluginsState) : Out (World C * PluginsState * option error) :=
  match answers with
  | [] => Ok (w, s, None)
  | answer :: answers =>
      let! target := alias_target answer in
      match target with
      | None => check_aliases env bn aliasFor aliasesLeft answers w s
      | Some target =>
          match NormalizeQName target with
          | Err e => Ok (w, s, Some e)
          | Panic => Panic
          | Fatal => Fatal
          | Ok target =>
              let! (w, s, blocked) := blockedNames_check env bn w s target (Some aliasFor) in
              if blocked then Ok (w, s, None)
              else
                match (aliasesLeft - 1)%nat with
                | O => Ok (w, s, None)
                | aliasesLeft => check_aliases env bn aliasFor aliasesLeft answers w s
                end
          end
      end
  end.

Definition PluginBlockNameResponse_Eval (env : PEnv) (blockedNames : option NameRules) (w : World C)
    (s : PluginsState) (msg : Msg) : Out (Evaluated C) :=
  match blockedNames with
  | None => unchanged w s msg
  | Some bn =>
      if s.(whitelisted) then unchanged w s msg
      else
        let! (w, s, err) := check_aliases env bn s.(qName) aliasesLimit msg.(Answer) w s in
        Ok (w, s, msg, err)
  end.

Definition PluginAllowName_Eval (env : PEnv) (plugin : NameRules) (w : World C)
    (s : PluginsState) (msg : Msg) : Out (Evaluated C) :=
  match applies env plugin s.(qName) with
  | None => unchanged w s msg
  | Some reason =>
      let s := s <| whitelisted := true |> in
      let! w := log_client env plugin.(nr_logger) s [(str "qname", s.(qName)); (str "message", reason)] w in
      Ok (w, s, msg, None)
  end.

End Names.
Arguments NameRules _ : clear implicits.

(** * IP addresses *)

Section IPs.
Context `{UnicodeTables} `{NetLib} {T : Type} `{PrefixTrie unit T}.
Context {C : Type}.

Record IPRules := { ir_prefixes : T; ir_ips : gset bytes; ir_logger : option LogConfig }.

#[local] Instance eta_IPRules : Eta IPRules := λ r,
  {| ir_prefixes := r.(ir_prefixes); ir_ips := r.(ir_ips); ir_logger := r.(ir_logger) |}.

(** [line[:len(line)-1]]. *)
Definition drop_last (line : bytes) : bytes := take (length line - 1) line.

(** One turn of the loop over the lines of an IP file. *)
Definition load_ip_rule (r : IPRules) (line : bytes) : IPRules :=
  let line := TrimAndStripInlineComments line in
  if (length line =? 0)%nat then r
  else
    let ip := net_ParseIP line in
    let trailingStar := HasSuffix line (str "*") in
    if (length line <? 2)%nat || (negb (bool_decide (ip = [])) && trailingStar) then r
    else
      let line := if trailingStar then drop_last line else line in
      let line := if HasSuffix line (str ":") || HasSuffix line (str ".") then drop_last line else line in
      if (length line =? 0)%nat then r
      else if Contains line (str "*") then r
      else
        let line := ToLower line in
        if trailingStar then r <| ir_prefixes := trie_insert line tt r.(ir_prefixes) |>
        else r <| ir_ips := {[ line ]} ∪ r.(ir_ips) |>.

Definition PluginBlockIP_Init (file : Out bytes) (logger : option LogConfig) : Out IPRules :=
  let! bin := file in
  let r := foldl load_ip_rule {| ir_prefixes := trie_new; ir_ips := ∅; ir_logger := None |}
             (Split (ReadTextFile bin) [10]) in
  Ok (r <| ir_logger := logger |>).

Definition PluginAllowedIP_Init (file : Out bytes) (logger : option LogConfig) : Out IPRules :=
  let! bin := file in
  let plugin := foldl load_ip_rule {| ir_prefixes := trie_new; ir_ips := ∅; ir_logger := None |}
                  (Split (ReadTextFile bin) [10]) in
  Ok (plugin <| ir_logger := logger |>).

(** The text of the address in an answer: [None] for other records. *)
Definition answer_ip (answer : RR) : Out (option bytes) :=
  let h := answer.(Hdr) in
  if negb (h.(Class_) =? ClassINET) || (negb (h.(Rrtype) =? TypeA) && negb (h.(Rrtype) =? TypeAAAA)) then Ok None
  else if h.(Rrtype) =? TypeA then
    match answer.(Data) with rA ip => Ok (Some (IP_String ip)) | _ => Panic end
  else
    match answer.(Data) with rAAAA ip => Ok (Some (IP_String ip)) | _ => Panic end.

(** [len(match) == len(ipStr) || ipStr[len(match)] == '.' || ipStr[len(match)] == ':']. *)
Definition on_group (ipStr p : bytes) : bool :=
  (length p =? length ipStr)%nat ||
  bool_decide (ipStr !! length p = Some 46 ∨ ipStr !! length p = Some 58).

(** The reason an address is listed. *)
Definition ip_listed (rules : IPRules) (ipStr : bytes) : option bytes :=
  if decide (ipStr ∈ rules.(ir_ips)) then Some ipStr
  else
    match trie_longest ipStr rules.(ir_prefixes) with
    | Some (p, _) => if on_group ipStr p then Some (p ++ str "*") else None
    | None => None
    end.

(** The loop over the answers: the first listed address with its reason. *)
Fixpoint first_listed (rules : IPRules) (answers : list RR) : Out (option (bytes * bytes)) :=
  match answers with
  | [] => Ok None
  | answer :: answers =>
      let! o := answer_ip answer in
      match o with
      | None => first_listed rules answers
      | Some ipStr =>
          match ip_listed rules ipStr with
          | Some reason => Ok (Some (ipStr, reason))
          | None => first_listed rules answers
          end
      end
  end.

Definition PluginBlockIP_Eval (env : PEnv) (plugin : IPRules) (w : World C) (s : PluginsState) (msg : Msg)
    : Out (Evaluated C) :=
  if s.(whitelisted) then unchanged w s msg
  else
    let! found := first_listed plugin msg.(Answer) in
    match found with
    | None => unchanged w s msg
    | Some (ipStr, reason) =>
        let s := s <| action := PluginsActionReject |> <| returnCode := PluginsReturnCodeReject |> in
        let! w := log_client env plugin.(ir_logger) s [(str "qname", s.(qName)); (str "ip", ipStr); (str "message", reason)] w in
        Ok (w, s, msg, None)
    end.

Definition PluginAllowedIP_Eval (env : PEnv) (plugin : IPRules) (w : World C) (s : PluginsState) (msg : Msg)
    : Out (Evaluated C) :=
  let! found := first_listed plugin msg.(Answer) in
  match found with
  | None => unchanged w s msg
  | Some (ipStr, reason) =>
      let s := s <| whitelisted := true |> in
      let! w := log_client env plugin.(ir_logger) s [(str "qname", s.(qName)); (str "ip", ipStr); (str "message", reason)] w in
      Ok (w, s, msg, None)
  end.

End IPs.
Arguments IPRules _ : clear implicits.

(** * Synthetic answers *)

Section Synth.
Context {C : Type}.

Definition is_address_question (q : Question) : bool :=
  (q.(Qclass) =? ClassINET) && ((q.(Qtype) =? TypeA) || (q.(Qtype) =? TypeAAAA)).

(** Answers that the name does not exist. *)
Definition answer_NXDOMAIN (w : World C) (s : PluginsState) (msg : Msg) : Out (Evaluated C) :=
  let! synth := EmptyResponseFromMessage msg in
  Ok (w, answer_with s (synth <| Rcode_ := RcodeNameError |>) PluginsReturnCodeSynth, msg, None).

(** The zone above a name: [qName[i+1:]] after the first dot. *)
Definition parent_zone (qName : bytes) : bytes :=
  match IndexByte qName 46 with
  | None => str "."
  | Some i => if (length qName <=? i + 1)%nat then str "." else drop (i + 1) qName
  end.

Definition PluginBlockIPv6_Eval (w : World C) (s : PluginsState) (msg : Msg) : Out (Evaluated C) :=
  let! question := orPanic (head msg.(Questions)) in
  if negb (question.(Qclass) =? ClassINET) || negb (question.(Qtype) =? TypeAAAA) then unchanged w s msg
  else
    let! synth := EmptyResponseFromMessage msg in
    let hinfo := {| Hdr := inet question.(qn_Name) TypeHINFO 86400;
                    Data := rHINFO (str "AAAA queries have been locally blocked by dnscrypt-proxy")
                                   (str "Set block_ipv6 to false to disable that feature") |} in
    let soa := {| Hdr := inet (parent_zone question.(qn_Name)) TypeSOA 60;
                  Data := rSOA (str "a.root-servers.net.") (str "h.invalid.") 1 10000 300 604800 2400 |} in
    let synth := synth <| Answer := [hinfo] |> <| Ns := [soa] |> in
    Ok (w, answer_with s synth PluginsReturnCodeSynth, msg, None).

Definition PluginBlockUnqualified_Eval (w : World C) (s : PluginsState) (msg : Msg) : Out (Evaluated C) :=
  let! question := orPanic (head msg.(Questions)) in
  if negb (is_address_question question) then unchanged w s msg
  else
    match IndexByte s.(qName) 46 with
    | Some _ => unchanged w s msg
    | None => answer_NXDOMAIN w s msg
    end.

Definition PluginFirefox_Eval (w : World C) (s : PluginsState) (msg : Msg) : Out (Evaluated C) :=
  if bool_decide (s.(clientProto) = str "local_doh") then unchanged w s msg
  else
    let! question := orPanic (head msg.(Questions)) in
    if negb (is_address_question question) then unchanged w s msg
    else if negb (bool_decide (s.(qName) = str "use-application-dns.net")) &&
            negb (HasSuffix s.(qName) (str ".use-application-dns.net")) then unchanged w s msg
    else answer_NXDOMAIN w s msg.

Definition undelegatedSet : list bytes := [
  str "0.0.0.0.0.0.0.0.0.0.0.0.0.0.0.0.0.0.0.0.0.0.0.0.0.0.0.0.0.0.0.0.ip6.arpa"; str "0.in-addr.arpa";
  str "1"; str "1.0.0.0.0.0.0.0.0.0.0.0.0.0.0.0.0.0.0.0.0.0.0.0.0.0.0.0.0.0.0.0.ip6.arpa";
  str "10.in-addr.arpa"; str "100.100.in-addr.arpa"; str "100.51.198.in-addr.arpa";
  str "101.100.in-addr.arpa"; str "102.100.in-addr.arpa"; str "103.100.in-addr.arpa";
  str "104.100.in-addr.arpa"; str "105.100.in-addr.arpa"; str "106.100.in-addr.arpa";
  str "107.100.in-addr.arpa"; str "108.100.in-addr.arpa"; str "109.100.in-addr.arpa";
  str "110.100.in-addr.arpa"; str "111.100.in-addr.arpa"; str "112.100.in-addr.arpa";
  str "113.0.203.in-addr.arpa"; str "113.100.in-addr.arpa"; str "114.100.in-addr.arpa";
  str "115.100.in-addr.arpa"; str "116.100.in-addr.arpa"; str "117.100.in-addr.arpa";
  str "118.100.in-addr.arpa"; str "119.100.in-addr.arpa"; str "120.100.in-addr.arpa";
  str "121.100.in-addr.arpa"; str "122.100.in-addr.arpa"; str "123.100.in-addr.arpa";
  str "124.100.in-addr.arpa"; str "125.100.in-addr.arpa"; str "126.100.in-addr.arpa";
  str "127.100.in-addr.arpa"; str "127.in-addr.arpa"; str "16.172.in-addr.arpa"; str "168.192.in-addr.arpa";
  str "17.172.in-addr.arpa"; str "18.172.in-addr.arpa"; str "19.172.in-addr.arpa";
  str "2.0.192.in-addr.arpa"; str "20.172.in-addr.arpa"; str "21.172.in-addr.arpa";
  str "22.172.in-addr.arpa"; str "23.172.in-addr.arpa"; str "24.172.in-addr.arpa"; str "25.172.in-addr.arpa";
  str "254.169.in-addr.arpa"; str "255.255.255.255.in-addr.arpa"; str "26.172.in-addr.arpa";
  str "27.172.in-addr.arpa"; str "28.172.in-addr.arpa"; str "29.172.in-addr.arpa"; str "30.172.in-addr.arpa";
  str "31.172.in-addr.arpa"; str "64.100.in-addr.arpa"; str "65.100.in-addr.arpa"; str "66.100.in-addr.arpa";
  str "67.100.in-addr.arpa"; str "68.100.in-addr.arpa"; str "69.100.in-addr.arpa"; str "70.100.in-addr.arpa";
  str "71.100.in-addr.arpa"; str "72.100.in-addr.arpa"; str "73.100.in-addr.arpa"; str "74.100.in-addr.arpa";
  str "75.100.in-addr.arpa"; str "76.100.in-addr.arpa"; str "77.100.in-addr.arpa"; str "78.100.in-addr.arpa";
  str "79.100.in-addr.arpa"; str "8.b.d.0.1.0.0.2.ip6.arpa"; str "8.e.f.ip6.arpa"; str "80.100.in-addr.arpa";
  str "81.100.in-addr.arpa"; str "82.100.in-addr.arpa"; str "83.100.in-addr.arpa"; str "84.100.in-addr.arpa";
  str "85.100.in-addr.arpa"; str "86.100.in-addr.arpa"; str "87.100.in-addr.arpa"; str "88.100.in-addr.arpa";
  str "89.100.in-addr.arpa"; str "9.e.f.ip6.arpa"; str "90.100.in-addr.arpa"; str "91.100.in-addr.arpa";
  str "92.100.in-addr.arpa"; str "93.100.in-addr.arpa"; str "94.100.in-addr.arpa"; str "95.100.in-addr.arpa";
  str "96.100.in-addr.arpa"; str "97.100.in-addr.arpa"; str "98.100.in-addr.arpa"; str "99.100.in-addr.arpa";
  str "a.e.f.ip6.arpa"; str "airdream"; str "api"; str "b.e.f.ip6.arpa"; str "bbrouter"; str "belkin";
  str "bind"; str "blinkap"; str "corp"; str "d.f.ip6.arpa"; str "davolink"; str "dearmyrouter"; str "dhcp";
  str "dlink"; str "domain"; str "envoy"; str "example"; str "f.f.ip6.arpa"; str "grp"; str "gw==";
  str "home"; str "hub"; str "internal"; str "intra"; str "intranet"; str "invalid"; str "ksyun"; str "lan";
  str "loc"; str "local"; str "localdomain"; str "localhost"; str "localnet"; str "modem"; str "mynet";
  str "myrouter"; str "novalocal"; str "onion"; str "openstacklocal"; str "priv"; str "private"; str "prv";
  str "router"; str "telus"; str "test"; str "totolink"; str "wlan_ap"; str "workgroup"; str "zghjccbob3n0"
].

Context {T : Type} `{PrefixTrie unit T}.

Definition PluginBlockUndelegated_Init : T :=
  foldl (λ suffixes line, trie_insert (StringReverse line) tt suffixes) trie_new undelegatedSet.

Definition PluginBlockUndelegated_Eval (suffixes : T) (w : World C) (s : PluginsState) (msg : Msg)
    : Out (Evaluated C) :=
  let revQname := StringReverse s.(qName) in
  match trie_longest revQname suffixes with
  | None => unchanged w s msg
  | Some (p, _) => if on_label revQname p then answer_NXDOMAIN w s msg else unchanged w s msg
  end.

End Synth.

(** * Lemmas *)

(** Logging cannot fail: there is no logger, or it has a known format and the
    client's address has the type of its protocol. *)
Definition can_log (logger : option LogConfig) (s : PluginsState) : Prop :=
  match logger with
  | None => True
  | Some lg => format_known lg.(lg_format) = true ∧ ∃ ip, clientIP s = Ok ip
  end.

Definition rejected (s : PluginsState) : PluginsState :=
  s <| action := PluginsActionReject |> <| returnCode := PluginsReturnCodeReject |>.

Lemma log_client_ok `{UnicodeTables} `{NetLib} {C} env logger s s' values (w : World C) :
  can_log logger s → s'.(clientProto) = s.(clientProto) → s'.(clientAddr) = s.(clientAddr) →
  ∃ w', log_client env logger s' values w = Ok w'.
Proof.
  unfold can_log, log_client. destruct logger as [lg|]; [|by eauto]. intros [Hf [ip Hip]] Hp Ha.
  assert (clientIP s' = Ok ip) as ->; [unfold clientIP in *; by rewrite Hp, Ha|].
  cbn [obind]. by apply write_log_ok.
Qed.

(** ** Loading name files *)

Section NameFiles.
Context `{UnicodeTables} `{NetLib} {T : Type} `{PrefixTrieLaws (option Ranges) T} {C : Type}.
Abbreviation matcher := (PatternMatcher Ranges T).

(** A line that is just a domain name. *)
Definition zone_line (p : bytes) : Prop := plain p ∧ spaceless p ∧ (64 ∉ p) ∧ (35 ∉ p).

Lemma zone_line_trim p : zone_line p → TrimAndStripInlineComments p = p.
Proof.
  intros (Hp & Hs & _ & Hh). unfold TrimAndStripInlineComments.
  rewrite (proj2 (LastIndexByte_None p 35)) by done. apply TrimSpace_ascii; [by apply plain_ascii|done].
Qed.

Lemma Split_none c s : c ∉ s → Split s [c] = [s].
Proof. intros Hc. change s with (Join [s] [c]) at 1. apply Split_Join; [done|by constructor]. Qed.

(** A domain name becomes a suffix rule without time range. *)
Lemma load_zone_line ranges (m : matcher) p : zone_line p →
  load_name_rule ranges m p =
  Ok {| blockedPrefixes := m.(blockedPrefixes);
        blockedSuffixes := trie_insert (reverse p) (Some None) m.(blockedSuffixes);
        blockedSubstrings := m.(blockedSubstrings); blockedPatterns := m.(blockedPatterns);
        blockedExact := m.(blockedExact); indirectVals := m.(indirectVals) |}.
Proof.
  intros Hz. unfold load_name_rule. rewrite zone_line_trim by done. destruct Hz as (Hp & _ & Ha & _).
  pose proof (plain_length p Hp) as Hlen.
  destruct (Nat.eqb_spec (length p) 0) as [E|_]; [lia|]. change (str "@") with [64]. rewrite Split_none by done.
  unfold Add. rewrite classify_plain by done. cbn [mbind Out_bind].
  by rewrite plain_lower, StringReverse_ascii by (done || by apply plain_ascii).
Qed.

(** The suffix rules of a matcher are exactly those of a list of names, and it
    has no rules of other kinds. *)
Record only_zones (ps : list bytes) (m : matcher) : Prop := {
  oz_suffixes k : is_Some (trie_view m.(blockedSuffixes) !! k) ↔ ∃ p, p ∈ ps ∧ k = reverse p;
  oz_values k v : trie_view m.(blockedSuffixes) !! k = Some v → v = Some None;
  oz_prefixes k : trie_view m.(blockedPrefixes) !! k = None;
  oz_substrings : m.(blockedSubstrings) = [];
  oz_patterns : m.(blockedPatterns) = [];
  oz_exact : m.(blockedExact) = ∅
}.

Lemma is_Some_view_insert k v k' (t : T) :
  is_Some (trie_view (trie_insert k v t) !! k') ↔ is_Some (trie_view t !! k') ∨ k' = k.
Proof.
  rewrite view_insert. destruct (trie_view t !! k) eqn:Hk.
  - split; [by auto|]. intros [Hs|Hs]; [done|]. rewrite Hs, Hk. by eexists.
  - rewrite lookup_insert_is_Some. destruct (decide (k = k')) as [Heq|Hne]; naive_solver.
Qed.

Lemma only_zones_load ranges ps done_ (m : matcher) :
  Forall zone_line ps → only_zones done_ m →
  ∃ m', load_name_rules ranges m ps = Ok m' ∧ only_zones (done_ ++ ps) m'.
Proof.
  revert done_ m. induction ps as [|p ps IH]; intros done_ m Hps Hm.
  { exists m. by rewrite app_nil_r. }
  apply list.Forall_cons in Hps as [Hp Hps]. cbn [load_name_rules].
  rewrite (load_zone_line ranges m p Hp). cbn [obind].
  rewrite (cons_middle p done_ ps), app_assoc. apply IH; [done|]. destruct Hm as [Hs Hv ? ? ? ?].
  constructor; [| |done..]; cbn [blockedSuffixes].
  - intros k. rewrite is_Some_view_insert, Hs. setoid_rewrite elem_of_app.
    setoid_rewrite list_elem_of_singleton. naive_solver.
  - intros k v. rewrite view_insert. destruct (trie_view _ !! reverse p) eqn:Hk; [apply Hv|].
    rewrite lookup_insert_Some. intros [[_ <-]|[_ Hl]]; [done|by eapply Hv].
Qed.

Lemma only_zones_new : only_zones [] NewPatternMatcher.
Proof.
  constructor; cbn; intros; rewrite ?view_new, ?lookup_empty in *; try done.
  split; [by intros [??]|]. set_solver.
Qed.

Lemma only_zones_matches ps m q : only_zones ps m → rule_matches m q ↔ ∃ p, p ∈ ps ∧ in_zone q p.
Proof.
  intros [Hs Hv Hpre Hsub Hpat Hex]. rewrite rule_matches_alt, Hsub, Hpat, Hex. split.
  - intros [[v Hv']|[(k & v & Hk & Hz)|[(p & v & Hp & _)|[(s & Hs' & _)|(p & Hp & _)]]]];
      [by rewrite lookup_empty in Hv'| |by rewrite Hpre in Hp|set_solver|set_solver].
    destruct (proj1 (Hs k)) as (p & Hp & ->); [by eexists|]. rewrite reverse_involutive in Hz. by eauto.
  - intros (p & Hp & Hz). right. left. destruct (proj2 (Hs (reverse p))) as [v Hk]; [by eauto|].
    exists (reverse p), v. by rewrite reverse_involutive.
Qed.

Lemma zone_file_lines ps : Forall zone_line ps → ps ≠ [] →
  Split (ReadTextFile (Join ps [10])) [10] = ps.
Proof.
  intros Hps Hne. assert (ReadTextFile (Join ps [10]) = Join ps [10]) as ->.
  { unfold ReadTextFile, TrimPrefix. destruct (HasPrefix _ _) eqn:Hb; [|done].
    destruct ps as [|p ps]; [done|]. apply list.Forall_cons in Hps as [[Hp _] _].
    pose proof (plain_ascii _ Hp) as Ha. destruct Hp as [(c & r & -> & _) _].
    apply list.Forall_cons in Ha as [Hc _]. apply HasPrefix_spec in Hb as [t Ht].
    destruct ps; cbn in Ht; injection Ht; lia. }
  apply Split_Join; [done|]. eapply list.Forall_impl; [exact Hps|]. intros p (_ & Hs & _) Hin.
  unfold spaceless in Hs. rewrite list.Forall_forall in Hs. by apply Hs in Hin.
Qed.

(** The rule's value of a matcher made of zones never restricts it. *)
Lemma only_zones_applies ps m lg env q :
  only_zones ps m →
  is_Some (applies env {| nr_patternMatcher := m; nr_logger := lg |} q) ↔ rejects m q = true.
Proof.
  intros [Hs Hv Hpre Hsub Hpat Hex]. unfold applies, rejects, Eval. cbn [nr_patternMatcher].
  destruct (length q <? 2)%nat; [by split; [intros [??]|]|].
  unfold eval_exact. rewrite Hex, lookup_empty.
  assert (∀ r v, eval_suffix m (StringReverse q) = Some (r, v) → v = Some None) as Hval.
  { intros r v. unfold eval_suffix. destruct (trie_longest _ (blockedSuffixes m)) as [[p x]|] eqn:Hl; [|done].
    apply longest_Some in Hl as (Hp & _). apply Hv in Hp as ->.
    destruct (on_label _ _); [by intros [= _ <-]|]. destruct (_ && _); [|done].
    destruct (LastIndexByte _ _) as [[|i]|]; [done| |done].
    destruct (trie_longest _ _) as [[p2 ?]|]; [|done]. destruct (on_label _ p2); [by intros [= _ <-]|done]. }
  destruct (eval_suffix m (StringReverse q)) as [[r v]|].
  { rewrite (Hval r v eq_refl). split; [done|by eexists]. }
  assert (eval_prefix m q = None) as ->.
  { unfold eval_prefix. destruct (trie_longest q (blockedPrefixes m)) as [[p x]|] eqn:Hl; [|done].
    apply longest_Some in Hl as (Hp & _). by rewrite Hpre in Hp. }
  unfold eval_substring, eval_pattern. rewrite Hsub, Hpat. cbn. split; [by intros [??]|done].
Qed.

(** Loading a file of domain names. *)
Lemma zone_file_Init ps ranges lg : Forall zone_line ps → ps ≠ [] →
  ∃ m, PluginBlockName_Init (T := T) (Ok (Join ps [10])) ranges lg = Ok {| nr_patternMatcher := m; nr_logger := lg |} ∧
       only_zones ps m.
Proof.
  intros Hps Hne. unfold PluginBlockName_Init. cbn [obind]. rewrite zone_file_lines by done.
  destruct (only_zones_load ranges ps [] NewPatternMatcher Hps only_zones_new) as (m & -> & Hm). by exists m.
Qed.

(** No listed name longer than [p] is a byte suffix of [q] that starts inside a
    label. *)
Definition clear_suffix (ps : list bytes) (q p : bytes) : Prop :=
  ∀ p', p' ∈ ps → (length p ≤ length p')%nat → HasSuffix q p' = true → in_zone q p'.

Lemma zone_applies ps m lg env q p :
  only_zones ps m → ascii q → (2 ≤ length q)%nat → p ∈ ps → in_zone q p → clear_suffix ps q p →
  is_Some (applies env {| nr_patternMatcher := m; nr_logger := lg |} q).
Proof.
  intros Hm Ha Hl Hp Hz Hin. apply (only_zones_applies ps); [done|].
  apply rejects_cascade; [done..|]. right; left.
  destruct (proj2 (oz_suffixes _ _ Hm (reverse p))) as [v Hv]; [by eauto|].
  apply (eval_suffix_complete m _ (reverse p) v); [done|by rewrite reverse_involutive|].
  intros j Hj Hlen Hpre. apply (oz_suffixes _ _ Hm) in Hj as (p' & Hp' & ->).
  rewrite !length_reverse in Hlen. rewrite reverse_involutive. by apply Hin.
Qed.

Lemma PluginBlockName_rejects env (rules : NameRules T) (w : World C) s msg :
  can_log rules.(nr_logger) s → s.(whitelisted) = false →
  ∃ w' s', PluginBlockName_Eval env (Some rules) w s msg = Ok (w', s', msg, None) ∧
    s' = if decide (is_Some (applies env rules s.(qName))) then rejected s else s.
Proof.
  intros Hlog Hw. unfold PluginBlockName_Eval, blockedNames_check. rewrite Hw.
  destruct (applies env rules (qName s)) as [reason|] eqn:Ha; cbn [obind].
  - edestruct (log_client_ok env (nr_logger rules) s (rejected s) [(str "qname", qName s); (str "message", reason)] w) as [w' Hw']; [done..|].
    unfold rejected in Hw'. rewrite Hw'. cbn [obind]. exists w'. eexists. split; [reflexivity|].
    rewrite decide_True by by eexists. done.
  - exists w, s. split; [done|]. rewrite decide_False; [done|]. by intros [??].
Qed.

End NameFiles.

(** ** Aliases *)

(** The normalized targets of the aliases among the answers. *)
Fixpoint alias_names (answers : list RR) : Out (list bytes) :=
  match answers with
  | [] => Ok []
  | answer :: answers =>
      let! target := alias_target answer in
      match target with
      | None => alias_names answers
      | Some t => let! n := NormalizeQName t in let! ns := alias_names answers in Ok (n :: ns)
      end
  end.

Section Aliases.
Context `{UnicodeTables} `{NetLib} {T : Type} `{PrefixTrie (option Ranges) T} {C : Type}.

Definition blocked_among env (bn : NameRules T) (names : list bytes) : Prop :=
  Exists (λ n, is_Some (applies env bn n)) names.

#[export] Instance blocked_among_dec env bn names : Decision (blocked_among env bn names).
Proof. unfold blocked_among. apply _. Defined.

Lemma check_aliases_spec env bn aliasFor k answers (w : World C) s names :
  can_log bn.(nr_logger) s → alias_names answers = Ok names →
  ∃ w', check_aliases env bn aliasFor (S k) answers w s =
    Ok (w', if decide (blocked_among env bn (take (S k) names)) then rejected s else s, None).
Proof.
  intros Hlog. revert k w names. induction answers as [|a answers IH]; intros k w names; cbn [alias_names check_aliases].
  { intros [= <-]. exists w. rewrite decide_False; [done|]. intros Hx. by apply Exists_nil in Hx. }
  destruct (alias_target a) as [[t|]| | |]; cbn [obind]; try done; [|by apply IH].
  destruct (NormalizeQName t) as [n| | |]; cbn [obind]; try done.
  destruct (alias_names answers) as [ns| | |]; cbn [obind]; try done. intros [= <-].
  unfold blockedNames_check. destruct (applies env bn n) as [reason|] eqn:Ha.
  - edestruct (log_client_ok env (nr_logger bn) s (rejected s)
      [(str "qname", n); (str "message", reason ++ str " (alias for [" ++ aliasFor ++ str "])")] w) as [w' Hw']; [done..|].
    unfold rejected in *. rewrite Hw'. cbn [obind]. exists w'. rewrite decide_True; [done|].
    apply Exists_cons_hd. by rewrite Ha.
  - cbn [obind]. replace (S k - 1)%nat with k by lia.
    assert (∀ l, blocked_among env bn (n :: l) ↔ blocked_among env bn l) as Hb.
    { intros l. unfold blocked_among. rewrite Exists_cons, Ha. split; [|by auto]. intros [[??]|]; done. }
    destruct k as [|k].
    + exists w. rewrite decide_False; [done|]. cbn [take]. rewrite Hb. intros Hx. by apply Exists_nil in Hx.
    + destruct (IH k w ns eq_refl) as [w' Hw']. exists w'. rewrite Hw'. cbn [take].
      by rewrite (decide_ext _ _ _ _ (Hb (take (S k) ns))).
Qed.

End Aliases.

(** ** Addresses *)

Section IPLemmas.
Context `{UnicodeTables} `{NetLib} {T : Type} `{PrefixTrieLaws unit T} {C : Type}.

(** What an address file means: the address is listed, or starts with a listed
    prefix that ends where a group of digits does. *)
Definition ip_rule_matches (rules : IPRules T) (ip : bytes) : Prop :=
  ip ∈ rules.(ir_ips) ∨
  ∃ p, is_Some (trie_view rules.(ir_prefixes) !! p) ∧ HasPrefix ip p = true ∧ on_group ip p = true.

(** Every listed prefix of the address ends at the end of a group. *)
Definition no_inner_prefix (rules : IPRules T) (ip : bytes) : Prop :=
  ∀ p, is_Some (trie_view rules.(ir_prefixes) !! p) → HasPrefix ip p = true → on_group ip p = true.

Lemma ip_listed_sound rules ip : is_Some (ip_listed rules ip) → ip_rule_matches rules ip.
Proof.
  unfold ip_listed. case_decide; [by left|]. destruct (trie_longest ip _) as [[p []]|] eqn:Hl; [|by intros [??]].
  apply longest_Some in Hl as (Hp & Hpre & _). destruct (on_group ip p) eqn:Hg; [|by intros [??]].
  intros _. right. exists p. split_and!; [by eexists|done..].
Qed.

Lemma ip_listed_complete rules ip :
  no_inner_prefix rules ip → ip_rule_matches rules ip → is_Some (ip_listed rules ip).
Proof.
  intros Hno Hm. unfold ip_listed. case_decide as Hd; [by eexists|]. destruct Hm as [|(p & Hp & Hpre & _)]; [done|].
  destruct (trie_longest ip _) as [[j []]|] eqn:Hl.
  - apply longest_Some in Hl as (Hj & Hjp & _). rewrite Hno; [by eexists|by eexists|done].
  - eapply longest_None in Hl; [|exact Hp]. congruence.
Qed.

(** The addresses of the answers. *)
Fixpoint answer_ips (answers : list RR) : Out (list bytes) :=
  match answers with
  | [] => Ok []
  | a :: answers =>
      let! o := answer_ip a in let! l := answer_ips answers in
      Ok (match o with Some ip => ip :: l | None => l end)
  end.

Lemma first_listed_spec (rules : IPRules T) answers ips :
  answer_ips answers = Ok ips →
  ∃ o, first_listed rules answers = Ok o ∧
    match o with
    | Some (ip, reason) => ip ∈ ips ∧ ip_listed rules ip = Some reason
    | None => Forall (λ ip, ip_listed rules ip = None) ips
    end.
Proof.
  revert ips. induction answers as [|a answers IH]; intros ips; cbn [answer_ips first_listed].
  { intros [= <-]. exists None. split; [done|constructor]. }
  destruct (answer_ip a) as [o| | |]; cbn [obind]; try done.
  destruct (answer_ips answers) as [l| | |]; cbn [obind]; try done. intros [= <-].
  destruct (IH l eq_refl) as (r & Hr & Hspec). destruct o as [ip|]; [|by eauto].
  destruct (ip_listed rules ip) as [reason|] eqn:Hi.
  - exists (Some (ip, reason)). split; [done|]. split; [set_solver|done].
  - exists r. split; [done|]. destruct r as [[ip' reason]|].
    + destruct Hspec. split; [set_solver|done].
    + by constructor.
Qed.

End IPLemmas.

(** ** Undelegated names *)

Lemma view_fold_insert {T} `{PrefixTrieLaws unit T} (lines : list bytes) (t : T) k :
  is_Some (trie_view (foldl (λ t line, trie_insert (StringReverse line) tt t) t lines) !! k) ↔
  is_Some (trie_view t !! k) ∨ ∃ line, line ∈ lines ∧ k = StringReverse line.
Proof.
  revert t. induction lines as [|l lines IH]; intros t; cbn [foldl].
  - set_solver.
  - rewrite IH, view_insert. destruct (trie_view t !! StringReverse l) eqn:Hl.
    + split; [set_solver|]. intros [Hk|(line & Hin & ->)]; [by auto|].
      apply elem_of_cons in Hin as [->|Hin]; [left; by rewrite Hl|by eauto].
    + rewrite lookup_insert_is_Some. destruct (decide (StringReverse l = k)); set_solver.
Qed.

(** No undelegated name lies below another one. *)
Definition below (a b : bytes) : bool := HasSuffix a (46 :: b).
Definition not_nested (l : list bytes) : bool := forallb (λ a, forallb (λ b, negb (below a b)) l) l.

Lemma undelegatedSet_not_nested : not_nested undelegatedSet = true.
Proof. vm_compute. reflexivity. Qed.

Lemma undelegatedSet_ascii : Forall ascii undelegatedSet.
Proof. by apply (bool_decide_unpack _); vm_compute. Qed.

(** Of two keys that are prefixes of the reversed name, the longer one is on a
    label boundary or names something below the shorter one. *)
Lemma longer_zone_below (q z z' : bytes) :
  in_zone q z → HasPrefix (reverse q) (reverse z') = true → (length z ≤ length z')%nat →
  z' = z ∨ below z' z = true.
Proof.
  intros Hz [t Ht]%HasPrefix_spec Hl.
  assert (∃ u, reverse q = reverse z ++ u ∧ (u = [] ∨ ∃ u', u = 46 :: u')) as (u & Hu & Hdot).
  { destruct Hz as [->|[r ->]]; [exists []; rewrite app_nil_r; by auto|].
    exists (46 :: reverse r). rewrite reverse_app, reverse_cons, <- app_assoc. by eauto. }
  rewrite Hu in Ht. apply app_eq_inv in Ht as [(v & Hv & Ht)|(v & Hv & Ht)].
  - left. apply (f_equal length) in Hv as Hlen. rewrite length_app, !length_reverse in Hlen.
    assert (v = []) as -> by (destruct v; [done|cbn in Hlen; lia]).
    rewrite app_nil_r in Hv. by apply (inj reverse) in Hv.
  - destruct v as [|c v]; [left; rewrite app_nil_r in Hv; by apply (inj reverse) in Hv|].
    destruct Hdot as [->|[u' ->]]; [done|]. injection Ht as <- _. right.
    apply HasSuffix_spec. exists (reverse v).
    rewrite <- (reverse_involutive z'), Hv, reverse_app, reverse_cons, reverse_involutive. by rewrite <- app_assoc.
Qed.

Lemma undelegated_longest {T} `{PrefixTrieLaws unit T} q p :
  ascii q → trie_longest (reverse q) (PluginBlockUndelegated_Init (T := T)) = Some (p, tt) →
  (∃ z, z ∈ undelegatedSet ∧ in_zone q z) ↔ on_label (reverse q) p = true.
Proof.
  intros Ha Hl. apply longest_Some in Hl as (Hp & Hpre & Hmax).
  assert (∀ k, is_Some (trie_view (PluginBlockUndelegated_Init (T := T)) !! k) ↔
            ∃ z, z ∈ undelegatedSet ∧ k = reverse z) as Hview.
  { intros k. unfold PluginBlockUndelegated_Init. rewrite view_fold_insert, view_new, lookup_empty.
    pose proof undelegatedSet_ascii as Has. rewrite list.Forall_forall in Has.
    split; [intros [[??]|(z & Hz & ->)]; [done|]|intros (z & Hz & ->); right];
      exists z; by rewrite StringReverse_ascii by by apply Has. }
  destruct (proj1 (Hview p)) as (z' & Hz' & ->); [by eexists|]. rewrite on_label_zone by done.
  rewrite reverse_involutive. split; [|by eauto]. intros (z & Hz & Hin).
  destruct (longer_zone_below q z z' Hin Hpre) as [->|Hb]; [|done|].
  - assert (length (reverse z) ≤ length (reverse z'))%nat as Hlen; [|by rewrite !length_reverse in Hlen].
    apply Hmax; [apply Hview; by eauto|]. apply HasPrefix_spec. destruct Hin as [->|[r ->]].
    + exists []. by rewrite app_nil_r.
    + rewrite reverse_app, reverse_cons, <- app_assoc. by eauto.
  - pose proof undelegatedSet_not_nested as Hn. unfold not_nested in Hn. rewrite forallb_forall in Hn.
    specialize (Hn z' (proj1 (list_elem_of_In _ _) Hz')). rewrite forallb_forall in Hn.
    specialize (Hn z (proj1 (list_elem_of_In _ _) Hz)). by rewrite Hb in Hn.
Qed.

Lemma undelegated_none {T} `{PrefixTrieLaws unit T} q z :
  trie_longest (reverse q) (PluginBlockUndelegated_Init (T := T)) = None →
  z ∈ undelegatedSet → in_zone q z → False.
Proof.
  intros Hl Hz Hin. pose proof undelegatedSet_ascii as Has. rewrite list.Forall_forall in Has.
  eapply (longest_None _ _ (reverse z)) in Hl.
  - apply not_true_iff_false in Hl. apply Hl, HasPrefix_spec. destruct Hin as [->|[r ->]].
    + exists []. by rewrite app_nil_r.
    + rewrite reverse_app, reverse_cons, <- app_assoc. by eauto.
  - apply view_fold_insert. right. exists z. by rewrite StringReverse_ascii by by apply Has.
Qed.

(** * Theorems *)

Section BlockTheorems.
Context `{UnicodeTables} `{NetLib} {T : Type} `{PrefixTrieLaws (option Ranges) T} {C : Type}.

(** A block file that is a list of domain names. It loads; a query is then
    rejected only if its name is one of the names or below one; and it is rejected
    if it is at or below a listed name, provided no longer listed name is a
    suffix of the query's name that starts inside a label. *)
Theorem block_names_file (ps : list bytes) ranges env (w : World C) s msg :
  Forall zone_line ps → ps ≠ [] → ascii s.(qName) → s.(whitelisted) = false →
  ∃ rules w' s', PluginBlockName_Init (T := T) (Ok (Join ps [10])) ranges None = Ok rules ∧
    PluginBlockName_Eval env (Some rules) w s msg = Ok (w', s', msg, None) ∧
    (s' = s ∨ s' = rejected s ∧ ∃ p, p ∈ ps ∧ in_zone s.(qName) p) ∧
    (∀ p, p ∈ ps → in_zone s.(qName) p → (2 ≤ length s.(qName))%nat → clear_suffix ps s.(qName) p →
       s' = rejected s).
Proof.
  intros Hps Hne Ha Hw. destruct (zone_file_Init ps ranges None Hps Hne) as (m & HI & Hm). eexists. 
  edestruct (PluginBlockName_rejects env {| nr_patternMatcher := m; nr_logger := None |} w s msg)
    as (w' & s' & HE & Hs'); [done..|].
  exists w', s'. split; [exact HI|]. split; [done|]. split.
  - case_decide as Hd; [right|by left]. split; [done|]. apply (only_zones_matches ps m); [done|].
    apply rejects_sound; [done|]. by apply (only_zones_applies ps m None env).
  - intros p Hp Hz Hl Hin. rewrite decide_True in Hs'; [done|]. by eapply zone_applies.
Qed.

(** Blocking of aliases. When the answers' targets are proper names, the
    response is rejected exactly if one of the targets of its first eight CNAME
    records and alias-mode SVCB or HTTPS records is a blocked name, and otherwise
    left alone. A query on the allow list, by name or by address, is never
    rejected by name or by address. *)
Theorem block_name_aliases env (bn : NameRules T) (w : World C) s msg names :
  can_log bn.(nr_logger) s → alias_names msg.(Answer) = Ok names →
  ∃ w', PluginBlockNameResponse_Eval env (Some bn) w s msg =
    Ok (w', if decide (s.(whitelisted) = false ∧ blocked_among env bn (take 8 names)) then rejected s else s, msg, None).
Proof.
  intros Hlog Hn. unfold PluginBlockNameResponse_Eval. destruct (whitelisted s).
  - exists w. rewrite decide_False; [done|]. by intros [? _].
  - destruct (check_aliases_spec env bn (qName s) 7 (Answer msg) w s names Hlog Hn) as [w' Hw'].
    exists w'. change aliasesLimit with 8%nat. rewrite Hw'. cbn [obind]. do 4 f_equal.
    by repeat case_decide; naive_solver.
Qed.

End BlockTheorems.

Section IPTheorems.
Context `{UnicodeTables} `{NetLib} {T : Type} `{PrefixTrieLaws unit T} {C : Type}.

(** C29: Blocking of addresses. A response is rejected only if one of its
    addresses is in the file or starts with a listed prefix that ends at a group
    boundary; it is rejected if one is, provided every listed prefix of that
    address ends at a group boundary. Allowed responses are let through. *)
Theorem block_ip_spec env (rules : IPRules T) (w : World C) s msg ips :
  can_log rules.(ir_logger) s → answer_ips msg.(Answer) = Ok ips →
  ∃ w' s', PluginBlockIP_Eval env rules w s msg = Ok (w', s', msg, None) ∧
    (s' = s ∨ s' = rejected s ∧ s.(whitelisted) = false ∧ ∃ ip, ip ∈ ips ∧ ip_rule_matches rules ip) ∧
    (∀ ip, s.(whitelisted) = false → ip ∈ ips → no_inner_prefix rules ip → ip_rule_matches rules ip → s' = rejected s).
Proof.
  intros Hlog Hips. unfold PluginBlockIP_Eval. destruct (whitelisted s) eqn:Hw.
  { exists w, s. split_and!; [done|by left|done]. }
  destruct (first_listed_spec rules _ _ Hips) as ([[ip reason]|] & -> & Hspec); cbn [obind].
  - destruct Hspec as [Hin Hl].
    destruct (log_client_ok env (ir_logger rules) s (rejected s) [(str "qname", qName (rejected s)); (str "ip", ip); (str "message", reason)] w) as [w' Hw']; [done..|].
    unfold rejected in *. rewrite Hw'. cbn [obind]. exists w'. eexists. split; [reflexivity|]. split; [|done].
    right. split; [done|]. split; [done|]. exists ip. split; [done|]. apply ip_listed_sound. by eexists.
  - exists w, s. split_and!; [done|by left|]. intros ip _ Hin Hno Hm. rewrite list.Forall_forall in Hspec.
    apply ip_listed_complete in Hm; [|done]. rewrite (Hspec ip Hin) in Hm. by destruct Hm.
Qed.

(** C28: Undelegated names. A query is answered with NXDOMAIN exactly if its name
    is one of the undelegated names or below one of them; every other query is
    left alone. *)
Theorem undelegated_spec (w : World C) s msg :
  ascii s.(qName) → msg_wf msg →
  ∃ s', PluginBlockUndelegated_Eval (PluginBlockUndelegated_Init (T := T)) w s msg = Ok (w, s', msg, None) ∧
    ((∃ z, z ∈ undelegatedSet ∧ in_zone s.(qName) z) →
       ∃ r, s' = answer_with s (r <| Rcode_ := RcodeNameError |>) PluginsReturnCodeSynth ∧ is_empty_response msg r) ∧
    ((¬ ∃ z, z ∈ undelegatedSet ∧ in_zone s.(qName) z) → s' = s).
Proof.
  intros Ha Hwf. unfold PluginBlockUndelegated_Eval. rewrite StringReverse_ascii by done.
  destruct (trie_longest _ _) as [[p []]|] eqn:Hl.
  - pose proof (undelegated_longest (qName s) p Ha Hl) as Hiff.
    destruct (on_label _ _).
    + destruct (EmptyResponse_ok msg) as (r & Hr & He); [done|]. unfold answer_NXDOMAIN. rewrite Hr. cbn [obind].
      eexists. split; [reflexivity|]. split; [by eauto|]. intros Hn. by destruct Hn; apply Hiff.
    + exists s. split_and!; [done| |done]. by intros Hz%Hiff.
  - exists s. split_and!; [done| |done]. intros (z & Hz & Hin). by destruct (undelegated_none (T := T) _ _ Hl Hz Hin).
Qed.

End IPTheorems.

(** * Witnesses *)

Section BlockExamples.
#[local] Existing Instance ascii_tables.

(** Dotted decimals for IPv4; other addresses are not printed. *)
Definition dec3 (b : Z) : bytes :=
  if b <? 10 then [48 + b] else if b <? 100 then [48 + b / 10; 48 + b mod 10]
  else [48 + b / 100; 48 + b / 10 mod 10; 48 + b mod 10].
Definition dotted (ip : IP) : bytes := Join (dec3 <$> To4 ip) [46].
#[local] Instance dotted_net : NetLib := {| net_ParseIP := λ _, []; IP_String := dotted |}.

Definition plain_state (proto : string) (name : string) : PluginsState :=
  (NewPluginsState {| cfg_cacheSize := 4; cfg_cacheNegMinTTL := 60; cfg_cacheNegMaxTTL := 600;
                     cfg_cacheMinTTL := 60; cfg_cacheMaxTTL := 86400; cfg_rejectTTL := 600; cfg_timeout := 5000 |}
    (str proto) (Some (UDPClient [192; 0; 2; 1])) (str "udp") 0) <| qName := str name |>.

Definition noon : PEnv := {|
  clock := λ _, 0; rand := λ _, 0; date := (2022, 7, 5); weekday := 0; hour := 12; minute := 0; second := 0;
  LookupIP := λ _, Err (EMsg "no such host"); dns_Exchange := λ _ _ _, Err ETimeout;
  subquery := λ _, Ok None |}.

Definition no_world : World unit := {| w_cache := None; w_cloak := ∅; w_logs := [] |}.

Definition sample_zones : list bytes := [str "ads.example"; str "tracker.org"].

Example block_names_file_wit :
  ∃ rules w' , PluginBlockName_Init (T := gmap bytes (option Ranges)) (Ok (Join sample_zones [10])) ∅ None = Ok rules ∧
    PluginBlockName_Eval noon (Some rules) no_world (plain_state "udp" "x.ads.example") empty_Msg =
      Ok (w', rejected (plain_state "udp" "x.ads.example"), empty_Msg, None).
Proof.
  destruct (block_names_file (T := gmap bytes (option Ranges)) sample_zones ∅ noon no_world
    (plain_state "udp" "x.ads.example") empty_Msg) as (rules & w' & s' & Hi & HE & _ & Hc).
  - repeat constructor; try (by eexists _, _; split_and!); by apply (bool_decide_unpack _); vm_compute.
  - done.
  - by apply (bool_decide_unpack _); vm_compute.
  - done.
  - exists rules, w'. split; [done|]. rewrite HE. do 4 f_equal. apply (Hc (str "ads.example")).
    + by apply (bool_decide_unpack _); vm_compute.
    + right. by exists (str "x").
    + vm_compute. lia.
    + intros p' Hp' _ Hs. apply elem_of_cons in Hp' as [->|Hp'%list_elem_of_singleton]; [right; by exists (str "x")|].
      subst p'. by vm_compute in Hs.
Defined.

Definition zone_rules : NameRules (gmap bytes (option Ranges)) :=
  match PluginBlockName_Init (Ok (Join sample_zones [10])) ∅ None with
  | Ok r => r | _ => {| nr_patternMatcher := NewPatternMatcher; nr_logger := None |} end.

Definition cname_response : Msg :=
  empty_Msg <| Answer := [{| Hdr := inet (str "www.example.com.") TypeCNAME 60; Data := rCNAME (str "X.Tracker.org.") |}] |>.

Example block_name_aliases_wit :
  ∃ w', PluginBlockNameResponse_Eval noon (Some zone_rules) no_world (plain_state "udp" "www.example.com") cname_response =
    Ok (w', rejected (plain_state "udp" "www.example.com"), cname_response, None).
Proof.
  destruct (block_name_aliases noon zone_rules no_world (plain_state "udp" "www.example.com") cname_response
    [str "x.tracker.org"]) as [w' Hw']; [by vm_compute|by vm_compute|].
  exists w'. rewrite Hw'. rewrite decide_True; [done|]. split; [done|]. apply Exists_cons_hd. vm_compute. by eexists.
Defined.

Definition ip_rules (lines : list string) : IPRules (gmap bytes unit) :=
  match PluginBlockIP_Init (Ok (Join (str <$> lines) [10])) None with
  | Ok r => r | _ => {| ir_prefixes := ∅; ir_ips := ∅; ir_logger := None |} end.

Definition a_response (ip : IP) : Msg :=
  empty_Msg <| Answer := [{| Hdr := inet (str "www.example.com.") TypeA 60; Data := rA ip |}] |>.

Example block_ip_spec_wit :
  ∃ w', PluginBlockIP_Eval noon (ip_rules ["192.168.*"]) no_world (plain_state "udp" "www.example.com")
          (a_response [192; 168; 10; 7]) =
    Ok (w', rejected (plain_state "udp" "www.example.com"), a_response [192; 168; 10; 7], None).
Proof.
  destruct (block_ip_spec noon (ip_rules ["192.168.*"]) no_world (plain_state "udp" "www.example.com")
    (a_response [192; 168; 10; 7]) [str "192.168.10.7"]) as (w' & s' & HE & _ & Hs'); [by vm_compute|by vm_compute|].
  exists w'. rewrite HE. do 4 f_equal. apply (Hs' (str "192.168.10.7")); [reflexivity|apply list_elem_of_here| |].
  - intros p Hp _. change (is_Some (({[str "192.168" := tt]} : gmap bytes unit) !! p)) in Hp.
    destruct Hp as [? Hp]. apply lookup_singleton_Some in Hp as [<- _]. by vm_compute.
  - right. exists (str "192.168"). split_and!; [by vm_compute; eexists|by vm_compute..].
Defined.

(** Two rules of the documented form, one for a network and one for a part of
    it, let through an address of the network that the first rule alone blocks:
    the search stops at the longest listed prefix, 192.168.1, which ends
    inside the group 10. *)
Theorem block_ip_misses_prefix :
  let s := plain_state "udp" "www.example.com" in
  PluginBlockIP_Eval noon (ip_rules ["192.168.*"]) no_world s (a_response [192; 168; 10; 7]) =
    Ok (no_world, rejected s, a_response [192; 168; 10; 7], None) ∧
  PluginBlockIP_Eval noon (ip_rules ["192.168.*"; "192.168.1.*"]) no_world s (a_response [192; 168; 10; 7]) =
    Ok (no_world, s, a_response [192; 168; 10; 7], None) ∧
  ip_rule_matches (ip_rules ["192.168.*"; "192.168.1.*"]) (str "192.168.10.7").
Proof.
  split_and!; [by vm_compute..|]. right. exists (str "192.168").
  split_and!; [by vm_compute; eexists|by vm_compute..].
Qed.

Example undelegated_spec_wit :
  ∃ r, PluginBlockUndelegated_Eval (PluginBlockUndelegated_Init (T := gmap bytes unit)) no_world
         (plain_state "udp" "printer.local") empty_Msg =
       Ok (no_world, answer_with (plain_state "udp" "printer.local") (r <| Rcode_ := RcodeNameError |>) PluginsReturnCodeSynth,
           empty_Msg, None).
Proof.
  destruct (undelegated_spec (T := gmap bytes unit) no_world (plain_state "udp" "printer.local") empty_Msg)
    as (s' & HE & Hz & _).
  - by apply (bool_decide_unpack _); vm_compute.
  - constructor.
  - destruct Hz as (r & -> & _); [|by exists r]. exists (str "local"). split.
    + by apply (bool_decide_unpack _); vm_compute.
    + right. by exists (str "printer").
Defined.

End BlockExamples.
