(* ===== verification/RewritePlugins.v ===== *)
(** The plugins that rewrite queries or answer them from rules:
    plugin_get_set_payload_size.go, plugin_querymeta.go, plugin_ecs.go,
    plugin_captive_portal.go with coldstart.go, plugin_forward.go, plugin_cloak.go
    and plugin_dns64.go; and the plugins that only log: plugin_nx_log.go and
    plugin_query_log.go. *)
From stdpp Require Import pretty.
From S2P Require Import Prelude.
From S2P Require Import GoStrings.
From S2P Require Import Common.
From S2P Require Import LogLines.
From S2P Require Import ServerTypes.
From S2P Require Import Crypto.
From S2P Require Import PatternMatcher.
From S2P Require Import DnsMsg.
From S2P Require Import DnsUtils.
From S2P Require Import ServersInfo.
From S2P Require Import XTransport.
From S2P Require Import Plugins.
From S2P Require Import BlockPlugins.

(** * EDNS0 *)

(** [extra.( *dns.OPT).Option]: the type assertion panics on other data. *)
Definition opt_options (rr : RR) : Out (list EDNS0) :=
  match rr.(Data) with rOPT o => Ok o | _ => Panic end.

(** The loop of the payload size plugin: the records other than OPT, and the
    first non-empty option list. *)
Fixpoint split_extra (extra : list RR) : Out (list RR * option (list EDNS0)) :=
  match extra with
  | [] => Ok ([], None)
  | rr :: extra =>
      if negb (is_OPT rr) then
        let! (l, o) := split_extra extra in Ok (rr :: l, o)
      else
        let! xoptions := opt_options rr in
        let! (l, o) := split_extra extra in
        Ok (l, match xoptions with [] => o | _ => Some xoptions end)
  end.

(** Writes the options of the first OPT record. *)
Definition set_first_options (extra : list RR) (options : list EDNS0) : list RR :=
  match list_find (λ rr, is_OPT rr = true) extra with
  | Some (i, rr) => <[i := {| Hdr := rr.(Hdr); Data := rOPT options |}]> extra
  | None => extra
  end.

Section Edns.
Context {C : Type}.

Definition PluginGetSetPayloadSize_Eval (w : World C) (s : PluginsState) (msg : Msg) : Out (Evaluated C) :=
  let original := 512 - ResponseOverhead in
  let! edns0 := IsEdns0 msg in
  let '(safe, original, do) :=
    match edns0 with
    | Some (opt, _) => (UDPSize opt, Max (UDPSize opt - ResponseOverhead) original, Do opt)
    | None => (s.(maxUnencryptedUDPSafePayloadSize), original, false)
    end in
  let maxSize := Min (MaxDNSUDPPacketSize - ResponseOverhead) (Max original s.(maxPayloadSize)) in
  let s := s <| originalMaxPayloadSize := original |> <| maxUnencryptedUDPSafePayloadSize := safe |>
             <| dnssec := do |> <| maxPayloadSize := maxSize |> in
  if 512 <? maxSize then
    let! (extra2, options) := split_extra msg.(Extra) in
    let msg := SetEdns0 (msg <| Extra := extra2 |>) (u16 maxSize) do in
    let msg := match options with
               | Some o => msg <| Extra := set_first_options msg.(Extra) o |>
               | None => msg
               end in
    Ok (w, s, msg, None)
  else Ok (w, s, msg, None).

(** [PluginQueryMeta.Init] and [Eval]. *)
Definition PluginQueryMeta_Init (queryMeta : list bytes) : RR :=
  {| Hdr := inet (str ".") TypeTXT 86400; Data := rTXT queryMeta |}.

Definition PluginQueryMeta_Eval (queryMetaRR : RR) (w : World C) (s : PluginsState) (msg : Msg) : Out (Evaluated C) :=
  Ok (w, s, msg <| Extra := [queryMetaRR] |>, None).

(** [net.IPNet] with the result of [Mask.Size()]. *)
Record IPNet := { net_IP : IP; net_bits : Z; net_total : Z }.

Definition has_subnet (options : list EDNS0) : bool := existsb (λ o, Option_ o =? EDNS0SUBNET) options.

Definition PluginECS_Eval (nets : list IPNet) (env : PEnv) (w : World C) (s : PluginsState) (msg : Msg) : Out (Evaluated C) :=
  let! options :=
    match list_find (λ rr, is_OPT rr = true) msg.(Extra) with
    | Some (_, rr) => let! o := opt_options rr in Ok (Some o)
    | None => Ok None
    end in
  match options with
  | Some o => if has_subnet o then unchanged w s msg else
      let! i := Intn (rand env 0) (len nets) in
      let! net := orPanic (index nets i) in
      if (net.(net_total) =? 32) || (net.(net_total) =? 128) then
        let prr := EDNS0_SUBNET (if net.(net_total) =? 32 then 1 else 2) (u8 net.(net_bits)) 0 net.(net_IP) in
        Ok (w, s, msg <| Extra := set_first_options msg.(Extra) (o ++ [prr]) |>, None)
      else unchanged w s msg
  | None =>
      let msg := SetEdns0 msg (u16 s.(maxPayloadSize)) false in
      let! i := Intn (rand env 0) (len nets) in
      let! net := orPanic (index nets i) in
      if (net.(net_total) =? 32) || (net.(net_total) =? 128) then
        let prr := EDNS0_SUBNET (if net.(net_total) =? 32 then 1 else 2) (u8 net.(net_bits)) 0 net.(net_IP) in
        Ok (w, s, msg <| Extra := set_first_options msg.(Extra) [prr] |>, None)
      else Ok (w, s, msg, None)
  end.

End Edns.

(** * Captive portals *)

Definition CaptivePortalMap : Type := gmap bytes (list IP).

Definition GetEntry (ipsMap : CaptivePortalMap) (msg : Msg) : option (Question * list IP) :=
  match msg.(Questions) with
  | [question] =>
      match NormalizeQName question.(qn_Name) with
      | Ok name =>
          match ipsMap !! name with
          | Some ips => if question.(Qclass) =? ClassINET then Some (question, ips) else None
          | None => None
          end
      | _ => None
      end
  | _ => None
  end.

(** The address records for a name. *)
Definition a_records (name : bytes) (ttl : Z) (ips : list IP) : list RR :=
  (λ ip, {| Hdr := inet name TypeA ttl; Data := rA ip |}) <$> ips.
Definition aaaa_records (name : bytes) (ttl : Z) (ips : list IP) : list RR :=
  (λ ip, {| Hdr := inet name TypeAAAA ttl; Data := rAAAA ip |}) <$> ips.

Definition ipv4s (ips : list IP) : list IP := To4 <$> filter (λ ip, To4 ip ≠ []) ips.
Definition ipv6s (ips : list IP) : list IP :=
  To16 <$> filter (λ ip, To4 ip = [] ∧ To16 ip ≠ []) ips.

Definition HandleCaptivePortalQuery (msg : Msg) (question : Question) (ips : list IP) : Out Msg :=
  let! respMsg := EmptyResponseFromMessage msg in
  if question.(Qtype) =? TypeA then
    Ok (respMsg <| Answer := respMsg.(Answer) ++ a_records question.(qn_Name) 1 (ipv4s ips) |>)
  else if question.(Qtype) =? TypeAAAA then
    Ok (respMsg <| Answer := respMsg.(Answer) ++ aaaa_records question.(qn_Name) 1 (ipv6s ips) |>)
  else Ok respMsg.

Definition PluginCaptivePortal_Eval {C} (ipsMap : CaptivePortalMap) (w : World C) (s : PluginsState) (msg : Msg)
    : Out (Evaluated C) :=
  match GetEntry ipsMap msg with
  | None => unchanged w s msg
  | Some (question, ips) =>
      let! synth := HandleCaptivePortalQuery msg question ips in
      Ok (w, s <| synthResponse := Some synth |> <| action := PluginsActionSynth |>, msg, None)
  end.

Section ColdStart.
Context `{NetLib} `{Codec}.

(** The addresses of a rule, all of them valid. *)
Fixpoint parse_ips (l : list bytes) : option (list IP) :=
  match l with
  | [] => Some []
  | ip :: l =>
      let ip := net_ParseIP (TrimSpace ip) in
      if bool_decide (ip = []) then None
      else ips ← parse_ips l; Some (ip :: ips)
  end.

Definition captive_rule_error : error := EMsg "Syntax error for a captive portal rule".

(** [ColdStart]'s loop over the lines of the captive portal file. *)
Fixpoint load_captive_rules (lines : list bytes) (ipsMap : CaptivePortalMap) : Out CaptivePortalMap :=
  match lines with
  | [] => Ok ipsMap
  | line :: lines =>
      let line := TrimAndStripInlineComments line in
      if (length line =? 0)%nat then load_captive_rules lines ipsMap
      else
        let '(name, ipsStr, ok) := StringTwoFields line in
        if negb ok then Err captive_rule_error
        else
          match NormalizeQName name with
          | Ok name =>
              match parse_ips (Split ipsStr (str ",")) with
              | Some ips => load_captive_rules lines (<[name := ips]> ipsMap)
              | None => Err captive_rule_error
              end
          | _ => load_captive_rules lines ipsMap
          end
  end.

(** [handleColdStartClient]: what a read from the socket makes it send, and
    whether it stops. *)
Definition handleColdStartClient (ipsMap : CaptivePortalMap) (cancelled : bool) (read : Out bytes)
    : Out (option bytes * bool) :=
  if cancelled then Ok (None, true)
  else
    match read with
    | Err ETimeout => Ok (None, false)
    | Err _ => Ok (None, true)
    | Panic => Panic
    | Fatal => Fatal
    | Ok packet =>
        match Unpack packet with
        | Ok msg =>
            match GetEntry ipsMap msg with
            | None => Ok (None, false)
            | Some (question, ips) =>
                let! respMsg := HandleCaptivePortalQuery msg question ips in
                match Pack respMsg with
                | Ok response => Ok (Some response, false)
                | _ => Ok (None, false)
                end
            end
        | _ => Ok (None, false)
        end
    end.

End ColdStart.

(** * Forwarding *)

Section Forward.
Context `{UnicodeTables} `{NetLib} {C : Type}.

Record PluginForwardEntry := { domain : bytes; servers : list bytes }.

Definition forward_error : error := EMsg "Syntax error for a forwarding rule".

(** A server of a rule: the default port is appended to addresses without one. *)
Definition forward_server (server : bytes) : bytes :=
  let server := TrimSpace server in
  if bool_decide (net_ParseIP server = []) then server else server ++ str ":53".

Fixpoint load_forward_rules (lines : list bytes) : Out (list PluginForwardEntry) :=
  match lines with
  | [] => Ok []
  | line :: lines =>
      let line := TrimAndStripInlineComments line in
      if (length line =? 0)%nat then load_forward_rules lines
      else
        let '(name, serversStr, ok) := StringTwoFields line in
        if negb ok then Err forward_error
        else
          let! rest := load_forward_rules lines in
          Ok ({| domain := ToLower name; servers := forward_server <$> Split serversStr (str ",") |} :: rest)
  end.

Definition PluginForward_Init (file : Out bytes) : Out (list PluginForwardEntry) :=
  let! bin := file in load_forward_rules (Split (ReadTextFile bin) [10]).

(** The loop's condition, with the accesses of the code in range. *)
Definition forward_matches (qName : bytes) (candidate : PluginForwardEntry) : bool :=
  let n := length qName in
  let k := length candidate.(domain) in
  if (n <? k)%nat then false
  else
    bool_decide (drop (n - k) qName = candidate.(domain)) &&
    ((k =? n)%nat || bool_decide (qName !! (n - k - 1)%nat = Some 46)).

Definition forward_servers (forwardMap : list PluginForwardEntry) (qName : bytes) : list bytes :=
  match list_find (λ c, forward_matches qName c = true) forwardMap with
  | Some (_, c) => c.(servers)
  | None => []
  end.

Definition PluginForward_Eval (forwardMap : list PluginForwardEntry) (env : PEnv) (w : World C)
    (s : PluginsState) (msg : Msg) : Out (Evaluated C) :=
  let servers := forward_servers forwardMap s.(qName) in
  if (length servers =? 0)%nat then unchanged w s msg
  else
    let! i := Intn (rand env 0) (len servers) in
    let! server := orPanic (index servers i) in
    let s := s <| serverName := server |> in
    let failed (e : error) : Out (Evaluated C) := Ok (w, s, msg, Some e) in
    let finish (respMsg : Msg) : Out (Evaluated C) :=
      let! edns0 := IsEdns0 respMsg in
      let ad := match edns0 with Some (opt, _) => Do opt | None => false end in
      let respMsg := if ad then respMsg else respMsg <| AuthenticatedData := false |> in
      Ok (w, answer_with s (respMsg <| Id := msg.(Id) |>) PluginsReturnCodeForward, msg, None) in
    match dns_Exchange env s.(serverProto) msg server with
    | Err e => failed e
    | Panic => Panic
    | Fatal => Fatal
    | Ok respMsg =>
        if respMsg.(Truncated) then
          match dns_Exchange env (str "tcp") msg server with
          | Err e => failed e
          | Panic => Panic
          | Fatal => Fatal
          | Ok respMsg => finish respMsg
          end
        else finish respMsg
    end.

End Forward.

(** * Cloaking *)

Section Cloak.
Context `{UnicodeTables} `{NetLib} {T : Type} `{PrefixTrie (option nat) T} {C : Type}.

(** [dns.ReverseAddr] of a valid address: its name under in-addr.arpa. or
    ip6.arpa., with the final dot. *)
Context (ReverseAddr : bytes → bytes).

(** Rules name their target through a pointer: an index in a table of targets. *)
Abbreviation matcher := (PatternMatcher nat T).

Definition new_CloakedName : CloakedName := {|
  cl_target := []; cl_ipv4 := None; cl_ipv6 := None; cl_lastUpdate := None;
  cl_lineNo := 0; cl_isIP := false; cl_PTR := [] |}.

Definition append_ip (l : option (list IP)) (ip : IP) : option (list IP) := Some (default [] l ++ [ip]).

Definition ptrEntryToQuery (ptrEntry : bytes) : bytes := str "=" ++ ptrEntry.
Definition ptrNameToFQDN (ptrLine : bytes) : bytes := TrimPrefix ptrLine (str "=") ++ str ".".

(** The targets and the map [cloakedNames] of pointers to them. *)
Record CloakState := { cs_heap : gmap nat CloakedName; cs_names : gmap bytes nat }.

(** [cloakedName, found := cloakedNames[line]], or a new target. *)
Definition cloak_entry (cs : CloakState) (line : bytes) : nat * CloakedName :=
  match cs.(cs_names) !! line with
  | Some i => (i, default new_CloakedName (cs.(cs_heap) !! i))
  | None => (size cs.(cs_heap), new_CloakedName)
  end.

Definition cloak_store (cs : CloakState) (line : bytes) (i : nat) (c : CloakedName) : CloakState :=
  {| cs_heap := <[i := c]> cs.(cs_heap); cs_names := <[line := i]> cs.(cs_names) |}.

(** Registers the PTR record of a rule; [ip] is the address of the current line
    (nil if its target is a name). *)
Definition add_ptr (cs : CloakState) (lineNo : Z) (line : bytes) (ip : IP) (c : CloakedName) : Out CloakState :=
  let! reversed :=
    if negb (bool_decide (To4 ip = [])) then Ok (ReverseAddr (IP_String (To4 ip)))
    else
      let! ip6 := orPanic (head (default [] c.(cl_ipv6))) in
      Ok (ReverseAddr (IP_String (To16 ip6))) in
  let ptrQueryLine := ptrEntryToQuery (TrimSuffix reversed (str ".")) in
  let '(i, pc) := cloak_entry cs ptrQueryLine in
  let pc := pc <| cl_isIP := true |> <| cl_PTR := pc.(cl_PTR) ++ [ptrNameToFQDN line] |>
               <| cl_lineNo := lineNo + 1 |> in
  Ok (cloak_store cs ptrQueryLine i pc).

(** One turn of the loop over the lines of the cloaking file. *)
Definition load_cloak_rule (createPTR : bool) (lineNo : Z) (line : bytes) (cs : CloakState) : Out CloakState :=
  let line := TrimAndStripInlineComments line in
  match Fields line with
  | [a; b] =>
      let line := TrimSpace a in
      let target := TrimSpace b in
      if (length line =? 0)%nat || (length target =? 0)%nat then Ok cs
      else
        let line := ToLower line in
        let '(i, c) := cloak_entry cs line in
        let ip := net_ParseIP target in
        let updated : option CloakedName :=
          if negb (bool_decide (ip = [])) then
            if negb (bool_decide (To4 ip = [])) then
              Some (c <| cl_ipv4 := append_ip c.(cl_ipv4) (To4 ip) |> <| cl_isIP := true |>)
            else if negb (bool_decide (To16 ip = [])) then
              Some (c <| cl_ipv6 := append_ip c.(cl_ipv6) (To16 ip) |> <| cl_isIP := true |>)
            else None
          else Some (c <| cl_target := target |>) in
        match updated with
        | None => Ok cs
        | Some c =>
            let c := c <| cl_lineNo := lineNo + 1 |> in
            let cs := cloak_store cs line i c in
            if negb createPTR || Contains line (str "*") || negb c.(cl_isIP) then Ok cs
            else add_ptr cs lineNo line ip c
        end
  | _ => Ok cs
  end.

Fixpoint load_cloak_rules (createPTR : bool) (lineNo : Z) (lines : list bytes) (cs : CloakState) : Out CloakState :=
  match lines with
  | [] => Ok cs
  | line :: lines =>
      let! cs := load_cloak_rule createPTR lineNo line cs in
      load_cloak_rules createPTR (lineNo + 1) lines cs
  end.

(** [range cloakedNames] visits the keys in the order [keys]. *)
Fixpoint add_cloak_rules (names : gmap bytes nat) (keys : list bytes) (m : matcher) : Out matcher :=
  match keys with
  | [] => Ok m
  | line :: keys =>
      let! m := Add m line (names !! line) in
      add_cloak_rules names keys m
  end.

Record PluginCloak := { pc_patternMatcher : matcher; pc_ttl : Z; pc_createPTR : bool }.

(** [PluginCloak.Init]; [order] is the order of the iteration over the map. *)
Definition PluginCloak_Init (file : Out bytes) (cloakTTL : Z) (cloakedPTR : bool)
    (order : gmap bytes nat → list bytes) : Out (PluginCloak * gmap nat CloakedName) :=
  let! bin := file in
  let! cs := load_cloak_rules cloakedPTR 0 (Split (ReadTextFile bin) [10]) {| cs_heap := ∅; cs_names := ∅ |} in
  let! m := add_cloak_rules cs.(cs_names) (order cs.(cs_names)) NewPatternMatcher in
  Ok ({| pc_patternMatcher := m; pc_ttl := cloakTTL; pc_createPTR := cloakedPTR |}, cs.(cs_heap)).

(** The loop over the addresses found: it ends when either list has 16. *)
Fixpoint collect_ips (found : list IP) (ipv4 ipv6 : option (list IP)) : option (list IP) * option (list IP) :=
  match found with
  | [] => (ipv4, ipv6)
  | ip :: found =>
      if negb (bool_decide (To4 ip = [])) then
        let ipv4 := append_ip ipv4 ip in
        if (16 <=? length (default [] ipv4))%nat then (ipv4, ipv6) else collect_ips found ipv4 ipv6
      else
        let ipv6 := append_ip ipv6 ip in
        if (16 <=? length (default [] ipv6))%nat then (ipv4, ipv6) else collect_ips found ipv4 ipv6
  end.

(** [rand.Shuffle]. *)
Fixpoint shuffle {A} (rnd : nat → Z) (i : nat) (l : list A) : list A :=
  match i with
  | O => l
  | S i' => shuffle rnd i' (swap l i (Z.to_nat (rnd i mod Z.of_nat (S i))))
  end.

Definition Shuffle {A} (env : PEnv) (l : list A) : list A := shuffle (rand env) (length l - 1) l.

(** The TTL of an answer from an entry, and whether the entry is too old. *)
Definition cloak_ttl (plugin : PluginCloak) (now : Z) (c : CloakedName) : Z * bool :=
  match c.(cl_lastUpdate) with
  | Some last =>
      let elapsed := u32 (Z.quot (now - last) Second) in
      if elapsed <? plugin.(pc_ttl) then (plugin.(pc_ttl) - elapsed, false) else (plugin.(pc_ttl), true)
  | None => (plugin.(pc_ttl), false)
  end.

(** The addresses of the target have to be looked up. *)
Definition must_look_up (c : CloakedName) (expired : bool) : bool :=
  negb c.(cl_isIP) && ((bool_decide (c.(cl_ipv4) = None) && bool_decide (c.(cl_ipv6) = None)) || expired).

(** The records of an answer. *)
Definition cloak_records (question : Question) (ttl : Z) (c : CloakedName) : list RR :=
  if question.(Qtype) =? TypeA then a_records question.(qn_Name) ttl (default [] c.(cl_ipv4))
  else if question.(Qtype) =? TypeAAAA then aaaa_records question.(qn_Name) ttl (default [] c.(cl_ipv6))
  else (λ p, {| Hdr := inet question.(qn_Name) TypePTR ttl; Data := rPTR p |}) <$> c.(cl_PTR).

Definition PluginCloak_Eval (plugin : PluginCloak) (env : PEnv) (w : World C) (s : PluginsState) (msg : Msg)
    : Out (Evaluated C) :=
  let! question := orPanic (head msg.(Questions)) in
  let t := question.(Qtype) in
  if negb (question.(Qclass) =? ClassINET) || (negb (t =? TypeA) && negb (t =? TypeAAAA) && negb (t =? TypePTR))
  then unchanged w s msg
  else
    let now := clock env 0 in
    match (Eval plugin.(pc_patternMatcher) s.(qName)).2 with
    | None => unchanged w s msg
    | Some ptr =>
        let! c := orPanic (w.(w_cloak) !! ptr) in
        let '(ttl, expired) := cloak_ttl plugin now c in
        let looked_up : option CloakedName :=
          if must_look_up c expired then
            match LookupIP env c.(cl_target) with
            | Ok foundIPs =>
                let '(ipv4, ipv6) := collect_ips foundIPs None None in
                Some (c <| cl_lastUpdate := Some now |> <| cl_ipv4 := ipv4 |> <| cl_ipv6 := ipv6 |>)
            | _ => None
            end
          else Some c in
        match looked_up with
        | None => unchanged w s msg
        | Some c =>
            let w := w <| w_cloak := <[ptr := c]> w.(w_cloak) |> in
            let! synth := EmptyResponseFromMessage msg in
            Ok (w, answer_with s (synth <| Answer := Shuffle env (cloak_records question ttl c) |>) PluginsReturnCodeCloak, msg, None)
        end
    end.

End Cloak.
Arguments PluginCloak _ : clear implicits.

(** * DNS64 *)

Definition rfc7050WKN : bytes := str "ipv4only.arpa.".
Definition rfc7050WKA1 : IP := [192; 0; 0; 170].
Definition rfc7050WKA2 : IP := [192; 0; 0; 171].

(** The loop of [translateToIPv6], writing the octet [i] of the IPv4 address. *)
Fixpoint embed (octets : bytes) (i ipShift : nat) (ipv6 : IP) : Out IP :=
  match octets with
  | [] => Ok ipv6
  | b :: octets =>
      let ipShift := if (ipShift + i =? 8)%nat then S ipShift else ipShift in
      if (ipShift + i <? 16)%nat then embed octets (S i) ipShift (<[(ipShift + i)%nat := b]> ipv6)
      else Panic
  end.

Definition translateToIPv6 (ipv4 : IP) (prefix : IPNet) : Out IP :=
  let ipv6 := take 16 prefix.(net_IP) ++ replicate (16 - length prefix.(net_IP)) 0 in
  embed ipv4 0 (Z.to_nat (prefix.(net_bits) / 8)) ipv6.

(** The bytes of an address at the given positions. *)
Definition octets_at (ipv6 : IP) (positions : list nat) : bytes := (λ i, ipv6 !!! i) <$> positions.
Definition is_wka (octets : bytes) : bool := bool_decide (octets = rfc7050WKA1 ∨ octets = rfc7050WKA2).

(** The end of the prefix in which a well-known address is embedded. *)
Definition prefEnd (ipv6 : IP) : nat :=
  if is_wka (octets_at ipv6 [12; 13; 14; 15]%nat) then 12
  else if is_wka (octets_at ipv6 [9; 10; 11; 12]%nat) then 8
  else if is_wka (octets_at ipv6 [7; 9; 10; 11]%nat) then 7
  else if is_wka (octets_at ipv6 [6; 7; 9; 10]%nat) then 6
  else if is_wka (octets_at ipv6 [5; 6; 7; 9]%nat) then 5
  else if is_wka (octets_at ipv6 [4; 5; 6; 7]%nat) then 4
  else 0.

#[export] Instance IPNet_eq_dec : EqDecision IPNet.
Proof. solve_decision. Defined.

(** [fetchPref64]'s reading of one address. *)
Definition pref64_of (ipv6 : IP) : option IPNet :=
  if (length ipv6 =? 16)%nat then
    match prefEnd ipv6 with
    | O => None
    | n => Some {| net_IP := take n ipv6 ++ replicate (16 - n) 0; net_bits := Z.of_nat (n * 8); net_total := 128 |}
    end
  else None.

(** The loop over the answers; two prefixes print the same iff they are equal. *)
Fixpoint collect_pref64 (answers : list RR) (prefixes : list IPNet) : Out (list IPNet) :=
  match answers with
  | [] => Ok prefixes
  | answer :: answers =>
      if answer.(Hdr).(Rrtype) =? TypeAAAA then
        match answer.(Data) with
        | rAAAA ipv6 =>
            match pref64_of ipv6 with
            | Some p => collect_pref64 answers (if decide (p ∈ prefixes) then prefixes else prefixes ++ [p])
            | None => collect_pref64 answers prefixes
            end
        | _ => Panic
        end
      else collect_pref64 answers prefixes
  end.

Section DNS64.
Context `{Codec} {C : Type}.

(** [fetchPref64]: the new prefixes. *)
Definition fetchPref64 (env : PEnv) (resolver : bytes) : Out (list IPNet) :=
  let msg := SetQuestion empty_Msg (rand env 0) rfc7050WKN TypeAAAA in
  let! resp := dns_Exchange env [] msg resolver in
  if negb (resp.(Rcode_) =? RcodeSuccess) then Err (EMsg "Unable to fetch Pref64")
  else
    let! prefixes := collect_pref64 resp.(Answer) [] in
    if (length prefixes =? 0)%nat then Err (EMsg "Empty Pref64 list") else Ok prefixes.

(** [refreshPref64]: the first resolver that answers sets the prefixes. *)
Fixpoint refreshPref64 (env : PEnv) (resolvers : list bytes) (pref64 : list IPNet) : Out (list IPNet) :=
  match resolvers with
  | [] => if (length pref64 =? 0)%nat then Err (EMsg "Empty Pref64 list") else Ok pref64
  | resolver :: resolvers =>
      match fetchPref64 env resolver with
      | Ok prefixes => Ok prefixes
      | Err _ => refreshPref64 env resolvers pref64
      | Panic => Panic
      | Fatal => Fatal
      end
  end.

Fixpoint parse_prefixes (ParseCIDR : bytes → Out IPNet) (l : list bytes) : Out (list IPNet) :=
  match l with
  | [] => Ok []
  | s :: l => let! p := ParseCIDR s in let! ps := parse_prefixes ParseCIDR l in Ok (p :: ps)
  end.

Definition PluginDNS64_Init (ParseCIDR : bytes → Out IPNet) (env : PEnv) (listenAddresses dns64Prefixes dns64Resolvers : list bytes)
    : Out (list IPNet) :=
  if (length listenAddresses =? 0)%nat
  then Err (EMsg "At least one listening IP address must be configured for the DNS64 plugin to work")
  else if negb (length dns64Prefixes =? 0)%nat then parse_prefixes ParseCIDR dns64Prefixes
  else if negb (length dns64Resolvers =? 0)%nat then refreshPref64 env dns64Resolvers []
  else Ok [].

Definition hasAAAAAnswer (msg : Msg) : bool := existsb (λ rr, rr.(Hdr).(Rrtype) =? TypeAAAA) msg.(Answer).

(** The TTL of the last SOA record of the authority section. *)
Definition initialTTL (ns : list RR) : Z :=
  foldl (λ ttl rr, if rr.(Hdr).(Rrtype) =? TypeSOA then rr.(Hdr).(Ttl) else ttl) 600 ns.

Fixpoint translate_all (ipv4 : IP) (prefixes : list IPNet) (hdr : RR_Header) : Out (list RR) :=
  match prefixes with
  | [] => Ok []
  | prefix :: prefixes =>
      let! ipv6 := translateToIPv6 ipv4 prefix in
      let! rest := translate_all ipv4 prefixes hdr in
      Ok ({| Hdr := hdr; Data := rAAAA ipv6 |} :: rest)
  end.

(** The loop over the answers of the A query. *)
Fixpoint synthesize (pref64 : list IPNet) (ttl0 : Z) (answers : list RR) : Out (list RR) :=
  match answers with
  | [] => Ok []
  | answer :: answers =>
      let h := answer.(Hdr) in
      let! here :=
        if h.(Rrtype) =? TypeCNAME then Ok [answer]
        else if h.(Rrtype) =? TypeA then
          let ttl := if h.(Ttl) <? ttl0 then h.(Ttl) else ttl0 in
          match answer.(Data) with
          | rA a =>
              if bool_decide (To4 a = []) then Ok []
              else translate_all (To4 a) pref64
                     {| Name := h.(Name); Rrtype := TypeAAAA; Class_ := h.(Class_); Ttl := ttl |}
          | _ => Panic
          end
        else Ok [] in
      let! rest := synthesize pref64 ttl0 answers in
      Ok (here ++ rest)
  end.

(** [PluginDNS64.Eval]. [subquery] runs the A query through the proxy, or does
    not if there are too many clients. *)
Definition PluginDNS64_Eval (pref64 : list IPNet) (env : PEnv) (w : World C) (s : PluginsState) (msg : Msg)
    : Out (Evaluated C) :=
  if hasAAAAAnswer msg then unchanged w s msg
  else
    let! questionMsg := orPanic s.(questionMsg) in
    let! question := orPanic (head questionMsg.(Questions)) in
    if negb (question.(Qclass) =? ClassINET) || negb (question.(Qtype) =? TypeAAAA) then unchanged w s msg
    else
      match Pack (SetQuestion questionMsg (rand env 0) question.(qn_Name) TypeA) with
      | Err e => Ok (w, s, msg, Some e)
      | Panic => Panic
      | Fatal => Fatal
      | Ok msgAPacket =>
          let! sub := subquery env msgAPacket in
          match sub with
          | None => Ok (w, s, msg, Some (EMsg "Too many concurrent connections to handle DNS64 subqueries"))
          | Some respPacket =>
              match Unpack respPacket with
              | Err e => Ok (w, s, msg, Some e)
              | Panic => Panic
              | Fatal => Fatal
              | Ok resp =>
                  if negb (resp.(Rcode_) =? RcodeSuccess) || (length resp.(Answer) =? 0)%nat then unchanged w s msg
                  else
                    let! synth64 := synthesize pref64 (initialTTL resp.(Ns)) resp.(Answer) in
                    let! synth := EmptyResponseFromMessage msg in
                    let synth := synth <| Answer := synth.(Answer) ++ synth64 |> in
                    Ok (w, answer_with s synth PluginsReturnCodeCloak, msg, None)
              end
          end
      end.

End DNS64.

(** * Logs *)

Section Logs.
Context `{UnicodeTables} `{NetLib} {C : Type}.

(** [dns.TypeToString]. *)
Context (TypeToString : Z → option bytes).

(** [qType, ok := dns.TypeToString[t]; if !ok { qType = string(qType) }]: the
    empty string for types without a name. *)
Definition type_name (t : Z) : bytes := default [] (TypeToString t).

Definition PluginNxLog_Eval (env : PEnv) (lg : LogConfig) (w : World C) (s : PluginsState) (msg : Msg) : Out (Evaluated C) :=
  if negb (msg.(Rcode_) =? RcodeNameError) then unchanged w s msg
  else
    let! question := orPanic (head msg.(Questions)) in
    let! ip := clientIP s in
    let clientIPStr := IP_String ip in
    let qType := type_name question.(Qtype) in
    let! w := write_log env lg [clientIPStr; StringQuote s.(qName); qType]
      [(str "host", clientIPStr); (str "message", StringQuote s.(qName)); (str "type", qType)] w in
    Ok (w, s, msg, None).

(** The query was not sent to a server. *)
Definition answered_here (s : PluginsState) : bool :=
  s.(cacheHit) ||
  bool_decide (s.(returnCode) ∈ [PluginsReturnCodeSynth; PluginsReturnCodeCloak; PluginsReturnCodeParseError]).

Definition requestDuration (s : PluginsState) : Z :=
  if negb (s.(requestStart) =? 0) && negb (s.(requestEnd) =? 0) then s.(requestEnd) - s.(requestStart) else 0.

Definition PluginQueryLog_Eval (env : PEnv) (lg : LogConfig) (ignoredQtypes : list bytes) (w : World C)
    (s : PluginsState) (msg : Msg) : Out (Evaluated C) :=
  let! question := orPanic (head msg.(Questions)) in
  let qType := type_name question.(Qtype) in
  if existsb (λ ignored, EqualFold ignored qType) ignoredQtypes then unchanged w s msg
  else
    let! ip := clientIP s in
    let s := if answered_here s then s <| serverName := str "-" |> else s in
    let clientIPStr := IP_String ip in
    let duration := Itoa (Z.quot (requestDuration s) 1000000) in
    let cached := if s.(cacheHit) then str "1" else str "0" in
    let rc := PluginsReturnCodeToString s.(returnCode) in
    let! w := write_log env lg
      [clientIPStr; StringQuote s.(qName); qType; rc; duration ++ str "ms"; StringQuote s.(serverName)]
      [(str "host", clientIPStr); (str "message", StringQuote s.(qName)); (str "type", qType); (str "return", rc);
       (str "cached", cached); (str "duration", duration); (str "server", StringQuote s.(serverName))] w in
    Ok (w, s, msg, None).

End Logs.

(** * Lemmas *)

Lemma split_extra_wf extra :
  Forall opt_wf extra →
  ∃ o, split_extra extra = Ok (filter (λ rr, is_OPT rr = false) extra, o) ∧
       (o = None ∨ ∃ l rr, o = Some l ∧ l ≠ [] ∧ rr ∈ extra ∧ is_OPT rr = true ∧ rr.(Data) = rOPT l).
Proof.
  induction extra as [|rr extra IH]; intros Hwf; cbn [split_extra]; [by eauto|].
  apply list.Forall_cons in Hwf as [Hrr Hwf]. destruct (IH Hwf) as (o & Ho & Hspec).
  rewrite filter_cons. destruct (is_OPT rr) eqn:E; cbn [negb].
  - destruct (Hrr E) as [l Hl]. unfold opt_options. rewrite Hl. cbn [obind]. rewrite Ho. cbn [obind].
    rewrite decide_False by done. eexists. split; [reflexivity|]. destruct l as [|x l].
    + destruct Hspec as [|(l & rr' & ? & ? & ? & ?)]; [by auto|]. right. exists l, rr'. set_solver.
    + right. exists (x :: l), rr. set_solver.
  - rewrite Ho. cbn [obind]. rewrite decide_True by done. eexists. split; [reflexivity|].
    destruct Hspec as [|(l & rr' & ? & ? & ? & ?)]; [by auto|]. right. exists l, rr'. set_solver.
Qed.

Lemma set_first_options_snoc extra size do o o' :
  Forall (λ rr, is_OPT rr = false) extra →
  set_first_options (extra ++ [new_OPT size do o]) o' = extra ++ [new_OPT size do o'].
Proof.
  intros Hall. unfold set_first_options.
  assert (list_find (λ rr, is_OPT rr = true) (extra ++ [new_OPT size do o]) = Some (length extra, new_OPT size do o)) as ->.
  { apply list_find_app_Some. right. split_and!; [lia| |].
    - apply list_find_None. eapply list.Forall_impl; [exact Hall|]. cbn. congruence.
    - rewrite Nat.sub_diag. done. }
  rewrite insert_app_r_alt, Nat.sub_diag by lia. done.
Qed.

Lemma filter_not_OPT extra : Forall (λ rr, is_OPT rr = false) (filter (λ rr, is_OPT rr = false) extra).
Proof. apply list.Forall_forall. intros rr [? _]%list_elem_of_filter. done. Qed.

Lemma forward_matches_zone q c : forward_matches q c = true ↔ in_zone q c.(domain).
Proof.
  unfold forward_matches, in_zone. set (d := domain c). destruct (Nat.ltb_spec (length q) (length d)).
  { split; [done|]. intros [->|[r ->]]; len_lia. }
  rewrite andb_true_iff, orb_true_iff, !bool_decide_eq_true, Nat.eqb_eq. split.
  - intros [Hd Hor]. destruct (decide (length d = length q)) as [Hl|Hl].
    { left. rewrite Hl, Nat.sub_diag in Hd. done. }
    destruct Hor as [|Hdot]; [lia|]. right. exists (take (length q - length d - 1) q).
    rewrite <- (take_drop_middle q _ _ Hdot) at 1. do 2 f_equal.
    etransitivity; [|exact Hd]. f_equal. lia.
  - intros [->|[r ->]].
    + rewrite Nat.sub_diag. auto.
    + rewrite length_app, length_cons. split.
      * replace (length r + S (length d) - length d)%nat with (length (r ++ [46])) by len_lia.
        change (r ++ 46 :: d) with (r ++ [46] ++ d). rewrite app_assoc. apply drop_app_length.
      * right. replace (length r + S (length d) - length d - 1)%nat with (length r) by lia. by apply list_lookup_middle.
Qed.

(** Where RFC 6052 puts an IPv4 address behind a prefix of [k] bytes. *)
Definition rfc6052_positions (k : nat) : list nat :=
  match k with
  | 4 => [4; 5; 6; 7] | 5 => [5; 6; 7; 9] | 6 => [6; 7; 9; 10] | 7 => [7; 9; 10; 11]
  | 8 => [9; 10; 11; 12] | _ => [12; 13; 14; 15]
  end%nat.

(** A NAT64 prefix of [k] bytes. *)
Definition pref64 (pre : bytes) : IPNet :=
  {| net_IP := pre ++ replicate (16 - length pre) 0; net_bits := Z.of_nat (8 * length pre); net_total := 128 |}.

Definition rfc6052_length (k : nat) : Prop := k ∈ [4; 5; 6; 7; 8; 12]%nat.

Ltac destruct_bytes pre :=
  repeat (destruct pre as [|? pre]; try discriminate).

Ltac destruct_pref64 pre H :=
  unfold rfc6052_length in H;
  repeat (apply elem_of_cons in H as [H|H]; [destruct_bytes pre|]); [..|by apply elem_of_nil in H].

(** * Theorems *)

Section EdnsTheorems.
Context {C : Type}.

(** The payload size plugin. A query's additional section ends up with its
    records other than OPT, in order, followed by a single OPT record that
    announces the size the proxy accepts, keeps the client's DO bit and keeps
    the options of one of the client's OPT records if it had any; the state
    records the DO bit, which is part of the cache key. Nothing else of the query
    changes. *)
Theorem payload_size_spec (w : World C) s msg :
  msg_wf msg → s.(maxPayloadSize) = MaxDNSUDPPacketSize - ResponseOverhead →
  ∃ s' o do, PluginGetSetPayloadSize_Eval w s msg =
      Ok (w, s', msg <| Extra := filter (λ rr, is_OPT rr = false) msg.(Extra) ++ [new_OPT s.(maxPayloadSize) do o] |>, None) ∧
    s'.(dnssec) = do ∧ s'.(maxPayloadSize) = s.(maxPayloadSize) ∧
    (o = [] ∨ ∃ rr, rr ∈ msg.(Extra) ∧ is_OPT rr = true ∧ rr.(Data) = rOPT o) ∧
    match IsEdns0 msg with
    | Ok (Some (opt, _)) => do = Do opt ∧ s'.(maxUnencryptedUDPSafePayloadSize) = UDPSize opt
    | _ => do = false ∧ s'.(maxUnencryptedUDPSafePayloadSize) = s.(maxUnencryptedUDPSafePayloadSize)
    end.
Proof.
  intros Hwf Hmax. unfold PluginGetSetPayloadSize_Eval.
  destruct (split_extra_wf _ Hwf) as (o & Ho & Hspec).
  assert (∀ a, Min (MaxDNSUDPPacketSize - ResponseOverhead) (Max a (maxPayloadSize s)) = maxPayloadSize s) as Hsz.
  { intros a. rewrite Min_spec, Max_spec, Hmax. lia. }
  assert (u16 (maxPayloadSize s) = maxPayloadSize s) as Hu by by rewrite Hmax.
  assert ((512 <? maxPayloadSize s) = true) as Hlt by by rewrite Hmax.
  set (l := default [] o).
  assert (l = [] ∨ ∃ rr, rr ∈ Extra msg ∧ is_OPT rr = true ∧ Data rr = rOPT l) as Hl.
  { unfold l. destruct Hspec as [->|(l' & rr & -> & _ & Hrr)]; cbn; [by left|]. right. exists rr. naive_solver. }
  assert (∀ do, (match o with
     | Some o => (SetEdns0 (msg <| Extra := filter (λ rr, is_OPT rr = false) msg.(Extra) |>) (maxPayloadSize s) do)
         <| Extra := set_first_options (Extra (SetEdns0 (msg <| Extra := filter (λ rr, is_OPT rr = false) msg.(Extra) |>) (maxPayloadSize s) do)) o |>
     | None => SetEdns0 (msg <| Extra := filter (λ rr, is_OPT rr = false) msg.(Extra) |>) (maxPayloadSize s) do
     end) = msg <| Extra := filter (λ rr, is_OPT rr = false) msg.(Extra) ++ [new_OPT s.(maxPayloadSize) do l] |>) as Hm.
  { intros do. unfold l. destruct o as [o|]; [|done]. unfold SetEdns0. cbn [Extra set_field].
    by rewrite set_first_options_snoc by apply filter_not_OPT. }
  destruct (IsEdns0 msg) as [[[opt oo]|]| | |] eqn:HI; cbn [obind].
  - rewrite Hsz, Hlt, Ho. cbn [obind]. rewrite Hu, Hm.
    eexists _, l, (Do opt). split; [reflexivity|]. by split_and!.
  - rewrite Hsz, Hlt, Ho. cbn [obind]. rewrite Hu, Hm.
    eexists _, l, false. split; [reflexivity|]. by split_and!.
  - destruct (IsEdns0_wf msg Hwf) as [(? & ? & Hx & _)|[Hx _]]; congruence.
  - destruct (IsEdns0_wf msg Hwf) as [(? & ? & Hx & _)|[Hx _]]; congruence.
  - destruct (IsEdns0_wf msg Hwf) as [(? & ? & Hx & _)|[Hx _]]; congruence.
Qed.

End EdnsTheorems.

(** C36: DNS64 addresses follow RFC 6052 for every prefix length it allows: the
    prefix is kept, the four octets of the IPv4 address are at the standard
    positions and byte 8 stays zero; and discovery (RFC 7050) reads the prefix back
    from the translation of either well-known address. *)
Theorem dns64_roundtrip (pre ipv4 : bytes) :
  rfc6052_length (length pre) → length ipv4 = 4%nat →
  ∃ a, translateToIPv6 ipv4 (pref64 pre) = Ok a ∧ length a = 16%nat ∧ take (length pre) a = pre ∧
       octets_at a (rfc6052_positions (length pre)) = ipv4 ∧
       ((length pre ≤ 8)%nat → a !! 8%nat = Some 0) ∧
       (ipv4 = rfc7050WKA1 ∨ ipv4 = rfc7050WKA2 → pref64_of a = Some (pref64 pre)).
Proof.
  intros Hp H4. destruct_bytes ipv4. clear H4.
  destruct_pref64 pre Hp; (eexists; split; [reflexivity|]); cbn -[pref64_of pref64];
    (split_and!; [done..| |intros [[= -> -> -> ->]|[= -> -> -> ->]]; vm_compute; reflexivity]); (done || lia).
Qed.

(** A DNS64 proxy panics on any response without an IPv6 address to a query
    that query plugins did not accept (more than one question, or a name that is
    not ASCII), because such a query leaves no question behind. *)
Theorem dns64_panics_without_question `{Codec} {C} prefixes env (w : World C) s msg :
  s.(questionMsg) = None → hasAAAAAnswer msg = false → PluginDNS64_Eval prefixes env w s msg = Panic.
Proof. intros Hq Ha. unfold PluginDNS64_Eval. by rewrite Ha, Hq. Qed.

Section ForwardTheorems.
Context `{UnicodeTables} `{NetLib} {C : Type}.

Lemma forward_first fm q i c :
  fm !! i = Some c → in_zone q c.(domain) →
  (∀ j c', fm !! j = Some c' → (j < i)%nat → ¬ in_zone q c'.(domain)) → forward_servers fm q = c.(servers).
Proof.
  intros Hi Hz Hmin. unfold forward_servers.
  assert (list_find (λ c, forward_matches q c = true) fm = Some (i, c)) as ->; [|done].
  apply list_find_Some. split_and!; [done|by apply forward_matches_zone|].
  intros j c' Hj Hlt. rewrite forward_matches_zone. by eapply Hmin.
Qed.

(** Forwarding. A query whose name is in no rule's zone is left alone. For the
    first rule whose zone the name is in, the query is sent, unchanged, to one of
    that rule's servers; a complete response becomes the answer with the
    query's identifier, and its authenticated-data bit is kept only if it says
    DNSSEC was requested; a failure is an error and not an answer. *)
Theorem forward_spec (fm : list PluginForwardEntry) env (w : World C) s msg :
  ((∀ c, c ∈ fm → ¬ in_zone s.(qName) c.(domain)) → PluginForward_Eval fm env w s msg = Ok (w, s, msg, None)) ∧
  (∀ i c, fm !! i = Some c → in_zone s.(qName) c.(domain) → c.(servers) ≠ [] →
     (∀ j c', fm !! j = Some c' → (j < i)%nat → ¬ in_zone s.(qName) c'.(domain)) →
     ∃ server, server ∈ c.(servers) ∧
       (∀ e, dns_Exchange env s.(serverProto) msg server = Err e →
          PluginForward_Eval fm env w s msg = Ok (w, s <| serverName := server |>, msg, Some e)) ∧
       (∀ resp, dns_Exchange env s.(serverProto) msg server = Ok resp → resp.(Truncated) = false → msg_wf resp →
          ∃ ad, PluginForward_Eval fm env w s msg =
            Ok (w, answer_with (s <| serverName := server |>)
                     (resp <| AuthenticatedData := ad |> <| Id := msg.(Id) |>) PluginsReturnCodeForward, msg, None) ∧
          (ad = true → resp.(AuthenticatedData) = true ∧ ∃ opt o, IsEdns0 resp = Ok (Some (opt, o)) ∧ Do opt = true))).
Proof.
  split.
  - intros Hnone. unfold PluginForward_Eval, forward_servers.
    assert (list_find (λ c, forward_matches (qName s) c = true) fm = None) as ->; [|done].
    apply list_find_None, list.Forall_forall. intros c Hc. rewrite forward_matches_zone. by apply Hnone.
  - intros i c Hi Hz Hne Hmin. unfold PluginForward_Eval. rewrite (forward_first _ _ _ _ Hi Hz Hmin).
    destruct (Nat.eqb_spec (length (servers c)) 0) as [E|E]; [by destruct (servers c)|].
    destruct (Intn_Ok (rand env 0) (len (servers c))) as (k & -> & Hk); [len_lia|]. cbn [obind].
    unfold index. rewrite decide_True by lia.
    destruct (lookup_lt_is_Some_2 (servers c) (Z.to_nat k)) as [server Hs]; [len_lia|]. rewrite Hs. cbn [orPanic obind].
    exists server. split; [by eapply list_elem_of_lookup_2|]. split.
    + intros e He. change (serverProto (s <| serverName := server |>)) with (serverProto s). by rewrite He.
    + intros resp Hr Ht Hwf. change (serverProto (s <| serverName := server |>)) with (serverProto s). rewrite Hr, Ht.
      destruct (IsEdns0_wf resp Hwf) as [(opt & o & Ho & _)|[Ho _]]; rewrite Ho; cbn [obind].
      * destruct (Do opt) eqn:Hdo.
        -- exists (AuthenticatedData resp). split; [by destruct resp|]. intros Had. by eauto.
        -- by exists false.
      * by exists false.
Qed.

(** Server addresses of forwarding rules. With [ParseIP] accepting an IPv6
    address only without brackets, the documented bracketed form without a port
    is used as it is, without the default port, and an address without brackets
    gets the port appended without brackets around the address. *)
Theorem forward_ipv6_server :
  net_ParseIP (str "[2001:db8::1]") = [] → net_ParseIP (str "2001:db8::1") ≠ [] →
  forward_server (str "[2001:db8::1]") = str "[2001:db8::1]" ∧
  forward_server (str "2001:db8::1") = str "2001:db8::1:53".
Proof.
  intros H1 H2. unfold forward_server.
  assert (TrimSpace (str "[2001:db8::1]") = str "[2001:db8::1]") as -> by by vm_compute.
  assert (TrimSpace (str "2001:db8::1") = str "2001:db8::1") as -> by by vm_compute.
  rewrite bool_decide_eq_true_2, bool_decide_eq_false_2 by done. by split.
Qed.

End ForwardTheorems.

Section LogTheorems.
Context `{UnicodeTables} `{NetLib} {C : Type} (TypeToString : Z → option bytes).

(** C26: the query log says what was asked. Whatever bytes are in the name of a query, its line in
    the log is read back, by its tabs, as the time, the client, the name, the type, the return
    code, the time it took and the server; and the name and the server are read back from
    their quoted forms ("-" for a query that was not sent). *)
Theorem query_logged env lg ignored (w : World C) s msg q rest ip :
  msg.(Questions) = q :: rest → lg.(lg_format) = str "tsv" → clientIP s = Ok ip →
  existsb (λ t, EqualFold t (type_name TypeToString q.(Qtype))) ignored = false →
  Forall is_byte s.(qName) → Forall is_byte s.(serverName) →
  clean (IP_String ip) → clean (type_name TypeToString q.(Qtype)) →
  ∃ s' line name server,
    PluginQueryLog_Eval TypeToString env lg ignored w s msg = Ok (w <| w_logs := w.(w_logs) ++ [(lg.(lg_file), line)] |>, s', msg, None) ∧
    read_line line = [timestamp (date env) (hour env, minute env, second env); IP_String ip; name; type_name TypeToString q.(Qtype);
                      PluginsReturnCodeToString s.(returnCode); Itoa (Z.quot (requestDuration s) 1000000) ++ str "ms"; server] ∧
    unquote name = Some s.(qName) ∧
    unquote server = Some (if answered_here s then str "-" else s.(serverName)).
Proof.
  intros Hq Hf Hip Hig Hn Hs Hci Hct. unfold PluginQueryLog_Eval. rewrite Hq. cbn [head orPanic obind]. rewrite Hig, Hip. cbn [obind].
  set (s' := if answered_here s then _ else s).
  assert (s'.(qName) = s.(qName) ∧ s'.(returnCode) = s.(returnCode) ∧ requestDuration s' = requestDuration s ∧
    s'.(serverName) = (if answered_here s then str "-" else s.(serverName))) as (-> & -> & -> & ->) by (unfold s'; by destruct (answered_here s)).
  unfold write_log. rewrite decide_True by done. cbn [obind]. eexists s', _, _, _. split; [reflexivity|]. split_and!.
  - apply read_line_of; [done|]. repeat (apply Forall_cons_2); try apply Forall_nil_2; try done; try apply StringQuote_clean.
    + apply timestamp_clean.
    + destruct (returnCode s); literal_clean.
    + apply Forall_app_2; [apply Itoa_clean|literal_clean].
  - by apply unquote_StringQuote.
  - apply unquote_StringQuote. destruct (answered_here s); [|done]. apply (bool_decide_unpack _). by vm_compute.
Qed.

End LogTheorems.

(** * Witnesses and counterexamples *)

Section RewriteExamples.
#[local] Existing Instance ascii_tables.
#[local] Existing Instance tiny_codec.

Definition v6_1 : IP := [0x20; 0x01; 0x0d; 0xb8; 0; 0; 0; 0; 0; 0; 0; 0; 0; 0; 0; 1].
Definition v6_2 : IP := [0x20; 0x01; 0x0d; 0xb8; 0; 0; 0; 0; 0; 0; 0; 0; 0; 0; 0; 2].

(** Three addresses and their text. *)
Definition sample_addresses : list (bytes * IP) :=
  [(str "192.0.2.1", v4InV6Prefix ++ [192; 0; 2; 1]); (str "2001:db8::1", v6_1); (str "2001:db8::2", v6_2)].

#[local] Instance sample_net : NetLib := {|
  net_ParseIP s := default [] (snd <$> List.find (λ e, bool_decide (e.1 = s)) sample_addresses);
  IP_String ip := default [] (fst <$> List.find (λ e, bool_decide (e.2 = To16 ip)) sample_addresses) |}.

Example payload_size_spec_wit :
  ∃ s', PluginGetSetPayloadSize_Eval no_world (plain_state "udp" "example.com")
          (SetEdns0 empty_Msg 1232 true) =
        Ok (no_world, s', empty_Msg <| Extra := [new_OPT 4048 true []] |>, None) ∧ s'.(dnssec) = true.
Proof.
  destruct (payload_size_spec no_world (plain_state "udp" "example.com") (SetEdns0 empty_Msg 1232 true))
    as (s' & o & do & HE & Hd & _ & Ho & Hm); [repeat constructor; by eexists|done|].
  destruct Hm as [-> _]. exists s'. rewrite HE. split; [|done].
  destruct Ho as [->|(rr & Hrr & _ & Hdata)]; [done|].
  apply list_elem_of_singleton in Hrr as ->. by injection Hdata as <-.
Defined.

Example dns64_roundtrip_wit :
  pref64_of [0x00; 0x64; 0xff; 0x9b; 0; 0; 0; 0; 0; 0; 0; 0; 192; 0; 0; 170] =
  Some (pref64 [0x00; 0x64; 0xff; 0x9b; 0; 0; 0; 0; 0; 0; 0; 0]).
Proof.
  destruct (dns64_roundtrip [0x00; 0x64; 0xff; 0x9b; 0; 0; 0; 0; 0; 0; 0; 0] [192; 0; 0; 170])
    as (a & Ha & _ & _ & _ & _ & Hd); [by apply (bool_decide_unpack _); vm_compute|done|].
  vm_compute in Ha. injection Ha as <-. apply Hd. by left.
Defined.

Example dns64_panics_without_question_wit :
  PluginDNS64_Eval [] noon no_world (plain_state "udp" "") empty_Msg = Panic.
Proof. apply dns64_panics_without_question; reflexivity. Defined.

Definition lan_rules : list PluginForwardEntry :=
  match PluginForward_Init (Ok (str "lan 192.0.2.1")) with Ok l => l | _ => [] end.

Definition lan_env : PEnv := {|
  clock := λ _, 0; rand := λ _, 0; date := (2022, 7, 5); weekday := 0; hour := 12; minute := 0; second := 0;
  LookupIP := λ _, Err (EMsg "no such host"); dns_Exchange := λ _ _ _, Ok (empty_Msg <| Response := true |>);
  subquery := λ _, Ok None |}.

Example forward_spec_wit :
  ∃ ad, PluginForward_Eval lan_rules lan_env no_world (plain_state "udp" "printer.lan") (empty_Msg <| Id := 5 |>) =
    Ok (no_world, answer_with ((plain_state "udp" "printer.lan") <| serverName := str "192.0.2.1:53" |>)
          (empty_Msg <| Response := true |> <| AuthenticatedData := ad |> <| Id := 5 |>) PluginsReturnCodeForward,
        empty_Msg <| Id := 5 |>, None).
Proof.
  destruct (forward_spec lan_rules lan_env no_world (plain_state "udp" "printer.lan") (empty_Msg <| Id := 5 |>))
    as [_ Hf].
  destruct (Hf 0%nat {| domain := str "lan"; servers := [str "192.0.2.1:53"] |}) as (server & Hs & _ & Hok).
  - by vm_compute.
  - right. by exists (str "printer").
  - done.
  - intros j c' _ Hj. lia.
  - apply list_elem_of_singleton in Hs as ->.
    destruct (Hok (empty_Msg <| Response := true |>)) as (ad & HE & _); [done|done|constructor|]. exists ad. exact HE.
Defined.

Example forward_ipv6_server_wit :
  forward_server (str "[2001:db8::1]") = str "[2001:db8::1]" ∧
  forward_server (str "2001:db8::1") = str "2001:db8::1:53".
Proof. apply forward_ipv6_server; by vm_compute. Defined.

(** A name with a newline and a tab. *)
Definition odd_state : PluginsState := (plain_state "udp" "") <| qName := [10; 97; 9; 200] |> <| serverName := str "resolver" |>.
Definition odd_query : Msg := empty_Msg <| Questions := [{| qn_Name := []; Qtype := TypeA; Qclass := ClassINET |}] |>.

Example query_logged_wit :
  ∃ s' line name server,
    PluginQueryLog_Eval (λ _, Some (str "A")) noon {| lg_file := str "query.log"; lg_format := str "tsv" |} [] no_world odd_state odd_query =
      Ok (no_world <| w_logs := [(str "query.log", line)] |>, s', odd_query, None) ∧
    read_line line = [str "[2022-07-05 12:00:00]"; str "192.0.2.1"; name; str "A"; str "PASS"; str "0ms"; server] ∧
    unquote name = Some [10; 97; 9; 200] ∧ unquote server = Some (str "resolver").
Proof.
  assert (∀ l, bool_decide (Forall is_byte l) = true → Forall is_byte l) as Hb by (intros l; apply bool_decide_eq_true_1).
  exact (query_logged (λ _, Some (str "A")) noon {| lg_file := str "query.log"; lg_format := str "tsv" |} [] no_world odd_state odd_query
    {| qn_Name := []; Qtype := TypeA; Qclass := ClassINET |} [] [192; 0; 2; 1] eq_refl eq_refl eq_refl eq_refl
    (Hb [10; 97; 9; 200] eq_refl) (Hb (str "resolver") eq_refl) ltac:(literal_clean) ltac:(literal_clean)).
Defined.

Definition sample_reverse (s : bytes) : bytes := reverse s ++ str ".arpa.".

Definition load_cloak (lines : list string) : Out CloakState :=
  load_cloak_rules sample_reverse true 0 (str <$> lines) {| cs_heap := ∅; cs_names := ∅ |}.

(** The PTR records for an address. *)
Definition ptrs_of (cs : CloakState) (ip : string) : list bytes :=
  match cs.(cs_names) !! ptrEntryToQuery (TrimSuffix (sample_reverse (str ip)) (str ".")) with
  | Some i => default [] (cl_PTR <$> cs.(cs_heap) !! i)
  | None => []
  end.

(** Two flaws of the PTR records of cloaking rules. A name given an address
    and then a target name makes the initialization panic; of two IPv6 addresses
    given to a name, the second gets no PTR record and the first gets two. *)
Theorem cloak_ptr_flaws :
  load_cloak ["host.example 192.0.2.1"; "host.example other.example"] = Panic ∧
  ∃ cs, load_cloak ["host.example 2001:db8::1"; "host.example 2001:db8::2"] = Ok cs ∧
    ptrs_of cs "2001:db8::1" = [str "host.example."; str "host.example."] ∧
    ptrs_of cs "2001:db8::2" = [].
Proof. split; [by vm_compute|]. eexists. split; [vm_compute; reflexivity|]. by split; vm_compute. Qed.

End RewriteExamples.
