(* ===== verification/Cloaking.v ===== *)
(** plugin_cloak.go, when queries for cloaked names overlap.

    [PluginCloak_Eval] is the evaluation of one query without interruption. Here its
    accesses to the entry of a rule are steps of a goroutine, under the lock of the plugin as in
    the code: read under [RLock], looked up without a lock, stored address by address under
    [Lock], and read again, after [RUnlock], for the answer. Alone, a goroutine does what the function
    says ([cloak_alone]). Among others, its answer has the addresses of its rule
    ([cloak_answers]), but it may have none of them ([cloak_race]): the last read is not
    protected, and may happen while another goroutine replaces the addresses. *)
From S2P Require Import Prelude.
From S2P Require Import GoStrings.
From S2P Require Import ServerTypes.
From S2P Require Import PatternMatcher.
From S2P Require Import DnsMsg.
From S2P Require Import DnsUtils.
From S2P Require Import XTransport.
From S2P Require Import Plugins.
From S2P Require Import BlockPlugins.
From S2P Require Import RewritePlugins.

(** * Goroutines *)

(** A query for a cloaked name: the entry of its rule, its time, and [net.LookupIP]. *)
Record Asking := { ak_ptr : nat; ak_now : Z; ak_LookupIP : bytes → Out (list IP) }.

(** Where the goroutine of a query is, with the TTL of its answer. *)
Inductive Cloaked :=
  | Arrived (q : Asking)
  | Reading (q : Asking)
  | LookingUp (q : Asking) (ttl : Z) (target : bytes)
  | Found (q : Asking) (ttl : Z) (ips : list IP)
  | Locked (q : Asking) (ttl : Z) (ips : list IP)
  | Storing (q : Asking) (ttl : Z) (ips : list IP)
  | Stored (q : Asking) (ttl : Z)
  | Rereading (q : Asking) (ttl : Z)
  | Unlocked (q : Asking) (ttl : Z)
  | Answering (q : Asking) (ttl : Z) (c : CloakedName)
  | NotCloaked (q : Asking).

(** The lock that is held. *)
Definition holds_read (p : Cloaked) : bool := match p with Reading _ | Rereading _ _ => true | _ => false end.
Definition holds_write (p : Cloaked) : bool := match p with Locked _ _ _ | Storing _ _ _ => true | _ => false end.

Definition can_RLock (ts : list Cloaked) : bool := forallb (λ p, negb (holds_write p)) ts.
Definition can_Lock (ts : list Cloaked) : bool := forallb (λ p, negb (holds_write p) && negb (holds_read p)) ts.

(** The three assignments that begin an update, and one turn of its loop, which may be the
    last. *)
Definition reset_entry (now : Z) (c : CloakedName) : CloakedName :=
  c <| cl_lastUpdate := Some now |> <| cl_ipv4 := None |> <| cl_ipv6 := None |>.

Definition store_ip (ip : IP) (c : CloakedName) : CloakedName * bool :=
  if negb (bool_decide (To4 ip = []))
  then let c := c <| cl_ipv4 := append_ip c.(cl_ipv4) ip |> in (c, (16 <=? length (default [] c.(cl_ipv4)))%nat)
  else let c := c <| cl_ipv6 := append_ip c.(cl_ipv6) ip |> in (c, (16 <=? length (default [] c.(cl_ipv6)))%nat).

Abbreviation Heap := (gmap nat CloakedName).

Section Goroutines.
Context {T : Type} (plugin : PluginCloak T).

(** A step of one goroutine among [ts]. *)
Inductive turn (ts : list Cloaked) (heap : Heap) : Cloaked → Heap → Cloaked → Prop :=
  | t_RLock q : can_RLock ts = true → turn ts heap (Arrived q) heap (Reading q)
  | t_known q c ttl expired :
      heap !! q.(ak_ptr) = Some c → cloak_ttl plugin q.(ak_now) c = (ttl, expired) → must_look_up c expired = false →
      turn ts heap (Reading q) heap (Unlocked q ttl)
  | t_stale q c ttl expired :
      heap !! q.(ak_ptr) = Some c → cloak_ttl plugin q.(ak_now) c = (ttl, expired) → must_look_up c expired = true →
      turn ts heap (Reading q) heap (LookingUp q ttl c.(cl_target))
  | t_found q ttl target ips :
      q.(ak_LookupIP) target = Ok ips → turn ts heap (LookingUp q ttl target) heap (Found q ttl ips)
  | t_not_found q ttl target :
      (∀ ips, q.(ak_LookupIP) target ≠ Ok ips) → turn ts heap (LookingUp q ttl target) heap (NotCloaked q)
  | t_Lock q ttl ips : can_Lock ts = true → turn ts heap (Found q ttl ips) heap (Locked q ttl ips)
  | t_reset q ttl ips c :
      heap !! q.(ak_ptr) = Some c →
      turn ts heap (Locked q ttl ips) (<[q.(ak_ptr) := reset_entry q.(ak_now) c]> heap) (Storing q ttl ips)
  | t_store q ttl ip ips c :
      heap !! q.(ak_ptr) = Some c →
      turn ts heap (Storing q ttl (ip :: ips)) (<[q.(ak_ptr) := (store_ip ip c).1]> heap)
        (Storing q ttl (if (store_ip ip c).2 then [] else ips))
  | t_Unlock q ttl : turn ts heap (Storing q ttl []) heap (Stored q ttl)
  | t_RLock_again q ttl : can_RLock ts = true → turn ts heap (Stored q ttl) heap (Rereading q ttl)
  | t_RUnlock q ttl : turn ts heap (Rereading q ttl) heap (Unlocked q ttl)
  | t_answer q ttl c : heap !! q.(ak_ptr) = Some c → turn ts heap (Unlocked q ttl) heap (Answering q ttl c).

(** Queries that satisfy [asks] arrive, and any goroutine makes its next step. *)
Context (asks : Asking → Prop).

Inductive cloak_step : list Cloaked * Heap → list Cloaked * Heap → Prop :=
  | step_arrives ts heap q : asks q → cloak_step (ts, heap) (ts ++ [Arrived q], heap)
  | step_turn ts heap i p heap' p' :
      ts !! i = Some p → turn ts heap p heap' p' → cloak_step (ts, heap) (<[i := p']> ts, heap').

End Goroutines.

(** * A goroutine alone *)

Section Alone.
Context `{UnicodeTables} {T : Type} `{PrefixTrie (option nat) T} (plugin : PluginCloak T) (asks : Asking → Prop).
Abbreviation steps := (rtc (cloak_step plugin asks)).

Lemma alone_turn p heap p' heap' st :
  turn plugin [p] heap p heap' p' → steps ([p'], heap') st → steps ([p], heap) st.
Proof. intros Ht. apply rtc_l. by apply (step_turn plugin asks [p] heap 0 p heap' p'). Qed.

(** The loop collects the addresses as [collect_ips] says. *)
Lemma alone_stores q ttl ips heap c :
  heap !! q.(ak_ptr) = Some c →
  let '(ipv4, ipv6) := collect_ips ips c.(cl_ipv4) c.(cl_ipv6) in
  steps ([Storing q ttl ips], heap) ([Storing q ttl []], <[q.(ak_ptr) := c <| cl_ipv4 := ipv4 |> <| cl_ipv6 := ipv6 |> ]> heap).
Proof.
  revert heap c. induction ips as [|ip ips IH]; intros heap c Hc; cbn [collect_ips].
  { rewrite insert_id by (rewrite Hc; by destruct c). reflexivity. }
  pose proof (t_store plugin [Storing q ttl (ip :: ips)] heap q ttl ip ips c Hc) as Ht. unfold store_ip in Ht.
  set (heap' := <[_ := _]> heap) in Ht.
  destruct (negb _) eqn:H4; cbn [fst snd cl_ipv4 cl_ipv6] in Ht; destruct (16 <=? _)%nat; try (eapply alone_turn; [exact Ht|]; reflexivity).
  - pose proof (IH heap' _ (lookup_insert_eq _ _ _)) as Hs. cbn [cl_ipv4 cl_ipv6] in Hs. destruct (collect_ips ips _ _) as [a b].
    eapply alone_turn; [exact Ht|]. unfold heap' in Hs at 2. rewrite insert_insert_eq in Hs. exact Hs.
  - pose proof (IH heap' _ (lookup_insert_eq _ _ _)) as Hs. cbn [cl_ipv4 cl_ipv6] in Hs. destruct (collect_ips ips _ _) as [a b].
    eapply alone_turn; [exact Ht|]. unfold heap' in Hs at 2. rewrite insert_insert_eq in Hs. exact Hs.
Qed.

(** What the evaluation returns at the end of its goroutine. *)
Definition cloak_outcome {C} (env : PEnv) (question : Question) (w : World C) (s : PluginsState) (msg : Msg) (heap : Heap) (p : Cloaked)
    : Out (Evaluated C) :=
  match p with
  | Answering _ ttl c =>
      let! synth := EmptyResponseFromMessage msg in
      Ok (w <| w_cloak := heap |>,
          answer_with s (synth <| Answer := Shuffle env (cloak_records question ttl c) |>) PluginsReturnCodeCloak, msg, None)
  | _ => unchanged w s msg
  end.

Definition finished (p : Cloaked) : bool := match p with Answering _ _ _ | NotCloaked _ => true | _ => false end.

Lemma same_heap {C} (w : World C) ptr c : w.(w_cloak) !! ptr = Some c → w <| w_cloak := <[ptr := c]> w.(w_cloak) |> = w <| w_cloak := w.(w_cloak) |>.
Proof. intros Hc. by rewrite insert_id. Qed.

(** Without other queries, the goroutine ends and does what [PluginCloak_Eval] says. *)
Theorem cloak_alone {C} env (w : World C) s msg question rest ptr c :
  msg.(Questions) = question :: rest → question.(Qclass) = ClassINET → question.(Qtype) ∈ [TypeA; TypeAAAA; TypePTR] →
  (Eval plugin.(pc_patternMatcher) s.(qName)).2 = Some ptr → w.(w_cloak) !! ptr = Some c →
  let q := {| ak_ptr := ptr; ak_now := clock env 0; ak_LookupIP := LookupIP env |} in
  ∃ p heap, steps ([Arrived q], w.(w_cloak)) ([p], heap) ∧ finished p = true ∧
    PluginCloak_Eval plugin env w s msg = cloak_outcome env question w s msg heap p.
Proof.
  intros Hq Hcl Hty Hev Hc q. unfold PluginCloak_Eval. rewrite Hq. cbn [head orPanic obind]. rewrite Hcl, Z.eqb_refl.
  assert (negb (Qtype question =? TypeA) && negb (Qtype question =? TypeAAAA) && negb (Qtype question =? TypePTR) = false) as ->.
  { rewrite !elem_of_cons, elem_of_nil in Hty. by destruct Hty as [->|[->|[->|[]]]]. }
  cbn [orb negb]. rewrite Hev, Hc. cbn [orPanic obind]. destruct (cloak_ttl plugin (clock env 0) c) as [ttl expired] eqn:Httl.
  destruct (must_look_up c expired) eqn:Hm.
  - destruct (LookupIP env (cl_target c)) as [ips| | |] eqn:Hl.
    2-4: exists (NotCloaked q), w.(w_cloak); split; [|done]; eapply alone_turn; [by apply t_RLock|]; eapply alone_turn; [by eapply t_stale|];
      eapply alone_turn; [|reflexivity]; apply t_not_found; intros ips; cbn; by rewrite Hl.
    pose proof (alone_stores q ttl ips (<[ptr := reset_entry (clock env 0) c]> w.(w_cloak)) _ (lookup_insert_eq _ _ _)) as Hs.
    change (cl_ipv4 (reset_entry (clock env 0) c)) with (@None (list IP)) in Hs.
    change (cl_ipv6 (reset_entry (clock env 0) c)) with (@None (list IP)) in Hs.
    destruct (collect_ips ips None None) as [a b]. change (ak_ptr q) with ptr in Hs.
    rewrite insert_insert_eq in Hs. eexists (Answering q ttl _), _. split; [|split; [done|reflexivity]].
    eapply alone_turn; [by apply t_RLock|]. eapply alone_turn; [by eapply t_stale|]. eapply alone_turn; [by apply t_found|].
    eapply alone_turn; [by apply t_Lock|]. eapply alone_turn; [by apply t_reset|]. etrans; [exact Hs|].
    eapply alone_turn; [apply t_Unlock|]. eapply alone_turn; [by apply t_RLock_again|]. eapply alone_turn; [apply t_RUnlock|].
    eapply alone_turn; [|reflexivity]. apply t_answer. apply lookup_insert_eq.
  - exists (Answering q ttl c), w.(w_cloak). split; [|split; [done|cbn [cloak_outcome]; by rewrite same_heap]].
    eapply alone_turn; [by apply t_RLock|]. eapply alone_turn; [by eapply t_known|]. eapply alone_turn; [|reflexivity]. by apply t_answer.
Qed.

End Alone.

(** * Among others *)

(** What the rules of the file fix: an entry keeps its target, and its addresses if they
    are in the file. *)
Record same_rule (c c' : CloakedName) : Prop := {
  sr_target : c'.(cl_target) = c.(cl_target);
  sr_isIP : c'.(cl_isIP) = c.(cl_isIP);
  sr_PTR : c'.(cl_PTR) = c.(cl_PTR);
  sr_ips : c.(cl_isIP) = true → c'.(cl_ipv4) = c.(cl_ipv4) ∧ c'.(cl_ipv6) = c.(cl_ipv6);
  sr_updated : c.(cl_lastUpdate) ≠ None → c'.(cl_lastUpdate) ≠ None
}.

#[export] Instance same_rule_preorder : PreOrder same_rule.
Proof.
  split; [by split|]. intros c1 c2 c3 [A1 B1 C1 D1 E1] [A2 B2 C2 D2 E2]. split; try congruence; [|by auto].
  intros Hip. destruct (D1 Hip) as [<- <-]. apply D2. congruence.
Qed.

Definition addresses (c : CloakedName) : list IP := default [] c.(cl_ipv4) ++ default [] c.(cl_ipv6).

(** A heap in which entries were updated. *)
Definition evolves (heap heap' : Heap) : Prop := ∀ ptr, option_Forall2 same_rule (heap !! ptr) (heap' !! ptr).

#[export] Instance evolves_preorder : PreOrder evolves.
Proof.
  split; [intros h ptr; destruct (h !! ptr); by constructor|]. intros h1 h2 h3 H1 H2 ptr.
  specialize (H1 ptr). specialize (H2 ptr). destruct (h1 !! ptr), (h2 !! ptr), (h3 !! ptr); inversion H1; inversion H2; subst; constructor; by etrans.
Qed.

Lemma evolves_l heap heap' ptr c : evolves heap heap' → heap !! ptr = Some c → ∃ c', heap' !! ptr = Some c' ∧ same_rule c c'.
Proof. intros He Hc. specialize (He ptr). rewrite Hc in He. inversion He; subst. by eexists. Qed.

Lemma evolves_r heap heap' ptr c' : evolves heap heap' → heap' !! ptr = Some c' → ∃ c, heap !! ptr = Some c ∧ same_rule c c'.
Proof. intros He Hc. specialize (He ptr). rewrite Hc in He. inversion He; subst. by eexists. Qed.

Lemma evolves_insert heap ptr c c' : heap !! ptr = Some c → same_rule c c' → evolves heap (<[ptr := c']> heap).
Proof.
  intros Hc Hs i. destruct (decide (i = ptr)) as [->|Hne]; [rewrite lookup_insert_eq, Hc; by constructor|].
  rewrite lookup_insert_ne by done. destruct (heap !! i); by constructor.
Qed.

Section Among.
Context {T : Type} (plugin : PluginCloak T).

(** The addresses that names have; lookups find some of them, or fail. *)
Context (resolves : bytes → IP → Prop) (heap0 : Heap).
Record asks_ok (q : Asking) : Prop := {
  ao_entry : is_Some (heap0 !! q.(ak_ptr));
  ao_found target ips : q.(ak_LookupIP) target = Ok ips → ips ≠ [] ∧ Forall (resolves target) ips
}.
Abbreviation step := (cloak_step plugin asks_ok).

(** The entry of a rule with a target has addresses of its target, and none before the
    first update. *)
Definition entry_ok (c : CloakedName) : Prop :=
  c.(cl_isIP) = false → Forall (resolves c.(cl_target)) (addresses c) ∧
    (c.(cl_lastUpdate) = None → c.(cl_ipv4) = None ∧ c.(cl_ipv6) = None).

(** What a goroutine knows of its entry. *)
Definition knows (heap : Heap) (p : Cloaked) : Prop :=
  match p with
  | Arrived q | Reading q => asks_ok q
  | LookingUp q _ target => asks_ok q ∧ ∃ c, heap !! q.(ak_ptr) = Some c ∧ c.(cl_isIP) = false ∧ c.(cl_target) = target
  | Found q _ ips | Locked q _ ips =>
      ips ≠ [] ∧ ∃ c, heap !! q.(ak_ptr) = Some c ∧ c.(cl_isIP) = false ∧ Forall (resolves c.(cl_target)) ips
  | Storing q _ ips =>
      ∃ c, heap !! q.(ak_ptr) = Some c ∧ c.(cl_isIP) = false ∧ c.(cl_lastUpdate) ≠ None ∧ Forall (resolves c.(cl_target)) ips
  | Stored q _ | Rereading q _ | Unlocked q _ =>
      ∃ c, heap !! q.(ak_ptr) = Some c ∧ (c.(cl_isIP) = true ∨ c.(cl_lastUpdate) ≠ None)
  | Answering q _ c => (∃ c0, heap0 !! q.(ak_ptr) = Some c0 ∧ same_rule c0 c) ∧ entry_ok c
  | NotCloaked _ => True
  end.

(** The entry was cleared and there are addresses to store. *)
Definition pending_store (ts : list Cloaked) (ptr : nat) : Prop :=
  ∃ q ttl ip ips, Storing q ttl (ip :: ips) ∈ ts ∧ q.(ak_ptr) = ptr.

Record cloak_inv (st : list Cloaked * Heap) : Prop := {
  ci_rules : evolves heap0 st.2;
  ci_entries : map_Forall (λ _, entry_ok) st.2;
  ci_threads : Forall (knows st.2) st.1;
  ci_stored ptr c : st.2 !! ptr = Some c → c.(cl_isIP) = false → c.(cl_lastUpdate) ≠ None →
    addresses c ≠ [] ∨ pending_store st.1 ptr
}.

Lemma knows_evolves heap heap' p : evolves heap heap' → knows heap p → knows heap' p.
Proof.
  intros He. destruct p; cbn; try done.
  - intros (Hq & c & Hc & H1 & <-). destruct (evolves_l _ _ _ _ He Hc) as (c' & Hc' & []). split; [done|]. exists c'. split_and!; congruence.
  - intros (Hi & c & Hc & H1 & H2). destruct (evolves_l _ _ _ _ He Hc) as (c' & Hc' & Hs). destruct Hs as [E1 E2 _ _ _]. split; [done|].
    exists c'. rewrite E1, E2. done.
  - intros (Hi & c & Hc & H1 & H2). destruct (evolves_l _ _ _ _ He Hc) as (c' & Hc' & Hs). destruct Hs as [E1 E2 _ _ _]. split; [done|].
    exists c'. rewrite E1, E2. done.
  - intros (c & Hc & H1 & H2 & H3). destruct (evolves_l _ _ _ _ He Hc) as (c' & Hc' & Hs). destruct Hs as [E1 E2 _ _ E5].
    exists c'. rewrite E1, E2. by auto.
  - intros (c & Hc & H1). destruct (evolves_l _ _ _ _ He Hc) as (c' & Hc' & Hs). destruct Hs as [E1 E2 _ _ E5]. exists c'. rewrite E2. naive_solver.
  - intros (c & Hc & H1). destruct (evolves_l _ _ _ _ He Hc) as (c' & Hc' & Hs). destruct Hs as [E1 E2 _ _ E5]. exists c'. rewrite E2. naive_solver.
  - intros (c & Hc & H1). destruct (evolves_l _ _ _ _ He Hc) as (c' & Hc' & Hs). destruct Hs as [E1 E2 _ _ E5]. exists c'. rewrite E2. naive_solver.
Qed.

(** ** Updates *)

Lemma reset_same now c : c.(cl_isIP) = false → same_rule c (reset_entry now c).
Proof. intros Hip. split; cbn; [done..| |done]. by rewrite Hip. Qed.

Lemma store_same ip c : c.(cl_isIP) = false → same_rule c (store_ip ip c).1.
Proof. intros Hip. unfold store_ip. destruct (negb _); (split; cbn; [done..| |done]; by rewrite Hip). Qed.

Lemma store_addresses ip c : addresses (store_ip ip c).1 ≡ₚ addresses c ++ [ip].
Proof.
  unfold store_ip, addresses, append_ip. destruct (negb _); cbn; [|by rewrite app_assoc].
  rewrite <-!app_assoc. apply Permutation_app_head. apply Permutation_app_comm.
Qed.

Lemma store_entry_ok ip c : resolves c.(cl_target) ip → c.(cl_lastUpdate) ≠ None → entry_ok c → entry_ok (store_ip ip c).1.
Proof.
  intros Hr Hu Hc Hip.
  assert (cl_target (store_ip ip c).1 = c.(cl_target) ∧ cl_lastUpdate (store_ip ip c).1 = c.(cl_lastUpdate) ∧ cl_isIP (store_ip ip c).1 = c.(cl_isIP))
    as (E1 & E2 & E3) by (unfold store_ip; by destruct (negb _)).
  rewrite E1, E2, store_addresses. rewrite E3 in Hip. destruct (Hc Hip) as [HF _].
  split; [apply Forall_app_2; [done|by constructor]|done].
Qed.

(** ** The invariant *)

Definition stores_for (ptr : nat) (p : Cloaked) : Prop := ∃ q ttl ip ips, p = Storing q ttl (ip :: ips) ∧ q.(ak_ptr) = ptr.

Lemma pending_stays ts i p p' ptr :
  ts !! i = Some p → ¬ stores_for ptr p → pending_store ts ptr → pending_store (<[i := p']> ts) ptr.
Proof.
  intros Hi Hp (q & ttl & ip & ips & [j Hj]%list_elem_of_lookup & Hq). exists q, ttl, ip, ips. split; [|done].
  apply list_elem_of_lookup. exists j. rewrite list_lookup_insert_ne; [done|]. intros ->. apply Hp.
  rewrite Hi in Hj. injection Hj as ->. by eexists _, _, _, _.
Qed.

(** A step of one goroutine that updates one entry at most. *)
Lemma inv_move ts i p p' heap heap' :
  ts !! i = Some p → cloak_inv (ts, heap) → evolves heap heap' → map_Forall (λ _, entry_ok) heap' → knows heap' p' →
  (∀ ptr c, heap' !! ptr = Some c → c.(cl_isIP) = false → c.(cl_lastUpdate) ≠ None →
     addresses c ≠ [] ∨ pending_store (<[i := p']> ts) ptr) →
  cloak_inv (<[i := p']> ts, heap').
Proof.
  intros Hi [Hr He Ht Hs] Hev He' Hp' Hs'. split; cbn in *; [|done| |done].
  - by etrans.
  - apply Forall_insert; [|done]. eapply list.Forall_impl; [exact Ht|]. intros x. by apply knows_evolves.
Qed.

Lemma inv_local ts i p p' heap :
  ts !! i = Some p → (∀ ptr, ¬ stores_for ptr p) → cloak_inv (ts, heap) → knows heap p' → cloak_inv (<[i := p']> ts, heap).
Proof.
  intros Hi Hp Hinv Hp'. pose proof Hinv as [Hr He Ht Hs]. eapply inv_move; try done.
  intros ptr c Hc H1 H2. destruct (Hs _ _ Hc H1 H2) as [?|Hpe]; [by left|right]. by eapply pending_stays.
Qed.

Lemma known_unlocked heap q c ttl expired :
  heap !! q.(ak_ptr) = Some c → entry_ok c → cloak_ttl plugin q.(ak_now) c = (ttl, expired) → must_look_up c expired = false →
  knows heap (Unlocked q ttl).
Proof.
  intros Hc He _ Hm. exists c. split; [done|]. unfold must_look_up in Hm. destruct (cl_isIP c) eqn:Hip; [by left|right].
  intros Hu. destruct (He Hip) as [_ Hn]. destruct (Hn Hu) as [H4 H6]. by rewrite H4, H6 in Hm.
Qed.

Ltac not_storing := first [intros (? & ? & ? & ? & ? & _)|intros ? (? & ? & ? & ? & ? & _)]; discriminate.

Lemma reset_inv ts i q ttl ips heap c :
  ts !! i = Some (Locked q ttl ips) → cloak_inv (ts, heap) → heap !! q.(ak_ptr) = Some c → c.(cl_isIP) = false → ips ≠ [] →
  Forall (resolves c.(cl_target)) ips →
  cloak_inv (<[i := Storing q ttl ips]> ts, <[q.(ak_ptr) := reset_entry q.(ak_now) c]> heap).
Proof.
  intros Hi Hinv Hc Hip Hne HF. apply (inv_move _ _ _ _ _ _ Hi Hinv); [by apply (evolves_insert _ _ c), reset_same| | |].
  - apply map_Forall_insert_2; [|exact (ci_entries _ Hinv)]. intros _. split; [constructor|done].
  - eexists. split; [apply lookup_insert_eq|]. done.
  - intros ptr d Hd H1 H2. destruct (decide (ptr = ak_ptr q)) as [->|Hn].
    + right. destruct ips as [|ip ips]; [done|]. exists q, ttl, ip, ips. split; [|done]. apply list_elem_of_lookup. exists i.
      rewrite list_lookup_insert_eq; [done|by eapply lookup_lt_Some].
    + rewrite lookup_insert_ne in Hd by done. destruct (ci_stored _ Hinv _ _ Hd H1 H2) as [?|Hp]; [by left|right].
      apply (pending_stays _ _ _ _ _ Hi); [not_storing|done].
Qed.

Lemma store_inv ts i q ttl ip ips heap c :
  ts !! i = Some (Storing q ttl (ip :: ips)) → cloak_inv (ts, heap) → heap !! q.(ak_ptr) = Some c → c.(cl_isIP) = false →
  c.(cl_lastUpdate) ≠ None → Forall (resolves c.(cl_target)) (ip :: ips) →
  cloak_inv (<[i := Storing q ttl (if (store_ip ip c).2 then [] else ips)]> ts, <[q.(ak_ptr) := (store_ip ip c).1]> heap).
Proof.
  intros Hi Hinv Hc Hip Hu HF. apply list.Forall_cons in HF as [Hr HF].
  apply (inv_move _ _ _ _ _ _ Hi Hinv); [by apply (evolves_insert _ _ c), store_same| | |].
  - apply map_Forall_insert_2; [|exact (ci_entries _ Hinv)]. apply store_entry_ok; [done..|]. exact (ci_entries _ Hinv _ _ Hc).
  - destruct (store_same ip c Hip) as [E1 E2 _ _ E5]. eexists. split; [apply lookup_insert_eq|]. rewrite E1, E2.
    split_and!; [done|by apply E5|]. destruct (store_ip ip c).2; [constructor|done].
  - intros ptr d Hd H1 H2. destruct (decide (ptr = ak_ptr q)) as [->|Hn].
    + left. rewrite lookup_insert_eq in Hd. injection Hd as <-. intros Ha. pose proof (store_addresses ip c) as Hp.
      rewrite Ha in Hp. apply Permutation_nil in Hp. by destruct (addresses c).
    + rewrite lookup_insert_ne in Hd by done. destruct (ci_stored _ Hinv _ _ Hd H1 H2) as [?|Hp]; [by left|right].
      apply (pending_stays _ _ _ _ _ Hi); [|done]. intros (? & ? & ? & ? & [= <- _ _ _] & Hq). congruence.
Qed.

Lemma turn_inv ts i p heap heap' p' :
  ts !! i = Some p → cloak_inv (ts, heap) → turn plugin ts heap p heap' p' → cloak_inv (<[i := p']> ts, heap').
Proof.
  intros Hi Hinv Ht. pose proof (Forall_lookup_1 _ _ _ _ (ci_threads _ Hinv) Hi) as Hk. cbn in Hk.
  pose proof (ci_entries _ Hinv) as He. cbn in He.
  destruct Ht as [q _|q c ttl expired Hc Httl Hm|q c ttl expired Hc Httl Hm|q ttl target ips Hl|q ttl target _|q ttl ips _
                 |q ttl ips c Hc|q ttl ip ips c Hc|q ttl|q ttl _|q ttl|q ttl c Hc];
    try (apply (inv_local _ _ _ _ _ Hi); [not_storing|done|]; try done).
  - by apply (known_unlocked _ _ c _ expired Hc (He _ _ Hc)).
  - split; [done|]. exists c. split_and!; [done| |done]. unfold must_look_up in Hm. by destruct (cl_isIP c).
  - destruct Hk as (Hq & c & Hc & Hip & Htg). destruct (ao_found _ Hq _ _ Hl) as [Hne HF]. split; [done|]. exists c. by rewrite Htg.
  - destruct Hk as (Hne & c' & Hc' & Hip & HF). rewrite Hc in Hc'. injection Hc' as <-. by eapply reset_inv.
  - destruct Hk as (c' & Hc' & Hip & Hu & HF). rewrite Hc in Hc'. injection Hc' as <-. by eapply store_inv.
  - destruct Hk as (c & Hc & Hip & Hu & _). exists c. auto.
  - split; [|exact (He _ _ Hc)]. exact (evolves_r _ _ _ _ (ci_rules _ Hinv) Hc).
Qed.

(** The targets as the file gives them: no address of a name is known yet. *)
Definition fresh_heap (heap : Heap) : Prop :=
  map_Forall (λ _ c, c.(cl_isIP) = false → c.(cl_lastUpdate) = None ∧ c.(cl_ipv4) = None ∧ c.(cl_ipv6) = None) heap.

Lemma cloak_reachable ts heap : fresh_heap heap0 → rtc step ([], heap0) (ts, heap) → cloak_inv (ts, heap).
Proof.
  intros Hf. apply (rtc_ind_r (λ st, cloak_inv st)).
  - split; cbn; [done| |constructor|].
    + intros ptr c Hc Hip. destruct (Hf _ _ Hc Hip) as (_ & H4 & H6). unfold addresses. rewrite H4, H6. split; [constructor|done].
    + intros ptr c Hc Hip Hu. by destruct (Hf _ _ Hc Hip).
  - intros st st' _ Hst Hinv. destruct Hst as [ts' h q Hq|ts' h j p h' p' Hj Ht]; [|by eapply turn_inv].
    destruct Hinv as [Hr He Hk Hs]. split; cbn in *; [done..| |].
    + apply Forall_app_2; [done|]. by constructor.
    + intros ptr c Hc H1 H2. destruct (Hs _ _ Hc H1 H2) as [?|(q' & ttl & ip & ips & Hin & Hp)]; [by left|right].
      exists q', ttl, ip, ips. split; [|done]. apply elem_of_app. by left.
Qed.

End Among.

(** ** The rules of a file *)

Section FromFile.
Context `{UnicodeTables} `{NetLib} {T : Type} `{PrefixTrie (option nat) T} (ReverseAddr : bytes → bytes).

Lemma cloak_entry_fresh cs line :
  fresh_heap cs.(cs_heap) → fresh_heap (<[(cloak_entry cs line).1 := (cloak_entry cs line).2]> cs.(cs_heap)).
Proof.
  intros Hf. unfold cloak_entry. destruct (cs_names cs !! line) as [i|]; cbn [fst snd]; (apply map_Forall_insert_2; [|done]); [|done].
  destruct (cs_heap cs !! i) eqn:Hi; cbn; [by apply (Hf i)|done].
Qed.

(** A rule with an address, or another target. *)
Lemma load_cloak_rule_fresh createPTR lineNo line cs :
  fresh_heap cs.(cs_heap) → returns (λ cs', fresh_heap cs'.(cs_heap)) (load_cloak_rule ReverseAddr createPTR lineNo line cs).
Proof.
  intros Hf. unfold load_cloak_rule. destruct (Fields _) as [|a [|b [|? ?]]]; try by apply returns_ret.
  destruct (_ || _); [by apply returns_ret|]. pose proof (cloak_entry_fresh cs (ToLower (TrimSpace a)) Hf) as He.
  destruct (cloak_entry cs _) as [i c]. cbn [fst snd] in He.
  assert (∀ c', (c'.(cl_isIP) = true ∨ (c'.(cl_isIP) = c.(cl_isIP) ∧ c'.(cl_lastUpdate) = c.(cl_lastUpdate) ∧ c'.(cl_ipv4) = c.(cl_ipv4) ∧ c'.(cl_ipv6) = c.(cl_ipv6))) →
    fresh_heap (<[i := c']> cs.(cs_heap))) as Hins.
  { intros c' Hc'. apply map_Forall_insert_2; [|done]. intros Hip. pose proof (He i c (lookup_insert_eq _ _ _)) as Hci. cbn in Hci.
    destruct Hc' as [Ht|(E1 & E2 & E3 & E4)]; [congruence|]. rewrite E2, E3, E4. apply Hci. congruence. }
  destruct (if negb _ then _ else _) as [c'|] eqn:Hu; [|by apply returns_ret].
  assert (fresh_heap (<[i := c' <| cl_lineNo := lineNo + 1 |> ]> cs.(cs_heap))) as Hf'.
  { apply Hins. destruct (negb (bool_decide (net_ParseIP _ = []))); [destruct (negb _); [|destruct (negb _)]|]; simplify_eq/=; auto. }
  destruct (_ || _); [by apply returns_ret|]. unfold add_ptr. apply returns_bind, returns_any. intros reversed.
  destruct (cloak_entry _ _) as [j pc]. apply returns_ret. cbn. apply map_Forall_insert_2; done.
Qed.

Lemma PluginCloak_Init_fresh file ttl createPTR order plugin heap :
  PluginCloak_Init (T := T) ReverseAddr file ttl createPTR order = Ok (plugin, heap) → fresh_heap heap.
Proof.
  intros (bin & _ & HI)%obind_Ok. apply obind_Ok in HI as (cs & HL & (m & _ & [= _ <-])%obind_Ok). revert HL.
  assert (∀ lines lineNo cs0, fresh_heap cs0.(cs_heap) →
    returns (λ cs', fresh_heap cs'.(cs_heap)) (load_cloak_rules ReverseAddr createPTR lineNo lines cs0)) as Hl.
  { induction lines as [|line lines IH]; intros lineNo cs0 H0'; cbn [load_cloak_rules]; [by apply returns_ret|].
    apply returns_bind. eapply returns_mono; [by apply load_cloak_rule_fresh|]. intros cs1. apply IH. }
  apply Hl. apply map_Forall_empty.
Qed.

(** C8: cloaked names, when queries overlap. Whatever the order in which the goroutines of queries look
    targets up and store what they find, an answer has the PTR records and addresses of its rule, if the
    file gives addresses, and otherwise only addresses that its target has. It lacks the
    addresses of a target that were found before only if another goroutine is storing them again. *)
Theorem cloak_answers file ttl createPTR order plugin heap0 resolves ts heap :
  PluginCloak_Init (T := T) ReverseAddr file ttl createPTR order = Ok (plugin, heap0) →
  rtc (cloak_step plugin (asks_ok resolves heap0)) ([], heap0) (ts, heap) →
  (∀ q ttl' c, Answering q ttl' c ∈ ts → ∃ c0, heap0 !! q.(ak_ptr) = Some c0 ∧ c.(cl_PTR) = c0.(cl_PTR) ∧
     if c0.(cl_isIP) then c.(cl_ipv4) = c0.(cl_ipv4) ∧ c.(cl_ipv6) = c0.(cl_ipv6)
     else Forall (resolves c0.(cl_target)) (addresses c)) ∧
  (∀ q ttl' c, Unlocked q ttl' ∈ ts → heap !! q.(ak_ptr) = Some c → c.(cl_isIP) = false →
     addresses c ≠ [] ∨ pending_store ts q.(ak_ptr)).
Proof.
  intros HI%PluginCloak_Init_fresh Hr. pose proof (cloak_reachable _ _ _ _ _ HI Hr) as Hinv.
  pose proof (ci_threads _ _ _ Hinv) as Hk. rewrite list.Forall_forall in Hk. split.
  - intros q ttl' c Hin. destruct (Hk _ Hin) as [(c0 & Hc0 & [E1 E2 E3 E4 _]) He]. exists c0. split_and!; [done..|].
    destruct (cl_isIP c0) eqn:Hip; [by apply E4|]. rewrite <-E1. by apply He.
  - intros q ttl' c Hin Hc Hip. destruct (Hk _ Hin) as (c' & Hc' & Hu). cbn in Hc'. rewrite Hc in Hc'. injection Hc' as <-.
    apply (ci_stored _ _ _ Hinv _ _ Hc Hip). destruct Hu; [congruence|done].
Qed.

End FromFile.

(** * A run *)

(** The next step of a goroutine, and the steps of a schedule. *)
Section Schedules.
Context {T : Type} (plugin : PluginCloak T).

Definition next_turn (ts : list Cloaked) (heap : Heap) (p : Cloaked) : option (Heap * Cloaked) :=
  match p with
  | Arrived q => if can_RLock ts then Some (heap, Reading q) else None
  | Reading q =>
      c ← heap !! q.(ak_ptr);
      let '(ttl, expired) := cloak_ttl plugin q.(ak_now) c in
      Some (heap, if must_look_up c expired then LookingUp q ttl c.(cl_target) else Unlocked q ttl)
  | LookingUp q ttl target => Some (heap, match q.(ak_LookupIP) target with Ok ips => Found q ttl ips | _ => NotCloaked q end)
  | Found q ttl ips => if can_Lock ts then Some (heap, Locked q ttl ips) else None
  | Locked q ttl ips => c ← heap !! q.(ak_ptr); Some (<[q.(ak_ptr) := reset_entry q.(ak_now) c]> heap, Storing q ttl ips)
  | Storing q ttl (ip :: ips) =>
      c ← heap !! q.(ak_ptr);
      Some (<[q.(ak_ptr) := (store_ip ip c).1]> heap, Storing q ttl (if (store_ip ip c).2 then [] else ips))
  | Storing q ttl [] => Some (heap, Stored q ttl)
  | Stored q ttl => if can_RLock ts then Some (heap, Rereading q ttl) else None
  | Rereading q ttl => Some (heap, Unlocked q ttl)
  | Unlocked q ttl => c ← heap !! q.(ak_ptr); Some (heap, Answering q ttl c)
  | Answering _ _ _ | NotCloaked _ => None
  end.

Lemma next_turn_sound ts heap p heap' p' : next_turn ts heap p = Some (heap', p') → turn plugin ts heap p heap' p'.
Proof.
  destruct p as [q|q|q ttl target|q ttl ips|q ttl ips|q ttl [|ip ips]|q ttl|q ttl|q ttl|q ttl c|q]; cbn [next_turn]; intros HN; try discriminate.
  - destruct (can_RLock ts) eqn:Hl; simplify_eq. by constructor.
  - apply bind_Some in HN as (c & Hc & HN). destruct (cloak_ttl _ _ _) as [ttl expired] eqn:Ht.
    destruct (must_look_up c expired) eqn:Hm; simplify_eq; by econstructor.
  - destruct (ak_LookupIP q target) eqn:Hl; simplify_eq; first [by constructor|constructor; intros ?; by rewrite Hl].
  - destruct (can_Lock ts) eqn:Hl; simplify_eq. by constructor.
  - apply bind_Some in HN as (c & Hc & HN). simplify_eq. by constructor.
  - simplify_eq. constructor.
  - apply bind_Some in HN as (c & Hc & HN). simplify_eq. by constructor.
  - destruct (can_RLock ts) eqn:Hl; simplify_eq. by constructor.
  - simplify_eq. constructor.
  - apply bind_Some in HN as (c & Hc & HN). simplify_eq. by constructor.
Qed.

(** [Some q] is an arrival, and [None] comes with the index of the goroutine that goes on. *)
Fixpoint run_schedule (l : list (Asking + nat)) (st : list Cloaked * Heap) : option (list Cloaked * Heap) :=
  match l with
  | [] => Some st
  | inl q :: l => run_schedule l (st.1 ++ [Arrived q], st.2)
  | inr i :: l =>
      p ← st.1 !! i;
      x ← next_turn st.1 st.2 p;
      run_schedule l (<[i := x.2]> st.1, x.1)
  end.

Lemma run_schedule_sound (asks : Asking → Prop) l st st' :
  Forall (λ x, match x with inl q => asks q | inr _ => True end) l → run_schedule l st = Some st' → rtc (cloak_step plugin asks) st st'.
Proof.
  intros Hl. revert st. induction Hl as [|[q|i] l Hq Hl IH]; intros [ts heap] HR; cbn [run_schedule fst snd] in HR.
  - injection HR as <-. reflexivity.
  - eapply rtc_l; [by apply step_arrives|by apply IH].
  - apply bind_Some in HR as (p & Hp & ([heap' p'] & Hx & HR)%bind_Some).
    eapply rtc_l; [eapply step_turn; [exact Hp|by apply next_turn_sound]|by apply IH].
Qed.

End Schedules.

Section CloakExamples.
#[local] Existing Instance ascii_tables.
#[local] Existing Instance dotted_net.

(** One rule for a name, whose target has one address, which every lookup finds. *)
Definition cloak_file : bytes := str "www.example intranet.example".
Definition intranet : IP := [192; 0; 2; 1].
Definition intranet_resolves (target : bytes) (ip : IP) : Prop := target = str "intranet.example" ∧ ip = intranet.
Definition at_second (t : Z) : Asking := {|
  ak_ptr := 0; ak_now := t * Second;
  ak_LookupIP := λ target, if decide (target = str "intranet.example") then Ok [intranet] else Err (EMsg "no such host") |}.

Definition cloak_loaded : Out (PluginCloak (gmap bytes (option nat)) * Heap) :=
  PluginCloak_Init id (Ok cloak_file) 600 false (λ m, (map_to_list m).*1).

(** A query finds the address; one that comes before it expires has read that it is known; one
    that comes afterwards replaces it, and has only cleared it when the second answers. *)
Definition race : list (Asking + nat) :=
  inl (at_second 0) :: (inr <$> replicate 10 0%nat) ++
  inl (at_second 599) :: (inr <$> replicate 2 1%nat) ++
  inl (at_second 601) :: (inr <$> replicate 5 2%nat) ++ [inr 1%nat].

Definition race_happens : bool :=
  match cloak_loaded with
  | Ok (plugin, heap0) =>
      match run_schedule plugin race ([], heap0) with
      | Some ([Answering q0 _ c0; Answering q1 _ c1; Storing q2 _ (_ :: _)], _) =>
          bool_decide (is_Some (heap0 !! 0%nat)) && bool_decide (addresses c0 = [intranet]) && (q1.(ak_now) =? 599 * Second) &&
          negb c1.(cl_isIP) && bool_decide (addresses c1 = []) && (q2.(ak_ptr) =? q1.(ak_ptr))%nat
      | _ => false
      end
  | _ => false
  end.

Lemma race_runs :
  ∃ plugin heap0 q0 ttl0 c0 q1 ttl1 c1 q2 ttl2 ip ips heap,
    let ts := [Answering q0 ttl0 c0; Answering q1 ttl1 c1; Storing q2 ttl2 (ip :: ips)] in
    cloak_loaded = Ok (plugin, heap0) ∧ run_schedule plugin race ([], heap0) = Some (ts, heap) ∧ is_Some (heap0 !! 0%nat) ∧
    addresses c0 = [intranet] ∧ q1.(ak_now) = 599 * Second ∧ c1.(cl_isIP) = false ∧ addresses c1 = [] ∧ q2.(ak_ptr) = q1.(ak_ptr).
Proof.
  assert (race_happens = true) as Hrun by by vm_compute. unfold race_happens in Hrun.
  destruct cloak_loaded as [[plugin heap0]| | |]; try discriminate Hrun.
  destruct (run_schedule plugin race _) as [[ts heap]|] eqn:HR; [|discriminate Hrun].
  destruct ts as [|[] ts]; try discriminate Hrun. destruct ts as [|[] ts]; try discriminate Hrun.
  destruct ts as [|[] ts]; try discriminate Hrun. destruct ips; [discriminate Hrun|]. destruct ts; [|discriminate Hrun].
  apply andb_true_iff in Hrun as [[[[[H1 H2]%andb_true_iff H3]%andb_true_iff H4]%andb_true_iff H5]%andb_true_iff H6].
  eexists _, _, _, _, _, _, _, _, _, _, _, _, _. split; [reflexivity|]. split; [exact HR|].
  apply bool_decide_eq_true in H1, H2, H5. apply Z.eqb_eq in H3. apply negb_true_iff in H4. apply Nat.eqb_eq in H6. by split_and!.
Qed.

Lemma race_asks heap0 : is_Some (heap0 !! 0%nat) →
  Forall (λ x, match x with inl q => asks_ok intranet_resolves heap0 q | inr _ => True end) race.
Proof.
  intros Hs. assert (∀ t, asks_ok intranet_resolves heap0 (at_second t)) as Ha.
  { intros t. split; [done|]. cbn. intros target ips. destruct (decide _); [|done]. intros [= <-]. by repeat constructor. }
  unfold race. cbn. repeat (apply Forall_cons_2; [first [exact (Ha _)|exact I]|]). apply Forall_nil_2.
Qed.

(** A finding: the addresses of a rule are read for the answer after [RUnlock]. A query whose entry was
    known and had not expired is answered without any address, because a later query was
    replacing them; every lookup had found the address. *)
Theorem cloak_race :
  ∃ plugin heap0 ts heap q ttl c,
    cloak_loaded = Ok (plugin, heap0) ∧ rtc (cloak_step plugin (asks_ok intranet_resolves heap0)) ([], heap0) (ts, heap) ∧
    ts !! 1%nat = Some (Answering q ttl c) ∧ q.(ak_now) = 599 * Second ∧ c.(cl_isIP) = false ∧ addresses c = [] ∧
    pending_store ts q.(ak_ptr).
Proof.
  destruct race_runs as (plugin & heap0 & q0 & ttl0 & c0 & q1 & ttl1 & c1 & q2 & ttl2 & ip & ips & heap & HL & HR & Hs & _ & H3 & H4 & H5 & H6).
  eexists plugin, heap0, _, heap, q1, ttl1, c1. split; [exact HL|].
  split; [exact (run_schedule_sound plugin _ _ _ _ (race_asks heap0 Hs) HR)|]. split; [reflexivity|].
  split; [exact H3|]. split; [exact H4|]. split; [exact H5|]. exists q2, ttl2, ip, ips. split; [|exact H6].
  apply list_elem_of_lookup. exists 2%nat. reflexivity.
Qed.

Lemma cloak_answers_wit :
  ∃ plugin heap0 ts heap q ttl c,
    cloak_loaded = Ok (plugin, heap0) ∧ rtc (cloak_step plugin (asks_ok intranet_resolves heap0)) ([], heap0) (ts, heap) ∧
    Answering q ttl c ∈ ts ∧ addresses c = [intranet] ∧
    ∃ c0, heap0 !! q.(ak_ptr) = Some c0 ∧ c.(cl_PTR) = c0.(cl_PTR) ∧
      if c0.(cl_isIP) then c.(cl_ipv4) = c0.(cl_ipv4) ∧ c.(cl_ipv6) = c0.(cl_ipv6)
      else Forall (intranet_resolves c0.(cl_target)) (addresses c).
Proof.
  destruct race_runs as (plugin & heap0 & q0 & ttl0 & c0 & q1 & ttl1 & c1 & q2 & ttl2 & ip & ips & heap & HL & HR & Hs & Ha & _).
  pose proof (run_schedule_sound plugin _ _ _ _ (race_asks heap0 Hs) HR) as Hr.
  eexists plugin, heap0, _, heap, q0, ttl0, c0. split; [exact HL|]. split; [exact Hr|]. split; [apply list_elem_of_here|]. split; [exact Ha|].
  destruct (cloak_answers id _ _ _ _ plugin heap0 intranet_resolves _ heap HL Hr) as [Hans _].
  exact (Hans q0 ttl0 c0 (list_elem_of_here _ _)).
Defined.

End CloakExamples.
