(* ===== verification/PluginChain.v ===== *)
(** plugins.go: the choice and order of the plugins, and their application to
    queries, responses and logs. *)
From S2P Require Import Prelude.
From S2P Require Import GoStrings.
From S2P Require Import Common.
From S2P Require Import TimeRanges.
From S2P Require Import ServerTypes.
From S2P Require Import PatternMatcher.
From S2P Require Import DnsMsg.
From S2P Require Import DnsUtils.
From S2P Require Import XTransport.
From S2P Require Import ARC.
From S2P Require Import Plugins.
From S2P Require Import Cache.
From S2P Require Import BlockPlugins.
From S2P Require Import RewritePlugins.

(** * The plugins of a configuration *)

(** The interface [Plugin], after [Init]. *)
Record Plugin (C : Type) := {
  p_Name : bytes;
  p_Description : bytes;
  p_Drop : Out unit;
  p_Reload : Out unit;
  p_Eval : PEnv → World C → PluginsState → Msg → Out (Evaluated C)
}.
Arguments p_Name {_} _. Arguments p_Description {_} _. Arguments p_Drop {_} _. Arguments p_Reload {_} _.
Arguments p_Eval {_} _ _ _ _ _.

(** [Drop] and [Reload] return nil in every plugin. *)
Definition plug {C} (name description : string) (eval : PEnv → World C → PluginsState → Msg → Out (Evaluated C)) : Plugin C :=
  {| p_Name := str name; p_Description := str description; p_Drop := Ok tt; p_Reload := Ok tt; p_Eval := eval |}.

Section Plugins.
Context `{UnicodeTables} `{NetLib} {C : Type}.

Definition new_PluginCaptivePortal (m : CaptivePortalMap) : Plugin C :=
  plug "captive portal handlers" "Handle test queries operating systems make to detect Wi-Fi captive portal"
    (λ _, PluginCaptivePortal_Eval m).

(** The plugin that adds meta information has the name of the one that logs queries. *)
Definition new_PluginQueryMeta (queryMetaRR : RR) : Plugin C :=
  plug "query_log" "Log DNS queries." (λ _, PluginQueryMeta_Eval queryMetaRR).

Definition new_PluginFirefox : Plugin C :=
  plug "firefox" "Work around Firefox taking over DNS" (λ _, PluginFirefox_Eval).

Definition new_PluginECS (nets : list IPNet) : Plugin C :=
  plug "ecs" "Set EDNS-client-subnet information in outgoing queries." (PluginECS_Eval nets).

Definition new_PluginBlockIPv6 : Plugin C :=
  plug "block_ipv6" "Immediately return a synthetic response to AAAA queries." (λ _, PluginBlockIPv6_Eval).

Definition new_PluginGetSetPayloadSize : Plugin C :=
  plug "get_set_payload_size" "Adjusts the maximum payload size advertised in queries sent to upstream servers."
    (λ _, PluginGetSetPayloadSize_Eval).

Definition new_PluginForward (forwardMap : list PluginForwardEntry) : Plugin C :=
  plug "forward" "Route queries matching specific domains to a dedicated set of servers" (PluginForward_Eval forwardMap).

Definition new_PluginBlockUnqualified : Plugin C :=
  plug "block_unqualified" "Block unqualified DNS names" (λ _, PluginBlockUnqualified_Eval).

Definition new_PluginDNS64 `{Codec} (prefixes : list IPNet) : Plugin C :=
  plug "dns64" "Synthesize DNS64 AAAA responses" (PluginDNS64_Eval prefixes).

Context (TypeToString : Z → option bytes).

Definition new_PluginNxLog (lg : LogConfig) : Plugin C :=
  plug "nx_log" "Log DNS queries for nonexistent zones." (λ env, PluginNxLog_Eval TypeToString env lg).

Definition new_PluginQueryLog (lg : LogConfig) (ignoredQtypes : list bytes) : Plugin C :=
  plug "query_log" "Log DNS queries." (λ env, PluginQueryLog_Eval TypeToString env lg ignoredQtypes).

Section NameRules.
Context {T : Type} `{PrefixTrie (option Ranges) T}.

Definition new_PluginAllowName (rules : NameRules T) : Plugin C :=
  plug "allow_name" "Allow names matching patterns" (λ env, PluginAllowName_Eval env rules).

(** The rules are shared by the two plugins. *)
Definition new_PluginBlockName (blockedNames : option (NameRules T)) : Plugin C :=
  plug "block_name" "Block DNS queries matching name patterns" (λ env, PluginBlockName_Eval env blockedNames).

Definition new_PluginBlockNameResponse (blockedNames : option (NameRules T)) : Plugin C :=
  plug "block_name" "Block DNS responses matching name patterns" (λ env, PluginBlockNameResponse_Eval env blockedNames).

End NameRules.

Section IPRules.
Context {T : Type} `{PrefixTrie unit T}.

Definition new_PluginAllowedIP (rules : IPRules T) : Plugin C :=
  plug "allow_ip" "Allows DNS queries containing specific IP addresses" (λ env, PluginAllowedIP_Eval env rules).

Definition new_PluginBlockIP (rules : IPRules T) : Plugin C :=
  plug "block_ip" "Block responses containing specific IP addresses" (λ env, PluginBlockIP_Eval env rules).

Definition new_PluginBlockUndelegated (suffixes : T) : Plugin C :=
  plug "block_undelegated" "Block undelegated DNS names" (λ _, PluginBlockUndelegated_Eval suffixes).

End IPRules.

Definition new_PluginCloak {T} `{PrefixTrie (option nat) T} (p : PluginCloak T) : Plugin C :=
  plug "cloak" "Return a synthetic IP address or a flattened CNAME for specific names" (PluginCloak_Eval p).

End Plugins.

Section CachePlugins.
Context `{Store CachedResponse} (sha512_256 : bytes → bytes).

Definition new_PluginCache : Plugin (St CachedResponse) :=
  plug "cache" "DNS cache (reader)." (PluginCache_Eval sha512_256).

Definition new_PluginCacheResponse : Plugin (St CachedResponse) :=
  plug "cache_response" "DNS cache (writer)." (PluginCacheResponse_Eval sha512_256).

End CachePlugins.

Record PluginsGlobals (C : Type) := {
  queryPlugins : list (Plugin C);
  responsePlugins : list (Plugin C);
  loggingPlugins : list (Plugin C);
  respondWithIPv4 : IP;
  respondWithIPv6 : IP;
  refusedCodeInResponses : bool
}.
Arguments queryPlugins {_} _. Arguments responsePlugins {_} _. Arguments loggingPlugins {_} _.
Arguments respondWithIPv4 {_} _. Arguments respondWithIPv6 {_} _. Arguments refusedCodeInResponses {_} _.

(** The settings of [Proxy] read here. A file is [None] if its name is empty, and
    otherwise its contents or the error reading it. *)
Record PluginsConfig := {
  captivePortalMap : option CaptivePortalMap;
  queryMeta : list bytes;
  allowNameFile : option (Out bytes);
  allowNameLog : option LogConfig;
  ednsClientSubnets : list IPNet;
  blockNameFile : option (Out bytes);
  blockNameLog : option LogConfig;
  pluginBlockIPv6 : bool;
  cloakFile : option (Out bytes);
  cloakTTL : Z;
  cloakedPTR : bool;
  cache : bool;
  forwardFile : option (Out bytes);
  pluginBlockUnqualified : bool;
  pluginBlockUndelegated : bool;
  nxLog : option LogConfig;
  allowedIPFile : option (Out bytes);
  allowedIPLog : option LogConfig;
  blockIPFile : option (Out bytes);
  blockIPLog : option LogConfig;
  dns64Resolvers : list bytes;
  dns64Prefixes : list bytes;
  queryLog : option LogConfig;
  queryLogIgnoredQtypes : list bytes;
  allWeeklyRanges : gmap bytes WeeklyRanges;
  listenAddresses : list bytes;
  blockedQueryResponse : bytes
}.

(** * Blocked responses *)

(** [strings.Trim(s, "[]")]. *)
Definition trim_brackets (s : bytes) : bytes :=
  dropWhileEnd (λ c, (c =? 91) || (c =? 93)) (dropWhile (λ c, (c =? 91) || (c =? 93)) s).

(** [parseBlockedQueryResponse]: the IPv4 and IPv6 responses (nil if none) and
    whether to refuse. *)
Definition parseBlockedQueryResponse `{UnicodeTables} `{NetLib} (blockedResponse : bytes) : IP * IP * bool :=
  let blockedResponse := StringStripSpaces (ToLower blockedResponse) in
  if HasPrefix blockedResponse (str "a:") then
    match Split blockedResponse (str ",") with
    | first :: rest =>
        let respondWithIPv4 := net_ParseIP (TrimPrefix first (str "a:")) in
        if bool_decide (respondWithIPv4 = []) then ([], [], false)
        else
          let respondWithIPv6 :=
            match rest with
            | second :: _ =>
                if HasPrefix second (str "aaaa:") then
                  let ipv6Response := TrimPrefix second (str "aaaa:") in
                  net_ParseIP (if HasPrefix ipv6Response (str "[") then trim_brackets ipv6Response else ipv6Response)
                else []
            | [] => []
            end in
          (respondWithIPv4, if bool_decide (respondWithIPv6 = []) then respondWithIPv4 else respondWithIPv6, false)
    | [] => ([], [], false)
    end
  else ([], [], bool_decide (blockedResponse = str "refused")).

(** * Initialization *)

Section Init.
Context `{UnicodeTables} `{NetLib} `{Codec} `{Store CachedResponse}.
Context {TN TI TC : Type} `{PrefixTrie (option Ranges) TN} `{PrefixTrie unit TI} `{PrefixTrie (option nat) TC}.
Context (sha512_256 : bytes → bytes) (ReverseAddr : bytes → bytes) (ParseCIDR : bytes → Out IPNet)
        (TypeToString : Z → option bytes) (map_order : gmap bytes nat → list bytes).
Abbreviation CacheT := (St CachedResponse).
Abbreviation plugin := (Plugin CacheT).

(** A plugin that is in the list if its setting is there. *)
Definition optional {A} (setting : option A) (make : A → Out plugin) : Out (list plugin) :=
  match setting with
  | Some a => let! p := make a in Ok [p]
  | None => Ok []
  end.

Definition when (b : bool) (p : plugin) : list plugin := if b then [p] else [].

(** [InitPluginsGlobals]: the plugins, and the targets of the cloaking rules. *)
Definition InitPluginsGlobals (cfg : PluginsConfig) (env : PEnv) : Out (PluginsGlobals CacheT * gmap nat CloakedName) :=
  let captive := match cfg.(captivePortalMap) with
                 | Some m => [new_PluginCaptivePortal m]
                 | None => []
                 end in
  let meta := when (negb (length cfg.(queryMeta) =? 0)%nat)
                (new_PluginQueryMeta (PluginQueryMeta_Init cfg.(queryMeta))) in
  let! allow := optional cfg.(allowNameFile) (λ file,
    let! r := PluginAllowName_Init (T := TN) file cfg.(allWeeklyRanges) cfg.(allowNameLog) in
    Ok (new_PluginAllowName r)) in
  let firefox := [new_PluginFirefox] in
  let ecs := when (negb (length cfg.(ednsClientSubnets) =? 0)%nat)
               (new_PluginECS cfg.(ednsClientSubnets)) in
  let! blockedNames := match cfg.(blockNameFile) with
                       | Some file =>
                           let! r := PluginBlockName_Init (T := TN) file cfg.(allWeeklyRanges) cfg.(blockNameLog) in
                           Ok (Some r)
                       | None => Ok None
                       end in
  let block := when (bool_decide (is_Some cfg.(blockNameFile)))
                 (new_PluginBlockName blockedNames) in
  let ipv6 := when cfg.(pluginBlockIPv6) new_PluginBlockIPv6 in
  let! (cloak, heap) := match cfg.(cloakFile) with
                        | Some file =>
                            let! (c, heap) := PluginCloak_Init (T := TC) ReverseAddr file cfg.(cloakTTL)
                                                cfg.(cloakedPTR) map_order in
                            Ok ([new_PluginCloak c], heap)
                        | None => Ok ([], ∅)
                        end in
  let payload := [new_PluginGetSetPayloadSize] in
  let cached := when cfg.(cache) (new_PluginCache sha512_256) in
  let! forward := optional cfg.(forwardFile) (λ file,
    let! r := PluginForward_Init file in Ok (new_PluginForward r)) in
  let unqualified := when cfg.(pluginBlockUnqualified) new_PluginBlockUnqualified in
  let undelegated := when cfg.(pluginBlockUndelegated)
                       (new_PluginBlockUndelegated (PluginBlockUndelegated_Init (T := TI))) in
  let nx := match cfg.(nxLog) with
            | Some lg => [new_PluginNxLog TypeToString lg]
            | None => []
            end in
  let! allowIP := optional cfg.(allowedIPFile) (λ file,
    let! r := PluginAllowedIP_Init (T := TI) file cfg.(allowedIPLog) in
    Ok (new_PluginAllowedIP r)) in
  let blockResponse := when (bool_decide (is_Some cfg.(blockNameFile)))
                         (new_PluginBlockNameResponse blockedNames) in
  let! blockIP := optional cfg.(blockIPFile) (λ file,
    let! r := PluginBlockIP_Init (T := TI) file cfg.(blockIPLog) in
    Ok (new_PluginBlockIP r)) in
  let! dns64 := if negb (length cfg.(dns64Resolvers) =? 0)%nat || negb (length cfg.(dns64Prefixes) =? 0)%nat then
                  let! p := PluginDNS64_Init ParseCIDR env cfg.(listenAddresses) cfg.(dns64Prefixes) cfg.(dns64Resolvers) in
                  Ok [new_PluginDNS64 p]
                else Ok [] in
  let cachedResponse := when cfg.(cache) (new_PluginCacheResponse sha512_256) in
  let logging := match cfg.(queryLog) with
                 | Some lg => [new_PluginQueryLog TypeToString lg cfg.(queryLogIgnoredQtypes)]
                 | None => []
                 end in
  let '(ipv4r, ipv6r, refused) := parseBlockedQueryResponse cfg.(blockedQueryResponse) in
  Ok ({| queryPlugins := captive ++ meta ++ allow ++ firefox ++ ecs ++ block ++ ipv6 ++ cloak ++ payload ++
                         cached ++ forward ++ unqualified ++ undelegated;
         responsePlugins := nx ++ allowIP ++ blockResponse ++ blockIP ++ dns64 ++ cachedResponse;
         loggingPlugins := logging;
         respondWithIPv4 := ipv4r; respondWithIPv6 := ipv6r; refusedCodeInResponses := refused |}, heap).

End Init.

(** * Application *)

Section Apply.
Context `{Codec} {C : Type}.

(** The environment of each plugin, by its position in its list. *)
Abbreviation Envs := (nat → PEnv).

(** The loop over the query or response plugins: an error drops the query; a
    rejection gets its answer; the loop ends at the first plugin that does not let
    the query continue. *)
Fixpoint run_plugins (g : PluginsGlobals C) (envs : Envs) (i : nat) (ps : list (Plugin C))
    (w : World C) (s : PluginsState) (msg : Msg) : Out (Evaluated C) :=
  match ps with
  | [] => Ok (w, s, msg, None)
  | p :: ps =>
      let! (w, s, msg, err) := p.(p_Eval) (envs i) w s msg in
      match err with
      | Some e => Ok (w, s <| action := PluginsActionDrop |>, msg, Some e)
      | None =>
          let! s :=
            if decide (s.(action) = PluginsActionReject) then
              let! synth := RefusedResponseFromMessage msg g.(refusedCodeInResponses) g.(respondWithIPv4)
                              g.(respondWithIPv6) s.(rejectTTL) in
              Ok (s <| synthResponse := Some synth |>)
            else Ok s in
          if decide (s.(action) = PluginsActionContinue) then run_plugins g envs (S i) ps w s msg
          else Ok (w, s, msg, None)
      end
  end.

(** The world, the state, the packet and the error. *)
Abbreviation Applied := (World C * PluginsState * bytes * option error)%type.

(** [err] as a returned value; panics stay panics. *)
Definition catch {A B} (m : Out A) (ok : A → Out B) (err : error → Out B) : Out B :=
  match m with Ok a => ok a | Err e => err e | Panic => Panic | Fatal => Fatal end.

(** [ApplyQueryPlugins]. [questionMsg] points to the message the plugins change. *)
Definition ApplyQueryPlugins (g : PluginsGlobals C) (envs : Envs) (w : World C) (s : PluginsState)
    (packet : bytes) (needsEDNS0Padding : bool) : Out Applied :=
  let fail w s e : Out Applied := Ok (w, s, packet, Some e) in
  catch (Unpack packet) (λ msg,
    match msg.(Questions) with
    | [question] =>
        catch (NormalizeQName question.(qn_Name)) (λ name,
          let s := s <| qName := name |> <| questionMsg := Some msg |> in
          if (length g.(queryPlugins) =? 0)%nat && (length g.(loggingPlugins) =? 0)%nat
          then Ok (w, s, packet, None)
          else
            let! (w, s, msg, err) := run_plugins g envs 0 g.(queryPlugins) w s msg in
            let s := s <| questionMsg := Some msg |> in
            match err with
            | Some e => fail w s e
            | None =>
                catch (Pack msg) (λ packet2,
                  if needsEDNS0Padding && bool_decide (s.(action) = PluginsActionContinue) then
                    let padLen := 63 - Z.land (len packet2 + 63) 63 in
                    let! (msg, padded) := addEDNS0PaddingIfNoneFound msg packet2 padLen in
                    let s := s <| questionMsg := Some msg |> in
                    catch padded (λ paddedPacket2, Ok (w, s, paddedPacket2, None))
                                 (λ _, Ok (w, s, packet2, None))
                  else Ok (w, s, packet2, None)) (fail w s)
            end) (fail w s)
    | _ => fail w s (EMsg "Unexpected number of questions")
    end) (fail w s).

Definition response_code (rcode : Z) : PluginsReturnCode :=
  if rcode =? RcodeSuccess then PluginsReturnCodePass
  else if rcode =? RcodeNameError then PluginsReturnCodeNXDomain
  else if rcode =? RcodeServerFailure then PluginsReturnCodeServFail
  else PluginsReturnCodeResponseError.

(** [ApplyResponsePlugins]. The records of a response stored in the cache are
    shared with the message; [setMaxTTL], the only thing done to them after the
    last plugin, does not change what the cache answers ([Cache.setMaxTTL_same],
    [Cache.served_same]). *)
Definition ApplyResponsePlugins (g : PluginsGlobals C) (envs : Envs) (w : World C) (s : PluginsState)
    (packet : bytes) (ttl : option Z) : Out Applied :=
  let fail w s e : Out Applied := Ok (w, s, packet, Some e) in
  catch (Unpack packet) (λ msg,
    let msg := msg <| Compress := true |> in
    let! rcode := Rcode packet in
    let s := s <| returnCode := response_code rcode |> in
    let! (msg, _) := removeEDNS0Options msg in
    let! (w, s, msg, err) := run_plugins g envs 0 g.(responsePlugins) w s msg in
    match err with
    | Some e => fail w s e
    | None =>
        let msg := match ttl with Some t => setMaxTTL msg t | None => msg end in
        catch (Pack msg) (λ packet2, Ok (w, s, packet2, None)) (fail w s)
    end)
    (λ e,
      if MinDNSPacketSize <=? len packet then
        let! tc := HasTCFlag packet in
        Ok (w, s, packet, if tc then None else Some e)
      else fail w s e).

Fixpoint run_logging (envs : Envs) (i : nat) (ps : list (Plugin C)) (w : World C) (s : PluginsState) (msg : Msg)
    : Out (World C * PluginsState) :=
  match ps with
  | [] => Ok (w, s)
  | p :: ps =>
      let! (w, s, msg, err) := p.(p_Eval) (envs i) w s msg in
      match err with
      | Some _ => Ok (w, s)
      | None => run_logging envs (S i) ps w s msg
      end
  end.

(** [ApplyLoggingPlugins]; every caller ignores its error. *)
Definition ApplyLoggingPlugins (g : PluginsGlobals C) (envs : Envs) (w : World C) (s : PluginsState)
    : Out (World C * PluginsState) :=
  if (length g.(loggingPlugins) =? 0)%nat then Ok (w, s)
  else
    let s := s <| requestEnd := clock (envs 0%nat) 0 |> in
    match s.(questionMsg) with
    | None => Ok (w, s)
    | Some questionMsg => run_logging envs 0 g.(loggingPlugins) w s questionMsg
    end.

End Apply.

(** * Lemmas *)

Section ChainLemmas.
Context `{Codec} {C : Type}.
Implicit Types (g : PluginsGlobals C) (w : World C).

(** What blocking a query by name depends on. *)
Record pending (name : bytes) (id : Z) (qs : list Question) (addr : option ClientAddr) (proto : bytes)
    (s : PluginsState) (msg : Msg) : Prop := {
  pd_action : s.(action) = PluginsActionContinue;
  pd_qName : s.(qName) = name;
  pd_whitelisted : s.(whitelisted) = false;
  pd_addr : s.(clientAddr) = addr;
  pd_proto : s.(clientProto) = proto;
  pd_id : msg.(Id) = id;
  pd_questions : msg.(Questions) = qs;
  pd_wf : msg_wf msg
}.

(** A plugin that lets such a query through, whatever it changes besides. *)
Definition passes name id qs addr proto (p : Plugin C) : Prop :=
  ∀ env w s msg, pending name id qs addr proto s msg →
    ∃ w' s' msg', p.(p_Eval) env w s msg = Ok (w', s', msg', None) ∧
      pending name id qs addr proto s' msg' ∧ s'.(rejectTTL) = s.(rejectTTL).

Lemma run_plugins_app g envs i pre post w s msg name id qs addr proto :
  Forall (passes name id qs addr proto) pre → pending name id qs addr proto s msg →
  ∃ w' s' msg', run_plugins g envs i (pre ++ post) w s msg =
      run_plugins g envs (i + length pre) post w' s' msg' ∧
    pending name id qs addr proto s' msg' ∧ s'.(rejectTTL) = s.(rejectTTL).
Proof.
  intros Hpre. revert i w s msg. induction Hpre as [|p pre Hp Hpre IH]; intros i w s msg Hs.
  { exists w, s, msg. by rewrite Nat.add_0_r. }
  destruct (Hp (envs i) w s msg Hs) as (w1 & s1 & m1 & HE & Hs1 & Ht1). cbn [app run_plugins].
  rewrite HE. cbn [obind]. pose proof (pd_action _ _ _ _ _ _ _ Hs1) as Ha.
  rewrite decide_False by (rewrite Ha; done). cbn [obind]. rewrite decide_True by done.
  destruct (IH (S i) w1 s1 m1 Hs1) as (w2 & s2 & m2 & HR & Hs2 & Ht2).
  exists w2, s2, m2. rewrite HR. split_and!; [|done|congruence]. f_equal. cbn [length]. lia.
Qed.

(** A plugin that rejects ends the loop with a refusal. *)
Lemma run_plugins_rejects g envs i p post w s msg w' :
  p.(p_Eval) (envs i) w s msg = Ok (w', rejected s, msg, None) → msg_wf msg →
  ∃ r, RefusedResponseFromMessage msg g.(refusedCodeInResponses) g.(respondWithIPv4) g.(respondWithIPv6)
         s.(rejectTTL) = Ok r ∧
       run_plugins g envs i (p :: post) w s msg = Ok (w', rejected s <| synthResponse := Some r |>, msg, None).
Proof.
  intros HE Hwf. cbn [run_plugins]. rewrite HE. cbn [obind].
  rewrite decide_True by done. change (rejectTTL (rejected s)) with (rejectTTL s).
  unfold RefusedResponseFromMessage. destruct (EmptyResponse_ok msg Hwf) as (r & -> & _). cbn [obind].
  destruct (refusedCodeInResponses g); [by eexists|]. destruct (Questions msg) as [|q rest]; by eexists.
Qed.

(** ** The plugins before name blocking *)

Lemma passes_firefox name id qs q rest addr proto :
  qs = q :: rest → ¬ in_zone name (str "use-application-dns.net") →
  passes name id qs addr proto new_PluginFirefox.
Proof.
  intros -> Hz env w s msg Hs. exists w, s, msg. split; [|done]. cbn [p_Eval plug new_PluginFirefox]. unfold PluginFirefox_Eval.
  destruct (bool_decide _); [done|]. rewrite (pd_questions _ _ _ _ _ _ _ Hs). cbn [head orPanic obind].
  destruct (negb (is_address_question q)); [done|]. rewrite (pd_qName _ _ _ _ _ _ _ Hs).
  rewrite bool_decide_eq_false_2 by (intros ->; apply Hz; by left).
  destruct (HasSuffix name (str ".use-application-dns.net")) eqn:Hf; [|done].
  apply HasSuffix_spec in Hf as [r ->]. destruct Hz. right. by exists r.
Qed.

Lemma passes_query_meta name id qs addr proto meta :
  passes name id qs addr proto (new_PluginQueryMeta (PluginQueryMeta_Init meta)).
Proof.
  intros env w s msg []. eexists w, s, _. split; [reflexivity|]. split; [|done]. constructor; try done.
  constructor; [|constructor]. by intros.
Qed.

Lemma set_first_options_wf extra o : Forall opt_wf extra → Forall opt_wf (set_first_options extra o).
Proof.
  intros Hwf. unfold set_first_options. destruct (list_find _ _) as [[i rr]|]; [|done].
  apply Forall_insert; [done|]. intros _. by eexists.
Qed.

Lemma SetEdns0_wf m size do : msg_wf m → msg_wf (SetEdns0 m size do).
Proof. intros Hwf. apply list.Forall_app. split; [done|]. constructor; [apply new_OPT_wf|constructor]. Qed.

Lemma passes_ecs name id qs addr proto nets :
  nets ≠ [] → passes name id qs addr proto (new_PluginECS nets).
Proof.
  intros Hne env w s msg Hs. cbn [p_Eval plug new_PluginECS]. unfold PluginECS_Eval.
  assert (∃ net, (let! i := ServersInfo.Intn (rand env 0) (len nets) in orPanic (index nets i)) = Ok net) as [net Hnet].
  { destruct (ServersInfo.Intn_Ok (rand env 0) (len nets)) as (i & -> & Hi); [destruct nets; [done|len_lia]|].
    cbn [obind]. unfold index. rewrite decide_True by lia.
    destruct (lookup_lt_is_Some_2 nets (Z.to_nat i)) as [net ->]; [len_lia|]. by eexists. }
  destruct (ServersInfo.Intn _ _) as [i| | |]; cbn [obind] in Hnet; try done. cbn [obind].
  pose proof (pd_wf _ _ _ _ _ _ _ Hs) as Hwf. destruct Hs as [].
  destruct (list_find _ _) as [[j rr]|] eqn:Hf.
  - apply list_find_Some in Hf as (Hj & Hopt & _).
    unfold msg_wf in Hwf. rewrite list.Forall_lookup in Hwf. destruct (Hwf j rr Hj Hopt) as [o Ho].
    unfold opt_options. rewrite Ho. cbn [obind].
    destruct (has_subnet o); [by exists w, s, msg|]. rewrite Hnet. cbn [obind].
    destruct (_ || _); [|by exists w, s, msg]. eexists w, s, _. split; [reflexivity|]. split; [|done].
    constructor; try done. by apply set_first_options_wf.
  - cbn [obind]. rewrite Hnet. cbn [obind]. destruct (_ || _); (eexists w, s, _; split; [reflexivity|]; split; [|done]);
      constructor; try done; [apply set_first_options_wf|]; by apply SetEdns0_wf.
Qed.

End ChainLemmas.

(** * Theorems *)

(** Every query plugin is skipped for a query with no question or several, and
    for one whose name has a byte outside ASCII: whatever the configuration, the
    packet and the state come back unchanged, with the action Continue they had
    and an error that the caller ignores. *)
Lemma odd_question_bypasses_plugins `{Codec} {C} (g : PluginsGlobals C) envs w s packet padding msg :
  Unpack packet = Ok msg →
  (∀ q, msg.(Questions) = [q] → ∃ e, NormalizeQName q.(qn_Name) = Err e) →
  ∃ e, ApplyQueryPlugins g envs w s packet padding = Ok (w, s, packet, Some e).
Proof.
  intros Hu Hq. unfold ApplyQueryPlugins. rewrite Hu. cbn [catch].
  destruct (Questions msg) as [|q [|q2 rest]]; [by eexists| |by eexists].
  destruct (Hq q eq_refl) as [e ->]. cbn [catch]. by eexists.
Qed.

Section ChainTheorems.
Context `{UnicodeTables} `{NetLib} `{CodecLaws} `{Store CachedResponse}.
Context {TN TI TC : Type} `{PrefixTrieLaws (option Ranges) TN} `{PrefixTrie unit TI} `{PrefixTrie (option nat) TC}.
Context (sha512_256 : bytes → bytes) (ReverseAddr : bytes → bytes) (ParseCIDR : bytes → Out IPNet)
        (TypeToString : Z → option bytes) (map_order : gmap bytes nat → list bytes).
Abbreviation Init := (InitPluginsGlobals (TN := TN) (TI := TI) (TC := TC) sha512_256 ReverseAddr ParseCIDR TypeToString map_order).
Abbreviation CacheT := (St CachedResponse).

Lemma can_log_same lg s s' :
  can_log lg s → s'.(clientAddr) = s.(clientAddr) → s'.(clientProto) = s.(clientProto) → can_log lg s'.
Proof. unfold can_log, clientIP. destruct lg; [|done]. by intros ? -> ->. Qed.

(** The query plugins of a configuration without captive portals and allow list. *)
Lemma query_plugins_blocked cfg env g heap ps lg :
  Init cfg env = Ok (g, heap) → cfg.(captivePortalMap) = None → cfg.(allowNameFile) = None →
  cfg.(blockNameFile) = Some (Ok (Join ps [10])) → cfg.(blockNameLog) = lg → Forall zone_line ps → ps ≠ [] →
  ∃ m pre post, only_zones (T := TN) ps m ∧
    g.(queryPlugins) = pre ++
      new_PluginBlockName (Some {| nr_patternMatcher := m; nr_logger := lg |}) :: post ∧
    (∀ name id q addr proto, ¬ in_zone name (str "use-application-dns.net") →
       Forall (passes name id [q] addr proto) pre).
Proof.
  intros HI Hc Ha Hb Hlg Hps Hne. destruct (zone_file_Init (T := TN) ps cfg.(allWeeklyRanges) lg Hps Hne) as (m & Hm & Hz).
  unfold InitPluginsGlobals in HI. rewrite Hc, Ha, Hb, Hlg in HI. cbn [optional obind] in HI. rewrite Hm in HI.
  cbn [obind] in HI.
  apply obind_Ok in HI as ([cloak heap'] & _ & HI). apply obind_Ok in HI as (fwd & _ & HI).
  apply obind_Ok in HI as (aip & _ & HI). apply obind_Ok in HI as (bip & _ & HI).
  apply obind_Ok in HI as (d64 & _ & HI). destruct (parseBlockedQueryResponse _) as [[ip4 ip6] ref].
  injection HI as <- _. exists m.
  exists (when (negb (length cfg.(queryMeta) =? 0)%nat)
            (new_PluginQueryMeta (PluginQueryMeta_Init cfg.(queryMeta))) ++
          [new_PluginFirefox] ++
          when (negb (length cfg.(ednsClientSubnets) =? 0)%nat) (new_PluginECS cfg.(ednsClientSubnets))).
  eexists. split; [done|]. cbn [queryPlugins]. split; [rewrite <- !app_assoc; reflexivity|].
  intros name id q addr proto Hff. rewrite !list.Forall_app. split_and!.
  - destruct (_ =? _)%nat; cbn [negb when]; [by constructor|]. apply list.Forall_singleton, passes_query_meta.
  - apply list.Forall_singleton. by eapply passes_firefox.
  - destruct (Nat.eqb_spec (length (ednsClientSubnets cfg)) 0) as [|Hn]; cbn [negb when]; [by constructor|].
    apply list.Forall_singleton, passes_ecs. intros E. by rewrite E in Hn.
Qed.

Lemma no_logging_plugins cfg env g heap :
  Init cfg env = Ok (g, heap) → cfg.(queryLog) = None → g.(loggingPlugins) = [].
Proof.
  intros HI Hq. unfold InitPluginsGlobals in HI. rewrite Hq in HI.
  repeat (apply obind_Ok in HI as ([? ?] & _ & HI) || apply obind_Ok in HI as (? & _ & HI)).
  destruct (parseBlockedQueryResponse _) as [[ip4 ip6] ref]. by injection HI as <- _.
Qed.

(** Blocking, from the configuration to the answer. In every configuration
    with a block file that lists domain names, and without captive portals or
    allow list, a query with one question whose name is at or below a listed
    name is rejected, whatever the other plugins: its state carries a refusal for
    that question with the query's identifier, built as configured. *)
Lemma blocked_name_refused cfg env g heap ps envs (w : World CacheT) s packet msg q name p padding :
  Init cfg env = Ok (g, heap) → cfg.(captivePortalMap) = None → cfg.(allowNameFile) = None →
  cfg.(blockNameFile) = Some (Ok (Join ps [10])) → Forall zone_line ps → can_log cfg.(blockNameLog) s →
  Unpack packet = Ok msg → msg.(Questions) = [q] → NormalizeQName q.(qn_Name) = Ok name → ascii name →
  (2 ≤ length name)%nat → p ∈ ps → in_zone name p → clear_suffix ps name p →
  ¬ in_zone name (str "use-application-dns.net") →
  s.(action) = PluginsActionContinue → s.(whitelisted) = false →
  ∃ w' s' packet' err r msg',
    ApplyQueryPlugins g envs w s packet padding = Ok (w', s', packet', err) ∧
    s'.(action) = PluginsActionReject ∧ s'.(returnCode) = PluginsReturnCodeReject ∧ s'.(synthResponse) = Some r ∧
    RefusedResponseFromMessage msg' g.(refusedCodeInResponses) g.(respondWithIPv4) g.(respondWithIPv6) s.(rejectTTL) = Ok r ∧
    msg'.(Id) = msg.(Id) ∧ msg'.(Questions) = [q] ∧ msg_wf msg'.
Proof.
  intros HI Hc Ha Hb Hps Hlog Hu Hq Hn Hasc Hl Hp Hz Hcs Hff Hact Hwl.
  destruct (query_plugins_blocked _ _ _ _ _ _ HI Hc Ha Hb eq_refl Hps) as (m & pre & post & Hm & Hqp & Hpre);
    [by intros ->; set_solver|].
  set (bp := new_PluginBlockName _) in Hqp.
  pose proof (Unpack_header _ _ Hu) as [Hwf _].
  set (s0 := s <| qName := name |> <| questionMsg := Some msg |>).
  assert (pending name msg.(Id) [q] s.(clientAddr) s.(clientProto) s0 msg) as Hpend by by constructor.
  unfold ApplyQueryPlugins. rewrite Hu. cbn [catch]. rewrite Hq, Hn. cbn [catch]. fold s0.
  rewrite Hqp. rewrite (proj2 (Nat.eqb_neq _ _)) by (rewrite length_app, length_cons; lia). cbn [andb].
  destruct (run_plugins_app g envs 0 _ (bp :: post) w s0 msg _ _ _ _ _
    (Hpre name msg.(Id) q s.(clientAddr) s.(clientProto) Hff) Hpend) as (w1 & s1 & m1 & HR & Hp1 & Ht1).
  rewrite HR. clear HR Hpend.
  destruct Hp1 as [Ha1 Hn1 Hw1 Hcl1 Hpr1 Hid1 Hq1 Hwf1].
  destruct (PluginBlockName_rejects (envs (0 + length pre)%nat) {| nr_patternMatcher := m; nr_logger := blockNameLog cfg |} w1 s1 m1)
    as (w2 & s2 & HE & Hs2); [by apply (can_log_same _ s)|done|].
  rewrite decide_True in Hs2; [subst s2|rewrite Hn1; by eapply zone_applies].
  destruct (run_plugins_rejects g envs (0 + length pre) bp post w1 s1 m1 w2 HE Hwf1) as (r & Hr & HR).
  rewrite HR. cbn [obind]. rewrite bool_decide_eq_false_2, andb_false_r by done.
  destruct (Pack_no_panic m1 Hwf1) as [Hnp Hnf].
  rewrite Ht1 in Hr. destruct (Pack m1); [..|done|done]; cbn [catch];
    (eexists _, _, _, _, r, m1; split; [reflexivity|]); by split_and!.
Qed.

End ChainTheorems.

(** * Witnesses *)

Section ChainExamples.
#[local] Existing Instance ascii_tables.
#[local] Existing Instance tiny_codec.
#[local] Existing Instance tiny_codec_laws.
#[local] Existing Instance sample_net.

Definition plain_config (block : option (Out bytes)) : PluginsConfig := {|
  captivePortalMap := None; queryMeta := []; allowNameFile := None; allowNameLog := None; ednsClientSubnets := [];
  blockNameFile := block; blockNameLog := None; pluginBlockIPv6 := false; cloakFile := None; cloakTTL := 600;
  cloakedPTR := false; cache := true; forwardFile := None; pluginBlockUnqualified := true;
  pluginBlockUndelegated := true; nxLog := None; allowedIPFile := None; allowedIPLog := None; blockIPFile := None;
  blockIPLog := None; dns64Resolvers := []; dns64Prefixes := []; queryLog := None; queryLogIgnoredQtypes := [];
  allWeeklyRanges := ∅; listenAddresses := [str "127.0.0.1:53"]; blockedQueryResponse := str "refused" |}.

(** The plugins of a configuration, with finite maps as prefix trees. *)
Definition sample_init (cfg : PluginsConfig) : Out (PluginsGlobals (St CachedResponse) * gmap nat CloakedName) :=
  InitPluginsGlobals (TN := gmap bytes (option Ranges)) (TI := gmap bytes unit) (TC := gmap bytes (option nat))
    id id (λ _, Err (EMsg "invalid CIDR address")) (λ _, None) (λ m, (map_to_list m).*1) cfg noon.

Definition is_ok {A} (m : Out A) : bool := match m with Ok _ => true | _ => false end.

Lemma sample_init_ok : ∃ g heap, sample_init (plain_config (Some (Ok (Join sample_zones [10])))) = Ok (g, heap).
Proof.
  assert (is_ok (sample_init (plain_config (Some (Ok (Join sample_zones [10]))))) = true) as Hok by by vm_compute.
  destruct (sample_init _) as [[g heap]| | |]; [by eauto|done..].
Qed.

Definition query_for (name : string) : bytes := [0; 9; 1; 0; 0; 1; 0; 0; 0; 0; 0; 0] ++ str name.

End ChainExamples.
