(* ===== verification/Proxy.v ===== *)
(** proxy.go: the exchanges with DNSCrypt servers, the limit on concurrent
    clients, and the handling of a query from end to end. *)
From Stdlib Require Import QArith.
From S2P Require Import Prelude.
From S2P Require Import GoStrings.
From S2P Require Import Common.
From S2P Require Import Estimators.
From S2P Require Import ServerTypes.
From S2P Require Import Crypto.
From S2P Require Import DnsMsg.
From S2P Require Import DnsUtils.
From S2P Require Import ServersInfo.
From S2P Require Import XTransport.
From S2P Require Import ODoH.
From S2P Require Import ARC.
From S2P Require Import PatternMatcher.
From S2P Require Import Plugins.
From S2P Require Import Cache.
From S2P Require Import BlockPlugins.
From S2P Require Import RewritePlugins.
From S2P Require Import PluginChain.

(** * Exchanges with DNSCrypt servers *)

(** What the proxy sends to the outside. *)
Inductive Upstream :=
  | SentUDP (to : Addr) (data : bytes)
  | SentTCP (to : Addr) (data : bytes)
  | SentDoH (url : Url) (data : bytes)
  | SentODoH (url : Url) (data : bytes).

(** A UDP socket to a server: the errors of dialing, of setting the deadline and
    of each write, and the result of each read. *)
Record UDPConn := {
  udp_dial : option error;
  udp_deadline : option error;
  udp_write : nat → option error;
  udp_read : nat → Out bytes
}.

(** A TCP connection: the same, and the chunks it delivers. *)
Record TCPConn := {
  tcp_dial : option error;
  tcp_deadline : option error;
  tcp_write : option error;
  tcp_read : conn
}.

Section Exchange.
Context `{CryptoPrims} {E : Type}.

Definition dnscrypt_relay (server : ServerInfo E) : option DNSCryptRelay :=
  match server.(si_Relay) with Some r => r.(Dnscrypt) | None => None end.

(** The loop [for tries := 2; tries > 0; tries--]: what was sent, and the buffer
    [encryptedResponse] at its end. The error of a read stays in the loop. *)
Fixpoint udp_tries (tries : nat) (c : UDPConn) (to : Addr) (query : bytes) (buffer : bytes)
    : list Upstream * Out bytes :=
  match tries with
  | O => ([], Ok buffer)
  | S tries' =>
      match udp_write c (2 - tries) with
      | Some e => ([], Err e)
      | None =>
          match udp_read c (2 - tries) with
          | Ok data => ([SentUDP to query], Ok (take (Z.to_nat MaxDNSPacketSize) data))
          | Panic => ([SentUDP to query], Panic)
          | Fatal => ([SentUDP to query], Fatal)
          | Err _ =>
              let '(sent, r) := udp_tries tries' c to query buffer in
              (SentUDP to query :: sent, r)
          end
      end
  end.

(** A Go result: a value (nil is [None]) and an error. A response that cannot be
    decrypted is returned as it is beside the error. *)
Definition Returned : Type := option bytes * option error.

Definition decrypt (server : ServerInfo E) (sharedKey encrypted clientNonce : bytes) : Out Returned :=
  match Decrypt server sharedKey encrypted clientNonce with
  | Ok packet => Ok (Some packet, None)
  | Err e => Ok (Some encrypted, Some e)
  | Panic => Panic
  | Fatal => Fatal
  end.

(** [return nil, err]. *)
Definition or_nil (r : Out Returned) : Out Returned :=
  match r with Err e => Ok (None, Some e) | r => r end.

Definition exchangeWithUDPServer (c : UDPConn) (server : ServerInfo E) (sharedKey encryptedQuery clientNonce : bytes)
    : list Upstream * Out Returned :=
  let upstreamAddr := match dnscrypt_relay server with Some r => r.(RelayUDPAddr) | None => server.(UDPAddr) end in
  match udp_dial c, udp_deadline c with
  | Some e, _ => ([], Ok (None, Some e))
  | None, Some e => ([], Ok (None, Some e))
  | None, None =>
      let query := match dnscrypt_relay server with
                   | Some _ => prepareForRelay server.(UDPAddr).(addr_IP) server.(UDPAddr).(addr_Port) encryptedQuery
                   | None => encryptedQuery
                   end in
      let '(sent, r) := udp_tries 2 c upstreamAddr query (replicate (Z.to_nat MaxDNSPacketSize) 0) in
      (sent, or_nil (let! encryptedResponse := r in decrypt server sharedKey encryptedResponse clientNonce))
  end.

Definition exchangeWithTCPServer (c : TCPConn) (server : ServerInfo E) (sharedKey encryptedQuery clientNonce : bytes)
    : list Upstream * Out Returned :=
  let upstreamAddr := match dnscrypt_relay server with Some r => r.(RelayTCPAddr) | None => server.(TCPAddr) end in
  match tcp_dial c, tcp_deadline c with
  | Some e, _ => ([], Ok (None, Some e))
  | None, Some e => ([], Ok (None, Some e))
  | None, None =>
      let query := match dnscrypt_relay server with
                   | Some _ => prepareForRelay server.(TCPAddr).(addr_IP) server.(TCPAddr).(addr_Port) encryptedQuery
                   | None => encryptedQuery
                   end in
      match PrefixWithSize query with
      | Ok framed =>
          match tcp_write c with
          | Some e => ([], Ok (None, Some e))
          | None =>
              ([SentTCP upstreamAddr framed],
               match ReadPrefixed (tcp_read c) with
               | Some r => or_nil (let! encryptedResponse := r in decrypt server sharedKey encryptedResponse clientNonce)
               | None => Panic
               end)
          end
      | Err e => ([], Ok (None, Some e))
      | Panic => ([], Panic)
      | Fatal => ([], Fatal)
      end
  end.

End Exchange.

(** * The number of clients *)

(** The steps of [clientsCountInc] and [clientsCountDec] on the shared counter.
    A goroutine is idle, has read the counter in one of the two loops, or is
    counted. *)
Inductive ClientPC := Idle | IncLoaded (count : Z) | Counted | DecLoaded (count : Z).

Record ClientsState := { clientsCount : Z; pcs : list ClientPC }.

Definition set_pc (st : ClientsState) (i : nat) (pc : ClientPC) : ClientsState :=
  {| clientsCount := st.(clientsCount); pcs := <[i := pc]> st.(pcs) |}.

Inductive client_step (maxClients : Z) : ClientsState → ClientsState → Prop :=
  (* clientsCountInc: load; full; compare-and-swap *)
  | step_inc_load st i : st.(pcs) !! i = Some Idle →
      client_step maxClients st (set_pc st i (IncLoaded st.(clientsCount)))
  | step_inc_full st i c : st.(pcs) !! i = Some (IncLoaded c) → maxClients ≤ c →
      client_step maxClients st (set_pc st i Idle)
  | step_inc_cas st i c : st.(pcs) !! i = Some (IncLoaded c) → c < maxClients → st.(clientsCount) = c →
      client_step maxClients st {| clientsCount := u32 (c + 1); pcs := <[i := Counted]> st.(pcs) |}
  | step_inc_retry st i c : st.(pcs) !! i = Some (IncLoaded c) → c < maxClients → st.(clientsCount) ≠ c →
      client_step maxClients st (set_pc st i Idle)
  (* clientsCountDec: load; nothing to do at zero; compare-and-swap *)
  | step_dec_load st i : st.(pcs) !! i = Some Counted →
      client_step maxClients st (set_pc st i (DecLoaded st.(clientsCount)))
  | step_dec_zero st i : st.(pcs) !! i = Some (DecLoaded 0) → client_step maxClients st (set_pc st i Idle)
  | step_dec_cas st i c : st.(pcs) !! i = Some (DecLoaded c) → c ≠ 0 → st.(clientsCount) = c →
      client_step maxClients st {| clientsCount := u32 (c - 1); pcs := <[i := Idle]> st.(pcs) |}
  | step_dec_retry st i c : st.(pcs) !! i = Some (DecLoaded c) → c ≠ 0 → st.(clientsCount) ≠ c →
      client_step maxClients st (set_pc st i Counted).

(** A goroutine whose client is counted. *)
Definition is_counted (pc : ClientPC) : bool :=
  match pc with Counted | DecLoaded _ => true | _ => false end.

Definition counted (st : ClientsState) : Z := len (filter (λ pc, is_counted pc = true) st.(pcs)).

(** * Handling a query *)

Record ProxyState (C E : Type) := {
  px_world : World C;
  px_servers : ServersInfo E;
  px_estimator : QuestionSizeEstimator E;
  px_transport : XTransport;
  px_sent : list Upstream;
  px_replies : list bytes
}.
Arguments px_world {_ _} _. Arguments px_servers {_ _} _. Arguments px_estimator {_ _} _.
Arguments px_transport {_ _} _. Arguments px_sent {_ _} _. Arguments px_replies {_ _} _.

#[export] Instance eta_ProxyState {C E} : Eta (ProxyState C E) := λ p, {|
  px_world := p.(px_world); px_servers := p.(px_servers); px_estimator := p.(px_estimator);
  px_transport := p.(px_transport); px_sent := p.(px_sent); px_replies := p.(px_replies) |}.

(** What the handling of one query gets from outside: random numbers, the clock,
    the environments of the plugins, the random bytes of each encryption, the
    connections to servers and the HTTP client. *)
Record QueryEnv := {
  qe_rnd : nat → Z;
  qe_now : nat → Z;
  qe_query : nat → PEnv;
  qe_response : nat → PEnv;
  qe_logging : nat → PEnv;
  qe_nonce : nat → bytes;
  qe_xpad : nat → Z;
  qe_keyrnd : nat → bytes;
  qe_udp : UDPConn;
  qe_tcp : TCPConn;
  qe_resolve : ResolveEnv;
  qe_http : Request → (HttpError + option HttpResponse) * Z;
  qe_hpkeseed : bytes
}.

Section Process.
Context `{CryptoPrims} `{Codec} `{NetLib} `{WebLib} {Ctx : Type} `{HPKE Ctx} {C E : Type} `{MovingAverage E}.
Context (ewma0 : E) `{Fetcher (E := E)}.

(** The settings of [Proxy]. *)
Record ProxyConfig := {
  pc_globals : PluginsGlobals C;
  pc_state : StateConfig;
  pc_keys : ProxyKeys;
  pc_timeout : Z
}.

Context (cfg : ProxyConfig) (qe : QueryEnv).
Abbreviation state := (ProxyState C E).

(** The server a pointer designates: the entry of that name. *)
Definition update_server (name : bytes) (f : ServerInfo E → ServerInfo E) (ps : state) : state :=
  ps <| px_servers := ps.(px_servers) <| inner :=
       (λ x, if decide (si_Name x = name) then f x else x) <$> ps.(px_servers).(inner) |> |>.

Definition notice_failure (name : bytes) (ps : state) : state := update_server name (noticeFailure cfg.(pc_timeout)) ps.
Definition notice_begin (name : bytes) (ps : state) : state := update_server name (noticeBegin (qe_now qe 1)) ps.
Definition notice_success (name : bytes) (ps : state) : state :=
  update_server name (noticeSuccess cfg.(pc_timeout) (qe_now qe 2)) ps.

Definition send (msgs : list Upstream) (ps : state) : state := ps <| px_sent := ps.(px_sent) ++ msgs |>.

(** Logs with a return code; the state of the query is not used afterwards. *)
Definition log_with (rc : option PluginsReturnCode) (s : PluginsState) (ps : state) : Out state :=
  let s := match rc with Some rc => s <| returnCode := rc |> | None => s end in
  let! (w, _) := ApplyLoggingPlugins cfg.(pc_globals) (qe_logging qe) ps.(px_world) s in
  Ok (ps <| px_world := w |>).

(** The result of asking a server: the response (nil is [None]) on which to go
    on, or the return code to log, whether to report a failure of the server, and
    the response to return; [Quiet] returns without logging. *)
Inductive Asked :=
  | Answered (response : option bytes)
  | Failed (rc : PluginsReturnCode) (failure : bool) (response : option bytes)
  | Quiet (response : option bytes).

(** [if stale, ok := sessionData["stale"]; ok { response, err = stale.Pack() }]. *)
Definition or_stale (s : PluginsState) (r : Returned) : Out Returned :=
  match r, s.(stale) with
  | (_, Some _), Some m => or_nil (let! p := Pack m in Ok (Some p, None))
  | r, _ => Ok r
  end.

Definition encrypt (server : ServerInfo E) (ps : state) (i : nat) (query : bytes) (proto : string) : Out (bytes * bytes * bytes) :=
  Encrypt cfg.(pc_keys) (MinQuestionSize ps.(px_estimator)) server query proto (qe_nonce qe i) (qe_xpad qe i) (qe_keyrnd qe i).

Definition network_code (e : error) : PluginsReturnCode :=
  match e with ETimeout => PluginsReturnCodeServerTimeout | _ => PluginsReturnCodeNetworkError end.

(** [neterr, ok := err.(net.Error); ok && neterr.Timeout()], or a response that
    is truncated. *)
Definition retry_over_tcp (r : Returned) : Out bool :=
  match r with
  | (response, None) =>
      let response := default [] response in
      if MinDNSPacketSize <=? len response
      then let! b := orPanic (index response 2) in Ok (Z.land b 2 =? 2)
      else Ok false
  | (_, Some ETimeout) => Ok true
  | _ => Ok false
  end.

Definition ask_dnscrypt (server : ServerInfo E) (query : bytes) (serverProto : string) (s : PluginsState) (ps : state)
    : Out (state * Asked) :=
  let '(serverProto, encrypted) :=
    match encrypt server ps 0 query serverProto with
    | Err e => if decide (serverProto = "udp"%string) then ("tcp"%string, encrypt server ps 1 query "tcp")
               else (serverProto, Err e)
    | r => (serverProto, r)
    end in
  match encrypted with
  | Err _ => Ok (ps, Failed PluginsReturnCodeParseError false None)
  | Panic => Panic
  | Fatal => Fatal
  | Ok (sharedKey, encryptedQuery, clientNonce) =>
      let ps := notice_begin server.(si_Name) ps in
      let finish (ps : state) (r : Out Returned) : Out (state * Asked) :=
        let! r := r in
        let! (response, err) := or_stale s r in
        match err with
        | None => Ok (ps, Answered response)
        | Some e => Ok (ps, Failed (network_code e) true response)
        end in
      if decide (serverProto = "udp"%string) then
        let '(sent, r) := exchangeWithUDPServer (qe_udp qe) server sharedKey encryptedQuery clientNonce in
        let ps := send sent ps in
        let! r := r in
        let! retryOverTCP := retry_over_tcp r in
        if retryOverTCP then
          match encrypt server ps 2 query "tcp" with
          | Err _ => Ok (ps, Failed PluginsReturnCodeParseError false r.1)
          | Panic => Panic
          | Fatal => Fatal
          | Ok (sharedKey, encryptedQuery, clientNonce) =>
              let '(sent, r) := exchangeWithTCPServer (qe_tcp qe) server sharedKey encryptedQuery clientNonce in
              finish (send sent ps) r
          end
        else finish ps (Ok r)
      else
        let '(sent, r) := exchangeWithTCPServer (qe_tcp qe) server sharedKey encryptedQuery clientNonce in
        finish (send sent ps) r
  end.

(** [if len(response) >= MinDNSPacketSize { SetTransactionID(response, tid) }]. *)
Definition restore_tid (response : bytes) (tid : Z) : Out bytes :=
  if MinDNSPacketSize <=? len response then SetTransactionID response tid else Ok response.

Definition ask_doh (server : ServerInfo E) (query : bytes) (s : PluginsState) (ps : state) : Out (state * Asked) :=
  let! tid := TransactionID query in
  let! query0 := SetTransactionID query 0 in
  let ps := notice_begin server.(si_Name) ps in
  let! (x, f) := DoHQuery (qe_resolve qe) (qe_http qe) cfg.(pc_timeout) ps.(px_transport) server.(useGet) server.(URL)
                   query0 cfg.(pc_timeout) in
  let ps := send [SentDoH server.(URL) query0] (ps <| px_transport := x |>) in
  let incomplete := match f.(f_tls) with Some tls => negb tls.(HandshakeComplete) | None => true end in
  let! (response, err) :=
    if bool_decide (is_Some f.(f_err)) || incomplete then
      match s.(stale) with
      | Some m => match Pack m with
                  | Ok p => Ok (Some p, None)
                  | Err e => Ok (None, Some e)
                  | Panic => Panic
                  | Fatal => Fatal
                  end
      | None => Ok (None, f.(f_err))
      end
    else Ok (None, f.(f_err)) in
  match err with
  | Some _ => Ok (ps, Failed PluginsReturnCodeNetworkError true response)
  | None =>
      match (match response with Some p => Some p | None => f.(f_bin) end) with
      | Some p => let! p := restore_tid p tid in Ok (ps, Answered (Some p))
      | None => Ok (ps, Answered None)
      end
  end.

(** Refreshes the key of a server after an ODoH error; a failure is reported. The
    boolean says whether the server is still the one in the registry: after a
    refresh the pointer the handler holds is to the replaced one, and what is
    reported on it has no effect. *)
Definition force_key_update (name : bytes) (ps : state) : Out (state * bool) :=
  match List.find (λ r, bool_decide (rs_name r = name)) ps.(px_servers).(registeredServers) with
  | None => Ok (ps, true)
  | Some r =>
      match refreshServer ewma0 ps.(px_servers) r.(rs_name) r.(rs_stamp) with
      | Ok si => Ok (ps <| px_servers := si |>, false)
      | Err _ => Ok (notice_failure name ps, true)
      | Panic => Panic
      | Fatal => Fatal
      end
  end.

Definition ask_odoh (server : ServerInfo E) (query : bytes) (ps : state) : Out (state * Asked) :=
  let! tid := TransactionID query in
  if (length server.(odohTargetConfigs) =? 0)%nat then Ok (ps, Quiet None)
  else
    let! i := Intn (qe_rnd qe 2) (len server.(odohTargetConfigs)) in
    let! target := orPanic (index server.(odohTargetConfigs) i) in
    let! (ps, response, current) :=
      match encryptQuery target (qe_hpkeseed qe) query with
      | Err _ => Ok (ps, None, true)
      | Panic => Panic
      | Fatal => Fatal
      | Ok odohQuery =>
          let targetURL := match server.(si_Relay) with
                           | Some r => match r.(ODoH) with Some o => o.(odoh_URL) | None => server.(URL) end
                           | None => server.(URL)
                           end in
          let! (x, f) := ObliviousDoHQuery (qe_resolve qe) (qe_http qe) cfg.(pc_timeout) ps.(px_transport)
                           server.(useGet) targetURL odohQuery.(odohMessage) cfg.(pc_timeout) in
          let ps := send [SentODoH targetURL odohQuery.(odohMessage)] (ps <| px_transport := x |>) in
          let responseBody := default [] f.(f_bin) in
          if bool_decide (f.(f_err) = None) && negb (length responseBody =? 0)%nat && (f.(f_status) =? 200) then
            match decryptResponse odohQuery responseBody with
            | Ok p => Ok (ps, Some p, true)
            | Err _ => Ok (ps, None, true)
            | Panic => Panic
            | Fatal => Fatal
            end
          else if (f.(f_status) =? 401) || ((f.(f_status) =? 200) && (length responseBody =? 0)%nat) then
            let! (ps, current) := force_key_update server.(si_Name) ps in Ok (ps, None, current)
          else Ok (ps, None, true)
      end in
    match response with
    | Some p => let! p := restore_tid p tid in Ok (ps, Answered (Some p))
    | None => Ok (ps, Failed PluginsReturnCodeNetworkError current None)
    end.

Definition ask (server : ServerInfo E) (query : bytes) (serverProto : string) (s : PluginsState) (ps : state)
    : Out (state * Asked) :=
  match server.(Proto) with
  | StampProtoTypeDNSCrypt => ask_dnscrypt server query serverProto s ps
  | StampProtoTypeDoH => ask_doh server query s ps
  | StampProtoTypeODoHTarget => ask_odoh server query ps
  | _ => Fatal
  end.

Definition valid_size (response : option bytes) : bool :=
  let n := len (default [] response) in (MinDNSPacketSize <=? n) && (n <=? MaxDNSPacketSize).

(** The last part of the function: the reply to the client. *)
Definition reply (clientProto : string) (connected : bool) (server : option bytes) (response : option bytes)
    (s : PluginsState) (ps : state) : Out (state * option bytes) :=
  let failing (ps : state) := match server with Some name => notice_failure name ps | None => ps end in
  if negb (valid_size response) then
    let rc := if (length (default [] response) =? 0)%nat then PluginsReturnCodeNotReady else PluginsReturnCodeParseError in
    let! ps := log_with (Some rc) s ps in
    Ok (failing ps, response)
  else
    let packet := default [] response in
    if decide (clientProto = "udp"%string) then
      match (if s.(maxUnencryptedUDPSafePayloadSize) <? len packet then TruncatedResponse packet else Ok packet) with
      | Err _ => let! ps := log_with (Some PluginsReturnCodeParseError) s ps in Ok (ps, None)
      | Panic => Panic
      | Fatal => Fatal
      | Ok packet =>
          let ps := ps <| px_replies := ps.(px_replies) ++ [packet] |> in
          let! tc := HasTCFlag packet in
          let ps := ps <| px_estimator := if tc then blindAdjust ps.(px_estimator)
                                          else adjust ps.(px_estimator) (ResponseOverhead + len packet) |> in
          let! ps := log_with None s ps in
          Ok (ps, Some packet)
      end
    else if decide (clientProto = "tcp"%string) then
      match PrefixWithSize packet with
      | Err _ => let! ps := log_with (Some PluginsReturnCodeParseError) s ps in Ok (failing ps, Some packet)
      | Panic => Panic
      | Fatal => Fatal
      | Ok framed =>
          let ps := if connected then ps <| px_replies := ps.(px_replies) ++ [framed] |> else ps in
          let! ps := log_with None s ps in
          Ok (ps, Some framed)
      end
    else let! ps := log_with None s ps in Ok (ps, response).

(** After a server answered: the response plugins and the report on the server.
    [inl] is an early return. *)
Definition after_answer (server : ServerInfo E) (response : option bytes) (s : PluginsState) (ps : state)
    : Out (state * PluginsState * (option bytes + bytes)) :=
  let name := server.(si_Name) in
  if negb (valid_size response) then
    let! ps := log_with (Some PluginsReturnCodeParseError) s ps in
    Ok (notice_failure name ps, s, inl response)
  else
    let! (w, s, packet, err) := ApplyResponsePlugins cfg.(pc_globals) (qe_response qe) ps.(px_world) s
                                  (default [] response) None in
    let ps := ps <| px_world := w |> in
    match err with
    | Some _ =>
        let! ps := log_with (Some PluginsReturnCodeParseError) s ps in
        Ok (notice_failure name ps, s, inl (Some packet))
    | None =>
        if decide (s.(action) = PluginsActionDrop) then
          let! ps := log_with (Some PluginsReturnCodeDrop) s ps in Ok (ps, s, inl (Some packet))
        else
          match (match s.(synthResponse) with Some m => Pack m | None => Ok packet end) with
          | Err _ => let! ps := log_with (Some PluginsReturnCodeParseError) s ps in Ok (ps, s, inl None)
          | Panic => Panic
          | Fatal => Fatal
          | Ok packet =>
              let! rcode := Rcode packet in
              let ps := if rcode =? RcodeServerFailure
                        then if s.(dnssec) then ps else notice_failure name ps
                        else notice_success name ps in
              Ok (ps, s, inr packet)
          end
    end.

Definition processIncomingQuery (clientProto serverProto : string) (query : bytes) (clientAddr : option ClientAddr)
    (connected : bool) (start : Z) (onlyCached : bool) (ps : state) : Out (state * option bytes) :=
  if len query <? MinDNSPacketSize then Ok (ps, None)
  else
    let s := NewPluginsState cfg.(pc_state) (str clientProto) clientAddr (str serverProto) start in
    let! (si, serverInfo) := getOne ps.(px_servers) (qe_rnd qe 0) (qe_rnd qe 1) (qe_now qe 0) in
    let ps := ps <| px_servers := si |> in
    let needsEDNS0Padding :=
      match serverInfo with
      | Some server => bool_decide (server.(Proto) = StampProtoTypeDoH ∨ server.(Proto) = StampProtoTypeTLS)
      | None => false
      end in
    let! (w, s, query, _) := ApplyQueryPlugins cfg.(pc_globals) (qe_query qe) ps.(px_world) s query needsEDNS0Padding in
    let ps := ps <| px_world := w |> in
    if (len query <? MinDNSPacketSize) || (MaxDNSPacketSize <? len query) then Ok (ps, None)
    else if decide (s.(action) = PluginsActionDrop) then
      let! ps := log_with (Some PluginsReturnCodeDrop) s ps in Ok (ps, None)
    else
      match (match s.(synthResponse) with
             | Some m => match Pack m with Ok p => Ok (Some p) | Err e => Err e | Panic => Panic | Fatal => Fatal end
             | None => Ok None
             end) with
      | Err _ => let! ps := log_with (Some PluginsReturnCodeParseError) s ps in Ok (ps, None)
      | Panic => Panic
      | Fatal => Fatal
      | Ok response =>
          let empty := (length (default [] response) =? 0)%nat in
          if onlyCached && empty then Ok (ps, response)
          else
            let serverInfo := if onlyCached then None else serverInfo in
            match serverInfo with
            | Some server =>
                if empty then
                  let s := s <| serverName := server.(si_Name) |> in
                  let! (ps, asked) := ask server query serverProto s ps in
                  match asked with
                  | Quiet response => Ok (ps, response)
                  | Failed rc failure response =>
                      let! ps := log_with (Some rc) s ps in
                      Ok (if failure then notice_failure server.(si_Name) ps else ps, response)
                  | Answered response =>
                      let! (ps, s, r) := after_answer server response s ps in
                      match r with
                      | inl response => Ok (ps, response)
                      | inr packet => reply clientProto connected (Some server.(si_Name)) (Some packet) s ps
                      end
                  end
                else reply clientProto connected (Some server.(si_Name)) response s ps
            | None => reply clientProto connected None response s ps
            end
      end.

End Process.

(** * Lemmas *)

Section ProxyLemmas.
Context `{CryptoPrims} `{CodecLaws} `{NetLib} `{WebLib} {Ctx : Type} `{HPKE Ctx} {C E : Type} `{MovingAverage E}.
Context (ewma0 : E) `{Fetcher (E := E)} (cfg : ProxyConfig (C := C)) (qe : QueryEnv).
Abbreviation state := (ProxyState C E).
Implicit Types (ps : state) (s : PluginsState).

Lemma update_server_sent name f ps : px_sent (update_server name f ps) = px_sent ps.
Proof. done. Qed.

Lemma log_with_sent rc s ps ps' : log_with cfg qe rc s ps = Ok ps' →
  px_sent ps' = px_sent ps ∧ px_replies ps' = px_replies ps.
Proof. unfold log_with. intros ([w s'] & _ & HE)%obind_Ok. by injection HE as <-. Qed.

(** The reply to the client: nothing goes upstream; a UDP reply fits in what the
    client accepts or is marked truncated. *)
Lemma reply_spec proto connected server response s ps ps' r :
  reply cfg qe proto connected server response s ps = Ok (ps', r) →
  px_sent ps' = px_sent ps ∧
  (px_replies ps' = px_replies ps ∨
   ∃ packet, px_replies ps' = px_replies ps ++ [packet] ∧ r = Some packet ∧
     (proto = "udp"%string → len packet ≤ s.(maxUnencryptedUDPSafePayloadSize) ∨ HasTCFlag packet = Ok true)).
Proof.
  unfold reply. destruct (valid_size response); cbn [negb].
  2:{ intros (ps1 & Hl & HE)%obind_Ok. apply log_with_sent in Hl as [Hs Hr].
      destruct server; injection HE as <- <-; cbn; split; auto. }
  destruct (decide (proto = "udp"%string)) as [->|Hne].
  - destruct (if _ <? _ then _ else _) as [packet|e| |] eqn:Hp; [| |done|done].
    + intros (tc & Htc & (ps1 & Hl & HE)%obind_Ok)%obind_Ok. injection HE as <- <-.
      apply log_with_sent in Hl as [Hs Hr]. cbn in Hs, Hr. split; [done|]. right. exists packet. split_and!; [done..|].
      intros _. destruct (Z.ltb_spec (maxUnencryptedUDPSafePayloadSize s) (len (default [] response))).
      * right. unfold TruncatedResponse in Hp. apply obind_Ok in Hp as (m & Hm & (d & Hd & Hp)%obind_Ok).
        apply Pack_wire in Hp as (_ & _ & _ & (b & Hb & Hbit & _) & _). by rewrite (HasTCFlag_bit _ _ Hb), Hbit.
      * left. by injection Hp as <-.
    + intros (ps1 & Hl & HE)%obind_Ok. apply log_with_sent in Hl as [Hs Hr]. injection HE as <- <-. auto.
  - destruct (decide (proto = "tcp"%string)) as [->|Hne'].
    + destruct (PrefixWithSize _) as [framed|e| |]; [| |done|done].
      * intros (ps1 & Hl & HE)%obind_Ok. apply log_with_sent in Hl as [Hs Hr]. injection HE as <- <-.
        destruct connected; cbn in *; split; auto. right. by exists framed.
      * intros (ps1 & Hl & HE)%obind_Ok. apply log_with_sent in Hl as [Hs Hr].
        destruct server; injection HE as <- <-; cbn; split; auto.
    + intros (ps1 & Hl & HE)%obind_Ok. apply log_with_sent in Hl as [Hs Hr]. injection HE as <- <-. auto.
Qed.

Lemma after_answer_sent server response s ps ps' s' r :
  after_answer cfg qe server response s ps = Ok (ps', s', r) → px_sent ps' = px_sent ps.
Proof.
  unfold after_answer. destruct (valid_size response); cbn [negb].
  2:{ intros (ps1 & Hl & HE)%obind_Ok. apply log_with_sent in Hl as [Hs _]. by injection HE as <- _ _. }
  intros ([[[w s1] packet] err] & _ & HE)%obind_Ok. destruct err.
  { apply obind_Ok in HE as (ps1 & Hl & HE). apply log_with_sent in Hl as [Hs _]. by injection HE as <- _ _. }
  destruct (decide _).
  { apply obind_Ok in HE as (ps1 & Hl & HE). apply log_with_sent in Hl as [Hs _]. by injection HE as <- _ _. }
  destruct (match synthResponse s1 with Some m => Pack m | None => Ok packet end) as [p| | |]; [| |done|done].
  - apply obind_Ok in HE as (rc & _ & HE). destruct (rc =? RcodeServerFailure); [destruct (dnssec s1)|];
      by injection HE as <- _ _.
  - apply obind_Ok in HE as (ps1 & Hl & HE). apply log_with_sent in Hl as [Hs _]. by injection HE as <- _ _.
Qed.

(** Without a query log nothing can go wrong in logging. *)
Definition no_query_log : Prop := cfg.(pc_globals).(loggingPlugins) = [].

Lemma log_with_total rc s ps : no_query_log → ∃ ps', log_with cfg qe rc s ps = Ok ps'.
Proof. intros Hn. unfold log_with, ApplyLoggingPlugins. rewrite Hn. cbn. by eexists. Qed.

Lemma HasTCFlag_total p : (12 ≤ length p)%nat → ∃ b, HasTCFlag p = Ok b.
Proof.
  intros Hl. destruct (lookup_lt_is_Some_2 p 2) as [b Hb]; [lia|]. exists (Z.testbit b 1). by apply HasTCFlag_bit.
Qed.

(** What is sent over UDP: the packet, or a truncated response. *)
Lemma udp_packet_total p s :
  (12 ≤ length p)%nat →
  (∃ q, (if s.(maxUnencryptedUDPSafePayloadSize) <? len p then TruncatedResponse p else Ok p) = Ok q ∧ (12 ≤ length q)%nat) ∨
  ∃ e, (if s.(maxUnencryptedUDPSafePayloadSize) <? len p then TruncatedResponse p else Ok p) = Err e.
Proof.
  intros Hl. destruct (_ <? _); [|left; by exists p]. unfold TruncatedResponse. destruct (Unpack_no_panic p) as [Hu1 Hu2].
  destruct (Unpack p) as [m0|e0| |] eqn:Hu; cbn [obind]; try done; [|right; by eexists].
  destruct (Unpack_header _ _ Hu) as [Hwf _]. destruct (EmptyResponse_ok m0 Hwf) as (d & -> & Hd). cbn [obind].
  assert (msg_wf (d <| Truncated := true |>)) as Hdwf by exact (empty_response_wf _ _ Hd).
  destruct (Pack_no_panic _ Hdwf) as [Hp1 Hp2]. destruct (Pack _) as [q|e'| |] eqn:HP; try done; [left|right; by eexists].
  exists q. split; [done|]. by apply Pack_wire in HP as [? _].
Qed.

(** Replying with a packed message always ends. *)
Lemma reply_total proto connected server m p s ps :
  no_query_log → Pack m = Ok p →
  ∃ ps' r, reply cfg qe proto connected server (Some p) s ps = Ok (ps', r).
Proof.
  intros Hn Hp. apply Pack_wire in Hp as (Hl & _). unfold reply. destruct (valid_size (Some p)); cbn [negb].
  2:{ edestruct (log_with_total) as [ps1 ->]; [done|]. cbn [obind]. by eexists _, _. }
  change (default [] (Some p)) with p. destruct (decide (proto = "udp"%string)).
  - destruct (udp_packet_total p s Hl) as [(q & -> & Hq)|[e1 ->]].
    + destruct (HasTCFlag_total q Hq) as [tc ->]. cbn [obind].
      edestruct log_with_total as [ps1 ->]; [done|]. cbn [obind]. by eexists _, _.
    + edestruct log_with_total as [ps1 ->]; [done|]. cbn [obind]. by eexists _, _.
  - destruct (decide (proto = "tcp"%string)).
    + rewrite PrefixWithSize_eq. destruct (_ >? _);
        (edestruct log_with_total as [ps1 ->]; [done|]); cbn [obind]; by eexists _, _.
    + edestruct log_with_total as [ps1 ->]; [done|]. cbn [obind]. by eexists _, _.
Qed.

End ProxyLemmas.

Section ProxyTheorems.
Context `{CryptoPrims} `{CodecLaws} `{NetLib} `{WebLib} {Ctx : Type} `{HPKE Ctx} {C E : Type} `{MovingAverage E}.
Context (ewma0 : E) `{Fetcher (E := E)} (cfg : ProxyConfig (C := C)) (qe : QueryEnv).
Abbreviation process := (processIncomingQuery ewma0 cfg qe).
Abbreviation state := (ProxyState C E).
Implicit Types (ps : state) (s : PluginsState).

(** The state in which the query plugins start. *)
Definition start_state (clientProto serverProto : string) clientAddr start : PluginsState :=
  NewPluginsState cfg.(pc_state) (str clientProto) clientAddr (str serverProto) start.

(** Whether the server chosen needs padded queries. *)
Definition wants_padding (server : option (ServerInfo E)) : bool :=
  match server with
  | Some server => bool_decide (server.(Proto) = StampProtoTypeDoH ∨ server.(Proto) = StampProtoTypeTLS)
  | None => false
  end.



(** Two UDP timeouts are not seen as such. When both reads time out the
    exchange does not report a timeout: it decrypts the buffer it never filled and
    reports an invalid message, so that the retry over TCP documented for
    timeouts is not made. *)
Theorem udp_timeouts_hidden (c : UDPConn) (server : ServerInfo E) (sharedKey query nonce : bytes) :
  udp_dial c = None → udp_deadline c = None → (∀ i, udp_write c i = None) → (∀ i, udp_read c i = Err ETimeout) →
  ∃ sent r, exchangeWithUDPServer c server sharedKey query nonce = (sent, Ok r) ∧ length sent = 2%nat ∧
    r = (Some (replicate (Z.to_nat MaxDNSPacketSize) 0), Some (EMsg "Invalid message size or prefix")) ∧
    retry_over_tcp r = Ok false.
Proof.
  intros Hd Hdl Hw Hr. unfold exchangeWithUDPServer. rewrite Hd, Hdl. cbn [udp_tries]. rewrite !Hw, !Hr.
  eexists _, _. split; [f_equal; by vm_compute|by split_and!].
Qed.

(** ** Where DNSCrypt answers come from *)

Lemma decrypt_answer (server : ServerInfo E) k r n x :
  or_nil (let! e := r in decrypt server k e n) = Ok (Some x, None) → ∃ e, Decrypt server k e n = Ok x.
Proof.
  destruct r as [e| | |]; try done. cbn [obind]. unfold decrypt.
  destruct (Decrypt server k e n) as [p| | |] eqn:HD; try done. intros [= <-]. by exists e.
Qed.

Lemma decrypt_some (server : ServerInfo E) k r n y :
  or_nil (let! e := r in decrypt server k e n) = Ok (y, None) → is_Some y.
Proof. destruct r as [e| | |]; try done. cbn [obind]. unfold decrypt. destruct (Decrypt server k e n); try done. by intros [= <-]. Qed.

Lemma udp_answer c (server : ServerInfo E) k q n y :
  (exchangeWithUDPServer c server k q n).2 = Ok (y, None) → ∃ x e, y = Some x ∧ Decrypt server k e n = Ok x.
Proof.
  unfold exchangeWithUDPServer. destruct (udp_dial c), (udp_deadline c); try done.
  destruct (udp_tries _ _ _ _ _) as [sent r]. cbn [snd]. intros HE. destruct (decrypt_some _ _ _ _ _ HE) as [x ->].
  apply decrypt_answer in HE as [e He]. by exists x, e.
Qed.

Lemma tcp_answer c (server : ServerInfo E) k q n y :
  (exchangeWithTCPServer c server k q n).2 = Ok (y, None) → ∃ x e, y = Some x ∧ Decrypt server k e n = Ok x.
Proof.
  unfold exchangeWithTCPServer. destruct (tcp_dial c), (tcp_deadline c); try done.
  destruct (PrefixWithSize _); try done. destruct (tcp_write c); try done. cbn [snd].
  destruct (ReadPrefixed _); [|done]. intros HE. destruct (decrypt_some _ _ _ _ _ HE) as [x ->].
  apply decrypt_answer in HE as [e He]. by exists x, e.
Qed.

(** The response opened under the key and nonce of an encryption of the query, or
    is the stale answer. *)
Definition authentic server query s (packet : bytes) : Prop :=
  (∃ i proto ps0 sharedKey encryptedQuery clientNonce encrypted,
     encrypt cfg qe server ps0 i query proto = Ok (sharedKey, encryptedQuery, clientNonce) ∧
     Decrypt server sharedKey encrypted clientNonce = Ok packet) ∨
  (∃ m, s.(stale) = Some m ∧ Pack m = Ok packet).

Lemma finish_authentic server query s (ps1 ps' : state) ps0 i proto k q n x response :
  encrypt cfg qe server ps0 i query proto = Ok (k, q, n) →
  (∀ y, x = Ok (y, None) → ∃ z e, y = Some z ∧ Decrypt server k e n = Ok z) →
  (let! r := x in
   let! (response, err) := or_stale s r in
   match err with
   | None => Ok (ps1, Answered response)
   | Some e => Ok (ps1, Failed (network_code e) true response)
   end) = Ok (ps', Answered response) →
  ∃ packet, response = Some packet ∧ authentic server query s packet.
Proof.
  intros He Hx (r & -> & HE)%obind_Ok. apply obind_Ok in HE as ([y err] & Hs & HE).
  destruct err; [done|]. injection HE as _ ->. destruct r as [y0 [e0|]].
  - unfold or_stale in Hs. destruct (stale s) as [m|] eqn:Hst; [|done].
    destruct (Pack m) as [p| | |] eqn:HP; try done. injection Hs as <-. exists p. split; [done|]. right. by exists m.
  - assert (y0 = response) as -> by (unfold or_stale in Hs; destruct (stale s); by injection Hs).
    destruct (Hx response eq_refl) as (z & e & -> & Hz). exists z. split; [done|]. left. by eauto 10.
Qed.

(** C10: A response obtained from a DNSCrypt server is one that opened under the
    shared key and the nonce of one of the encryptions of this very query, or the
    stale answer kept aside for it. *)
Theorem dnscrypt_answer_authentic server query proto s ps ps' response :
  ask_dnscrypt cfg qe server query proto s ps = Ok (ps', Answered response) →
  ∃ packet, response = Some packet ∧ authentic server query s packet.
Proof.
  unfold ask_dnscrypt.
  set (first := match encrypt cfg qe server ps 0 query proto with Err _ => _ | _ => _ end).
  assert (∀ k q n, first.2 = Ok (k, q, n) → ∃ i p, encrypt cfg qe server ps i query p = Ok (k, q, n)) as Hfirst.
  { unfold first. intros k q n. destruct (encrypt cfg qe server ps 0 query proto) as [a|e| |] eqn:He; cbn; try done.
    - intros [= ->]. by exists 0%nat, proto.
    - destruct (decide _); cbn; [|done]. intros He'. by exists 1%nat, "tcp"%string. }
  destruct first as [proto' [[[k q] n]|e| |]]; try done.
  destruct (Hfirst k q n eq_refl) as (i & p & Hi). destruct (decide (proto' = "udp"%string)).
  - destruct (exchangeWithUDPServer _ _ _ _ _) as [sent x] eqn:Hx. intros (y0 & -> & HE)%obind_Ok.
    apply obind_Ok in HE as (retry & _ & HE). destruct retry.
    + destruct (encrypt cfg qe server _ 2 query "tcp") as [[[k2 q2] n2]|e2| |] eqn:H2'; try done.
      destruct (exchangeWithTCPServer _ _ _ _ _) as [sent2 x2] eqn:Hx2.
      eapply finish_authentic in HE; [done|exact H2'|]. intros y ->. eapply tcp_answer. by rewrite Hx2.
    + eapply finish_authentic in HE; [done|exact Hi|]. intros y [= ->]. eapply udp_answer. by rewrite Hx.
  - destruct (exchangeWithTCPServer _ _ _ _ _) as [sent x] eqn:Hx. intros HE.
    eapply finish_authentic in HE; [done|exact Hi|]. intros y ->. eapply tcp_answer. by rewrite Hx.
Qed.

(** ** Identifiers over DoH *)

Lemma SetTransactionID_id p tid q : SetTransactionID p tid = Ok q → is_u16 tid → TransactionID q = Ok tid.
Proof.
  unfold SetTransactionID. intros (h & Hs & HE)%obind_Ok Ht. injection HE as <-.
  apply TransactionID_Uint16. by apply Uint16_PutUint16.
Qed.

(** Over DoH the identifier of the query is not disclosed: the server gets the
    query with the identifier 0 and the rest unchanged, and a usable response
    comes back with the identifier of the query. *)
Theorem doh_identifier server query s ps ps' packet :
  Forall is_byte query →
  ask_doh cfg qe server query s ps = Ok (ps', Answered (Some packet)) → MinDNSPacketSize ≤ len packet →
  TransactionID packet = TransactionID query ∧
  ∃ query0, px_sent ps' = px_sent ps ++ [SentDoH server.(URL) query0] ∧
    TransactionID query0 = Ok 0 ∧ drop 2 query0 = drop 2 query.
Proof.
  intros Hb. unfold ask_doh. intros (tid & Htid & HE)%obind_Ok Hlen. apply obind_Ok in HE as (query0 & Hq0 & HE).
  apply obind_Ok in HE as ([x f] & _ & HE). apply obind_Ok in HE as ([response err] & _ & HE).
  destruct err; [done|]. destruct (match response with Some p => Some p | None => f_bin f end) as [p|]; [|done].
  apply obind_Ok in HE as (p' & Hp' & HE). injection HE as <- ->. rewrite Htid.
  assert (is_u16 tid) as Hu.
  { unfold TransactionID in Htid. apply obind_Ok in Htid as (h & Hh%orPanic_Ok & Hu%orPanic_Ok).
    apply slice_Some in Hh as (_ & _ & _ & ->). eapply Uint16_range; [|exact Hu]. by apply Forall_take, Forall_drop. }
  split.
  - unfold restore_tid in Hp'. destruct (MinDNSPacketSize <=? len p) eqn:Hle; [by eapply SetTransactionID_id|].
    injection Hp' as ->. lia.
  - exists query0. split_and!; [done|by eapply SetTransactionID_id|].
    unfold SetTransactionID in Hq0. apply obind_Ok in Hq0 as (h & _ & Hq0). by injection Hq0 as <-.
Qed.

End ProxyTheorems.

(** Queries answered from the cache only never lead to an exchange. *)
Lemma cached_only_not_sent `{CryptoPrims} `{CodecLaws} `{NetLib} `{WebLib} {Ctx : Type} `{HPKE Ctx} {C E : Type}
    `{MovingAverage E} (ewma0 : E) `{Fetcher (E := E)} (cfg : ProxyConfig (C := C)) (qe : QueryEnv)
    clientProto serverProto query clientAddr connected start (ps ps' : ProxyState C E) r :
  processIncomingQuery ewma0 cfg qe clientProto serverProto query clientAddr connected start true ps = Ok (ps', r) →
  px_sent ps' = px_sent ps.
Proof.
  unfold processIncomingQuery. destruct (len query <? MinDNSPacketSize); [by intros [= <- _]|].
  intros ([si server] & _ & HP)%obind_Ok. apply obind_Ok in HP as ([[[w s] query'] err] & _ & HP).
  destruct (_ || _); [by injection HP as <- _|]. destruct (decide (action s = PluginsActionDrop)).
  { apply obind_Ok in HP as (ps1 & Hl & HP). apply log_with_sent in Hl as [Hs _]. by injection HP as <- _. }
  destruct (match synthResponse s with Some m => _ | None => _ end) as [response|e| |]; try done.
  - destruct (true && _); [by injection HP as <- _|]. by apply reply_spec in HP as [Hs _].
  - apply obind_Ok in HP as (ps1 & Hl & HP). apply log_with_sent in Hl as [Hs _]. by injection HP as <- _.
Qed.

(** * The number of clients *)

Definition weight (pc : ClientPC) : Z := if is_counted pc then 1 else 0.

Lemma counted_insert (l : list ClientPC) i old new :
  l !! i = Some old →
  len (filter (λ pc, is_counted pc = true) (<[i := new]> l)) =
  len (filter (λ pc, is_counted pc = true) l) - weight old + weight new.
Proof.
  revert i. induction l as [|x l IH]; intros [|i] Hi; cbn in Hi; try done.
  - injection Hi as ->. change (<[0%nat := new]> (old :: l)) with (new :: l). rewrite !filter_cons. unfold weight.
    destruct (is_counted old), (is_counted new); repeat case_decide; try done; rewrite ?len_cons; lia.
  - change (<[S i := new]> (x :: l)) with (x :: <[i := new]> l). rewrite !filter_cons. specialize (IH i Hi).
    case_decide; rewrite ?len_cons; lia.
Qed.

(** The counter is the number of counted clients, is within bounds, and is never
    read as zero by a client that leaves. *)
Record clients_inv (maxClients : Z) (st : ClientsState) : Prop := {
  ci_count : st.(clientsCount) = counted st;
  ci_bound : st.(clientsCount) ≤ maxClients;
  ci_dec i c : st.(pcs) !! i = Some (DecLoaded c) → c ≠ 0
}.

Lemma counted_nonneg st : 0 ≤ counted st.
Proof. apply len_nonneg. Qed.

Lemma counted_pos st i pc : st.(pcs) !! i = Some pc → is_counted pc = true → 1 ≤ counted st.
Proof.
  intros Hi Hc. unfold counted. assert (pc ∈ filter (λ pc, is_counted pc = true) (pcs st)) as Hin.
  { apply list_elem_of_filter. split; [done|]. by eapply list_elem_of_lookup_2. }
  destruct (filter _ _) as [|x l]; [set_solver|]. rewrite len_cons. pose proof (len_nonneg l). lia.
Qed.

(** Changing the place of a goroutine, and the counter with it. *)
Lemma clients_inv_set maxClients st i old new count' :
  clients_inv maxClients st → st.(pcs) !! i = Some old →
  count' = st.(clientsCount) - weight old + weight new → count' ≤ maxClients →
  (∀ c, new = DecLoaded c → c ≠ 0) →
  clients_inv maxClients {| clientsCount := count'; pcs := <[i := new]> st.(pcs) |}.
Proof.
  intros [Hc Hb Hd] Hi Hcount Hmax Hnew. constructor; cbn [clientsCount pcs].
  - unfold counted in *. cbn [pcs]. rewrite (counted_insert _ _ _ _ Hi). lia.
  - done.
  - intros j c Hj. apply list_lookup_insert_Some in Hj as [(_ & Hn & _)|[_ Hj]]; [by apply Hnew|by eapply Hd].
Qed.

Lemma client_step_inv maxClients st st' :
  0 ≤ maxClients < 2 ^ 32 → client_step maxClients st st' → clients_inv maxClients st → clients_inv maxClients st'.
Proof.
  intros Hm Hstep Hinv. pose proof (ci_count _ _ Hinv) as Hc. pose proof (ci_bound _ _ Hinv) as Hb.
  pose proof (counted_nonneg st) as Hn.
  destruct Hstep as [st i Hi|st i c Hi Hle|st i c Hi Hlt Heq|st i c Hi Hlt Hne|st i Hi|st i Hi|st i c Hi Hne Heq|st i c Hi Hne Hneq].
  - by apply (clients_inv_set _ _ _ Idle (IncLoaded _)); unfold weight; cbn; try lia.
  - by apply (clients_inv_set _ _ _ (IncLoaded c) Idle); unfold weight; cbn; try lia.
  - apply (clients_inv_set _ _ _ (IncLoaded c) Counted); try done;
      unfold weight, u32; cbn [is_counted]; rewrite Z.mod_small; lia.
  - by apply (clients_inv_set _ _ _ (IncLoaded c) Idle); unfold weight; cbn; try lia.
  - apply (clients_inv_set _ _ _ Counted (DecLoaded _)); unfold weight; cbn; try done; try lia.
    intros c [= <-]. pose proof (counted_pos st i Counted Hi eq_refl). lia.
  - by destruct (ci_dec _ _ Hinv i 0 Hi).
  - pose proof (counted_pos st i _ Hi eq_refl).
    apply (clients_inv_set _ _ _ (DecLoaded c) Idle); try done;
      unfold weight, u32; cbn [is_counted]; rewrite Z.mod_small; lia.
  - by apply (clients_inv_set _ _ _ (DecLoaded c) Counted); unfold weight; cbn; try lia.
Qed.

Lemma clients_inv_start maxClients n :
  0 ≤ maxClients → clients_inv maxClients {| clientsCount := 0; pcs := replicate n Idle |}.
Proof.
  intros Hm. constructor; cbn; [|lia|].
  - unfold counted. cbn [pcs]. induction n as [|n IH]; [done|]. cbn [replicate]. by rewrite filter_cons, decide_False.
  - intros i c [Hi _]%lookup_replicate. done.
Qed.

(** C20: Under every interleaving of the goroutines' loads and compare-and-swaps,
    the counter of clients equals the number of clients being served and never
    exceeds the configured maximum. *)
Theorem clients_bounded (maxClients : Z) (n : nat) (st : ClientsState) :
  0 ≤ maxClients < 2 ^ 32 →
  rtc (client_step maxClients) {| clientsCount := 0; pcs := replicate n Idle |} st →
  st.(clientsCount) = counted st ∧ 0 ≤ st.(clientsCount) ≤ maxClients.
Proof.
  intros Hm Hr. assert (clients_inv maxClients {| clientsCount := 0; pcs := replicate n Idle |}) as Hinv
    by (apply clients_inv_start; lia).
  induction Hr as [st|st1 st2 st3 Hs _ IH].
  - destruct Hinv as [Hc Hb _]. pose proof (counted_nonneg st). lia.
  - apply IH. by eapply client_step_inv.
Qed.

Example clients_bounded_wit :
  ∃ st, rtc (client_step 1) {| clientsCount := 0; pcs := replicate 2 Idle |} st ∧ st.(clientsCount) = 1 ∧
    st.(clientsCount) = counted st ∧ 0 ≤ st.(clientsCount) ≤ 1.
Proof.
  assert (rtc (client_step 1) {| clientsCount := 0; pcs := [Idle; Idle] |}
    {| clientsCount := 1; pcs := [Counted; IncLoaded 0] |}) as Hr.
  { eapply rtc_l; [apply (step_inc_load 1 _ 0%nat); done|]. eapply rtc_l; [apply (step_inc_load 1 _ 1%nat); done|].
    eapply rtc_l; [apply (step_inc_cas 1 _ 0%nat 0); done || lia|]. apply rtc_refl. }
  eexists. split; [exact Hr|]. split; [done|]. apply (clients_bounded 1 2); [lia|exact Hr].
Defined.

(** ** Leaving *)

Section Leaving.
Context (maxClients : Z) (Hm : 0 ≤ maxClients < 2 ^ 32).

(** [st] can reach a state of the invariant whose goroutines are at [l]. *)
Definition can_reach (st : ClientsState) (l : list ClientPC) : Prop :=
  ∃ st', rtc (client_step maxClients) st st' ∧ clients_inv maxClients st' ∧ st'.(pcs) = l.

Lemma can_reach_step st st1 l :
  clients_inv maxClients st → client_step maxClients st st1 →
  (clients_inv maxClients st1 → can_reach st1 l) → can_reach st l.
Proof.
  intros Hi Hs Hk. destruct Hk as (st' & Hr & Hc & He); [by eapply client_step_inv|].
  exists st'. split; [by eapply rtc_l|done].
Qed.

Lemma can_reach_now st : clients_inv maxClients st → can_reach st st.(pcs).
Proof. intros Hi. exists st. by split; [apply rtc_refl|]. Qed.

Lemma dec_leaves st i :
  clients_inv maxClients st → st.(pcs) !! i = Some (DecLoaded st.(clientsCount)) → can_reach st (<[i := Idle]> st.(pcs)).
Proof.
  intros Hi Hpc. eapply can_reach_step; [done|by eapply (step_dec_cas _ _ i), eq_refl; [|eapply ci_dec]|].
  intros Hi1. apply (can_reach_now _ Hi1).
Qed.

Lemma counted_leaves st i :
  clients_inv maxClients st → st.(pcs) !! i = Some Counted → can_reach st (<[i := Idle]> st.(pcs)).
Proof.
  intros Hi Hpc. eapply can_reach_step; [done|by eapply (step_dec_load _ _ i)|]. intros Hi1.
  pose proof (dec_leaves _ i Hi1) as Hd. cbn [pcs set_pc clientsCount] in Hd.
  rewrite list_insert_insert_eq in Hd. apply Hd. apply list_lookup_insert_eq. by eapply lookup_lt_Some.
Qed.

(** A client that runs alone leaves, and the others do not move. *)
Lemma client_leaves st i :
  clients_inv maxClients st → (i < length st.(pcs))%nat → can_reach st (<[i := Idle]> st.(pcs)).
Proof.
  intros Hinv Hi. destruct (lookup_lt_is_Some_2 _ _ Hi) as [[|c| |c] Hpc].
  - rewrite list_insert_id by done. by apply can_reach_now.
  - destruct (Z.le_gt_cases maxClients c); [|destruct (decide (st.(clientsCount) = c))].
    + eapply can_reach_step; [done|by eapply (step_inc_full _ _ i c)|]. intros Hi1. apply (can_reach_now _ Hi1).
    + eapply can_reach_step; [done|by eapply (step_inc_cas _ _ i c)|]. intros Hi1.
      pose proof (counted_leaves _ i Hi1) as Hd. cbn [pcs] in Hd. rewrite list_insert_insert_eq in Hd.
      by apply Hd, list_lookup_insert_eq.
    + eapply can_reach_step; [done|by eapply (step_inc_retry _ _ i c)|]. intros Hi1. apply (can_reach_now _ Hi1).
  - by apply counted_leaves.
  - destruct (decide (st.(clientsCount) = c)) as [<-|Hc]; [by apply dec_leaves|].
    eapply can_reach_step; [done|by eapply (step_dec_retry _ _ i c); [|eapply ci_dec|]|]. intros Hi1.
    pose proof (counted_leaves _ i Hi1) as Hd. cbn [pcs set_pc] in Hd. rewrite list_insert_insert_eq in Hd.
    by apply Hd, list_lookup_insert_eq.
Qed.

Lemma clients_leave st k :
  clients_inv maxClients st → (k ≤ length st.(pcs))%nat →
  can_reach st (replicate k Idle ++ drop k st.(pcs)).
Proof.
  intros Hinv. induction k as [|k IH]; intros Hk; [by apply can_reach_now|].
  destruct IH as (st1 & Hr1 & Hi1 & He1); [lia|].
  destruct (client_leaves st1 k Hi1) as (st2 & Hr2 & Hi2 & He2).
  { rewrite He1, length_app, length_replicate, length_drop. lia. }
  exists st2. split_and!; [by etrans|done|]. rewrite He2, He1.
  destruct (lookup_lt_is_Some_2 st.(pcs) k) as [pc Hpc]; [lia|]. rewrite (drop_S _ pc k Hpc).
  rewrite insert_app_r_alt by by rewrite length_replicate. rewrite length_replicate, Nat.sub_diag. cbn [insert list_insert].
  by rewrite replicate_S_end, <-app_assoc.
Qed.

End Leaving.

(** C21: no client is counted for ever. From every state the goroutines can reach,
    whatever each of them has read of the counter, they can all leave, and the
    counter is then zero again. *)
Theorem clients_can_leave (maxClients : Z) (n : nat) (st : ClientsState) :
  0 ≤ maxClients < 2 ^ 32 →
  rtc (client_step maxClients) {| clientsCount := 0; pcs := replicate n Idle |} st →
  ∃ st', rtc (client_step maxClients) st st' ∧ st'.(clientsCount) = 0 ∧ Forall (λ pc, pc = Idle) st'.(pcs).
Proof.
  intros Hm Hr. assert (clients_inv maxClients st) as Hinv.
  { revert st Hr. apply rtc_ind_r; [apply clients_inv_start; lia|]. intros st1 st2 _ Hs IH. by eapply client_step_inv. }
  destruct (clients_leave maxClients Hm st (length st.(pcs)) Hinv) as (st' & Hr' & Hi' & He); [done|].
  rewrite drop_all, app_nil_r in He. exists st'. split_and!; [done| |rewrite He; by apply Forall_replicate].
  rewrite (ci_count _ _ Hi'). unfold counted. rewrite He. generalize (length st.(pcs)). intros k. clear.
  induction k as [|k IH]; [done|]. cbn [replicate]. by rewrite filter_cons, decide_False.
Qed.

Example clients_can_leave_wit :
  ∃ st st', rtc (client_step 1) {| clientsCount := 0; pcs := replicate 2 Idle |} st ∧ st.(clientsCount) = 1 ∧
    rtc (client_step 1) st st' ∧ st'.(clientsCount) = 0.
Proof.
  assert (rtc (client_step 1) {| clientsCount := 0; pcs := [Idle; Idle] |}
    {| clientsCount := 1; pcs := [Counted; IncLoaded 0] |}) as Hr.
  { eapply rtc_l; [apply (step_inc_load 1 _ 0%nat); done|]. eapply rtc_l; [apply (step_inc_load 1 _ 1%nat); done|].
    eapply rtc_l; [apply (step_inc_cas 1 _ 0%nat 0); done || lia|]. apply rtc_refl. }
  destruct (clients_can_leave 1 2 _ ltac:(lia) Hr) as (st' & Hr' & Hz & _). eexists _, st'. by split_and!.
Defined.

(** * Blocked queries, end to end *)

Lemma refused_wf m refused ipv4 ipv6 ttl r :
  msg_wf m → RefusedResponseFromMessage m refused ipv4 ipv6 ttl = Ok r → msg_wf r.
Proof.
  intros Hwf. unfold RefusedResponseFromMessage. destruct (EmptyResponse_ok m Hwf) as (d & -> & Hd). cbn [obind].
  pose proof (empty_response_wf _ _ Hd) as Hdwf.
  destruct refused; [by intros [= <-]|]. destruct (Questions m); by intros [= <-].
Qed.

Section Blocked.
Context `{CryptoPrims} `{CodecLaws} `{NetLib} `{WebLib} `{UnicodeTables} {Ctx : Type} `{HPKE Ctx} {E : Type} `{MovingAverage E}.
Context `{Store CachedResponse} (ewma0 : E) `{Fetcher (E := E)}.
Context {TN TI TC : Type} `{PrefixTrieLaws (option Ranges) TN} `{PrefixTrie unit TI} `{PrefixTrie (option nat) TC}.
Context (sha : bytes → bytes) (ReverseAddr : bytes → bytes) (ParseCIDR : bytes → Out IPNet)
        (TypeToString : Z → option bytes) (map_order : gmap bytes nat → list bytes).
Abbreviation Init := (InitPluginsGlobals (TN := TN) (TI := TI) (TC := TC) sha ReverseAddr ParseCIDR TypeToString map_order).
Context (cfg : ProxyConfig (C := St CachedResponse)) (qe : QueryEnv).

(** A blocked query never leaves the proxy. With the plugins of any
    configuration that has a block file listing domain names, no captive portals,
    no allow list and no query log, the handling of a query with one question
    whose name is at or below a listed name ends, and sends nothing to any server. *)
Theorem blocked_query_stays_home plugins env heap ps_names clientProto serverProto query clientAddr connected start
    onlyCached (ps : ProxyState (St CachedResponse) E) si server msg q name p :
  Init plugins env = Ok (cfg.(pc_globals), heap) →
  plugins.(captivePortalMap) = None → plugins.(allowNameFile) = None → plugins.(queryLog) = None →
  plugins.(blockNameFile) = Some (Ok (Join ps_names [10])) → plugins.(blockNameLog) = None →
  Forall zone_line ps_names →
  getOne ps.(px_servers) (qe_rnd qe 0) (qe_rnd qe 1) (qe_now qe 0) = Ok (si, server) →
  Unpack query = Ok msg → msg.(Questions) = [q] → NormalizeQName q.(qn_Name) = Ok name → ascii name →
  (2 ≤ length name)%nat → p ∈ ps_names → in_zone name p → clear_suffix ps_names name p →
  ¬ in_zone name (str "use-application-dns.net") →
  ∃ ps' r, processIncomingQuery ewma0 cfg qe clientProto serverProto query clientAddr connected start onlyCached ps
             = Ok (ps', r) ∧ px_sent ps' = px_sent ps.
Proof.
  intros HI Hcp Hal Hql Hb Hbl Hz Hone Hu Hq Hn Ha Hl Hp Hin Hcs Hff.
  assert (no_query_log cfg) as Hnolog.
  { by eapply no_logging_plugins. }
  unfold processIncomingQuery. destruct (len query <? MinDNSPacketSize); [by eauto|]. rewrite Hone. cbn [obind].
  fold (wants_padding server). set (s0 := NewPluginsState _ _ _ _ _).
  destruct (blocked_name_refused sha ReverseAddr ParseCIDR TypeToString map_order plugins env _ heap ps_names (qe_query qe)
    (px_world ps) s0 query msg q name p (wants_padding server) HI Hcp Hal Hb Hz) as
    (w & s & query' & err & m & msg' & Happ & Hact & _ & Hsyn & Href & _ & _ & Hwf); try done.
  { by rewrite Hbl. }
  change (px_world (ps <| px_servers := si |>)) with (px_world ps). rewrite Happ. cbn [obind].
  destruct (_ || _); [by eauto|]. rewrite decide_False by (rewrite Hact; done). rewrite Hsyn.
  pose proof (refused_wf _ _ _ _ _ _ Hwf Href) as Hmwf. destruct (Pack_no_panic m Hmwf) as [Hp1 Hp2].
  destruct (Pack m) as [packet|e| |] eqn:HP; [| |done|done].
  - pose proof (Pack_wire _ _ HP) as [Hlen _].
    assert ((length (default [] (Some packet)) =? 0)%nat = false) as -> by (apply Nat.eqb_neq; cbn; lia).
    assert (∀ srv ps1, px_sent ps1 = px_sent ps →
      ∃ ps' r, reply cfg qe clientProto connected srv (Some packet) s ps1 = Ok (ps', r) ∧ px_sent ps' = px_sent ps) as Hreply.
    { intros srv ps1 <-. destruct (reply_total cfg qe clientProto connected srv m packet s ps1 Hnolog HP) as (ps' & r & HR).
      exists ps', r. split; [done|]. by apply reply_spec in HR as [? _]. }
    rewrite andb_false_r. destruct onlyCached; [|destruct server]; by apply Hreply.
  - match goal with |- context [log_with _ _ ?rc _ ?ps1] => destruct (log_with_total cfg qe rc s ps1 Hnolog) as [ps' HL] end.
    rewrite HL. cbn [obind]. apply log_with_sent in HL as [HL _]. by eauto.
Qed.
End Blocked.

(** * Queries the plugins do not understand *)

Section Odd.
Context `{CryptoPrims} `{CodecLaws} `{NetLib} `{WebLib} {Ctx : Type} `{HPKE Ctx} {C E : Type} `{MovingAverage E}.
Context (ewma0 : E) `{Fetcher (E := E)} (cfg : ProxyConfig (C := C)) (qe : QueryEnv).
Implicit Types (ps : ProxyState C E) (s : PluginsState).

Lemma udp_first_sent (server : ServerInfo E) k q n c :
  dnscrypt_relay server = None → udp_dial c = None → udp_deadline c = None → udp_write c 0 = None →
  SentUDP server.(UDPAddr) q ∈ (exchangeWithUDPServer c server k q n).1.
Proof.
  intros Hr Hd Hdl Hw. unfold exchangeWithUDPServer. rewrite Hr, Hd, Hdl.
  set (buffer := replicate (Z.to_nat MaxDNSPacketSize) 0).
  assert (SentUDP (UDPAddr server) q ∈ (udp_tries 2 c (UDPAddr server) q buffer).1) as Hin.
  { cbn [udp_tries Nat.sub]. rewrite Hw. destruct (udp_read c 0); try (cbn; set_solver).
    destruct (udp_write c 1); [cbn; set_solver|]. destruct (udp_read c 1); cbn; set_solver. }
  by destruct (udp_tries _ _ _ _ _).
Qed.

Lemma ask_dnscrypt_sends server query s ps ps' asked k q n :
  encrypt cfg qe server ps 0 query "udp" = Ok (k, q, n) → dnscrypt_relay server = None →
  udp_dial (qe_udp qe) = None → udp_deadline (qe_udp qe) = None → udp_write (qe_udp qe) 0 = None →
  ask_dnscrypt cfg qe server query "udp" s ps = Ok (ps', asked) → SentUDP server.(UDPAddr) q ∈ px_sent ps'.
Proof.
  intros He Hr Hd Hdl Hw. unfold ask_dnscrypt. rewrite He. rewrite decide_True by done.
  pose proof (udp_first_sent server k q n _ Hr Hd Hdl Hw) as Hin.
  destruct (exchangeWithUDPServer _ _ _ _ _) as [sent x]. cbn [fst] in Hin.
  assert (SentUDP (UDPAddr server) q ∈ px_sent (send sent (notice_begin qe (si_Name server) ps))) as Hsent.
  { cbn. apply elem_of_app. by right. }
  intros (y & -> & HE)%obind_Ok. apply obind_Ok in HE as (retry & _ & HE). destruct retry.
  - destruct (encrypt cfg qe server _ 2 query "tcp") as [[[k2 q2] n2]| | |]; try done; [|by injection HE as <- _].
    destruct (exchangeWithTCPServer _ _ _ _ _) as [sent2 x2]. apply obind_Ok in HE as (r2 & -> & HE).
    apply obind_Ok in HE as ([response [e|]] & _ & HE); injection HE as <- _; cbn in *; apply elem_of_app; by left.
  - cbn [obind] in HE. by apply obind_Ok in HE as ([response [e|]] & _ & HE); injection HE as <- _.
Qed.

(** Query plugins can be bypassed. A query with no question or several, or
    whose name has a byte outside ASCII, is encrypted as it came and sent to the
    server, whatever the configured block lists and other query plugins. *)
Theorem odd_question_forwarded clientProto query clientAddr connected start ps ps' r si server msg k q n :
  Unpack query = Ok msg → (∀ qu, msg.(Questions) = [qu] → ∃ e, NormalizeQName qu.(qn_Name) = Err e) →
  MinDNSPacketSize ≤ len query ≤ MaxDNSPacketSize →
  getOne ps.(px_servers) (qe_rnd qe 0) (qe_rnd qe 1) (qe_now qe 0) = Ok (si, Some server) →
  server.(Proto) = StampProtoTypeDNSCrypt → dnscrypt_relay server = None →
  encrypt cfg qe server ps 0 query "udp" = Ok (k, q, n) →
  udp_dial (qe_udp qe) = None → udp_deadline (qe_udp qe) = None → udp_write (qe_udp qe) 0 = None →
  processIncomingQuery ewma0 cfg qe clientProto "udp" query clientAddr connected start false ps = Ok (ps', r) →
  SentUDP server.(UDPAddr) q ∈ px_sent ps'.
Proof.
  intros Hu Hq Hlen Hone Hproto Hrel Henc Hd Hdl Hw HP. unfold processIncomingQuery in HP.
  destruct (Z.ltb_spec (len query) MinDNSPacketSize); [lia|]. rewrite Hone in HP. cbn [obind] in HP.
  edestruct (odd_question_bypasses_plugins (pc_globals cfg) (qe_query qe)) as [e He]; [exact Hu|exact Hq|].
  erewrite He in HP. cbn [obind] in HP. clear He.
  destruct (Z.ltb_spec (len query) MinDNSPacketSize); [lia|]. destruct (Z.ltb_spec MaxDNSPacketSize (len query)); [lia|].
  cbn [orb] in HP. rewrite decide_False in HP by done.
  cbn [synthResponse NewPluginsState default length Nat.eqb andb] in HP. unfold ask in HP. rewrite Hproto in HP.
  apply obind_Ok in HP as ([ps1 asked] & Hask & HP).
  eapply ask_dnscrypt_sends in Hask; [|exact Henc|done..]. destruct asked as [response|rc failure response|response].
  - apply obind_Ok in HP as ([[ps2 s2] res] & Hafter & HP). apply after_answer_sent in Hafter.
    destruct res; [injection HP as <- _; congruence|]. apply reply_spec in HP as [Hs _]. congruence.
  - apply obind_Ok in HP as (ps2 & Hl & HP). apply log_with_sent in Hl as [Hs _].
    destruct failure; injection HP as <- _; [change (SentUDP (UDPAddr server) q ∈ px_sent ps2)|]; congruence.
  - by injection HP as <- _.
Qed.

End Odd.

(** * Witnesses *)

Section ProxyExamples.
#[local] Existing Instance ascii_tables.
#[local] Existing Instance tiny_codec.
#[local] Existing Instance tiny_codec_laws.
#[local] Existing Instance tiny_net.
#[local] Existing Instance toy_prims.
#[local] Existing Instance tiny_hpke.
#[local] Existing Instance sample_fetcher.
#[local] Instance local_web : WebLib := {
  sha512 b := b; hex_EncodeToString b := b; base64_RawURLEncoding b := b }.

(** A DNSCrypt server with known keys, and a DoH server given by its address. *)
Definition crypt_server : ServerInfo Q := (sample_server (str "a") 20)
  <| si_CryptoConstruction := XChacha20Poly1305 |> <| MagicQuery := replicate 8 7 |> <| UDPAddr := toy_addr |>.
Definition doh_server : ServerInfo Q := (sample_server (str "d") 20)
  <| Proto := StampProtoTypeDoH |> <| URL := {| u_Host := str "1.2.3.4"; u_Path := str "/dns-query"; u_Query := [] |} |>.

Definition one_server (server : ServerInfo Q) : ServersInfo Q := {|
  inner := [server]; lbStrategy := LBStrategyFirst; lbEstimator := false; registeredServers := []; registeredRelays := [] |}.

Definition start_proxy {C} (w : World C) (server : ServerInfo Q) : ProxyState C Q := {|
  px_world := w; px_servers := one_server server; px_estimator := NewQuestionSizeEstimator 0%Q;
  px_transport := NewXTransport; px_sent := []; px_replies := [] |}.

Definition with_plugins {C} (g : PluginsGlobals C) : ProxyConfig := {|
  pc_globals := g;
  pc_state := {| cfg_cacheSize := 4; cfg_cacheNegMinTTL := 60; cfg_cacheNegMaxTTL := 600; cfg_cacheMinTTL := 60;
                 cfg_cacheMaxTTL := 86400; cfg_rejectTTL := 600; cfg_timeout := 5000 |};
  pc_keys := toy_keys; pc_timeout := 5000 |}.

Definition firefox_only : PluginsGlobals unit := {|
  queryPlugins := [new_PluginFirefox]; responsePlugins := [];
  loggingPlugins := []; respondWithIPv4 := []; respondWithIPv6 := []; refusedCodeInResponses := true |}.

Definition answer_packet : bytes := [0; 9; 129; 0; 0; 1; 0; 0; 0; 0; 0; 0] ++ str "example.org.".

Definition reachable : QueryEnv := {|
  qe_rnd := λ _, 0; qe_now := λ _, 0; qe_query := λ _, noon; qe_response := λ _, noon; qe_logging := λ _, noon;
  qe_nonce := λ _, replicate 12 2; qe_xpad := λ _, 0; qe_keyrnd := λ _, [];
  qe_udp := {| udp_dial := None; udp_deadline := None; udp_write := λ _, None;
               udp_read := λ _, Ok (server_response XChacha20Poly1305 (replicate 32 1) (replicate 12 2) (replicate 12 3)
                                      answer_packet 256) |};
  qe_tcp := {| tcp_dial := Some ETimeout; tcp_deadline := None; tcp_write := None; tcp_read := [] |};
  qe_resolve := empty_answers;
  qe_http := λ _, (inr (Some {| StatusCode := 200; Alt_Svc := None;
                                resp_TLS := Some {| HandshakeComplete := true; PeerCertificates := [] |};
                                resp_body := Ok ([0; 0] ++ drop 2 answer_packet) |}), 3);
  qe_hpkeseed := [] |}.

Definition quiet_state : PluginsState := plain_state "udp" "example.org".



Definition silent_udp : UDPConn :=
  {| udp_dial := None; udp_deadline := None; udp_write := λ _, None; udp_read := λ _, Err ETimeout |}.

Example udp_timeouts_hidden_wit :
  ∃ sent r, exchangeWithUDPServer silent_udp crypt_server (replicate 32 1) toy_encrypted (replicate 12 2) = (sent, Ok r) ∧
    length sent = 2%nat ∧ retry_over_tcp r = Ok false.
Proof.
  destruct (udp_timeouts_hidden silent_udp crypt_server (replicate 32 1) toy_encrypted (replicate 12 2))
    as (sent & r & HE & Hs & _ & Hr); [done..|]. by exists sent, r.
Defined.

Example dnscrypt_answer_authentic_wit :
  ∃ ps', ask_dnscrypt (with_plugins firefox_only) reachable crypt_server (query_for "example.org.") "udp" quiet_state
           (start_proxy no_world crypt_server) = Ok (ps', Answered (Some answer_packet)) ∧
    ∃ packet, Some answer_packet = Some packet ∧
      authentic (with_plugins firefox_only) reachable crypt_server (query_for "example.org.") quiet_state packet.
Proof.
  eexists. split; [by vm_compute|].
  eapply (dnscrypt_answer_authentic (with_plugins firefox_only) reachable crypt_server (query_for "example.org.") "udp"
    quiet_state (start_proxy no_world crypt_server)). by vm_compute.
Defined.

Example doh_identifier_wit :
  ∃ ps' packet, ask_doh (with_plugins firefox_only) reachable doh_server (query_for "example.org.") quiet_state
      (start_proxy no_world doh_server) = Ok (ps', Answered (Some packet)) ∧
    TransactionID packet = Ok 9.
Proof.
  destruct (ask_doh (with_plugins firefox_only) reachable doh_server (query_for "example.org.") quiet_state
      (start_proxy no_world doh_server)) as [[ps' asked]| | |] eqn:HA; [|by vm_compute in HA..].
  assert (asked = Answered (Some answer_packet)) as -> by (vm_compute in HA; by injection HA as _ <-).
  exists ps', answer_packet. split; [done|].
  destruct (doh_identifier (with_plugins firefox_only) reachable doh_server (query_for "example.org.") quiet_state
    (start_proxy no_world doh_server) ps' answer_packet) as [-> _]; [|exact HA|by vm_compute|by vm_compute].
  by apply (bool_decide_unpack _); vm_compute.
Defined.

(** A query for a name that is not ASCII. *)
Definition odd_query : bytes := [0; 9; 1; 0; 0; 1; 0; 0; 0; 0; 0; 0; 228; 46; 99; 111; 109; 46].

Example odd_question_forwarded_wit :
  ∃ ps' r q, processIncomingQuery 0%Q (with_plugins firefox_only) reachable "udp" "udp" odd_query None true 0 false
               (start_proxy no_world crypt_server) = Ok (ps', r) ∧ SentUDP toy_addr q ∈ px_sent ps'.
Proof.
  destruct (encrypt (with_plugins firefox_only) reachable crypt_server (start_proxy no_world crypt_server) 0 odd_query "udp")
    as [[[k q] n]| | |] eqn:He; [|by vm_compute in He..].
  destruct (processIncomingQuery 0%Q (with_plugins firefox_only) reachable "udp" "udp" odd_query None true 0 false
    (start_proxy no_world crypt_server)) as [[ps' r]| | |] eqn:HP; [|by vm_compute in HP..].
  exists ps', r, q. split; [done|].
  apply (odd_question_forwarded 0%Q (with_plugins firefox_only) reachable "udp" odd_query None true 0
    (start_proxy no_world crypt_server) ps' r (one_server crypt_server) crypt_server
    (match Unpack odd_query with Ok m => m | _ => empty_Msg end) k q n);
    [by vm_compute| | |by vm_compute|done|done|exact He|done|done|done|exact HP].
  - intros qu Hqu. vm_compute in Hqu. injection Hqu as <-. eexists. by vm_compute.
  - by apply (bool_decide_unpack _); vm_compute.
Defined.

End ProxyExamples.

Section BlockedExample.
#[local] Existing Instance ascii_tables.
#[local] Existing Instance tiny_codec.
#[local] Existing Instance tiny_codec_laws.
#[local] Existing Instance sample_net.
#[local] Existing Instance toy_prims.
#[local] Existing Instance tiny_hpke.
#[local] Existing Instance sample_fetcher.
#[local] Existing Instance local_web.

Example blocked_query_stays_home_wit :
  ∃ g heap ps' r, sample_init (plain_config (Some (Ok (Join sample_zones [10])))) = Ok (g, heap) ∧
    processIncomingQuery 0%Q (with_plugins g) reachable "udp" "udp" (query_for "X.ads.example.") None true 0 false
      (start_proxy {| w_cache := None; w_cloak := ∅; w_logs := [] |} crypt_server) = Ok (ps', r) ∧ px_sent ps' = [].
Proof.
  destruct sample_init_ok as (g & heap & HI). exists g, heap.
  destruct (blocked_query_stays_home (TN := gmap bytes (option Ranges)) (TI := gmap bytes unit)
    (TC := gmap bytes (option nat)) (0%Q) id id (λ _, Err (EMsg "invalid CIDR address")) (λ _, None)
    (λ m, (map_to_list m).*1) (with_plugins g) reachable (plain_config (Some (Ok (Join sample_zones [10])))) noon heap
    sample_zones "udp" "udp" (query_for "X.ads.example.") None true 0 false
    (start_proxy {| w_cache := None; w_cloak := ∅; w_logs := [] |} crypt_server)
    (one_server crypt_server) (Some crypt_server)
    (match Unpack (query_for "X.ads.example.") with Ok m => m | _ => empty_Msg end)
    {| qn_Name := str "X.ads.example."; Qtype := TypeA; Qclass := ClassINET |} (str "x.ads.example") (str "ads.example"))
    as (ps' & r & HP & Hs);
    [exact HI|done|done|done|done|done| |by vm_compute|by vm_compute|done|by vm_compute|..].
  - repeat constructor; try (by eexists _, _; split_and!); by apply (bool_decide_unpack _); vm_compute.
  - by apply (bool_decide_unpack _); vm_compute.
  - apply Nat.leb_le. by vm_compute.
  - by apply (bool_decide_unpack _); vm_compute.
  - right. by exists (str "x").
  - intros p' Hp' _ Hsuf. unfold sample_zones in Hp'. rewrite !elem_of_cons in Hp'.
    destruct Hp' as [->|[->|Hp']]; [right; by exists (str "x")|by vm_compute in Hsuf|by apply elem_of_nil in Hp'].
  - intros [Hz|[x Hx]]; [by vm_compute in Hz|]. apply (f_equal length) in Hx. rewrite length_app in Hx. change (13 = length x + 24)%nat in Hx. lia.
  - exists ps', r. by split_and!.
Defined.

End BlockedExample.
