(* ===== verification/Sources.v ===== *)
(** sources.go: lists of resolvers, downloaded or read from a cache file, always
    with a signature; their parser; and [updateRegisteredServers] of proxy.go,
    which registers the servers they list. *)
From Stdlib Require Import QArith.
From S2P Require Import Prelude.
From S2P Require Import GoStrings.
From S2P Require Import Common.
From S2P Require Import Estimators.
From S2P Require Import ServerTypes.
From S2P Require Import DnsUtils.
From S2P Require Import ServersInfo.
From S2P Require Import XTransport.
From S2P Require Import Routes.
From S2P Require Import RewritePlugins.

Definition DefaultPrefetchDelay : Z := 24 * Hour.
Definition MinimumPrefetchInterval : Z := 10 * Minute.
Definition DefaultTimeout : Z := 30 * Second.

(** The minisign package: keys and signatures decoded from their text, and the
    verification of a signature. *)
Class Minisign (PublicKey Signature : Type) := {
  NewPublicKey : bytes → Out PublicKey;
  DecodeSignature : bytes → Out Signature;
  Verify : PublicKey → bytes → Signature → option error
}.

Inductive SourceFormat := SourceFormatV2.

Record Source (PublicKey : Type) := {
  src_name : bytes;
  src_urls : list Url;
  src_format : SourceFormat;
  src_in : bytes;
  minisignKey : option PublicKey;
  cacheFile : bytes;
  cacheTTL : Z;
  prefetchDelay : Z;
  src_refresh : option Z;
  src_prefix : bytes
}.
Arguments src_name {_} _. Arguments src_urls {_} _. Arguments src_format {_} _. Arguments src_in {_} _.
Arguments minisignKey {_} _. Arguments cacheFile {_} _. Arguments cacheTTL {_} _. Arguments prefetchDelay {_} _.
Arguments src_refresh {_} _. Arguments src_prefix {_} _.

#[export] Instance eta_Source {K} : Eta (Source K) := λ s, {|
  src_name := s.(src_name); src_urls := s.(src_urls); src_format := s.(src_format); src_in := s.(src_in);
  minisignKey := s.(minisignKey); cacheFile := s.(cacheFile); cacheTTL := s.(cacheTTL);
  prefetchDelay := s.(prefetchDelay); src_refresh := s.(src_refresh); src_prefix := s.(src_prefix) |}.

(** * Files *)

(** The files by their paths, with their contents and modification times. *)
Abbreviation Files := (gmap bytes (bytes * Z)).

(** The faults of the system calls made while a source is loaded, and the time
    the file system gives to files written. *)
Record IO := {
  io_read_bin : option error;
  io_read_sig : option error;
  io_stat : option error;
  io_create_bin : option error;
  io_create_sig : option error;
  io_write_bin : option error;
  io_write_sig : option error;
  io_commit_bin : option error;
  io_commit_sig : option error;
  io_chtimes : option error;
  io_mtime : Z
}.

Definition not_exist : error := EMsg "no such file or directory".

Definition ReadFile (fault : option error) (f : bytes) (files : Files) : bytes + error :=
  match fault, files !! f with
  | Some e, _ => inr e
  | None, None => inr not_exist
  | None, Some (data, _) => inl data
  end.

Definition minisig (f : bytes) : bytes := f ++ str ".minisig".

(** [writeSource]: both temporary files are created and written before the first
    is renamed. *)
Definition writeSource (io : IO) (f bin sig : bytes) (files : Files) : Files * option error :=
  match io.(io_create_bin), io.(io_create_sig), io.(io_write_bin), io.(io_write_sig) with
  | Some e, _, _, _ => (files, Some e)
  | None, Some e, _, _ => (files, Some e)
  | None, None, Some e, _ => (files, Some e)
  | None, None, None, Some e => (files, Some e)
  | None, None, None, None =>
      match io.(io_commit_bin) with
      | Some e => (files, Some e)
      | None =>
          let files := <[f := (bin, io.(io_mtime))]> files in
          match io.(io_commit_sig) with
          | Some e => (files, Some e)
          | None => (<[minisig f := (sig, io.(io_mtime))]> files, None)
          end
      end
  end.

Definition Chtimes (fault : option error) (f : bytes) (now : Z) (files : Files) : Files :=
  match fault, files !! f with
  | None, Some (data, _) => <[f := (data, now)]> files
  | _, _ => files
  end.

(** * Loading a source *)

(** What one load gets from outside: the faults of the file system, and for each
    download the resolvers and the HTTP client. *)
Record SourceEnv := {
  se_io : IO;
  se_resolve : nat → ResolveEnv;
  se_client : nat → Request → (HttpError + option HttpResponse) * Z
}.

Section Sources.
Context {PublicKey Signature : Type} `{Minisign PublicKey Signature} `{NetLib} `{WebLib} `{StampLib}.
Abbreviation Src := (Source PublicKey).

(** [checkSignature]: the error it returns; a nil key panics. *)
Definition checkSignature (source : Src) (bin sig : bytes) : Out (option error) :=
  match DecodeSignature sig with
  | Err e => Ok (Some e)
  | Panic => Panic
  | Fatal => Fatal
  | Ok signature =>
      match source.(minisignKey) with
      | Some key => Ok (Verify key bin signature)
      | None => Panic
      end
  end.

Definition fetchFromCache (io : IO) (files : Files) (now : Z) (source : Src) : Out (Src * Z * option error) :=
  match ReadFile io.(io_read_bin) source.(cacheFile) files with
  | inr e => Ok (source, 0, Some e)
  | inl bin =>
      match ReadFile io.(io_read_sig) (minisig source.(cacheFile)) files with
      | inr e => Ok (source, 0, Some e)
      | inl sig =>
          let! err := checkSignature source bin sig in
          match err with
          | Some e => Ok (source, 0, Some e)
          | None =>
              let source := source <| src_in := bin |> in
              match io.(io_stat), files !! source.(cacheFile) with
              | Some e, _ => Ok (source, 0, Some e)
              | None, None => Ok (source, 0, Some not_exist)
              | None, Some (_, mtime) =>
                  let elapsed := now - mtime in
                  Ok (source, if elapsed <? source.(cacheTTL) then source.(prefetchDelay) - elapsed else 0, None)
              end
          end
      end
  end.

(** [writeToCache]: errors are only logged. *)
Definition writeToCache (io : IO) (bin sig : bytes) (now : Z) (source : Src) (files : Files) : Src * Files :=
  let f := source.(cacheFile) in
  let '(files, writeErr) :=
    if decide (source.(src_in) = bin) then (files, None) else writeSource io f bin sig files in
  (source <| src_in := bin |>,
   match writeErr with Some _ => files | None => Chtimes io.(io_chtimes) f now files end).

Definition parseURLs (urls : list bytes) (source : Src) : Src :=
  source <| src_urls := source.(src_urls) ++ omap (λ u, match url_Parse u with Ok x => Some x | _ => None end) urls |>.

Definition fetchFromURL (env : SourceEnv) (i : nat) (default_timeout : Z) (x : XTransport) (u : Url)
    : Out (XTransport * (bytes + error)) :=
  let! (x, f) := Get (se_resolve env i) (se_client env i) default_timeout x u [] DefaultTimeout in
  Ok (x, match f.(f_err) with Some e => inr e | None => inl (default [] f.(f_bin)) end).

(** The loop over the URLs: a list with its signature, or the error of the last
    URL. *)
Fixpoint download (env : SourceEnv) (default_timeout : Z) (source : Src) (urls : list Url) (i : nat) (err : error)
    (x : XTransport) : Out (XTransport * (bytes * bytes + error)) :=
  match urls with
  | [] => Ok (x, inr err)
  | srcURL :: urls =>
      let sigURL := {| u_Host := srcURL.(u_Host); u_Path := srcURL.(u_Path) ++ str ".minisig"; u_Query := srcURL.(u_Query) |} in
      let! (x, r) := fetchFromURL env i default_timeout x srcURL in
      match r with
      | inr e => download env default_timeout source urls (S (S i)) e x
      | inl bin =>
          let! (x, r) := fetchFromURL env (S i) default_timeout x sigURL in
          match r with
          | inr e => download env default_timeout source urls (S (S i)) e x
          | inl sig =>
              let! err := checkSignature source bin sig in
              match err with
              | None => Ok (x, inl (bin, sig))
              | Some e => download env default_timeout source urls (S (S i)) e x
              end
          end
      end
  end.

Record Loaded := {
  ld_source : Src;
  ld_files : Files;
  ld_transport : XTransport;
  ld_delay : Z;
  ld_err : option error
}.

Definition fetchWithCache (env : SourceEnv) (default_timeout now : Z) (source : Src) (files : Files) (x : XTransport)
    : Out Loaded :=
  let! (source, delay, err) := fetchFromCache env.(se_io) files now source in
  match source.(src_urls) with
  | [] => Ok {| ld_source := source; ld_files := files; ld_transport := x; ld_delay := delay; ld_err := err |}
  | urls =>
      let refreshed (delay : Z) (source : Src) := source <| src_refresh := Some (now + delay) |> in
      if 0 <? delay then
        Ok {| ld_source := refreshed delay source; ld_files := files; ld_transport := x; ld_delay := delay; ld_err := err |}
      else
        let! (x, r) := download env default_timeout source urls 0 not_exist x in
        match r with
        | inr e =>
            let delay := MinimumPrefetchInterval in
            Ok {| ld_source := refreshed delay source; ld_files := files; ld_transport := x; ld_delay := delay; ld_err := Some e |}
        | inl (bin, sig) =>
            let '(source, files) := writeToCache env.(se_io) bin sig now source files in
            let delay := source.(prefetchDelay) in
            Ok {| ld_source := refreshed delay source; ld_files := files; ld_transport := x; ld_delay := delay; ld_err := None |}
        end
  end.

(** [NewSource]; a source that cannot be used is returned beside the error. *)
Definition NewSource (env : SourceEnv) (default_timeout now : Z) (name : bytes) (urls : list bytes)
    (minisignKeyStr cacheFile formatStr : bytes) (refreshDelay : Z) (prefix : bytes) (files : Files) (x : XTransport)
    : Out Loaded :=
  let refreshDelay := if refreshDelay <? DefaultPrefetchDelay then DefaultPrefetchDelay else refreshDelay in
  let source := {| src_name := name; src_urls := []; src_format := SourceFormatV2; src_in := []; minisignKey := None;
                   cacheFile := cacheFile; cacheTTL := refreshDelay; prefetchDelay := DefaultPrefetchDelay;
                   src_refresh := None; src_prefix := prefix |} in
  let fail e := Ok {| ld_source := source; ld_files := files; ld_transport := x; ld_delay := 0; ld_err := Some e |} in
  if decide (formatStr = str "v2") then
    match NewPublicKey minisignKeyStr with
    | Ok key => fetchWithCache env default_timeout now (parseURLs urls (source <| minisignKey := Some key |>)) files x
    | Err e => fail e
    | Panic => Panic
    | Fatal => Fatal
    end
  else fail (EMsg "Unsupported source format").

(** [source.refresh.IsZero() || source.refresh.After(now)]. *)
Definition not_due (now : Z) (source : Src) : bool :=
  match source.(src_refresh) with None => true | Some t => now <? t end.

Fixpoint prefetch_loop (env : nat → SourceEnv) (default_timeout now : Z) (i : nat) (sources : list Src) (interval : Z)
    (files : Files) (x : XTransport) : Out (list Src * Z * Files * XTransport) :=
  match sources with
  | [] => Ok ([], interval, files, x)
  | source :: sources =>
      if not_due now source then
        let! (l, interval, files, x) := prefetch_loop env default_timeout now (S i) sources interval files x in
        Ok (source :: l, interval, files, x)
      else
        let! ld := fetchWithCache (env i) default_timeout now source files x in
        let interval :=
          match ld.(ld_err) with
          | Some _ => interval
          | None =>
              if (MinimumPrefetchInterval <=? ld.(ld_delay)) &&
                 ((interval =? MinimumPrefetchInterval) || (ld.(ld_delay) <? interval))
              then ld.(ld_delay) else interval
          end in
        let! (l, interval, files, x) := prefetch_loop env default_timeout now (S i) sources interval ld.(ld_files) ld.(ld_transport) in
        Ok (ld.(ld_source) :: l, interval, files, x)
  end.

Definition PrefetchSources (env : nat → SourceEnv) (default_timeout now : Z) (sources : list Src) (files : Files)
    (x : XTransport) : Out (list Src * Z * Files * XTransport) :=
  prefetch_loop env default_timeout now 0 sources MinimumPrefetchInterval files x.

(** * The format of sources *)

Definition stamp_line (subpart : bytes) : bool := HasPrefix subpart (str "sdns:") && (6 <=? len subpart).
Definition skipped_line (subpart : bytes) : bool := (length subpart =? 0)%nat || HasPrefix subpart (str "//").

(** The loop over the lines of an entry: its stamps and its description. *)
Fixpoint entry_lines (subparts : list bytes) (stampStrs : list bytes) (description : bytes) : list bytes * bytes :=
  match subparts with
  | [] => (stampStrs, description)
  | subpart :: subparts =>
      let subpart := TrimSpace subpart in
      if stamp_line subpart then entry_lines subparts (stampStrs ++ [subpart]) description
      else if skipped_line subpart then entry_lines subparts stampStrs description
      else entry_lines subparts stampStrs
             ((if (0 <? length description)%nat then description ++ [10] else description) ++ subpart)
  end.

(** The first stamp that can be decoded, and the number of errors before it. *)
Fixpoint first_stamp (stampStrs : list bytes) (errs : nat) : Out (option ServerStamp * nat) :=
  match stampStrs with
  | [] => Ok (None, errs)
  | stampStr :: stampStrs =>
      match NewServerStampFromString stampStr with
      | Ok stamp => Ok (Some stamp, errs)
      | Err _ => first_stamp stampStrs (S errs)
      | Panic => Panic
      | Fatal => Fatal
      end
  end.

Definition format_error : error := EMsg "Invalid format for source".
Definition stamp_error : error := EMsg "Invalid or unsupported stamp".

(** The loop over the entries; [rnd] has the random numbers of each shuffle. *)
Fixpoint parse_entries (rnd : nat → nat → Z) (i : nat) (source : Src) (parts : list bytes)
    (registeredServers : list RegisteredServer) (errs : nat) : Out (list RegisteredServer * option error) :=
  match parts with
  | [] => Ok (registeredServers, if (0 <? errs)%nat then Some stamp_error else None)
  | part :: parts =>
      match Split (TrimSpace part) [10] with
      | name :: ((_ :: _) as subparts) =>
          let name := TrimSpace name in
          if (length name =? 0)%nat then Ok (registeredServers, Some format_error)
          else
            let name := source.(src_prefix) ++ name in
            let '(stampStrs, description) := entry_lines subparts [] [] in
            if (length stampStrs =? 0)%nat then parse_entries rnd (S i) source parts registeredServers (S errs)
            else
              let stampStrs := shuffle (rnd i) (length stampStrs - 1) stampStrs in
              let! (stamp, errs) := first_stamp stampStrs errs in
              match stamp with
              | None => parse_entries rnd (S i) source parts registeredServers errs
              | Some stamp =>
                  parse_entries rnd (S i) source parts
                    (registeredServers ++ [{| rs_name := name; rs_stamp := stamp; rs_description := description |}]) errs
              end
      | _ => Ok (registeredServers, Some format_error)
      end
  end.

Definition parseV2 (rnd : nat → nat → Z) (source : Src) : Out (list RegisteredServer * option error) :=
  match Split source.(src_in) (str "## ") with
  | _ :: ((_ :: _) as parts) => parse_entries rnd 0 source parts [] 0
  | _ => Ok ([], Some format_error)
  end.

Definition Parse (rnd : nat → nat → Z) (source : Src) : Out (list RegisteredServer * option error) :=
  match source.(src_format) with SourceFormatV2 => parseV2 rnd source end.

End Sources.

(** * Registration of the servers of the sources *)

(** The settings [updateRegisteredServers] reads. *)
Record RegisterConfig := {
  ServerNames : list bytes;
  DisabledServerNames : list bytes;
  requiredProps : Z;
  SourceIPv4 : bool;
  SourceIPv6 : bool;
  SourceDNSCrypt : bool;
  SourceDoH : bool;
  SourceODoH : bool
}.

(** The lists of the proxy and the registry. *)
Record Registry (E : Type) := {
  rg_servers : list RegisteredServer;
  rg_relays : list RegisteredServer;
  rg_info : ServersInfo E
}.
Arguments rg_servers {_} _. Arguments rg_relays {_} _. Arguments rg_info {_} _.

#[export] Instance eta_Registry {E} : Eta (Registry E) := λ r,
  {| rg_servers := r.(rg_servers); rg_relays := r.(rg_relays); rg_info := r.(rg_info) |}.

Definition is_relay (p : StampProtoType) : bool :=
  bool_decide (p = StampProtoTypeDNSCryptRelay ∨ p = StampProtoTypeODoHRelay).

Section Registration.
Context {PublicKey Signature : Type} `{Minisign PublicKey Signature} `{StampLib} `{UnicodeTables} {E : Type}.
(** [stamp.String()]. *)
Context (stamp_String : ServerStamp → bytes) (cfg : RegisterConfig).

Definition includesName (names : list bytes) (name : bytes) : bool := existsb (λ found, EqualFold found name) names.

(** The filters common to servers and relays, in the order of the code. *)
Definition wanted (r : RegisteredServer) : bool :=
  let stamp := r.(rs_stamp) in
  let selected :=
    is_relay stamp.(stamp_Proto) ||
    (if (0 <? length cfg.(ServerNames))%nat then includesName cfg.(ServerNames) r.(rs_name)
     else Z.land stamp.(Props) cfg.(requiredProps) =? cfg.(requiredProps)) in
  let family :=
    if cfg.(SourceIPv4) || cfg.(SourceIPv6) then
      let '(isIPv4, isIPv6) :=
        if HasPrefix stamp.(ServerAddrStr) (str "[") then (false, true)
        else if decide (stamp.(stamp_Proto) = StampProtoTypeDoH) then (true, true)
        else (true, false) in
      Bool.eqb cfg.(SourceIPv4) isIPv4 || Bool.eqb cfg.(SourceIPv6) isIPv6
    else true in
  selected && negb (includesName cfg.(DisabledServerNames) r.(rs_name)) && family.

(** The protocols that are used. *)
Definition enabled (p : StampProtoType) : bool :=
  match p with
  | StampProtoTypeDNSCrypt => cfg.(SourceDNSCrypt)
  | StampProtoTypeDoH => cfg.(SourceDoH)
  | StampProtoTypeODoHTarget => cfg.(SourceODoH)
  | _ => false
  end.

(** Updates the stamp of the entries of that name if its text changed, or appends
    the entry. *)
Definition update_stamp (r current : RegisteredServer) : RegisteredServer :=
  if decide (current.(rs_name) = r.(rs_name) ∧ stamp_String current.(rs_stamp) ≠ stamp_String r.(rs_stamp))
  then {| rs_name := current.(rs_name); rs_stamp := r.(rs_stamp); rs_description := current.(rs_description) |}
  else current.

Definition add_registered (r : RegisteredServer) (l : list RegisteredServer) : list RegisteredServer :=
  if decide (r.(rs_name) ∈ rs_name <$> l) then update_stamp r <$> l else l ++ [r].

Definition add_one (g : Registry E) (r : RegisteredServer) : Registry E :=
  if negb (wanted r) then g
  else if is_relay r.(rs_stamp).(stamp_Proto) then g <| rg_relays := add_registered r g.(rg_relays) |>
  else if enabled r.(rs_stamp).(stamp_Proto) then g <| rg_servers := add_registered r g.(rg_servers) |>
  else g.

(** The loop over the sources; [inr] is an early return. *)
Fixpoint add_sources (rnd : nat → nat → nat → Z) (i : nat) (sources : list (Source PublicKey)) (g : Registry E)
    : Out (Registry E * option error) :=
  match sources with
  | [] => Ok (g, None)
  | source :: sources =>
      let! (registeredServers, err) := Parse (rnd i) source in
      match err, registeredServers with
      | Some e, [] => Ok (g, Some e)
      | _, _ => add_sources rnd (S i) sources (foldl add_one g registeredServers)
      end
  end.

Definition register_all (g : Registry E) : Registry E :=
  let info := foldl (λ s r, registerServer s r.(rs_name) r.(rs_stamp)) g.(rg_info) g.(rg_servers) in
  let info := foldl (λ s r, registerRelay s r.(rs_name) r.(rs_stamp)) info g.(rg_relays) in
  g <| rg_info := info |>.

Definition updateRegisteredServers (rnd : nat → nat → nat → Z) (sources : list (Source PublicKey)) (g : Registry E)
    : Out (Registry E * option error) :=
  let! (g, err) := add_sources rnd 0 sources g in
  match err with
  | Some e => Ok (g, Some e)
  | None => Ok (register_all g, None)
  end.

End Registration.

(** * Lemmas *)

Section SourceLemmas.
Context {PublicKey Signature : Type} `{Minisign PublicKey Signature} `{NetLib} `{WebLib} `{StampLib}.
Implicit Types (s : Source PublicKey) (files : Files) (io : IO) (env : SourceEnv) (x : XTransport).

(** The contents carry a signature that verifies under a key. *)
Definition verified (key : PublicKey) (bin : bytes) : Prop :=
  ∃ sig signature, DecodeSignature sig = Ok signature ∧ Verify key bin signature = None.

(** The contents of the source are empty or verified under its own key. *)
Definition signed s : Prop := s.(src_in) = [] ∨ ∃ key, s.(minisignKey) = Some key ∧ verified key s.(src_in).

(** What loading never changes. *)
Definition same_settings s s' : Prop :=
  s'.(src_name) = s.(src_name) ∧ s'.(src_urls) = s.(src_urls) ∧ s'.(minisignKey) = s.(minisignKey) ∧
  s'.(cacheFile) = s.(cacheFile) ∧ s'.(cacheTTL) = s.(cacheTTL) ∧ s'.(prefetchDelay) = s.(prefetchDelay) ∧
  s'.(src_prefix) = s.(src_prefix).

Lemma checkSignature_verified s bin sig :
  checkSignature s bin sig = Ok None → ∃ key, s.(minisignKey) = Some key ∧ verified key bin.
Proof.
  unfold checkSignature. destruct (DecodeSignature sig) as [signature| | |] eqn:Hd; try done.
  destruct (minisignKey s) as [key|]; [|done]. intros [= Hv]. exists key. split; [done|]. by exists sig, signature.
Qed.

(** The outcomes of reading the cache. *)
Lemma fetchFromCache_inv io files now s s' delay err :
  fetchFromCache io files now s = Ok (s', delay, err) →
  (s' = s ∧ delay = 0 ∧ is_Some err) ∨
  (∃ bin sig, checkSignature s bin sig = Ok None ∧ s' = s <| src_in := bin |> ∧ (is_Some err → delay = 0)).
Proof.
  unfold fetchFromCache. destruct (ReadFile _ _ _) as [bin|e]; [|intros [= <- <- <-]; left; by eauto].
  destruct (ReadFile _ _ _) as [sig|e]; [|intros [= <- <- <-]; left; by eauto].
  intros (err0 & Hc & HE)%obind_Ok. destruct err0 as [e|]; [injection HE as <- <- <-; left; by eauto|].
  right. exists bin, sig. split; [done|].
  destruct (io_stat io) as [e|]; [injection HE as <- <- <-; by split|].
  destruct (files !! _) as [[? mtime]|]; injection HE as <- <- <-; split; try done; by intros [? ?].
Qed.

Lemma fetchFromCache_signed io files now s s' delay err :
  fetchFromCache io files now s = Ok (s', delay, err) → signed s → signed s' ∧ same_settings s s'.
Proof.
  intros [(-> & _ & _)|(bin & sig & Hc & -> & _)]%fetchFromCache_inv Hs; [done|].
  split; [|done]. right. by apply checkSignature_verified in Hc.
Qed.

Lemma download_verified env dt s urls i e x x' bin sig :
  download env dt s urls i e x = Ok (x', inl (bin, sig)) → checkSignature s bin sig = Ok None.
Proof.
  revert i e x. induction urls as [|u urls IH]; intros i e x; cbn [download]; [done|].
  intros ([x1 [b|e1]] & _ & HE)%obind_Ok; [|by apply IH in HE].
  apply obind_Ok in HE as ([x2 [sg|e2]] & _ & HE); [|by apply IH in HE].
  apply obind_Ok in HE as ([e3|] & Hc & HE); [by apply IH in HE|]. by injection HE as _ <- <-.
Qed.

Lemma writeToCache_source io bin sig now s files : (writeToCache io bin sig now s files).1 = s <| src_in := bin |>.
Proof. unfold writeToCache. by destruct (if decide _ then _ else _). Qed.

(** The outcomes of loading a source that has URLs. *)
Lemma fetchWithCache_inv env dt now s files x ld :
  fetchWithCache env dt now s files x = Ok ld →
  ∃ s1 delay err, fetchFromCache env.(se_io) files now s = Ok (s1, delay, err) ∧
    ((s.(src_urls) = [] ∧ ld = {| ld_source := s1; ld_files := files; ld_transport := x; ld_delay := delay; ld_err := err |}) ∨
     (s.(src_urls) ≠ [] ∧ ld.(ld_source).(src_refresh) = Some (now + ld.(ld_delay)) ∧
      ((0 < delay ∧ ld = {| ld_source := s1 <| src_refresh := Some (now + delay) |>; ld_files := files;
                            ld_transport := x; ld_delay := delay; ld_err := err |}) ∨
       (delay ≤ 0 ∧ ld.(ld_delay) = MinimumPrefetchInterval ∧ is_Some ld.(ld_err) ∧ ld.(ld_files) = files ∧
        ld.(ld_source) = s1 <| src_refresh := Some (now + MinimumPrefetchInterval) |>) ∨
       (delay ≤ 0 ∧ ∃ bin sig, checkSignature s1 bin sig = Ok None ∧ ld.(ld_delay) = s.(prefetchDelay) ∧
        ld.(ld_err) = None ∧ ld.(ld_files) = (writeToCache env.(se_io) bin sig now s1 files).2 ∧
        ld.(ld_source) = s1 <| src_in := bin |> <| src_refresh := Some (now + s.(prefetchDelay)) |>)))).
Proof.
  unfold fetchWithCache. intros ([[s1 delay] err] & Hf & HE)%obind_Ok. exists s1, delay, err. split; [done|].
  assert (src_urls s1 = src_urls s ∧ prefetchDelay s1 = prefetchDelay s) as [Hu Hp].
  { apply fetchFromCache_inv in Hf as [(-> & _)|(bin & sig & _ & -> & _)]; done. }
  rewrite Hu in HE. destruct (src_urls s) as [|u urls]; [injection HE as <-; by left|]. right. split; [done|].
  destruct (Z.ltb_spec 0 delay) as [Hd|Hd]; [injection HE as <-; split; [done|]; by left|].
  apply obind_Ok in HE as ([x' [[bin sig]|e]] & Hdl & HE).
  - apply download_verified in Hdl. destruct (writeToCache _ _ _ _ _ _) as [s2 files2] eqn:Hw. injection HE as <-.
    pose proof (writeToCache_source (se_io env) bin sig now s1 files) as Hs2. rewrite Hw in Hs2. cbn in Hs2. subst s2.
    cbn. split; [done|]. right; right. split; [done|]. exists bin, sig. rewrite Hw, <-Hp. by split_and!.
  - injection HE as <-. cbn. split; [done|]. right; left. by split_and!; eauto.
Qed.

Lemma fetchWithCache_signed env dt now s files x ld :
  fetchWithCache env dt now s files x = Ok ld → signed s → signed ld.(ld_source) ∧ same_settings s ld.(ld_source).
Proof.
  intros (s1 & delay & err & Hf & HE)%fetchWithCache_inv Hs. pose proof (fetchFromCache_signed _ _ _ _ _ _ _ Hf Hs) as [Hs1 Hset].
  destruct HE as [[_ ->]|(_ & _ & [[_ ->]|[(_ & _ & _ & _ & ->)|(_ & bin & sig & Hc & _ & _ & _ & ->)]])]; try done.
  split; [|done]. right. by apply checkSignature_verified in Hc.
Qed.

End SourceLemmas.

(** * Theorems on loading *)

Section SourceTheorems.
Context {PublicKey Signature : Type} `{Minisign PublicKey Signature} `{NetLib} `{WebLib} `{StampLib}.
Implicit Types (s r : Source PublicKey) (files : Files) (io : IO) (env : SourceEnv) (x : XTransport).

(** The states a source goes through: it is created, then loaded again any
    number of times, with any faults of the file system and any answers of the network. *)
Inductive source_reach (keyStr : bytes) : Source PublicKey → Prop :=
  | reach_new env dt now name urls cacheFile format delay prefix files x ld :
      NewSource env dt now name urls keyStr cacheFile format delay prefix files x = Ok ld →
      source_reach keyStr ld.(ld_source)
  | reach_fetch env dt now s files x ld :
      source_reach keyStr s → fetchWithCache env dt now s files x = Ok ld → source_reach keyStr ld.(ld_source).

Lemma source_reach_key keyStr s :
  source_reach keyStr s → signed s ∧ ∀ key, s.(minisignKey) = Some key → NewPublicKey keyStr = Ok key.
Proof.
  induction 1 as [env dt now name urls cf fmt delay prefix files x ld HN|env dt now s files x ld _ [IHs IHk] HF].
  - unfold NewSource in HN. destruct (decide _) as [_|_]; [|injection HN as <-; split; [by left|done]].
    destruct (NewPublicKey keyStr) as [key|e| |] eqn:Hk; try done; [|injection HN as <-; split; [by left|done]].
    apply fetchWithCache_signed in HN as (Hs & _ & _ & Hkey & _); [|by left]. split; [done|].
    intros key'. rewrite Hkey. by intros [= ->].
  - apply fetchWithCache_signed in HF as (Hs & _ & _ & Hkey & _); [|done]. split; [done|]. intros key. rewrite Hkey. apply IHk.
Qed.

(** C17: nothing unsigned is ever used. Whatever the cache file, its signature file
    and the servers hold, and whatever fails, the contents of a source are empty
    or have a signature that verifies under the key configured for it. *)
Theorem source_contents_signed keyStr s :
  source_reach keyStr s → s.(src_in) ≠ [] → ∃ key, NewPublicKey keyStr = Ok key ∧ verified key s.(src_in).
Proof.
  intros [[?|(key & Hkey & Hv)] Hk]%source_reach_key Hne; [done|]. exists key. split; [by apply Hk|done].
Qed.

(** No system call fails. *)
Definition faultless io : Prop :=
  io.(io_read_bin) = None ∧ io.(io_read_sig) = None ∧ io.(io_stat) = None ∧ io.(io_create_bin) = None ∧
  io.(io_create_sig) = None ∧ io.(io_write_bin) = None ∧ io.(io_write_sig) = None ∧ io.(io_commit_bin) = None ∧
  io.(io_commit_sig) = None ∧ io.(io_chtimes) = None.

Lemma minisig_ne f : minisig f ≠ f.
Proof. unfold minisig. intros He. apply (f_equal length) in He. rewrite length_app in He. cbn in He. lia. Qed.

(** The files after a complete write. *)
Lemma writeToCache_files io bin sig now s files :
  faultless io → s.(src_in) ≠ bin →
  (writeToCache io bin sig now s files).2 !! s.(cacheFile) = Some (bin, now) ∧
  ∃ t, (writeToCache io bin sig now s files).2 !! minisig s.(cacheFile) = Some (sig, t).
Proof.
  intros (_ & _ & _ & H1' & H2' & H3' & H4' & H5' & H6' & H7') Hne. pose proof (minisig_ne (cacheFile s)) as Hm.
  unfold writeToCache, writeSource, Chtimes. rewrite decide_False by done. rewrite H1', H2', H3', H4', H5', H6', H7'.
  cbn [snd]. rewrite (lookup_insert_ne _ _ (cacheFile s)) by done. rewrite lookup_insert_eq.
  split; [apply lookup_insert_eq|]. exists (io_mtime io). rewrite lookup_insert_ne by done. apply lookup_insert_eq.
Qed.

(** A list written to the cache is read back. Once a verified list that
    differs from the current one has been written without a fault, a source with
    the same key and cache file loads exactly that list during the next day, without
    downloading anything, and plans its next update for a day after the write. *)
Theorem source_cache_roundtrip io bin sig now s files env dt now' r x :
  faultless io → s.(src_in) ≠ bin → checkSignature s bin sig = Ok None →
  faultless env.(se_io) → r.(cacheFile) = s.(cacheFile) → r.(minisignKey) = s.(minisignKey) → r.(src_urls) ≠ [] →
  r.(prefetchDelay) = DefaultPrefetchDelay → DefaultPrefetchDelay ≤ r.(cacheTTL) → now ≤ now' < now + DefaultPrefetchDelay →
  let files' := (writeToCache io bin sig now s files).2 in
  ∃ ld, fetchWithCache env dt now' r files' x = Ok ld ∧ ld.(ld_err) = None ∧ ld.(ld_source).(src_in) = bin ∧
    ld.(ld_source).(src_refresh) = Some (now + DefaultPrefetchDelay) ∧ ld.(ld_transport) = x ∧ ld.(ld_files) = files'.
Proof.
  intros Hio Hne Hc (F1 & F2 & F3 & _) Hf Hk Hu Hp Ht Hnow files'.
  destruct (writeToCache_files io bin sig now s files Hio Hne) as [Hb [t Hsig]]. fold files' in Hb, Hsig.
  assert (fetchFromCache (se_io env) files' now' r = Ok (r <| src_in := bin |>, DefaultPrefetchDelay - (now' - now), None)) as HF.
  { unfold fetchFromCache, ReadFile. rewrite F1, F2, F3, Hf, Hb, Hsig.
    assert (checkSignature r bin sig = Ok None) as -> by (unfold checkSignature in *; by rewrite Hk).
    cbn [obind]. change (cacheFile (r <| src_in := bin |>)) with (cacheFile r). rewrite Hf, Hb.
    change (cacheTTL (r <| src_in := bin |>)) with (cacheTTL r).
    change (prefetchDelay (r <| src_in := bin |>)) with (prefetchDelay r). rewrite Hp.
    destruct (Z.ltb_spec (now' - now) (cacheTTL r)); [done|lia]. }
  unfold fetchWithCache. rewrite HF. cbn [obind]. change (src_urls (r <| src_in := bin |>)) with (src_urls r).
  destruct (src_urls r); [done|]. destruct (Z.ltb_spec 0 (DefaultPrefetchDelay - (now' - now))); [|lia].
  eexists. split; [reflexivity|]. cbn. split_and!; try done. f_equal. lia.
Qed.

(** Updates are always planned. Loading a source that has URLs sets the time
    of its next update: in ten minutes after a failure to download, and after a
    success strictly in the future. *)
Theorem source_schedule env dt now s files x ld :
  s.(src_urls) ≠ [] → 0 < s.(prefetchDelay) → fetchWithCache env dt now s files x = Ok ld →
  ld.(ld_source).(src_refresh) = Some (now + ld.(ld_delay)) ∧ 0 < ld.(ld_delay) ∧
  (is_Some ld.(ld_err) → ld.(ld_delay) = MinimumPrefetchInterval) ∧ not_due now ld.(ld_source) = true.
Proof.
  intros Hu Hp HF. assert (∃ d, ld.(ld_delay) = d ∧ 0 < d ∧ (is_Some ld.(ld_err) → d = MinimumPrefetchInterval) ∧
    ld.(ld_source).(src_refresh) = Some (now + d)) as (d & Hd & Hpos & He & Hr).
  { apply fetchWithCache_inv in HF as (s1 & delay & err & Hf & [[? _]|(_ & Hr & HE)]); [done|].
    exists ld.(ld_delay). destruct HE as [[Hd ->]|[(_ & Hd & _)|(_ & bin & sig & _ & Hd & He & _)]].
    - split_and!; try done. intros Hse. apply fetchFromCache_inv in Hf as [(_ & -> & _)|(_ & _ & _ & _ & Hz)]; [lia|].
      rewrite (Hz Hse) in Hd. lia.
    - split_and!; try done. rewrite Hd. by vm_compute.
    - rewrite He. split_and!; [done|lia|by intros [? ?]|done]. }
  rewrite Hd. split_and!; try done. unfold not_due. rewrite Hr. apply Z.ltb_lt. lia.
Qed.

(** ** Prefetching *)

Definition prefetched (now : Z) s s' : Prop :=
  same_settings s s' ∧ (signed s → signed s') ∧ (not_due now s = true → s' = s).

Lemma prefetch_loop_spec (env : nat → SourceEnv) dt now i sources interval files x l interval' files' x' :
  prefetch_loop env dt now i sources interval files x = Ok (l, interval', files', x') →
  MinimumPrefetchInterval ≤ interval →
  MinimumPrefetchInterval ≤ interval' ∧ Forall2 (prefetched now) sources l.
Proof.
  revert i interval files x l. induction sources as [|s sources IH]; intros i interval files x l; cbn [prefetch_loop].
  { intros [= <- <- _ _]. auto. }
  destruct (not_due now s) eqn:Hd.
  - intros ([[[l1 i1] f1] x1] & HE & HL)%obind_Ok Hi. injection HL as <- <- <- <-.
    apply IH in HE as [Hi1 HF]; [|done]. split; [done|]. by constructor.
  - intros (ld & Hld & HE)%obind_Ok Hi. apply obind_Ok in HE as ([[[l1 i1] f1] x1] & HE & HL). injection HL as <- <- <- <-.
    apply IH in HE as [Hi1 HF].
    + split; [done|]. constructor; [|done]. split_and!; [..|by rewrite Hd].
      * pose proof (fetchWithCache_inv _ _ _ _ _ _ _ Hld) as (s1 & dl & err & Hf & HE).
        assert (same_settings s s1) as Hset
          by (apply fetchFromCache_inv in Hf as [(-> & _)|(? & ? & _ & -> & _)]; done).
        by destruct HE as [[_ ->]|(_ & _ & [[_ ->]|[(_ & _ & _ & _ & ->)|(_ & ? & ? & _ & _ & _ & _ & ->)]])].
      * intros Hs. by apply fetchWithCache_signed in Hld as [? _].
    + destruct (ld_err ld); [done|]. destruct (Z.leb_spec MinimumPrefetchInterval (ld_delay ld)); cbn [andb]; [|done].
      by destruct (_ || _).
Qed.

(** Prefetching leaves the sources that are not due as they are, keeps the
    settings and the order of the others, keeps their contents signed, and asks to be
    called again in ten minutes or more. *)
Theorem PrefetchSources_spec (env : nat → SourceEnv) dt now sources files x l interval files' x' :
  PrefetchSources env dt now sources files x = Ok (l, interval, files', x') →
  MinimumPrefetchInterval ≤ interval ∧ Forall2 (prefetched now) sources l.
Proof. intros HP. apply (prefetch_loop_spec _ _ _ _ _ _ _ _ _ _ _ _ HP). done. Qed.

(** ** Findings *)

Definition with_ttl (t : Z) s : Source PublicKey := s <| cacheTTL := t |>.
Definition forget_ttl (ld : Loaded) : Loaded := {|
  ld_source := with_ttl 0 ld.(ld_source); ld_files := ld.(ld_files); ld_transport := ld.(ld_transport);
  ld_delay := ld.(ld_delay); ld_err := ld.(ld_err) |}.

Lemma download_key env dt s s' urls i e x :
  s.(minisignKey) = s'.(minisignKey) → download env dt s urls i e x = download env dt s' urls i e x.
Proof.
  intros Hk. assert (∀ bin sig, checkSignature s bin sig = checkSignature s' bin sig) as Hc.
  { intros bin sig. unfold checkSignature. by rewrite Hk. }
  revert i e x. induction urls as [|u urls IH]; intros i e x; cbn [download]; [done|].
  destruct (fetchFromURL _ i _ _ _) as [[x1 [b|e1]]| | |]; cbn [obind]; try done.
  destruct (fetchFromURL _ (S i) _ _ _) as [[x2 [b2|e2]]| | |]; cbn [obind]; try done.
  rewrite Hc. destruct (checkSignature s' b b2) as [[e3|]| | |]; cbn [obind]; done.
Qed.

(** Reading the cache under two lifetimes of at least the prefetch delay. *)
Lemma fetchFromCache_ttl io files now s t1 t2 :
  s.(prefetchDelay) ≤ t1 → s.(prefetchDelay) ≤ t2 →
  match fetchFromCache io files now (with_ttl t1 s), fetchFromCache io files now (with_ttl t2 s) with
  | Ok (a1, d1, e1), Ok (a2, d2, e2) =>
      with_ttl 0 a1 = with_ttl 0 a2 ∧ e1 = e2 ∧ (d1 = d2 ∨ (d1 ≤ 0 ∧ d2 ≤ 0))
  | Err e1, Err e2 => e1 = e2
  | Panic, Panic | Fatal, Fatal => True
  | _, _ => False
  end.
Proof.
  intros H1' H2'. unfold fetchFromCache. change (cacheFile (with_ttl t1 s)) with (cacheFile s).
  change (cacheFile (with_ttl t2 s)) with (cacheFile s). destruct (ReadFile _ _ _) as [bin|e]; [|hnf; (split; [done|split; [done|by left]])].
  destruct (ReadFile _ _ _) as [sig|e]; [|hnf; (split; [done|split; [done|by left]])].
  change (checkSignature (with_ttl t2 s) bin sig) with (checkSignature (with_ttl t1 s) bin sig).
  destruct (checkSignature (with_ttl t1 s) bin sig) as [[e|]| | |]; cbn [obind]; try done; [hnf; (split; [done|split; [done|by left]])|].
  change (cacheFile ((with_ttl t1 s) <| src_in := bin |>)) with (cacheFile s).
  change (cacheFile ((with_ttl t2 s) <| src_in := bin |>)) with (cacheFile s).
  destruct (io_stat io) as [e|]; [hnf; (split; [done|split; [done|by left]])|]. destruct (files !! cacheFile s) as [[? mtime]|]; [|hnf; (split; [done|split; [done|by left]])].
  split_and!; [done..|].
  change (cacheTTL ((with_ttl t1 s) <| src_in := bin |>)) with t1. change (cacheTTL ((with_ttl t2 s) <| src_in := bin |>)) with t2.
  change (prefetchDelay ((with_ttl t1 s) <| src_in := bin |>)) with (prefetchDelay s).
  change (prefetchDelay ((with_ttl t2 s) <| src_in := bin |>)) with (prefetchDelay s).
  destruct (Z.ltb_spec (now - mtime) t1), (Z.ltb_spec (now - mtime) t2); lia.
Qed.

Lemma with_ttl_inv s1 s2 : with_ttl 0 s1 = with_ttl 0 s2 → s2 = with_ttl s2.(cacheTTL) s1.
Proof. destruct s1, s2. unfold with_ttl. cbn. intros [=]. repeat match goal with f : SourceFormat |- _ => destruct f end. by subst. Qed.

(** The refresh delay of a source that has URLs has no effect. Documented as
    the lifetime of the cache file, it only decides whether the time left before
    the prefetch delay of one day is computed; every value from a day on gives the
    same result, down to the downloads made. *)
Theorem refresh_delay_no_effect env dt now s files x t1 t2 :
  s.(src_urls) ≠ [] → s.(prefetchDelay) ≤ t1 → s.(prefetchDelay) ≤ t2 →
  (let! ld := fetchWithCache env dt now (with_ttl t1 s) files x in Ok (forget_ttl ld)) =
  (let! ld := fetchWithCache env dt now (with_ttl t2 s) files x in Ok (forget_ttl ld)).
Proof.
  intros Hu H1' H2'. pose proof (fetchFromCache_ttl (se_io env) files now s t1 t2 H1' H2') as HF. unfold fetchWithCache.
  destruct (fetchFromCache _ _ _ (with_ttl t1 s)) as [[[a1 d1] e1]| | |] eqn:F1,
    (fetchFromCache _ _ _ (with_ttl t2 s)) as [[[a2 d2] e2]| | |] eqn:F2; cbn [obind]; try done; [|by rewrite HF].
  destruct HF as (Ha & <- & Hd). apply with_ttl_inv in Ha. rewrite Ha.
  assert (src_urls a1 = src_urls s) as Hua by (by apply fetchFromCache_inv in F1 as [(-> & _)|(? & ? & _ & -> & _)]).
  set (t := cacheTTL a2). clearbody t. clear Ha F1 F2 a2.
  change (src_urls (with_ttl t a1)) with (src_urls a1). rewrite Hua. destruct (src_urls s) as [|u urls]; [done|].
  destruct (Z.ltb_spec 0 d1), (Z.ltb_spec 0 d2); [|lia..|].
  - destruct Hd as [->|?]; [done|lia].
  - rewrite (download_key env dt a1 (with_ttl t a1)) by done.
    destruct (download _ _ _ _ _ _ _) as [[x' [[bin sig]|e]]| | |]; cbn [obind]; try done.
    unfold writeToCache. change (src_in (with_ttl t a1)) with (src_in a1).
    change (cacheFile (with_ttl t a1)) with (cacheFile a1).
    by destruct (if decide _ then _ else _) as [files1 [e|]].
Qed.

(** A lost cache file is not written again. If the cache file is missing and
    the list downloaded is the one in memory, the load succeeds and leaves the
    file missing. *)
Theorem lost_cache_not_rewritten env dt now s files x ld :
  s.(src_urls) ≠ [] → files !! s.(cacheFile) = None → fetchWithCache env dt now s files x = Ok ld →
  ld.(ld_err) = None → ld.(ld_source).(src_in) = s.(src_in) → ld.(ld_files) = files.
Proof.
  intros Hu Hno (s1 & delay & err & Hf & HE)%fetchWithCache_inv He Hin.
  assert (s1 = s ∧ delay = 0) as [-> ->].
  { unfold fetchFromCache, ReadFile in Hf. rewrite Hno in Hf. destruct (io_read_bin _); by injection Hf as <- <- _. }
  destruct HE as [[? _]|(_ & _ & [[? _]|[(_ & _ & _ & -> & _)|(_ & bin & sig & _ & _ & _ & -> & Hs)]])]; try done.
  rewrite Hs in Hin. change (bin = src_in s) in Hin. unfold writeToCache, Chtimes. rewrite decide_True by done.
  cbn [snd]. rewrite Hno. by destruct (io_chtimes _).
Qed.

End SourceTheorems.

(** * Theorems on registration *)

Definition same_entry (r y : RegisteredServer) : Prop := r.(rs_name) = y.(rs_name) ∧ r.(rs_stamp) = y.(rs_stamp).

Abbreviation names l := (rs_name <$> (l : list RegisteredServer)).

(** How a list of registered servers grows: no name is lost or doubled, and every
    entry was there or is one of those offered. *)
Record grown (P : RegisteredServer → Prop) (l l' : list RegisteredServer) : Prop := {
  gr_nodup : NoDup (names l) → NoDup (names l');
  gr_kept n : n ∈ names l → n ∈ names l';
  gr_from y : y ∈ l' → (∃ z, z ∈ l ∧ same_entry z y) ∨ (∃ r, P r ∧ same_entry r y)
}.

Lemma grown_refl P l : grown P l l.
Proof. split; [done..|]. intros y Hy. left. by exists y. Qed.

Lemma grown_trans P l1 l2 l3 : grown P l1 l2 → grown P l2 l3 → grown P l1 l3.
Proof.
  intros [N1 K1 F1] [N2 K2 F2]. split; [by auto..|]. intros y [(z & Hz & Hs)|?]%F2; [|by right].
  apply F1 in Hz as [(z1 & Hz1 & Hs1)|(r & Hr & Hs1)]; [left; exists z1|right; exists r];
    (split; [done|]); unfold same_entry in *; naive_solver congruence.
Qed.

Lemma grown_mono (P Q : RegisteredServer → Prop) l l' : (∀ r, P r → Q r) → grown P l l' → grown Q l l'.
Proof. intros HPQ [N K F]. split; [done..|]. intros y [?|(r & Hr & Hs)]%F; [by left|]. right. exists r. auto. Qed.

Section RegistrationTheorems.
Context {PublicKey Signature : Type} `{Minisign PublicKey Signature} `{StampLib} `{UnicodeTables} {E : Type}.
Context (stamp_String : ServerStamp → bytes) (cfg : RegisterConfig).
Implicit Types (g : Registry E) (r y : RegisteredServer).

Lemma update_stamp_name r l : names (update_stamp stamp_String r <$> l) = names l.
Proof.
  rewrite <-list_fmap_compose. apply list_fmap_ext. intros i y _. unfold compose, update_stamp. by destruct (decide _).
Qed.

Lemma add_registered_grown (P : RegisteredServer → Prop) r l : P r → grown P l (add_registered stamp_String r l).
Proof.
  intros HP. unfold add_registered. destruct (decide _) as [Hi|Hi].
  - split; [by rewrite update_stamp_name..|]. intros y (z & -> & Hz)%list_elem_of_fmap.
    unfold update_stamp. destruct (decide _) as [[Hn _]|_]; [right; by exists r|left; by exists z].
  - split.
    + intros Hn. rewrite fmap_app. apply list.NoDup_app. split_and!; [done| |apply NoDup_singleton].
      intros n Hn1 ->%list_elem_of_singleton. done.
    + intros n Hn. rewrite fmap_app. set_solver.
    + intros y [Hy| ->%list_elem_of_singleton]%elem_of_app; [left; by exists y|right; by exists r].
Qed.

Lemma add_registered_has r l : r.(rs_name) ∈ names (add_registered stamp_String r l).
Proof.
  unfold add_registered. destruct (decide _); [by rewrite update_stamp_name|]. rewrite fmap_app. set_solver.
Qed.

(** What is offered as a server, and as a relay. *)
Definition server_ok (rs : list RegisteredServer) r : Prop :=
  r ∈ rs ∧ wanted cfg r = true ∧ is_relay r.(rs_stamp).(stamp_Proto) = false ∧ enabled cfg r.(rs_stamp).(stamp_Proto) = true.
Definition relay_ok (rs : list RegisteredServer) r : Prop :=
  r ∈ rs ∧ wanted cfg r = true ∧ is_relay r.(rs_stamp).(stamp_Proto) = true.

(** The effect of one batch: both lists grow by what is offered, and everything
    offered is there. *)
Record batch (rs : list RegisteredServer) g g' : Prop := {
  bt_servers : grown (server_ok rs) g.(rg_servers) g'.(rg_servers);
  bt_relays : grown (relay_ok rs) g.(rg_relays) g'.(rg_relays);
  bt_server r : server_ok rs r → r.(rs_name) ∈ names g'.(rg_servers);
  bt_relay r : relay_ok rs r → r.(rs_name) ∈ names g'.(rg_relays);
  bt_info : g'.(rg_info) = g.(rg_info)
}.

Lemma batch_nil g : batch [] g g.
Proof. split; [apply grown_refl..| | |done]; intros r [?%elem_of_nil _]; done. Qed.

Lemma batch_app rs1 rs2 g g1 g2 : batch rs1 g g1 → batch rs2 g1 g2 → batch (rs1 ++ rs2) g g2.
Proof.
  intros [S1 R1 s1 r1 I1] [S2 R2 s2 r2 I2]. split.
  - eapply grown_trans; (eapply grown_mono; [|eassumption]); unfold server_ok; intros r; rewrite elem_of_app; naive_solver.
  - eapply grown_trans; (eapply grown_mono; [|eassumption]); unfold relay_ok; intros r; rewrite elem_of_app; naive_solver.
  - intros r ([Hr|Hr]%elem_of_app & Ho); [|by apply s2]. by apply (gr_kept _ _ _ S2), s1.
  - intros r ([Hr|Hr]%elem_of_app & Ho); [|by apply r2]. by apply (gr_kept _ _ _ R2), r1.
  - congruence.
Qed.

Lemma batch_one g r : batch [r] g (add_one stamp_String cfg g r).
Proof.
  unfold add_one. destruct (wanted cfg r) eqn:Hw; cbn [negb];
    [destruct (is_relay (stamp_Proto (rs_stamp r))) eqn:Hr;
       [|destruct (enabled cfg (stamp_Proto (rs_stamp r))) eqn:He]|].
  - split; [apply grown_refl|apply add_registered_grown; unfold relay_ok; set_solver| | |done].
    + intros r' (->%list_elem_of_singleton & _ & Hr' & _). congruence.
    + intros r' (->%list_elem_of_singleton & _). apply add_registered_has.
  - split; [apply add_registered_grown; unfold server_ok; set_solver|apply grown_refl| | |done].
    + intros r' (->%list_elem_of_singleton & _). apply add_registered_has.
    + intros r' (->%list_elem_of_singleton & _ & Hr'). congruence.
  - split; [apply grown_refl..| | |done]; intros r' (->%list_elem_of_singleton & Hrest); naive_solver congruence.
  - split; [apply grown_refl..| | |done]; intros r' (->%list_elem_of_singleton & Hrest); naive_solver congruence.
Qed.

Lemma batch_fold rs g : batch rs g (foldl (add_one stamp_String cfg) g rs).
Proof.
  revert g. induction rs as [|r rs IH]; intros g; [apply batch_nil|]. cbn [foldl].
  change (r :: rs) with ([r] ++ rs). eapply batch_app; [apply batch_one|apply IH].
Qed.

(** The entries of the sources from position [i] on. *)
Inductive parsed (rnd : nat → nat → nat → Z) : nat → list (Source PublicKey) → list RegisteredServer → Prop :=
  | parsed_nil i : parsed rnd i [] []
  | parsed_cons i source sources rs err rest :
      Parse (rnd i) source = Ok (rs, err) → parsed rnd (S i) sources rest →
      parsed rnd i (source :: sources) (rs ++ rest).

Lemma add_sources_batch rnd i sources g g' err :
  add_sources stamp_String cfg rnd i sources g = Ok (g', err) →
  (∃ k rs, parsed rnd i (take k sources) rs ∧ batch rs g g') ∧
  (err = None → ∃ rs, parsed rnd i sources rs ∧ batch rs g g').
Proof.
  revert i g. induction sources as [|source sources IH]; intros i g; cbn [add_sources].
  { intros [= <- <-]. split; [exists 0%nat|intros _]; exists []; (split; [constructor|apply batch_nil]). }
  intros ([rs e] & HP & HE)%obind_Ok.
  assert ((err ≠ None ∧ g' = g) ∨ add_sources stamp_String cfg rnd (S i) sources (foldl (add_one stamp_String cfg) g rs)
            = Ok (g', err)) as [[He ->]|HS].
  { destruct e as [e|], rs; [left|right..]; [|done..]. by injection HE as <- <-. }
  - split; [|done]. exists 0%nat, []. split; [constructor|apply batch_nil].
  - apply IH in HS as [(k & rest & Hk & Hb) Hn]. split.
    + exists (S k), (rs ++ rest). split; [by econstructor|]. eapply batch_app; [apply batch_fold|done].
    + intros He. destruct (Hn He) as (rest' & Hp & Hb'). exists (rs ++ rest').
      split; [by econstructor|]. eapply batch_app; [apply batch_fold|done].
Qed.

(** ** The registry *)

Lemma register_fold (f : ServersInfo E → RegisteredServer → ServersInfo E) (field : ServersInfo E → list RegisteredServer)
    (l : list RegisteredServer) (info : ServersInfo E) :
  (∀ info r, field (f info r) = replace_or_append rs_name r.(rs_name)
     {| rs_name := r.(rs_name); rs_stamp := r.(rs_stamp); rs_description := [] |} (field info)) →
  NoDup (names (field info)) → NoDup (names l) →
  NoDup (names (field (foldl f info l))) ∧
  (∀ r, r ∈ l → ∃ y, y ∈ field (foldl f info l) ∧ same_entry r y) ∧
  (∀ y, y ∈ field (foldl f info l) → y ∈ field info ∨ ∃ r, r ∈ l ∧ same_entry r y).
Proof.
  intros Hf. revert info. induction l as [|x l IH]; intros info Hni Hnl; cbn [foldl].
  { split_and!; [done| |by left]. by intros r ?%elem_of_nil. }
  cbn in Hnl. apply list.NoDup_cons in Hnl as [Hx Hnl].
  destruct (IH (f info x)) as (N & Hin & Hfrom); [by rewrite Hf; apply replace_or_append_NoDup|done|].
  set (x' := {| rs_name := rs_name x; rs_stamp := rs_stamp x; rs_description := [] |}).
  split_and!; [done| |].
  - intros r [->|Hr]%elem_of_cons; [|by apply Hin].
    assert (∀ y0 info0 l0, y0 ∈ field info0 → NoDup (names (field info0)) → rs_name y0 ∉ names l0 → y0 ∈ field (foldl f info0 l0)) as Hkeep.
    { intros y0 info0 l0. revert info0. induction l0 as [|z l0 IH0]; intros info0 Hy0 Hn0 Hnot; [done|]. cbn [foldl].
      apply IH0; [rewrite Hf; apply replace_or_append_elem; [done..|]; right; split; [done|set_solver]| |set_solver].
      rewrite Hf. by apply replace_or_append_NoDup. }
    exists x'. split; [|done]. apply Hkeep; [|by rewrite Hf; apply replace_or_append_NoDup|done].
    rewrite Hf. apply replace_or_append_elem; [done..|by left].
  - intros y [Hy|(r & Hr & Hs)]%Hfrom; [|right; exists r; split; [by right|done]].
    rewrite Hf in Hy. apply replace_or_append_elem in Hy as [->|[Hy _]]; [right; exists x; split; [by left|done]|by left|done..].
Qed.

(** A registry without double names. *)
Definition registry_ok g : Prop :=
  NoDup (names g.(rg_servers)) ∧ NoDup (names g.(rg_relays)) ∧ NoDup (names g.(rg_info).(registeredServers)).


End RegistrationTheorems.

(** * The format of sources, printed and parsed *)

(** An entry of a list: its name, the lines of its description and its stamp. *)
Record Entry := { en_name : bytes; en_lines : list bytes; en_stamp : bytes }.

Definition entry_text (e : Entry) : bytes := Join (e.(en_name) :: e.(en_lines) ++ [e.(en_stamp)]) [10].

(** A list: some introduction, then the entries. *)
Definition render (header : bytes) (entries : list Entry) : bytes :=
  header ++ concat ((λ e, str "## " ++ entry_text e ++ [10]) <$> entries).

(** Text of one line, without white space at its ends and without number signs. *)
Record plain_line (t : bytes) : Prop := {
  pl_ascii : ascii t;
  pl_ne : t ≠ [];
  pl_head c : head t = Some c → IsSpace c = false;
  pl_last c : list.last t = Some c → IsSpace c = false;
  pl_newline : (10 : Z) ∉ t;
  pl_sharp : (35 : Z) ∉ t
}.

Record entry_ok (e : Entry) : Prop := {
  eo_name : plain_line e.(en_name);
  eo_lines : Forall (λ l, plain_line l ∧ stamp_line l = false ∧ skipped_line l = false) e.(en_lines);
  eo_stamp : plain_line e.(en_stamp) ∧ stamp_line e.(en_stamp) = true
}.

Lemma Join_cons x l sep : l ≠ [] → Join (x :: l) sep = x ++ sep ++ Join l sep.
Proof. by destruct l. Qed.

Lemma plain_Join l :
  l ≠ [] → Forall plain_line l →
  ascii (Join l [10]) ∧ Join l [10] ≠ [] ∧ (∀ c, head (Join l [10]) = Some c → IsSpace c = false) ∧
  (∀ c, list.last (Join l [10]) = Some c → IsSpace c = false) ∧ (35 : Z) ∉ Join l [10].
Proof.
  intros Hne Hl. induction Hl as [|x l [A N Hh Hla Hn Hs] Hl IH]; [done|]. destruct l as [|y l]; [by split_and!|].
  destruct IH as (A' & N' & _ & La' & S'); [done|]. rewrite Join_cons by done. split_and!.
  - apply list.Forall_app. split; [done|]. constructor; [lia|done].
  - by destruct x.
  - intros c. destruct x; [done|]. apply Hh.
  - intros c. rewrite app_assoc, list.last_app. destruct (list.last (Join (y :: l) [10])) eqn:E; [by apply La'|].
    by apply list.last_None in E.
  - set_solver by lia.
Qed.

Lemma entry_plain e : entry_ok e → Forall plain_line (e.(en_name) :: e.(en_lines) ++ [e.(en_stamp)]).
Proof.
  intros [Hn Hl [Hs _]]. constructor; [done|]. apply list.Forall_app. split; [|by constructor].
  eapply list.Forall_impl; [exact Hl|]. by intros l [? _].
Qed.

Lemma entries_split entries acc :
  Forall entry_ok entries →
  split_go (str "## ") (concat ((λ e, str "## " ++ entry_text e ++ [10]) <$> entries)) 0 acc =
  reverse acc :: ((λ e, entry_text e ++ [10]) <$> entries).
Proof.
  change (str "## ") with [35; 35; 32]. intros He. revert acc. induction He as [|e entries He _ IH]; intros acc; [done|].
  rewrite !fmap_cons, concat_cons, <-app_assoc, (split_go_sep 35 [35; 32]). f_equal.
  destruct (plain_Join (en_name e :: en_lines e ++ [en_stamp e]) ltac:(done) (entry_plain e He)) as (_ & _ & _ & _ & Hno).
  rewrite split_go_text by (unfold entry_text; set_solver by lia). by rewrite app_nil_r, IH, reverse_involutive.
Qed.

Lemma render_split header entries :
  (35 : Z) ∉ header → Forall entry_ok entries →
  Split (render header entries) (str "## ") = header :: ((λ e, entry_text e ++ [10]) <$> entries).
Proof.
  intros Hh He. unfold Split, render. change (str "## ") with [35; 35; 32] at 1. rewrite split_go_text by done.
  rewrite app_nil_r. change [35; 35; 32] with (str "## "). by rewrite entries_split, reverse_involutive.
Qed.

Section Printed.
Context {PublicKey Signature : Type} `{Minisign PublicKey Signature} `{StampLib}.

Lemma plain_Trim t : plain_line t → TrimSpace t = t.
Proof. intros [A N Hh Hl _ _]. rewrite <-(app_nil_r t) at 1. apply TrimSpace_edges; try done; constructor. Qed.

Lemma entry_lines_plain lines stamps description stamp :
  Forall (λ l, plain_line l ∧ stamp_line l = false ∧ skipped_line l = false) lines →
  plain_line stamp → stamp_line stamp = true →
  entry_lines (lines ++ [stamp]) stamps description =
  (stamps ++ [stamp],
   match lines with
   | [] => description
   | _ => (if (0 <? length description)%nat then description ++ [10] else description) ++ Join lines [10]
   end).
Proof.
  intros Hl Hs Hst. revert description. induction Hl as [|l lines (Hp & Hn & Hk) Hl IH]; intros description; cbn [app entry_lines].
  - by rewrite (plain_Trim stamp), Hst.
  - rewrite (plain_Trim l), Hn, Hk, IH by done. f_equal. destruct lines as [|l' lines]; [done|].
    rewrite (Join_cons l (l' :: lines)) by done. set (d := if (0 <? length description)%nat then _ else _).
    assert ((0 <? length (d ++ l))%nat = true) as ->.
    { apply Nat.ltb_lt. rewrite length_app. destruct Hp as [_ Hne _ _ _ _]. destruct l; [done|]. cbn. lia. }
    by rewrite <-!app_assoc.
Qed.

(** The server an entry stands for. *)
Definition entry_server (source : Source PublicKey) (e : Entry) (stamp : ServerStamp) : RegisteredServer := {|
  rs_name := source.(src_prefix) ++ e.(en_name); rs_stamp := stamp; rs_description := Join e.(en_lines) [10] |}.

Lemma parse_entries_printed rnd i (source : Source PublicKey) entries servers acc errs :
  Forall entry_ok entries →
  Forall2 (λ e r, ∃ stamp, NewServerStampFromString e.(en_stamp) = Ok stamp ∧ r = entry_server source e stamp) entries servers →
  parse_entries rnd i source ((λ e, entry_text e ++ [10]) <$> entries) acc errs =
  Ok (acc ++ servers, if (0 <? errs)%nat then Some stamp_error else None).
Proof.
  intros He Hs. revert i acc. induction Hs as [|e r entries servers (stamp & Hst & ->) Hs IH]; intros i acc.
  { cbn. by rewrite app_nil_r. }
  apply list.Forall_cons in He as [Hok He]. pose proof (entry_plain e Hok) as Hpl. pose proof Hok as [Hn Hl [Hps Hsl]].
  destruct (plain_Join (en_name e :: en_lines e ++ [en_stamp e]) ltac:(done) Hpl) as (A & N & Hh & Hla & _).
  rewrite fmap_cons. cbn [parse_entries]. rewrite TrimSpace_edges by (done || by repeat constructor).
  unfold entry_text. rewrite Split_Join; [|done|eapply list.Forall_impl; [exact Hpl|]; by intros l []].
  destruct (en_lines e ++ [en_stamp e]) as [|x rest] eqn:Hx; [by destruct (en_lines e)|]. rewrite <-Hx.
  rewrite plain_Trim by done. destruct Hn as [_ Hne _ _ _ _].
  assert ((length (en_name e) =? 0)%nat = false) as -> by (apply Nat.eqb_neq; by destruct (en_name e)).
  rewrite entry_lines_plain by done. cbn [app length Nat.eqb Nat.sub shuffle first_stamp]. rewrite Hst. cbn [obind].
  rewrite IH by done. rewrite <-app_assoc. cbn [app]. do 4 f_equal. unfold entry_server. by destruct (en_lines e).
Qed.


End Printed.

(** * Witnesses *)

Section SourceExamples.
#[local] Existing Instance ascii_tables.
#[local] Existing Instance tiny_net.

(** A signature is the key followed by the beginning of the text. *)
#[local] Instance toy_minisign : Minisign bytes bytes := {
  NewPublicKey s := Ok s;
  DecodeSignature s := Ok s;
  Verify key bin sig := if decide (sig = key ++ take 8 bin) then None else Some (EMsg "invalid signature")
}.

(** A stamp is its text; addresses and URLs are kept as they are. *)
#[local] Instance text_stamps : StampLib := {
  NewServerStampFromString s := Ok {| ServerAddrStr := s; stamp_ServerPk := []; Hashes := []; ProviderName := [];
                                      Path := []; Props := 0; stamp_Proto := StampProtoTypeDNSCrypt |};
  ResolveUDPAddr _ := Err ETimeout; ResolveTCPAddr _ := Err ETimeout; PathEscape s := s;
  url_Parse s := Ok {| u_Host := s; u_Path := str "/list.md"; u_Query := [] |}
}.

#[local] Instance list_web : WebLib := { sha512 b := b; hex_EncodeToString b := b; base64_RawURLEncoding b := b }.

Definition no_faults : IO := {|
  io_read_bin := None; io_read_sig := None; io_stat := None; io_create_bin := None; io_create_sig := None;
  io_write_bin := None; io_write_sig := None; io_commit_bin := None; io_commit_sig := None; io_chtimes := None;
  io_mtime := 0 |}.

Definition list_entry : Entry :=
  {| en_name := str "quad"; en_lines := [str "A resolver."; str "No logs."]; en_stamp := str "sdns://AQ" |}.

Definition list_text : bytes := render (str "Resolvers" ++ [10]) [list_entry].
Definition list_key : bytes := str "K".
Definition list_sig : bytes := list_key ++ take 8 list_text.

(** A server that has the list and its signature. *)
Definition serving : SourceEnv := {|
  se_io := no_faults; se_resolve := λ _, empty_answers;
  se_client := λ _ rq, (inr (Some {| StatusCode := 200; Alt_Svc := None; resp_TLS := None;
    resp_body := Ok (if HasSuffix rq.(rq_url).(u_Path) (str ".minisig") then list_sig else list_text) |}), 1) |}.

Definition new_list (files : Files) : Out Loaded :=
  NewSource serving (5 * Second) (100 * Hour) (str "public") [str "1.2.3.4"] list_key (str "list.md") (str "v2")
    (72 * Hour) (str "p-") files NewXTransport.

Definition list_source : Source bytes :=
  match new_list ∅ with
  | Ok ld => ld.(ld_source)
  | _ => {| src_name := []; src_urls := []; src_format := SourceFormatV2; src_in := []; minisignKey := None; cacheFile := [];
            cacheTTL := 0; prefetchDelay := 0; src_refresh := None; src_prefix := [] |}
  end.

Definition loaded_or (m : Out (Loaded (PublicKey := bytes))) : Loaded :=
  match m with
  | Ok ld => ld
  | _ => {| ld_source := list_source; ld_files := ∅; ld_transport := NewXTransport; ld_delay := 0; ld_err := None |}
  end.

Lemma list_source_new : ∃ ld, new_list ∅ = Ok ld ∧ ld.(ld_source) = list_source.
Proof. exists (loaded_or (new_list ∅)). split; vm_compute; reflexivity. Qed.

Example source_contents_signed_wit :
  list_source.(src_in) = list_text ∧ ∃ key, NewPublicKey list_key = Ok key ∧ verified key list_text.
Proof.
  assert (list_source.(src_in) = list_text) as Hin by (vm_compute; reflexivity). split; [exact Hin|].
  rewrite <-Hin. apply (source_contents_signed list_key list_source).
  - destruct list_source_new as (ld & HN & <-). by eapply reach_new.
  - by rewrite Hin.
Defined.

Example source_cache_roundtrip_wit :
  ∃ ld, fetchWithCache serving (5 * Second) (101 * Hour) list_source
          (writeToCache no_faults list_text list_sig (100 * Hour) (list_source <| src_in := [] |>) ∅).2 NewXTransport = Ok ld ∧
    ld.(ld_source).(src_in) = list_text ∧ ld.(ld_source).(src_refresh) = Some (124 * Hour).
Proof.
  destruct (source_cache_roundtrip no_faults list_text list_sig (100 * Hour) (list_source <| src_in := [] |>) ∅ serving
    (5 * Second) (101 * Hour) list_source NewXTransport) as (ld & HF & _ & Hin & Hr & _).
  all: try (by vm_compute).
  exists ld. split_and!; [exact HF|exact Hin|rewrite Hr; by vm_compute].
Defined.

Example source_schedule_wit :
  ∃ ld, fetchWithCache serving (5 * Second) (200 * Hour) list_source ∅ NewXTransport = Ok ld ∧
    ld.(ld_source).(src_refresh) = Some (200 * Hour + ld.(ld_delay)) ∧ 0 < ld.(ld_delay).
Proof.
  exists (loaded_or (fetchWithCache serving (5 * Second) (200 * Hour) list_source ∅ NewXTransport)).
  assert (fetchWithCache serving (5 * Second) (200 * Hour) list_source ∅ NewXTransport =
          Ok (loaded_or (fetchWithCache serving (5 * Second) (200 * Hour) list_source ∅ NewXTransport))) as HF by by vm_compute.
  split; [exact HF|]. destruct (source_schedule serving (5 * Second) (200 * Hour) list_source ∅ NewXTransport _
    ltac:(by vm_compute) ltac:(by vm_compute) HF) as (Hr & Hd & _). by split.
Defined.

Example refresh_delay_no_effect_wit :
  (let! ld := fetchWithCache serving 5 (200 * Hour) (with_ttl (24 * Hour) list_source) ∅ NewXTransport in Ok (forget_ttl ld)) =
  (let! ld := fetchWithCache serving 5 (200 * Hour) (with_ttl (168 * Hour) list_source) ∅ NewXTransport in Ok (forget_ttl ld)).
Proof. apply (refresh_delay_no_effect serving 5 (200 * Hour) list_source); by vm_compute. Defined.

Example lost_cache_not_rewritten_wit :
  ∃ ld, fetchWithCache serving 5 (200 * Hour) list_source ∅ NewXTransport = Ok ld ∧ ld.(ld_err) = None ∧ ld.(ld_files) = ∅.
Proof.
  set (m := fetchWithCache serving 5 (200 * Hour) list_source ∅ NewXTransport). exists (loaded_or m).
  assert (m = Ok (loaded_or m)) as HF by by vm_compute. split; [exact HF|]. split; [by vm_compute|].
  apply (lost_cache_not_rewritten serving 5 (200 * Hour) list_source ∅ NewXTransport); [by vm_compute|done|exact HF|by vm_compute..].
Defined.

Lemma list_entry_ok : entry_ok list_entry.
Proof.
  split; repeat constructor; try (by vm_compute); try (intros c Hc; vm_compute in Hc; injection Hc as <-; by vm_compute);
    by apply (bool_decide_unpack _); vm_compute.
Qed.

Definition list_stamp (s : bytes) : ServerStamp :=
  match NewServerStampFromString s with Ok st => st | _ => sample_stamp end.


Definition take_all : RegisterConfig := {|
  ServerNames := []; DisabledServerNames := [str "P-BAD"]; requiredProps := 0; SourceIPv4 := true; SourceIPv6 := false;
  SourceDNSCrypt := true; SourceDoH := false; SourceODoH := false |}.

Definition empty_registry : Registry Q := {| rg_servers := []; rg_relays := []; rg_info := NewServersInfo |}.


End SourceExamples.
