(* ===== verification/Listeners.v ===== *)
(** The doors of the proxy: the UDP and TCP listeners of proxy.go and the local
    DoH server of local-doh.go, around [processIncomingQuery]. *)
From Stdlib Require Import QArith Sorted.
From S2P Require Import Prelude.
From S2P Require Import GoStrings.
From S2P Require Import Common.
From S2P Require Import Estimators.
From S2P Require Import ServerTypes.
From S2P Require Import Crypto.
From S2P Require Import DnsMsg.
From S2P Require Import DnsUtils.
From S2P Require Import ServersInfo.
From S2P Require Import XTransport.
From S2P Require Import ODoH.
From S2P Require Import Routes.
From S2P Require Import ARC.
From S2P Require Import Plugins.
From S2P Require Import Cache.
From S2P Require Import BlockPlugins.
From S2P Require Import RewritePlugins.
From S2P Require Import PluginChain.
From S2P Require Import Proxy.

(** * Padding of local DoH responses *)

Definition boundaries : list Z :=
  [64; 128; 192; 256; 320; 384; 512; 704; 768; 896; 960; 1024; 1088; 1152; 2688; 4080; MaxDNSPacketSize].

Fixpoint first_boundary (l : list Z) (unpaddedLen : Z) : Z :=
  match l with
  | [] => unpaddedLen
  | boundary :: l => if unpaddedLen <=? boundary then boundary else first_boundary l unpaddedLen
  end.

Definition dohPaddedLen (unpaddedLen : Z) : Z := first_boundary boundaries unpaddedLen.

(** A request to the local DoH server: the parts of it that are read. [hr_body] is
    what reading the body gives. *)
Record HttpReq := {
  hr_path : bytes;
  hr_method : bytes;
  hr_contentType : bytes;
  hr_accept : bytes;
  hr_body : Out bytes;
  hr_dns : bytes;
  hr_remote : bytes
}.

(** What is written: a handler that returns without [WriteHeader] sends status
    200. [w_pad] is the X-Pad header. *)
Record HttpReply := { w_status : Z; w_contentType : bytes; w_pad : option bytes; w_body : bytes }.

Definition dataType : bytes := str "application/dns-message".
Definition silent_reply : HttpReply := {| w_status := 200; w_contentType := []; w_pad := None; w_body := [] |}.
Definition status_reply (code : Z) : HttpReply := {| w_status := code; w_contentType := []; w_pad := None; w_body := [] |}.

Section Listeners.
Context `{CryptoPrims} `{Codec} `{NetLib} `{WebLib} `{StampLib} {Ctx : Type} `{HPKE Ctx} {C E : Type} `{MovingAverage E}.
Context (ewma0 : E) `{Fetcher (E := E)} (cfg : ProxyConfig (C := C)) (qe : QueryEnv).
Context (mainProto : string) (localDoHPath : bytes).
(** [base64.RawURLEncoding.DecodeString]. *)
Context (base64_Decode : bytes → Out bytes).
Abbreviation state := (ProxyState C E).
Abbreviation process := (processIncomingQuery ewma0 cfg qe).

(** One turn of [udpListener]; [counted] is the result of [clientsCountInc].
    Over the limit, only cached and synthetic answers are given. *)
Definition udp_packet (counted : bool) (packet : bytes) (client : IP) (start : Z) (ps : state) : Out (state * option bytes) :=
  process "udp" mainProto (take (Z.to_nat (MaxDNSPacketSize - 1)) packet) (Some (UDPClient client)) true start (negb counted) ps.

(** One connection of [tcpListener]. *)
Definition tcp_connection (counted : bool) (deadline : option error) (c : conn) (client : IP) (start : Z) (ps : state)
    : Out (state * option bytes) :=
  if negb counted then Ok (ps, None)
  else
    match deadline with
    | Some _ => Ok (ps, None)
    | None =>
        match ReadPrefixed c with
        | Some (Ok packet) => process "tcp" "tcp" packet (Some (TCPClient client)) true start false ps
        | Some (Err _) => Ok (ps, None)
        | Some Fatal => Fatal
        | Some Panic | None => Panic
        end
    end.

(** The packet of a request; [inl] is an early return. *)
Definition doh_packet (request : HttpReq) : Out (HttpReply + bytes) :=
  if decide (request.(hr_method) = str "POST" ∧ request.(hr_contentType) = dataType) then
    match request.(hr_body) with
    | Ok body => Ok (inr (take (Z.to_nat MaxDNSPacketSize) body))
    | Err _ => Ok (inl silent_reply)
    | Panic => Panic
    | Fatal => Fatal
    end
  else if decide (request.(hr_method) = str "GET" ∧ request.(hr_accept) = dataType) then
    let encodedPacket := request.(hr_dns) in
    if ((MinDNSPacketSize * 4) `div` 3 <=? len encodedPacket) && (len encodedPacket <=? (MaxDNSPacketSize * 4) `div` 3) then
      match base64_Decode encodedPacket with
      | Ok packet => Ok (inr packet)
      | Err _ => Ok (inl silent_reply)
      | Panic => Panic
      | Fatal => Fatal
      end
    else Ok (inr [])
  else Ok (inr []).

Definition not_a_query : HttpReply := {|
  w_status := 400; w_contentType := str "text/plain"; w_pad := None;
  w_body := str "dnscrypt-proxy local DoH server" ++ [10] |}.

(** The last part of the handler: the response with its padding. [after] is the
    contents of the buffer of the query once it has been processed, since packing
    a message may write into it. *)
Definition doh_respond (padded : bool) (after response : bytes) : Out HttpReply :=
  match Unpack after with
  | Err _ => Ok (status_reply 500)
  | Panic => Panic
  | Fatal => Fatal
  | Ok msg =>
      let padLen := dohPaddedLen (len response) - len response in
      if padded then
        let! (_, r) := addEDNS0PaddingIfNoneFound msg response padLen in
        match r with
        | Ok response => Ok {| w_status := 200; w_contentType := dataType; w_pad := None; w_body := response |}
        | Err _ => Ok silent_reply
        | Panic => Panic
        | Fatal => Fatal
        end
      else if padLen <? 0 then Panic
      else Ok {| w_status := 200; w_contentType := dataType; w_pad := Some (replicate (Z.to_nat padLen) 88); w_body := response |}
  end.

Definition ServeHTTP (counted : bool) (request : HttpReq) (after : bytes → bytes) (start : Z) (ps : state)
    : Out (state * HttpReply) :=
  if negb counted then Ok (ps, silent_reply)
  else if negb (bool_decide (request.(hr_path) = localDoHPath)) then Ok (ps, status_reply 404)
  else
    let! p := doh_packet request in
    match p with
    | inl reply => Ok (ps, reply)
    | inr packet =>
        if len packet <? MinDNSPacketSize then Ok (ps, not_a_query)
        else
          match ResolveTCPAddr request.(hr_remote) with
          | Err _ => Ok (ps, silent_reply)
          | Panic => Panic
          | Fatal => Fatal
          | Ok addr =>
              match hasEDNS0Padding packet with
              | Err _ => Ok (ps, status_reply 400)
              | Panic => Panic
              | Fatal => Fatal
              | Ok padded =>
                  let! (ps, response) := process "local_doh" mainProto packet (Some (TCPClient addr.(addr_IP))) false start false ps in
                  match default [] response with
                  | [] => Ok (ps, status_reply 500)
                  | response => let! reply := doh_respond padded (after packet) response in Ok (ps, reply)
                  end
              end
          end
    end.

End Listeners.

(** * Theorems *)

Lemma first_boundary_spec l n :
  n ≤ first_boundary l n ∧ (first_boundary l n ∈ l ∨ (first_boundary l n = n ∧ Forall (λ b, b < n) l)).
Proof.
  induction l as [|b l [IH1 IH2]]; cbn [first_boundary]; [split; [lia|right; by split]|].
  destruct (Z.leb_spec n b); [split; [lia|left; by left]|]. split; [done|].
  destruct IH2 as [?|[? ?]]; [left; by right|right; split; [done|by constructor]].
Qed.

(** Boundaries are increasing, so the first one is the smallest. *)
Lemma dohPaddedLen_spec n :
  n ≤ dohPaddedLen n ∧ (n ≤ MaxDNSPacketSize → dohPaddedLen n ∈ boundaries ∧ ∀ b, b ∈ boundaries → n ≤ b → dohPaddedLen n ≤ b).
Proof.
  unfold dohPaddedLen. destruct (first_boundary_spec boundaries n) as [H1 H2]. split; [done|]. intros Hn. split.
  - destruct H2 as [?|[_ HF]]; [done|]. unfold boundaries in HF. rewrite !list.Forall_cons in HF. lia.
  - intros b Hb Hnb. unfold boundaries in *. clear H1 H2.
    assert (∀ l, StronglySorted Z.le l → b ∈ l → first_boundary l n ≤ b) as Hs.
    { intros l Hl. induction Hl as [|c l Hl IH Hc]; [by intros ?%elem_of_nil|]. cbn [first_boundary].
      rewrite elem_of_cons. destruct (Z.leb_spec n c).
      - intros [->|Hbl]; [lia|]. rewrite list.Forall_forall in Hc. by apply Hc.
      - intros [->|Hbl]; [lia|by apply IH]. }
    apply Hs; [|done]. repeat (constructor; [|repeat constructor; unfold MaxDNSPacketSize; lia]). constructor.
Qed.

Section ListenerTheorems.
Context `{CryptoPrims} `{CodecLaws} `{NetLib} `{WebLib} `{StampLib} {Ctx : Type} `{HPKE Ctx} {C E : Type} `{MovingAverage E}.
Context (ewma0 : E) `{Fetcher (E := E)} (cfg : ProxyConfig (C := C)) (qe : QueryEnv) (mainProto : string) (localDoHPath : bytes)
        (base64_Decode : bytes → Out bytes).
Implicit Types (ps : ProxyState C E).

(** Overload does not reach the servers. When there are too many clients, a
    UDP query is answered from the cache or by the plugins or not at all, a TCP
    connection is closed, and a local DoH request is not read: nothing is sent to
    any server. *)
Theorem overload_not_sent packet client start deadline c request after ps ps' :
  (∃ r, udp_packet ewma0 cfg qe mainProto false packet client start ps = Ok (ps', r)) ∨
  (∃ r, tcp_connection ewma0 cfg qe false deadline c client start ps = Ok (ps', r)) ∨
  (∃ r, ServeHTTP ewma0 cfg qe mainProto localDoHPath base64_Decode false request after start ps = Ok (ps', r)) →
  px_sent ps' = px_sent ps.
Proof.
  intros [[r HP]|[[r HP]|[r HP]]]; [by eapply cached_only_not_sent| |]; by injection HP as <- _.
Qed.

(** The size of local DoH responses. To a query without the padding option
    the server answers, if it answers with a DNS message of at most 4096 bytes,
    with exactly the response to the query and as many bytes of X-Pad as are missing to the
    next of seventeen sizes. *)
Theorem local_doh_size counted request after start ps ps' reply packet :
  ServeHTTP ewma0 cfg qe mainProto localDoHPath base64_Decode counted request after start ps = Ok (ps', reply) →
  doh_packet base64_Decode request = Ok (inr packet) → hasEDNS0Padding packet = Ok false →
  w_contentType reply = dataType → len reply.(w_body) ≤ MaxDNSPacketSize →
  ∃ addr pad, processIncomingQuery ewma0 cfg qe "local_doh" mainProto packet (Some (TCPClient addr)) false start false ps
                = Ok (ps', Some reply.(w_body)) ∧
    reply.(w_status) = 200 ∧ reply.(w_pad) = Some pad ∧ len reply.(w_body) + len pad ∈ boundaries ∧
    ∀ b, b ∈ boundaries → len reply.(w_body) ≤ b → len reply.(w_body) + len pad ≤ b.
Proof.
  unfold ServeHTTP. destruct counted; cbn [negb]; [|by intros [= _ <-]]. destruct (bool_decide _); cbn [negb]; [|by intros [= _ <-]].
  intros HS Hp Hpad Hct Hlen. rewrite Hp in HS. cbn [obind] in HS. destruct (len packet <? _); [by injection HS as _ <-|].
  destruct (ResolveTCPAddr _) as [addr| | |]; try done; [|by injection HS as _ <-]. rewrite Hpad in HS.
  apply obind_Ok in HS as ([ps1 response] & HP & HS). exists addr.(addr_IP).
  destruct (default [] response) as [|x l] eqn:Hr; [by injection HS as _ <-|].
  apply obind_Ok in HS as (rp & HD & HS). injection HS as <- <-. unfold doh_respond in HD.
  destruct (Unpack _); try done; [|by injection HD as <-]. destruct (Z.ltb_spec (dohPaddedLen (len (x :: l)) - len (x :: l)) 0); [done|].
  injection HD as <-. cbn [w_body w_status w_pad] in *. eexists. split_and!; [|done..| |].
  - rewrite HP. destruct response; cbn in Hr; [by subst|done].
  - destruct (dohPaddedLen_spec (len (x :: l))) as [_ Hb]. destruct (Hb Hlen) as [Hin _].
    unfold len in *. rewrite length_replicate, Z2Nat.id by lia. by replace (_ + _) with (dohPaddedLen (Z.of_nat (length (x :: l)))) by lia.
  - intros b Hb Hle. destruct (dohPaddedLen_spec (len (x :: l))) as [_ Hs]. destruct (Hs Hlen) as [_ Hmin].
    specialize (Hmin b Hb Hle). unfold len in *. rewrite length_replicate, Z2Nat.id by lia. lia.
Qed.

(** Responses to padded queries are not padded. If the query asks for padding
    and its buffer was not overwritten, the response is sent as it is: the padding is
    looked for in the query, where it is. *)
Theorem local_doh_never_pads packet response reply :
  hasEDNS0Padding packet = Ok true → doh_respond true packet response = Ok reply →
  reply = {| w_status := 200; w_contentType := dataType; w_pad := None; w_body := response |}.
Proof.
  unfold hasEDNS0Padding, doh_respond. intros (msg & -> & (edns0 & He & HE)%obind_Ok)%obind_Ok.
  unfold addEDNS0PaddingIfNoneFound. rewrite He. cbn [obind]. destruct edns0 as [[rr options]|]; [|done].
  cbn [obind]. injection HE as ->. by intros [= <-].
Qed.

End ListenerTheorems.

(** * Witnesses and findings *)

Section ListenerExamples.
#[local] Existing Instance ascii_tables.
#[local] Existing Instance tiny_codec.
#[local] Existing Instance tiny_codec_laws.
#[local] Existing Instance tiny_net.
#[local] Existing Instance toy_prims.
#[local] Existing Instance tiny_hpke.
#[local] Existing Instance sample_fetcher.
#[local] Existing Instance local_web.

(** Every remote address is the loopback. *)
#[local] Instance loopback_stamps : StampLib := {
  NewServerStampFromString _ := Err ETimeout; ResolveUDPAddr _ := Err ETimeout;
  ResolveTCPAddr _ := Ok {| addr_IP := [127; 0; 0; 1]; addr_Port := 4242 |}; PathEscape s := s; url_Parse _ := Err ETimeout }.

Definition post (packet : bytes) : HttpReq := {|
  hr_path := str "/dns-query"; hr_method := str "POST"; hr_contentType := dataType; hr_accept := [];
  hr_body := Ok packet; hr_dns := []; hr_remote := str "127.0.0.1:4242" |}.

Definition handle (qe : QueryEnv) (packet : bytes) : Out (ProxyState unit Q * HttpReply) :=
  ServeHTTP 0%Q (with_plugins firefox_only) qe "udp" (str "/dns-query") (λ _, Err ETimeout) true (post packet) id 0
    (start_proxy no_world crypt_server).

Example overload_not_sent_wit :
  ∃ ps' r, udp_packet 0%Q (with_plugins firefox_only) reachable "udp" false (query_for "example.org.") [127; 0; 0; 1] 0
             (start_proxy no_world crypt_server) = Ok (ps', r) ∧ px_sent ps' = [].
Proof.
  destruct (udp_packet 0%Q (with_plugins firefox_only) reachable "udp" false (query_for "example.org.") [127; 0; 0; 1] 0
    (start_proxy no_world crypt_server)) as [[ps' r]| | |] eqn:HU; try (by vm_compute in HU).
  exists ps', r. split; [done|].
  apply (overload_not_sent 0%Q (with_plugins firefox_only) reachable "udp" [] (λ _, Err ETimeout) (query_for "example.org.")
    [127; 0; 0; 1] 0 None [] (post []) id (start_proxy no_world crypt_server) ps'). left. by exists r.
Defined.

Lemma handle_ServeHTTP qe packet :
  handle qe packet =
  ServeHTTP 0%Q (with_plugins firefox_only) qe "udp" (str "/dns-query") (λ _, Err ETimeout) true (post packet) id 0
    (start_proxy no_world crypt_server).
Proof. reflexivity. Qed.

(** Whether a request is answered with this message. *)
Definition served (m : Out (ProxyState unit Q * HttpReply)) (body : bytes) : bool :=
  match m with
  | Ok (_, reply) => bool_decide (reply.(w_status) = 200 ∧ reply.(w_contentType) = dataType ∧ reply.(w_body) = body)
  | _ => false
  end.

Lemma served_Ok m body : served m body = true →
  ∃ ps' reply, m = Ok (ps', reply) ∧ reply.(w_status) = 200 ∧ reply.(w_contentType) = dataType ∧ reply.(w_body) = body.
Proof. destruct m as [[ps' reply]| | |]; try done. intros (? & ? & ?)%bool_decide_eq_true_1. by exists ps', reply. Qed.

Example local_doh_size_wit :
  ∃ ps' reply pad, handle reachable (query_for "example.org.") = Ok (ps', reply) ∧ reply.(w_body) = answer_packet ∧
    reply.(w_pad) = Some pad ∧ len reply.(w_body) + len pad ∈ boundaries.
Proof.
  assert (served (handle reachable (query_for "example.org.")) answer_packet = true) as Hs by (vm_compute; reflexivity).
  apply served_Ok in Hs as (ps' & reply & HS & _ & Hc & Hb).
  destruct (local_doh_size 0%Q (with_plugins firefox_only) reachable "udp" (str "/dns-query") (λ _, Err ETimeout) true
    (post (query_for "example.org.")) id 0 (start_proxy no_world crypt_server) ps' reply (query_for "example.org."))
    as (addr & pad & _ & _ & Hp & Hin & _);
    [rewrite <-handle_ServeHTTP; exact HS|vm_compute; reflexivity|vm_compute; reflexivity|exact Hc|rewrite Hb; by vm_compute|].
  exists ps', reply, pad. split_and!; [exact HS|exact Hb|exact Hp|exact Hin].
Defined.

(** A response that cannot be decrypted is served. When both reads of a UDP
    exchange with the server time out, the local DoH client gets status 200, the type of a
    DNS message and a body of 4096 zero bytes: the buffer that was never filled
    comes back beside the error and only the query is checked to be a DNS message. *)
Theorem local_doh_serves_undecrypted :
  ∃ qe ps' reply, udp_read (qe_udp qe) = (λ _, Err ETimeout) ∧ handle qe (query_for "example.org.") = Ok (ps', reply) ∧
    reply.(w_status) = 200 ∧ reply.(w_contentType) = dataType ∧ reply.(w_body) = replicate 4096 0.
Proof.
  set (qe := {| qe_rnd := qe_rnd reachable; qe_now := qe_now reachable; qe_query := qe_query reachable;
    qe_response := qe_response reachable; qe_logging := qe_logging reachable; qe_nonce := qe_nonce reachable;
    qe_xpad := qe_xpad reachable; qe_keyrnd := qe_keyrnd reachable; qe_udp := silent_udp; qe_tcp := qe_tcp reachable;
    qe_resolve := qe_resolve reachable; qe_http := qe_http reachable; qe_hpkeseed := [] |}).
  assert (served (handle qe (query_for "example.org.")) (replicate 4096 0) = true) as Hs by (vm_compute; reflexivity).
  apply served_Ok in Hs as (ps' & reply & HS & Hst & Hc & Hb). exists qe, ps', reply.
  split; [reflexivity|]. split; [exact HS|]. split; [exact Hst|]. split; [exact Hc|exact Hb].
Qed.

End ListenerExamples.
