(* ===== verification/Transport.v ===== *)
(** [rebuildTransport] of xtransport.go, which builds the HTTP transport from the
    settings, and [isIPAndPort] of config.go, which checks bootstrap resolvers. *)
From S2P Require Import Prelude.
From S2P Require Import GoStrings.
From S2P Require Import Common.
From S2P Require Import LogLines.
From S2P Require Import ServerTypes.
From S2P Require Import DnsUtils.
From S2P Require Import XTransport.

(** * Addresses of resolvers *)

(** [strconv.ParseUint(strconv.Itoa(port), 10, 16)] reports whether the port
    fits; the result is the error returned. *)
Definition isIPAndPort `{NetLib} (addrStr : bytes) : option error :=
  let '(host, port) := ExtractHostAndPort addrStr (-1) in
  if bool_decide (ParseIP host = []) then Some (EMsg "Host does not parse as IP")
  else if port =? -1 then Some (EMsg "Port missing")
  else
    match ParseUint16 (Itoa port) with
    | None => Some (EMsg "Port does not parse")
    | Some _ => None
    end.

(** [NewXTransport] with its check of the built-in resolver. *)
Definition NewXTransport_checked `{NetLib} : Out XTransport :=
  match isIPAndPort DefaultBootstrapResolver with
  | Some _ => Panic
  | None => Ok NewXTransport
  end.

(** * The HTTP transport *)

Record DOHClientCreds := { clientCert : bytes; clientKey : bytes; rootCA : bytes }.

Definition no_creds : DOHClientCreds := {| clientCert := []; clientKey := []; rootCA := [] |}.

(** The settings of [XTransport] that are not part of its state in [XTransport]. *)
Record TransportConfig := {
  keepAlive : Z;
  xt_timeout : Z;
  tlsDisableSessionTickets : bool;
  tlsClientCreds : DOHClientCreds
}.

#[export] Instance eta_TransportConfig : Eta TransportConfig := λ t, {|
  keepAlive := t.(keepAlive); xt_timeout := t.(xt_timeout);
  tlsDisableSessionTickets := t.(tlsDisableSessionTickets); tlsClientCreds := t.(tlsClientCreds) |}.

Definition DefaultKeepAlive : Z := 5 * Second.

(** The fields [NewXTransport] gives them; [DefaultTimeout] is 30 seconds. *)
Definition NewTransportConfig : TransportConfig := {|
  keepAlive := DefaultKeepAlive; xt_timeout := 30 * Second; tlsDisableSessionTickets := false; tlsClientCreds := no_creds |}.

(** The parts of [tls.Config] that are set. [RootCAs] lists the certificates added
    to those of the system; [None] is nil, the defaults of the TLS package.
    [ClientSessionCache] is the capacity of the cache. *)
Record TLSConfig := {
  RootCAs : option (list bytes);
  Certificates : list (bytes * bytes);
  SessionTicketsDisabled : bool;
  ClientSessionCache : option Z;
  CipherSuites : option (list Z)
}.

#[export] Instance eta_TLSConfig : Eta TLSConfig := λ t, {|
  RootCAs := t.(RootCAs); Certificates := t.(Certificates); SessionTicketsDisabled := t.(SessionTicketsDisabled);
  ClientSessionCache := t.(ClientSessionCache); CipherSuites := t.(CipherSuites) |}.

(** The transports of HTTP/1 and 2, and of HTTP/3. *)
Record HttpTransport := {
  DisableCompression : bool;
  IdleConnTimeout : Z;
  ResponseHeaderTimeout : Z;
  MaxResponseHeaderBytes : Z;
  uses_Proxy : bool;
  TLSClientConfig : TLSConfig;
  ReadIdleTimeout : Z;
  h3Transport : option TLSConfig
}.

(** What the system gives: whether it has a certificate pool, the contents of the
    file of additional authorities, whether the key pair loads, and the error of
    [http2.ConfigureTransports]. *)
Record TLSEnv := {
  te_SystemCertPool : bool;
  te_ReadFile : bytes → Out bytes;
  te_LoadX509KeyPair : bytes → bytes → option error;
  te_ConfigureTransports : option error
}.

(** The PEM text of the ISRG Root X1 certificate, as it is in the source: its second
    and third lines start with a space. *)
Definition letsEncryptX1Cert : bytes :=
  str "-----BEGIN CERTIFICATE-----" ++ [10] ++
  str " MIIFazCCA1OgAwIBAgIRAIIQz7DSQONZRGPgu2OCiwAwDQYJKoZIhvcNAQELBQAwTzELMAkGA1UEBhMCVVMxKTAnBgNVBAoTIEludGVybmV0IFNlY3VyaXR5IFJlc2VhcmNoIEdyb3VwMRUwEwYDVQQDEwxJU1JHIFJvb3QgWDEwHhcNMTUwNjA0MTEwNDM4WhcNMzUwNjA0MTEwNDM4WjBPMQswCQYDVQQGEwJVUzEpMCcGA1UEChMgSW50ZXJuZXQgU2VjdXJpdHkgUmVzZWFyY2ggR3JvdXAxFTATBgNVBAMTDElTUkcgUm9vdCBYMTCCAiIwDQYJKoZIhvcNAQEBBQADggIPADCCAgoCggIBAK3oJHP0FDfzm54rVygch77ct984kIxuPOZXoHj3dcKi/vVqbvYATyjb3miGbESTtrFj/RQSa78f0uoxmyF+0TM8ukj13Xnfs7j/EvEhmkvBioZxaUpmZmyPfjxwv60pIgbz5MDmgK7iS4+3mX6UA5/TR5d8mUgjU+g4rk8Kb4Mu0UlXjIB0ttov0DiNewNwIRt18jA8+o+u3dpjq+sWT8KOEUt+zwvo/7V3LvSye0rgTBIlDHCNAymg4VMk7BPZ7hm/ELNKjD+Jo2FR3qyHB5T0Y3HsLuJvW5iB4YlcNHlsdu87kGJ55tukmi8mxdAQ4Q7e2RCOFvu396j3x+UCB5iPNgiV5+I3lg02dZ77DnKxHZu8A/lJBdiB3QW0KtZB6awBdpUKD9jf1b0SHzUvKBds0pjBqAlkd25HN7rOrFleaJ1/ctaJxQZBKT5ZPt0m9STJEadao0xAH0ahmbWnOlFuhjuefXKnEgV4We0+UXgVCwOPjdAvBbI+e0ocS3MFEvzG6uBQE3xDk3SzynTnjh8BCNAw1FtxNrQHusEwMFxIt4I7mKZ9YIqioymCzLq9gwQbooMDQaHWBfEbwrbwqHyGO0aoSCqI3Haadr8faqU9GY/rOPNk3sgrDQoo//fb4hVC1CLQJ13hef4Y53CIrU7m2Ys6xt0nUW7/vGT1M0NPAgMBAAGjQjBAMA4GA1UdDwEB/wQEAwIBBjAPBgNVHRMBAf8EBTADAQH/MB0GA1UdDgQWBBR5tFnme7bl5AFzgAiIyBpY9umbbjANBgkqhkiG9w0BAQsFAAOCAgEAVR9YqbyyqFDQDLHYGmkgJykIrGF1XIpu+ILlaS/V9lZLubhzEFnTIZd+50xx+7LSYK05qAvqFyFWhfFQDlnrzuBZ6brJFe+GnY+EgPbk6ZGQ3BebYhtF8GaV0nxvwuo77x/Py9auJ/GpsMiu/X1+mvoiBOv/2X/qkSsisRcOj/KKNFtY2PwByVS5uCbMiogziUwthDyC3+6WVwW6LLv3xLfHTjuCvjHIInNzktHCgKQ5ORAzI4JMPJ+GslWYHb4phowim57iaztXOoJwTdwJx4nLCgdNbOhdjsnvzqvHu7UrTkXWStAmzOVyyghqpZXjFaH3pO3JLF+l+/+sKAIuvtd7u+Nxe5AW0wdeRlN8NwdCjNPElpzVmbUq4JUagEiuTDkHzsxHpFKVK7q4+63SM1N95R1NbdWhscdCb+ZAJzVcoyi3B43njTOQ5yOf+1CceWxG1bQVs5ZufpsMljq4Ui0/1lvh+wjChP4kqKOJ2qxq4RgqsahDYVvTH9w7jXbyLeiNdd8XM2w9U/t7y0Ff/9yi0GE44Za4rF2LN9d11TPAmRGunUHBcnWEvgJBQl9nJEiU0Zsnvgc/ubhPgXRR4Xq37Z0j4r7g1SgEEzwxA57demyPxgcYxn/eR44/KJ4EBs+lVDR3veyJm+kXQ99b21/+jh5Xos1AnX5iItreGCc=" ++ [10] ++
  str " -----END CERTIFICATE-----".
#[global] Opaque letsEncryptX1Cert.

(** The texts given to [AppendCertsFromPEM]: [None] if there is no pool, which is fatal when a file of
    additional ones is configured. *)
Definition cert_pool (env : TLSEnv) (creds : DOHClientCreds) : Out (option (list bytes)) :=
  let! additional :=
    if decide (creds.(rootCA) = []) then Ok []
    else if negb env.(te_SystemCertPool) then Fatal
    else let! pem := or_fatal (env.(te_ReadFile) creds.(rootCA)) in Ok [pem] in
  Ok (if env.(te_SystemCertPool) then Some (additional ++ [letsEncryptX1Cert]) else None).

Definition client_certificates (env : TLSEnv) (creds : DOHClientCreds) : Out (list (bytes * bytes)) :=
  if decide (creds.(clientCert) = []) then Ok []
  else
    match env.(te_LoadX509KeyPair) creds.(clientCert) creds.(clientKey) with
    | Some _ => Fatal
    | None => Ok [(creds.(clientCert), creds.(clientKey))]
    end.

(** Session tickets and cipher suites. *)
Definition tls_options (tc : TransportConfig) (x : XTransport) (t : TLSConfig) : TLSConfig :=
  if tc.(tlsDisableSessionTickets) || bool_decide (is_Some x.(tlsCipherSuite)) then
    let t := t <| SessionTicketsDisabled := tc.(tlsDisableSessionTickets) |> in
    let t := if negb tc.(tlsDisableSessionTickets) then t <| ClientSessionCache := Some 10 |> else t in
    if decide (is_Some x.(tlsCipherSuite)) then t <| CipherSuites := x.(tlsCipherSuite) |> else t
  else t.

(** [http2.ConfigureTransports] returns a nil transport beside an error; the code
    assigns to that transport exactly then. *)
Definition http2_options (env : TLSEnv) : Out Z :=
  match env.(te_ConfigureTransports) with
  | Some _ => Panic
  | None => Ok 0
  end.

Definition rebuildTransport (env : TLSEnv) (tc : TransportConfig) (x : XTransport) : Out HttpTransport :=
  let! pool := cert_pool env tc.(tlsClientCreds) in
  let! certs := client_certificates env tc.(tlsClientCreds) in
  let tlsClientConfig := tls_options tc x {|
    RootCAs := pool; Certificates := certs; SessionTicketsDisabled := false; ClientSessionCache := None;
    CipherSuites := None |} in
  let! idle := http2_options env in
  Ok {| DisableCompression := true; IdleConnTimeout := tc.(keepAlive); ResponseHeaderTimeout := tc.(xt_timeout);
        MaxResponseHeaderBytes := 4096; uses_Proxy := x.(has_httpProxy); TLSClientConfig := tlsClientConfig;
        ReadIdleTimeout := idle; h3Transport := if x.(http3) then Some tlsClientConfig else None |}.

(** * Properties *)

Lemma ParseUint16_Itoa port : - 2 ^ 63 ≤ port < 2 ^ 63 →
  ParseUint16 (Itoa port) = if between 0 port 65535 then Some port else None.
Proof.
  intros Hp. unfold Itoa, ParseUint16, between. destruct (Z.ltb_spec port 0).
  - rewrite (proj2 (Z.leb_gt 0 port)) by lia. done.
  - rewrite (proj2 (Z.leb_le 0 port)) by lia. cbn [andb].
    destruct (itoa_go_head 19 port []) as (c & r & E & _); [lia|done|]. rewrite E, <-E.
    rewrite digits_itoa by (split; [lia|]; change (10 ^ Z.of_nat 19) with 10000000000000000000; lia). done.
Qed.

Lemma Atoi_range s n : Atoi s = Some n → - 2 ^ 63 ≤ n < 2 ^ 63.
Proof.
  unfold Atoi. destruct s as [|c r]; [done|].
  destruct (if c =? 43 then _ else _) as [neg t]. destruct t; [done|].
  intros (m & _ & H)%bind_Some. revert H. unfold between.
  destruct (_ && _) eqn:E; [|done]. intros [= <-]. apply andb_true_iff in E as [?%Z.leb_le ?%Z.leb_le]. lia.
Qed.

(** The port of an address is found after its last colon. *)
Lemma ExtractHostAndPort_app host p d port :
  58 ∉ p → Atoi p = Some port → ExtractHostAndPort (host ++ 58 :: p) d = (host, port).
Proof.
  intros Hp Ha. unfold ExtractHostAndPort.
  assert (LastIndexByte (host ++ 58 :: p) 58 = Some (length host)) as ->.
  { apply LastIndexByte_Some. split; [by rewrite lookup_app_r, Nat.sub_diag by lia|].
    rewrite drop_app_ge by lia. by replace (S (length host) - length host)%nat with 1%nat by lia. }
  rewrite length_app. cbn [length].
  destruct (Nat.ltb_spec (length host) (length host + S (length p) - 1)) as [_|Hl].
  - rewrite drop_app_ge, take_app_le by lia. replace (S (length host) - length host)%nat with 1%nat by lia. cbn [drop].
    rewrite drop_0, Ha, firstn_all2 by lia. done.
  - destruct p; [done|cbn in Hl; lia].
Qed.

(** A port that is not the default was found. *)
Lemma ExtractHostAndPort_found s d host port :
  ExtractHostAndPort s d = (host, port) → port ≠ d → ∃ p, s = (host ++ 58 :: p) ∧ (58 ∉ p) ∧ Atoi p = Some port.
Proof.
  unfold ExtractHostAndPort. destruct (LastIndexByte s 58) as [i|] eqn:E; [|naive_solver].
  destruct (i <? _)%nat; [|naive_solver]. destruct (Atoi (drop (S i) s)) as [n|] eqn:Ha; [|naive_solver].
  intros [= <- <-] _. apply LastIndexByte_Some in E as [Hi Hn]. exists (drop (S i) s).
  split_and!; [|done..]. rewrite <-(take_drop_middle s i 58) at 1 by done. done.
Qed.

(** The addresses of resolvers that are accepted: a text that [net.ParseIP]
    accepts (brackets aside), a colon, and a decimal port between 0 and 65535. *)
Theorem isIPAndPort_spec `{NetLib} s :
  isIPAndPort s = None ↔
  ∃ host p port, s = (host ++ str ":" ++ p) ∧ (58 ∉ p) ∧ Atoi p = Some port ∧ 0 ≤ port ≤ 65535 ∧ ParseIP host ≠ [].
Proof.
  split.
  - unfold isIPAndPort. destruct (ExtractHostAndPort s (-1)) as [host port] eqn:E.
    destruct (bool_decide_reflect (ParseIP host = [])) as [|Hip]; [done|].
    destruct (Z.eqb_spec port (-1)) as [|Hport]; [done|]. destruct (ExtractHostAndPort_found _ _ _ _ E Hport) as (p & -> & Hp & Ha).
    rewrite ParseUint16_Itoa by by eapply Atoi_range. unfold between.
    destruct ((0 <=? port) && (port <=? 65535)) eqn:Eb; [|done]. intros _.
    apply andb_true_iff in Eb as [?%Z.leb_le ?%Z.leb_le]. by exists host, p, port.
  - intros (host & p & port & -> & Hp & Ha & Hport & Hip). unfold isIPAndPort.
    change (str ":" ++ p) with (58 :: p). rewrite (ExtractHostAndPort_app host p (-1) port) by done.
    rewrite bool_decide_eq_false_2 by done. rewrite (proj2 (Z.eqb_neq _ _)) by lia.
    rewrite ParseUint16_Itoa by (eapply Atoi_range; done). unfold between.
    rewrite (proj2 (Z.leb_le _ _)), (proj2 (Z.leb_le _ _)) by lia. done.
Qed.

(** [NewXTransport] does not panic if the address of the built-in resolver is one. *)
Lemma NewXTransport_ok `{NetLib} : net_ParseIP (str "9.9.9.9") ≠ [] → NewXTransport_checked = Ok NewXTransport.
Proof.
  intros Hip. unfold NewXTransport_checked. rewrite (proj2 (isIPAndPort_spec _)); [done|].
  exists (str "9.9.9.9"), (str "53"), 53. split_and!; [done| |done|done|done|].
  - cbn. set_solver by lia.
  - unfold ParseIP. by replace (TrimRight (TrimLeft (str "9.9.9.9") 91) 93) with (str "9.9.9.9") by done.
Qed.

(** Credentials. A transport is built only with the client certificate, the
    additional authorities, the cipher suites and the session tickets that are
    configured (a file that cannot be used ends the process), and HTTP/3 uses the
    same TLS configuration as HTTP/2. *)
Theorem rebuildTransport_spec env tc x h :
  rebuildTransport env tc x = Ok h →
  (tc.(tlsClientCreds).(clientCert) ≠ [] →
     h.(TLSClientConfig).(Certificates) = [(tc.(tlsClientCreds).(clientCert), tc.(tlsClientCreds).(clientKey))] ∧
     env.(te_LoadX509KeyPair) tc.(tlsClientCreds).(clientCert) tc.(tlsClientCreds).(clientKey) = None) ∧
  (tc.(tlsClientCreds).(rootCA) ≠ [] →
     ∃ pem, env.(te_ReadFile) tc.(tlsClientCreds).(rootCA) = Ok pem ∧
       h.(TLSClientConfig).(RootCAs) = Some [pem; letsEncryptX1Cert]) ∧
  h.(TLSClientConfig).(CipherSuites) = x.(tlsCipherSuite) ∧
  h.(TLSClientConfig).(SessionTicketsDisabled) = tc.(tlsDisableSessionTickets) ∧
  h.(h3Transport) = (if x.(http3) then Some h.(TLSClientConfig) else None).
Proof.
  unfold rebuildTransport. intros (pool & HP & (certs & HC & (idle & HI & [= <-])%obind_Ok)%obind_Ok)%obind_Ok. cbn.
  assert (∀ t, (tls_options tc x t).(Certificates) = t.(Certificates) ∧ (tls_options tc x t).(RootCAs) = t.(RootCAs)) as Ht.
  { intros t. unfold tls_options. by destruct (tlsDisableSessionTickets tc), (tlsCipherSuite x). }
  rewrite !(proj1 (Ht _)), !(proj2 (Ht _)). cbn. split_and!; [| | | |done].
  - intros Hc. unfold client_certificates in HC. rewrite decide_False in HC by done.
    destruct (te_LoadX509KeyPair _ _ _); [done|]. by injection HC as <-.
  - intros Hr. unfold cert_pool in HP. rewrite decide_False in HP by done.
    destruct (te_SystemCertPool env); cbn in HP; [|done].
    destruct (te_ReadFile env _) as [pem| | |]; cbn in HP; try done. injection HP as <-. by exists pem.
  - unfold tls_options. by destruct (tlsDisableSessionTickets tc), (tlsCipherSuite x).
  - unfold tls_options. by destruct (tlsDisableSessionTickets tc), (tlsCipherSuite x).
Qed.

(** A finding: the error of [http2.ConfigureTransports] is tested the wrong way
    round. The idle timeout that enables health checks of HTTP/2 connections is
    never set, and an error is a nil dereference. *)
Theorem http2_health_check_off env x :
  te_SystemCertPool env = true →
  match env.(te_ConfigureTransports) with
  | None => ∃ h, rebuildTransport env NewTransportConfig x = Ok h ∧ h.(ReadIdleTimeout) = 0
  | Some _ => rebuildTransport env NewTransportConfig x = Panic
  end.
Proof.
  intros Hp. unfold rebuildTransport, cert_pool, http2_options. cbn. rewrite Hp. cbn.
  destruct (te_ConfigureTransports env); cbn; eauto.
Qed.

(** What [pem.Decode] looks for at the end of a block. *)
Definition pemEnd : bytes := [10] ++ str "-----END ".

Fixpoint occurs (sep s : bytes) : bool :=
  HasPrefix s sep || match s with [] => false | _ :: s => occurs sep s end.

Lemma occurs_app sep l r : occurs sep (l ++ sep ++ r) = true.
Proof.
  induction l as [|c l IH]; cbn.
  - assert (HasPrefix (sep ++ r) sep = true) as Hs by (apply HasPrefix_spec; eauto).
    destruct (sep ++ r); cbn; by rewrite Hs.
  - rewrite IH. apply orb_true_r.
Qed.

(** A finding: the space before the end line of the built-in certificate hides it
    from [pem.Decode], which wants that line after a newline, so that no
    certificate is added to the pool. *)
Theorem isrg_root_never_added l r : letsEncryptX1Cert ≠ l ++ pemEnd ++ r.
Proof.
  intros E. pose proof (occurs_app pemEnd l r) as Ho. rewrite <- E in Ho.
  assert (occurs pemEnd letsEncryptX1Cert = false) as Hf by by vm_compute.
  rewrite Hf in Ho. discriminate Ho.
Qed.

(** * Concrete runs *)

Section TransportExamples.

(** Addresses are four digits or more; [9.9.9.9] is one. *)
Local Instance plain_net : NetLib := {| net_ParseIP s := if (3 <? length s)%nat then s else []; IP_String ip := filter printable ip |}.

Definition tls_env : TLSEnv := {|
  te_SystemCertPool := true; te_ReadFile f := Ok (str "PEM:" ++ f);
  te_LoadX509KeyPair _ _ := None; te_ConfigureTransports := None |}.

Definition client_auth : TransportConfig := NewTransportConfig <| tlsClientCreds :=
  {| clientCert := str "client.crt"; clientKey := str "client.key"; rootCA := str "ca.pem" |} |>.

Lemma rebuildTransport_spec_wit :
  ∃ h pem, rebuildTransport tls_env client_auth NewXTransport = Ok h ∧
    h.(TLSClientConfig).(RootCAs) = Some [pem; letsEncryptX1Cert].
Proof.
  eexists. edestruct (rebuildTransport_spec tls_env client_auth NewXTransport) as (_ & [pem [_ Hp]] & _).
  - vm_compute. reflexivity.
  - done.
  - exists pem. split; [vm_compute; reflexivity|exact Hp].
Defined.

Example isIPAndPort_examples :
  isIPAndPort (str "9.9.9.9:53") = None ∧ isIPAndPort (str "[2620:fe::fe]:53") = None ∧
  isIPAndPort (str "9.9.9.9") = Some (EMsg "Port missing") ∧
  isIPAndPort (str "9.9.9.9:65536") = Some (EMsg "Port does not parse").
Proof. by vm_compute. Qed.

End TransportExamples.
