(* ===== verification/Sockets.v ===== *)
(** The listening sockets (proxy.go, systemd_linux.go) and the change of user that
    hands them over to a child process (privilege_linux.go). *)
From S2P Require Import Prelude.
From S2P Require Import GoStrings.
From S2P Require Import Common.
From S2P Require Import ServerTypes.
From S2P Require Import DnsUtils.
From S2P Require Import XTransport.
From S2P Require Import Routes.
From S2P Require Import RewritePlugins.

Definition InheritedDescriptorsBase : Z := 50.

(** What a descriptor refers to: the log file, or a listening socket. *)
Inductive OpenFile := LogOut | UDPSock (a : Addr) | TCPSock (a : Addr).

(** The table of descriptors of a process; the flag is [FD_CLOEXEC]. *)
Abbreviation Table := (gmap Z (OpenFile * bool)).

(** The kernel gives the lowest descriptor that is free. *)
Fixpoint free_from (n : nat) (i : Z) (t : Table) : Z :=
  match n with
  | O => i
  | S n => if decide (t !! i = None) then i else free_from n (i + 1) t
  end.
Definition lowest_free (t : Table) : Z := free_from (size t) 0 t.

(** The process: its table, the globals [FileDescriptors] and [FileDescriptorNum],
    the listeners of the proxy and its captive portals. *)
Record Proc := {
  fds : Table;
  FileDescriptors : list Z;
  FileDescriptorNum : Z;
  udpListeners : list Addr;
  tcpListeners : list Addr;
  localDoHListeners : list Addr;
  p_captivePortalMap : option CaptivePortalMap
}.

#[export] Instance eta_Proc : Eta Proc := λ p, {|
  fds := p.(fds); FileDescriptors := p.(FileDescriptors); FileDescriptorNum := p.(FileDescriptorNum);
  udpListeners := p.(udpListeners); tcpListeners := p.(tcpListeners); localDoHListeners := p.(localDoHListeners);
  p_captivePortalMap := p.(p_captivePortalMap) |}.

(** A process that starts with the table [t]. *)
Definition start_proc (t : Table) : Proc := {|
  fds := t; FileDescriptors := []; FileDescriptorNum := 0; udpListeners := []; tcpListeners := []; localDoHListeners := [];
  p_captivePortalMap := None |}.

Definition registerUDPListener (a : Addr) (p : Proc) : Proc := p <| udpListeners := p.(udpListeners) ++ [a] |>.
Definition registerTCPListener (a : Addr) (p : Proc) : Proc := p <| tcpListeners := p.(tcpListeners) ++ [a] |>.
Definition registerLocalDoHListener (a : Addr) (p : Proc) : Proc := p <| localDoHListeners := p.(localDoHListeners) ++ [a] |>.

(** A new descriptor, closed on exec as all those Go opens. *)
Definition open_file (f : OpenFile) (p : Proc) : Z * Proc :=
  let fd := lowest_free p.(fds) in (fd, p <| fds := <[fd := (f, true)]> p.(fds) |>).

Definition close_file (fd : Z) (p : Proc) : Proc := p <| fds := delete fd p.(fds) |>.

Section Listening.
Context `{StampLib}.
(** The errors of the calls that open sockets. *)
Context (listen_error : OpenFile → option error).

(** A listening socket; failures are fatal in every caller. *)
Definition listen (f : OpenFile) (p : Proc) : Out (Z * Proc) :=
  match listen_error f with Some _ => Fatal | None => Ok (open_file f p) end.

(** [listener.File()]: a duplicate of the descriptor. *)
Definition File_dup (fd : Z) (p : Proc) : Out (Z * Proc) :=
  match p.(fds) !! fd with Some (f, _) => Ok (open_file f p) | None => Fatal end.

(** [net.FilePacketConn] or [net.FileListener] of the next inherited descriptor,
    which must be of that kind; both duplicate it. *)
Definition inherit (kind : OpenFile → option Addr) (p : Proc) : Out (Addr * Proc) :=
  match p.(fds) !! (InheritedDescriptorsBase + p.(FileDescriptorNum)) with
  | Some (f, _) =>
      match kind f with
      | Some a =>
          let '(_, p) := open_file f p in
          Ok (a, p <| FileDescriptorNum := p.(FileDescriptorNum) + 1 |>)
      | None => Fatal
      end
  | None => Fatal
  end.

Definition udp_kind (f : OpenFile) : option Addr := match f with UDPSock a => Some a | _ => None end.
Definition tcp_kind (f : OpenFile) : option Addr := match f with TCPSock a => Some a | _ => None end.

Definition addDNSListener (userName : bytes) (child : bool) (listenAddrStr : bytes) (p : Proc) : Out Proc :=
  let! listenUDPAddr := or_fatal (ResolveUDPAddr listenAddrStr) in
  let! listenTCPAddr := or_fatal (ResolveTCPAddr listenAddrStr) in
  if len userName <=? 0 then
    let! (_, p) := listen (UDPSock listenUDPAddr) p in
    let p := registerUDPListener listenUDPAddr p in
    let! (_, p) := listen (TCPSock listenTCPAddr) p in
    Ok (registerTCPListener listenTCPAddr p)
  else if negb child then
    let! (listenerUDP, p) := listen (UDPSock listenUDPAddr) p in
    let! (listenerTCP, p) := listen (TCPSock listenTCPAddr) p in
    let! (fdUDP, p) := File_dup listenerUDP p in
    let! (fdTCP, p) := File_dup listenerTCP p in
    let p := p <| FileDescriptors := (p.(FileDescriptors) ++ [fdUDP]) ++ [fdTCP] |> in
    Ok (close_file listenerUDP (close_file listenerTCP p))
  else
    let! (udp, p) := inherit udp_kind p in
    let! (tcp, p) := inherit tcp_kind p in
    Ok (registerTCPListener tcp (registerUDPListener udp p)).

Definition addLocalDoHListener (userName : bytes) (child : bool) (listenAddrStr : bytes) (p : Proc) : Out Proc :=
  let! listenTCPAddr := or_fatal (ResolveTCPAddr listenAddrStr) in
  if len userName <=? 0 then
    let! (_, p) := listen (TCPSock listenTCPAddr) p in
    Ok (registerLocalDoHListener listenTCPAddr p)
  else if negb child then
    let! (listenerTCP, p) := listen (TCPSock listenTCPAddr) p in
    let! (fdTCP, p) := File_dup listenerTCP p in
    let p := p <| FileDescriptors := p.(FileDescriptors) ++ [fdTCP] |> in
    Ok (close_file listenerTCP p)
  else
    let! (tcp, p) := inherit tcp_kind p in
    Ok (registerLocalDoHListener tcp p).

Fixpoint each {A} (f : A → Proc → Out Proc) (l : list A) (p : Proc) : Out Proc :=
  match l with
  | [] => Ok p
  | a :: l => let! p := f a p in each f l p
  end.

(** The sockets systemd passes, each as what it is; they exclude a change of user. *)
Definition addSystemDListeners (userName : bytes) (child : bool) (files : list OpenFile) (p : Proc) : Out Proc :=
  if (0 <? length files)%nat && ((0 <? len userName) || child) then Fatal
  else
    each (λ f p,
      match f with
      | TCPSock a => Ok (registerTCPListener a p)
      | UDPSock a => Ok (registerUDPListener a p)
      | LogOut => Ok p
      end) files p.

(** Elsewhere there is no systemd. *)
Definition addSystemDListeners_free (p : Proc) : Out Proc := Ok p.
Definition addSystemDListeners_android (p : Proc) : Out Proc := Ok p.

(** Without sockets of systemd, Linux does the same. *)
Lemma addSystemDListeners_none userName child p :
  addSystemDListeners userName child [] p = addSystemDListeners_free p ∧
  addSystemDListeners userName child [] p = addSystemDListeners_android p.
Proof. done. Qed.

(** The log file, when one is used: the parent opens it, a child inherits it. *)
Definition use_log_file (child : bool) (p : Proc) : Proc :=
  if negb child then
    let '(fd, p) := open_file LogOut p in p <| FileDescriptors := p.(FileDescriptors) ++ [fd] |>
  else p <| FileDescriptorNum := p.(FileDescriptorNum) + 1 |>.

(** The descriptors as [ConfigLoad] opens them. *)
Definition open_all (userName : bytes) (child log : bool) (listenAddresses localDoH : list bytes) (p : Proc) : Out Proc :=
  let p := if log then use_log_file child p else p in
  let! p := each (addDNSListener userName child) listenAddresses p in
  each (addLocalDoHListener userName child) localDoH p.

End Listening.

(** [startAcceptingClients]: the goroutines that serve the listeners. *)
Inductive Server := ServeUDP (a : Addr) | ServeTCP (a : Addr) | ServeDoH (a : Addr).

Definition startAcceptingClients (p : Proc) : list Server * Proc :=
  ((ServeUDP <$> p.(udpListeners)) ++ (ServeTCP <$> p.(tcpListeners)) ++ (ServeDoH <$> p.(localDoHListeners)),
   p <| udpListeners := [] |> <| tcpListeners := [] |> <| localDoHListeners := [] |>).

(** * Options of the sockets *)

(** An option: its level, its name and the value it is set to. *)
Abbreviation SockOpt := (string * string * Z)%type.

(** The [Control] function of a [net.ListenConfig], which sets options one after another and ignores
    the errors; [supported] says which options the system has. *)
Definition control (supported : string * string → bool) (opts : list SockOpt) (socket : gmap (string * string) Z)
    : gmap (string * string) Z :=
  foldl (λ m o, if supported o.1 then <[o.1 := o.2]> m else m) socket opts.

Definition udpListenerConfig_linux : list SockOpt := [
  ("IPPROTO_IP", "IP_FREEBIND", 1); ("IPPROTO_IP", "IP_DF", 0); ("IPPROTO_IP", "IP_TOS", 0x70);
  ("IPPROTO_IP", "IP_MTU_DISCOVER", 0); ("SOL_SOCKET", "SO_RCVBUFFORCE", 4096); ("SOL_SOCKET", "SO_SNDBUFFORCE", 4096)]%string.
Definition tcpListenerConfig_linux : list SockOpt := [
  ("IPPROTO_IP", "IP_FREEBIND", 1); ("IPPROTO_IP", "IP_TOS", 0x70); ("IPPROTO_TCP", "TCP_QUICKACK", 1)]%string.

Definition udpListenerConfig_freebsd : list SockOpt := [
  ("IPPROTO_IP", "IP_BINDANY", 1); ("IPPROTO_IPV6", "IPV6_BINDANY", 1); ("IPPROTO_IP", "IP_DF", 0);
  ("IPPROTO_IP", "IP_TOS", 0x70); ("SOL_SOCKET", "SO_RCVBUF", 4096); ("SOL_SOCKET", "SO_SNDBUF", 4096)]%string.
Definition tcpListenerConfig_freebsd : list SockOpt := [
  ("IPPROTO_IP", "IP_BINDANY", 1); ("IPPROTO_IPV6", "IPV6_BINDANY", 1); ("IPPROTO_IP", "IP_TOS", 0x70)]%string.

Definition udpListenerConfig_openbsd : list SockOpt := [
  ("SOL_SOCKET", "SO_BINDANY", 1); ("IPPROTO_IP", "IP_DF", 0); ("IPPROTO_IP", "IP_TOS", 0x70);
  ("SOL_SOCKET", "SO_RCVBUF", 4096); ("SOL_SOCKET", "SO_SNDBUF", 4096)]%string.
Definition tcpListenerConfig_openbsd : list SockOpt := [
  ("SOL_SOCKET", "SO_BINDANY", 1); ("IPPROTO_IP", "IP_TOS", 0x70)]%string.

Definition udpListenerConfig_darwin : list SockOpt := [
  ("IPPROTO_IP", "IP_DF", 0); ("IPPROTO_IP", "IP_TOS", 0x70); ("SOL_SOCKET", "SO_RCVBUF", 4096);
  ("SOL_SOCKET", "SO_SNDBUF", 4096)]%string.
Definition tcpListenerConfig_darwin : list SockOpt := [("IPPROTO_IP", "IP_TOS", 0x70)]%string.

Definition udpListenerConfig_windows : list SockOpt := [
  ("IPPROTO_IP", "IP_TOS", 0x70); ("SOL_SOCKET", "SO_RCVBUF", 4096); ("SOL_SOCKET", "SO_SNDBUF", 4096)]%string.
Definition tcpListenerConfig_windows : list SockOpt := [("IPPROTO_IP", "IP_TOS", 0x70)]%string.

(** The variants of a function by operating system; other systems set nothing. *)
Inductive GOOS := Linux | FreeBSD | OpenBSD | Darwin | Windows | OtherOS.

Definition udpListenerConfig (os : GOOS) : list SockOpt :=
  match os with
  | Linux => udpListenerConfig_linux
  | FreeBSD => udpListenerConfig_freebsd
  | OpenBSD => udpListenerConfig_openbsd
  | Darwin => udpListenerConfig_darwin
  | Windows => udpListenerConfig_windows
  | OtherOS => []
  end.

Definition tcpListenerConfig (os : GOOS) : list SockOpt :=
  match os with
  | Linux => tcpListenerConfig_linux
  | FreeBSD => tcpListenerConfig_freebsd
  | OpenBSD => tcpListenerConfig_openbsd
  | Darwin => tcpListenerConfig_darwin
  | Windows => tcpListenerConfig_windows
  | OtherOS => []
  end.

(** * Change of user *)

Record Credentials := { cr_uid : Z; cr_gid : Z; cr_groups : list Z }.

(** What [dropPrivilege] asks: the current user, the user and group of a name (as
    text), whether the executable is found, and whether the service manager could
    be notified. *)
Record PrivilegeEnv := {
  pe_Current : option error;
  pe_Lookup : bytes → option (bytes * bytes);
  pe_executable : option error;
  pe_notify : option error;
  pe_exec : option error
}.

(** The calls that change the credentials are those of a privileged process. *)
Definition as_root (f : Credentials → Credentials) (c : Credentials) : Out Credentials :=
  if c.(cr_uid) =? 0 then Ok (f c) else Fatal.

(** [dup2(fd, to)], then [fcntl(fd, F_SETFD, FD_CLOEXEC)]. *)
Definition hand_over (fd to : Z) (t : Table) : Out Table :=
  match t !! fd with
  | Some (f, _) => Ok (<[fd := (f, true)]> (<[to := (f, false)]> t))
  | None => Fatal
  end.

Fixpoint hand_over_all (i : Z) (l : list Z) (t : Table) : Out Table :=
  match l with
  | [] => Ok t
  | fd :: l =>
      if InheritedDescriptorsBase <=? fd then Fatal
      else
        let! t := hand_over fd (InheritedDescriptorsBase + i) t in
        hand_over_all (i + 1) l t
  end.

(** The user to become: one the system knows, or else a number. *)
Definition lookup_user (env : PrivilegeEnv) (userStr : bytes) : Out (bytes * bytes) :=
  match env.(pe_Lookup) userStr with
  | Some u => Ok u
  | None =>
      match Atoi userStr with
      | Some uid => if uid <=? 0 then Fatal else Ok (userStr, userStr)
      | None => Fatal
      end
  end.

(** [SYS_SETGROUPS] with no group, [SYS_SETGID] and [SYS_SETUID], made directly. *)
Definition raw_setgroups : Credentials → Out Credentials :=
  as_root (λ c, {| cr_uid := c.(cr_uid); cr_gid := c.(cr_gid); cr_groups := [] |}).
Definition raw_setgid (gid : Z) : Credentials → Out Credentials :=
  as_root (λ c, {| cr_uid := c.(cr_uid); cr_gid := u32 gid; cr_groups := c.(cr_groups) |}).
Definition raw_setuid (uid : Z) : Credentials → Out Credentials :=
  as_root (λ c, {| cr_uid := u32 uid; cr_gid := c.(cr_gid); cr_groups := c.(cr_groups) |}).

(** [dropPrivilege]: the credentials and the table the executable is started again
    with, which has the descriptors that are not closed on exec. A nil user after an error
    of [user.Current] is dereferenced. *)
Definition dropPrivilege (env : PrivilegeEnv) (userStr : bytes) (descriptors : list Z) (c : Credentials) (t : Table)
    : Out (Credentials * Table) :=
  match env.(pe_Current) with
  | Some _ => Panic
  | None =>
      let! (Uid, Gid) := lookup_user env userStr in
      match Atoi Uid, Atoi Gid, env.(pe_executable), env.(pe_notify) with
      | Some uid, Some gid, None, None =>
          let! c := raw_setgroups c in
          let! c := raw_setgid gid c in
          let! c := raw_setuid uid c in
          let! t := hand_over_all 0 descriptors t in
          match env.(pe_exec) with
          | Some _ => Fatal
          | None => Ok (c, filter (λ e, e.2.2 = false) t)
          end
      | _, _, _, _ => Fatal
      end
  end.

(** On other systems the functions of [unix] are called: [Setgroups] takes the list of
    groups, and the identifiers have the width of the system's. *)
Definition unix_Setgroups (gids : list Z) : Credentials → Out Credentials :=
  as_root (λ c, {| cr_uid := c.(cr_uid); cr_gid := c.(cr_gid); cr_groups := u32 <$> gids |}).
Definition unix_Setgid (gid : Z) : Credentials → Out Credentials :=
  as_root (λ c, {| cr_uid := c.(cr_uid); cr_gid := u32 gid; cr_groups := c.(cr_groups) |}).
Definition unix_Setuid (uid : Z) : Credentials → Out Credentials :=
  as_root (λ c, {| cr_uid := u32 uid; cr_gid := c.(cr_gid); cr_groups := c.(cr_groups) |}).

Definition dropPrivilege_others (env : PrivilegeEnv) (userStr : bytes) (descriptors : list Z) (c : Credentials) (t : Table)
    : Out (Credentials * Table) :=
  match env.(pe_Current) with
  | Some _ => Panic
  | None =>
      let! (Uid, Gid) := lookup_user env userStr in
      match Atoi Uid, Atoi Gid, env.(pe_executable), env.(pe_notify) with
      | Some uid, Some gid, None, None =>
          let! c := unix_Setgroups [] c in
          let! c := unix_Setgid gid c in
          let! c := unix_Setuid uid c in
          let! t := hand_over_all 0 descriptors t in
          match env.(pe_exec) with
          | Some _ => Fatal
          | None => Ok (c, filter (λ e, e.2.2 = false) t)
          end
      | _, _, _, _ => Fatal
      end
  end.

(** * Lemmas *)

Lemma free_from_spec n i t :
  t !! free_from n i t = None ∨ ∀ j, i ≤ j ≤ i + Z.of_nat n → t !! j ≠ None.
Proof.
  revert i. induction n as [|n IH]; intros i; cbn [free_from].
  { destruct (t !! i) eqn:E; [right|by left]. intros j Hj. replace j with i by lia. by rewrite E. }
  destruct (decide (t !! i = None)) as [|Hi]; [by left|].
  destruct (IH (i + 1)) as [|Hn]; [by left|right]. intros j Hj.
  destruct (decide (j = i)) as [->|]; [done|]. apply Hn. lia.
Qed.

(** There is always a free descriptor among the first ones. *)
Lemma lowest_free_fresh t : t !! lowest_free t = None.
Proof.
  unfold lowest_free. destruct (free_from_spec (size t) 0 t) as [|Hall]; [done|exfalso].
  assert (list_to_set (seqZ 0 (Z.of_nat (size t) + 1)) ⊆ dom t) as Hsub.
  { intros j [Hj1 Hj2]%elem_of_list_to_set%elem_of_seqZ. apply elem_of_dom, not_eq_None_Some, Hall. lia. }
  apply subseteq_size in Hsub. rewrite size_list_to_set, length_seqZ, size_dom in Hsub by apply NoDup_seqZ. lia.
Qed.

Section ListenLemmas.
Context `{StampLib} (listen_error : OpenFile → option error).
Implicit Types (p q : Proc).

(** The files of a list of descriptors. *)
Definition holds (t : Table) (l : list Z) (files : list OpenFile) : Prop :=
  Forall2 (λ fd f, t !! fd = Some (f, true)) l files.

Lemma holds_insert t l files fd e : t !! fd = None → holds t l files → holds (<[fd := e]> t) l files.
Proof.
  intros Hf Hh. eapply Forall2_impl; [|exact Hh]. cbn. intros fd' f' Hfd'.
  rewrite lookup_insert_ne; [done|]. intros ->. congruence.
Qed.

Lemma holds_delete t l files fd : fd ∉ l → holds t l files → holds (delete fd t) l files.
Proof.
  intros Hf Hh. induction Hh as [|fd' f l files Hfd Hh IH]; [constructor|].
  apply not_elem_of_cons in Hf as [Hne Hn]. constructor; [by rewrite lookup_delete_ne|by apply IH].
Qed.

Lemma holds_fresh t l files fd : t !! fd = None → holds t l files → fd ∉ l.
Proof.
  intros Hf Hh Hin. apply list_elem_of_lookup in Hin as [i Hi].
  destruct (Forall2_lookup_l _ _ _ _ _ Hh Hi) as (f & _ & Hl). congruence.
Qed.

(** The sockets of the addresses [l], which can be opened. *)
Fixpoint dns_socks (l : list bytes) (socks : list (Addr * Addr)) : Prop :=
  match l, socks with
  | [], [] => True
  | s :: l, (u, t) :: socks =>
      ResolveUDPAddr s = Ok u ∧ ResolveTCPAddr s = Ok t ∧
      listen_error (UDPSock u) = None ∧ listen_error (TCPSock t) = None ∧ dns_socks l socks
  | _, _ => False
  end.

Fixpoint doh_socks (l : list bytes) (socks : list Addr) : Prop :=
  match l, socks with
  | [], [] => True
  | s :: l, t :: socks => ResolveTCPAddr s = Ok t ∧ listen_error (TCPSock t) = None ∧ doh_socks l socks
  | _, _ => False
  end.

Definition dns_files (socks : list (Addr * Addr)) : list OpenFile :=
  flat_map (λ s : Addr * Addr, [UDPSock s.1; TCPSock s.2]) socks.

(** One listener of the parent: two descriptors more to hand over, or one. *)
Lemma addDNSListener_parent u s p q files :
  0 < len u → holds p.(fds) p.(FileDescriptors) files → addDNSListener listen_error u false s p = Ok q →
  ∃ a b, ResolveUDPAddr s = Ok a ∧ ResolveTCPAddr s = Ok b ∧
    listen_error (UDPSock a) = None ∧ listen_error (TCPSock b) = None ∧
    holds q.(fds) q.(FileDescriptors) (files ++ [UDPSock a; TCPSock b]).
Proof.
  intros Hu Hh. unfold addDNSListener. rewrite (proj2 (Z.leb_gt _ _)) by done. cbn [negb].
  intros (a & Ha%or_fatal_Ok & (b & Hb%or_fatal_Ok & HL)%obind_Ok)%obind_Ok. unfold listen in HL.
  destruct (listen_error (UDPSock a)) eqn:La, (listen_error (TCPSock b)) eqn:Lb; cbn in HL; try done.
  set (t0 := fds p) in *. set (i := lowest_free t0) in *. set (t1 := <[i := (UDPSock a, true)]> t0) in *.
  set (j := lowest_free t1) in *. set (t2 := <[j := (TCPSock b, true)]> t1) in *.
  pose proof (lowest_free_fresh t0 : t0 !! i = None) as Hi. pose proof (lowest_free_fresh t1 : t1 !! j = None) as Hj.
  assert (i ≠ j) as Hij by (intros E; rewrite <-E in Hj; unfold t1 in Hj; by rewrite lookup_insert_eq in Hj).
  unfold File_dup in HL. cbn in HL. fold t0 i t1 j t2 in HL.
  assert (t2 !! i = Some (UDPSock a, true)) as H2i by (unfold t2, t1; by rewrite lookup_insert_ne, lookup_insert_eq).
  rewrite H2i in HL. cbn in HL. set (c := lowest_free t2) in *. set (t3 := <[c := (UDPSock a, true)]> t2) in *.
  pose proof (lowest_free_fresh t2 : t2 !! c = None) as Hc.
  assert (t2 !! j = Some (TCPSock b, true)) as H2j by (unfold t2; by rewrite lookup_insert_eq).
  assert (c ≠ i ∧ c ≠ j) as [Hci Hcj] by (split; congruence).
  assert (t3 !! j = Some (TCPSock b, true)) as H3j by (unfold t3; by rewrite lookup_insert_ne).
  rewrite H3j in HL. cbn in HL. set (d := lowest_free t3) in *. pose proof (lowest_free_fresh t3 : t3 !! d = None) as Hd.
  assert (t3 !! i = Some (UDPSock a, true)) as H3i by (unfold t3; by rewrite lookup_insert_ne).
  assert (t3 !! c = Some (UDPSock a, true)) as H3c by (unfold t3; by rewrite lookup_insert_eq).
  injection HL as <-. cbn. exists a, b. rewrite <-app_assoc. split_and!; [done..|].
  pose proof (holds_fresh _ _ _ _ Hi Hh) as Hil.
  assert (holds t1 (FileDescriptors p) files) as Hh1 by by apply holds_insert.
  pose proof (holds_fresh _ _ _ _ Hj Hh1) as Hjl.
  apply holds_delete; [set_solver by congruence|]. apply holds_delete; [set_solver by congruence|].
  apply Forall2_app.
  - apply holds_insert; [done|]. apply holds_insert; [done|]. by apply holds_insert.
  - constructor; [|constructor; [by rewrite lookup_insert_eq|constructor]]. rewrite lookup_insert_ne by congruence. done.
Qed.

Lemma addLocalDoHListener_parent u s p q files :
  0 < len u → holds p.(fds) p.(FileDescriptors) files → addLocalDoHListener listen_error u false s p = Ok q →
  ∃ b, ResolveTCPAddr s = Ok b ∧ listen_error (TCPSock b) = None ∧ holds q.(fds) q.(FileDescriptors) (files ++ [TCPSock b]).
Proof.
  intros Hu Hh. unfold addLocalDoHListener. rewrite (proj2 (Z.leb_gt _ _)) by done. cbn [negb].
  intros (b & Hb%or_fatal_Ok & HL)%obind_Ok. unfold listen in HL. destruct (listen_error (TCPSock b)) eqn:Lb; cbn in HL; [done|].
  set (t0 := fds p) in *. set (i := lowest_free t0) in *. set (t1 := <[i := (TCPSock b, true)]> t0) in *.
  pose proof (lowest_free_fresh t0 : t0 !! i = None) as Hi.
  unfold File_dup in HL. cbn in HL. fold t0 i t1 in HL.
  assert (t1 !! i = Some (TCPSock b, true)) as H1i by (unfold t1; by rewrite lookup_insert_eq).
  rewrite H1i in HL. cbn in HL. set (c := lowest_free t1) in *. pose proof (lowest_free_fresh t1 : t1 !! c = None) as Hc.
  injection HL as <-. cbn. exists b. split_and!; [done..|]. pose proof (holds_fresh _ _ _ _ Hi Hh) as Hil.
  apply holds_delete; [set_solver by congruence|]. apply Forall2_app.
  - apply holds_insert; [done|]. by apply holds_insert.
  - constructor; [by rewrite lookup_insert_eq|constructor].
Qed.

Lemma each_dns_parent u l p q files :
  0 < len u → holds p.(fds) p.(FileDescriptors) files → each (addDNSListener listen_error u false) l p = Ok q →
  ∃ socks, dns_socks l socks ∧ holds q.(fds) q.(FileDescriptors) (files ++ dns_files socks).
Proof.
  intros Hu. revert p files. induction l as [|s l IH]; intros p files Hh; cbn [each].
  { intros [= <-]. exists []. by rewrite app_nil_r. }
  intros (p1 & H1 & H2)%obind_Ok. destruct (addDNSListener_parent _ _ _ _ _ Hu Hh H1) as (a & b & Ha & Hb & La & Lb & Hh1).
  destruct (IH _ _ Hh1 H2) as (socks & Hs & Hq). exists ((a, b) :: socks). split; [done|].
  by rewrite <-app_assoc in Hq.
Qed.

Lemma each_doh_parent u l p q files :
  0 < len u → holds p.(fds) p.(FileDescriptors) files → each (addLocalDoHListener listen_error u false) l p = Ok q →
  ∃ socks, doh_socks l socks ∧ holds q.(fds) q.(FileDescriptors) (files ++ (TCPSock <$> socks)).
Proof.
  intros Hu. revert p files. induction l as [|s l IH]; intros p files Hh; cbn [each].
  { intros [= <-]. exists []. by rewrite app_nil_r. }
  intros (p1 & H1 & H2)%obind_Ok. destruct (addLocalDoHListener_parent _ _ _ _ _ Hu Hh H1) as (b & Hb & Lb & Hh1).
  destruct (IH _ _ Hh1 H2) as (socks & Hs & Hq). exists (b :: socks). split; [done|].
  by rewrite <-app_assoc in Hq.
Qed.

Definition log_files (log : bool) : list OpenFile := if log then [LogOut] else [].

(** The descriptors the parent is to hand over, in order. *)
Lemma open_all_parent u log la ld t q :
  0 < len u → open_all listen_error u false log la ld (start_proc t) = Ok q →
  ∃ socks dohs, dns_socks la socks ∧ doh_socks ld dohs ∧
    holds q.(fds) q.(FileDescriptors) (log_files log ++ dns_files socks ++ (TCPSock <$> dohs)).
Proof.
  intros Hu. unfold open_all.
  assert (∀ p0, p0 = (if log then use_log_file false (start_proc t) else start_proc t) →
            holds p0.(fds) p0.(FileDescriptors) (log_files log)) as H0.
  { intros p0 ->. destruct log; cbn; [|constructor]. constructor; [by rewrite lookup_insert_eq|constructor]. }
  intros (p1 & H1 & H2)%obind_Ok.
  destruct (each_dns_parent _ _ _ _ _ Hu (H0 _ eq_refl) H1) as (socks & Hs & Hh1).
  destruct (each_doh_parent _ _ _ _ _ Hu Hh1 H2) as (dohs & Hd & Hh2).
  exists socks, dohs. by rewrite <-app_assoc in Hh2.
Qed.

(** The descriptors that wait for a child from position [n] on. *)
Definition offers (t : Table) (n : Z) (files : list OpenFile) : Prop :=
  ∀ i f, files !! i = Some f → ∃ b, t !! (InheritedDescriptorsBase + n + Z.of_nat i) = Some (f, b).

Lemma offers_tail t n f files : offers t n (f :: files) → offers t (n + 1) files.
Proof.
  intros Ho i g Hi. destruct (Ho (S i) g Hi) as [b Hb]. exists b. rewrite <-Hb. f_equal. lia.
Qed.

Lemma inherit_Ok kind f a p files :
  kind f = Some a → offers p.(fds) p.(FileDescriptorNum) (f :: files) →
  ∃ t, inherit kind p = Ok (a, p <| fds := t |> <| FileDescriptorNum := p.(FileDescriptorNum) + 1 |>) ∧
    offers t (p.(FileDescriptorNum) + 1) files.
Proof.
  intros Hk Ho. destruct (Ho 0%nat f eq_refl) as [b Hb]. rewrite Z.add_0_r in Hb.
  unfold inherit. rewrite Hb, Hk. eexists. split; [done|].
  intros i g Hi. destruct (offers_tail _ _ _ _ Ho i g Hi) as [b' Hb']. exists b'.
  rewrite lookup_insert_ne; [done|]. intros E. rewrite <-E in Hb'. by rewrite lowest_free_fresh in Hb'.
Qed.

Lemma each_dns_child u l socks p rest :
  0 < len u → dns_socks l socks → offers p.(fds) p.(FileDescriptorNum) (dns_files socks ++ rest) →
  ∃ q, each (addDNSListener listen_error u true) l p = Ok q ∧ offers q.(fds) q.(FileDescriptorNum) rest ∧
    q.(udpListeners) = p.(udpListeners) ++ socks.*1 ∧ q.(tcpListeners) = p.(tcpListeners) ++ socks.*2 ∧
    q.(localDoHListeners) = p.(localDoHListeners).
Proof.
  intros Hu. revert socks p. induction l as [|s l IH]; intros [|[a b] socks] p Hs Ho; cbn in Hs; try done.
  { exists p. by rewrite !app_nil_r. }
  destruct Hs as (Ha & Hb & _ & _ & Hs). cbn [each]. unfold addDNSListener at 1. rewrite Ha, Hb. cbn [or_fatal obind].
  rewrite (proj2 (Z.leb_gt _ _)) by done. cbn [negb].
  destruct (inherit_Ok udp_kind (UDPSock a) a p _ eq_refl Ho) as (t1 & E1 & O1). rewrite E1. cbn [obind].
  set (p1 := p <| fds := t1 |> <| FileDescriptorNum := _ |>).
  destruct (inherit_Ok tcp_kind (TCPSock b) b p1 _ eq_refl O1) as (t2 & E2 & O2). rewrite E2. cbn [obind].
  set (p2 := registerTCPListener _ _). destruct (IH socks p2 Hs O2) as (q & Hq & Oq & U & T & D). exists q. split_and!; [exact Hq|done|..|by rewrite D].
  - rewrite U. cbn. by rewrite <-app_assoc.
  - rewrite T. cbn. by rewrite <-app_assoc.
Qed.

Lemma each_doh_child u l socks p rest :
  0 < len u → doh_socks l socks → offers p.(fds) p.(FileDescriptorNum) ((TCPSock <$> socks) ++ rest) →
  ∃ q, each (addLocalDoHListener listen_error u true) l p = Ok q ∧
    q.(udpListeners) = p.(udpListeners) ∧ q.(tcpListeners) = p.(tcpListeners) ∧
    q.(localDoHListeners) = p.(localDoHListeners) ++ socks.
Proof.
  intros Hu. revert socks p. induction l as [|s l IH]; intros [|b socks] p Hs Ho; cbn in Hs; try done.
  { exists p. by rewrite !app_nil_r. }
  destruct Hs as (Hb & _ & Hs). cbn [each]. unfold addLocalDoHListener at 1. rewrite Hb. cbn [or_fatal obind].
  rewrite (proj2 (Z.leb_gt _ _)) by done. cbn [negb].
  destruct (inherit_Ok tcp_kind (TCPSock b) b p _ eq_refl Ho) as (t1 & E1 & O1). rewrite E1. cbn [obind].
  set (p1 := registerLocalDoHListener _ _). destruct (IH socks p1 Hs O1) as (q & Hq & U & T & D). exists q. split_and!; [exact Hq|done..|].
  rewrite D. cbn. by rewrite <-app_assoc.
Qed.

(** ** The hand-over *)

Lemma hand_over_low l i t t' : hand_over_all i l t = Ok t' → Forall (λ fd, fd < InheritedDescriptorsBase) l.
Proof.
  revert i t. induction l as [|fd l IH]; intros i t; cbn [hand_over_all]; [constructor|].
  destruct (Z.leb_spec InheritedDescriptorsBase fd); [done|]. intros (t1 & _ & Ht)%obind_Ok. constructor; [done|]. by eapply IH.
Qed.

Lemma hand_over_all_spec l i t t' files :
  0 ≤ i → holds t l files → hand_over_all i l t = Ok t' →
  (∀ k f, files !! k = Some f → t' !! (InheritedDescriptorsBase + i + Z.of_nat k) = Some (f, false)) ∧
  (∀ fd, InheritedDescriptorsBase ≤ fd < InheritedDescriptorsBase + i → t' !! fd = t !! fd) ∧
  (∀ fd e, fd < InheritedDescriptorsBase → t !! fd = Some (e, true) → t' !! fd = Some (e, true)).
Proof.
  intros Hi Hh. revert i t Hi Hh. revert files. induction l as [|fd l IH]; intros files i t Hi Hh; cbn [hand_over_all].
  { intros [= <-]. inversion Hh. split_and!; [by intros k f Hk|done|done]. }
  destruct (Z.leb_spec InheritedDescriptorsBase fd) as [|Hfd]; [done|]. inversion Hh as [|? f ? files' Hf Hh']; subst.
  unfold hand_over. rewrite Hf. cbn [obind]. intros Hrest.
  set (to := InheritedDescriptorsBase + i) in *. set (t1 := <[fd := (f, true)]> (<[to := (f, false)]> t)) in *.
  assert (∀ fd' e, fd' < InheritedDescriptorsBase → t !! fd' = Some (e, true) → t1 !! fd' = Some (e, true)) as Hkeep.
  { intros fd' e Hlt He. unfold t1. destruct (decide (fd' = fd)) as [->|]; [rewrite lookup_insert_eq; congruence|].
    rewrite !lookup_insert_ne by lia. done. }
  assert (holds t1 l files') as Hh1.
  { assert (Forall (λ x, x < InheritedDescriptorsBase) l) as Hlt by (eapply hand_over_low; exact Hrest).
    clear -Hkeep Hh' Hlt. induction Hh'; [constructor|]. inversion Hlt; subst. constructor; [by apply Hkeep|by apply IHHh']. }
  destruct (IH files' (i + 1) t1 ltac:(lia) Hh1 Hrest) as (IH1 & IH2 & IH3). split_and!.
  - intros [|k] f' Hk; cbn in Hk.
    + injection Hk as <-. rewrite Z.add_0_r, IH2 by lia. unfold t1. by rewrite lookup_insert_ne, lookup_insert_eq by lia.
    + rewrite <-(IH1 k f' Hk). f_equal. lia.
  - intros fd' Hfd'. rewrite IH2 by lia. unfold t1. by rewrite !lookup_insert_ne by lia.
  - intros fd' e Hlt He. apply IH3; [done|]. by apply Hkeep.
Qed.

Lemma each_dns_plain l socks p :
  dns_socks l socks →
  ∃ q, each (addDNSListener listen_error [] false) l p = Ok q ∧
    q.(udpListeners) = p.(udpListeners) ++ socks.*1 ∧ q.(tcpListeners) = p.(tcpListeners) ++ socks.*2 ∧
    q.(localDoHListeners) = p.(localDoHListeners).
Proof.
  revert socks p. induction l as [|s l IH]; intros [|[a b] socks] p Hs; cbn in Hs; try done.
  { exists p. by rewrite !app_nil_r. }
  destruct Hs as (Ha & Hb & La & Lb & Hs). cbn [each]. unfold addDNSListener at 1, listen. rewrite Ha, Hb. cbn [or_fatal obind].
  change (len [] <=? 0) with true. cbn iota. rewrite La, Lb. cbn [obind open_file].
  set (p1 := registerTCPListener _ _). destruct (IH socks p1 Hs) as (q & Hq & U & T & D).
  exists q. split_and!; [exact Hq| | |by rewrite D]; [rewrite U|rewrite T]; cbn; by rewrite <-app_assoc.
Qed.

Lemma each_doh_plain l socks p :
  doh_socks l socks →
  ∃ q, each (addLocalDoHListener listen_error [] false) l p = Ok q ∧
    q.(udpListeners) = p.(udpListeners) ∧ q.(tcpListeners) = p.(tcpListeners) ∧
    q.(localDoHListeners) = p.(localDoHListeners) ++ socks.
Proof.
  revert socks p. induction l as [|s l IH]; intros [|b socks] p Hs; cbn in Hs; try done.
  { exists p. by rewrite !app_nil_r. }
  destruct Hs as (Hb & Lb & Hs). cbn [each]. unfold addLocalDoHListener at 1, listen. rewrite Hb. cbn [or_fatal obind].
  change (len [] <=? 0) with true. cbn iota. rewrite Lb. cbn [obind open_file].
  set (p1 := registerLocalDoHListener _ _). destruct (IH socks p1 Hs) as (q & Hq & U & T & D).
  exists q. split_and!; [exact Hq|done..|]. rewrite D. cbn. by rewrite <-app_assoc.
Qed.

Lemma dropPrivilege_table env u l c t c' t' files :
  holds t l files → dropPrivilege env u l c t = Ok (c', t') → offers t' 0 files.
Proof.
  intros Hh. unfold dropPrivilege. destruct (pe_Current env); [done|]. intros ([Uid Gid] & _ & HD)%obind_Ok.
  destruct (Atoi Uid), (Atoi Gid), (pe_executable env), (pe_notify env); try done.
  apply obind_Ok in HD as (c1 & _ & (c2 & _ & (c3 & _ & (t1 & Ht & HE)%obind_Ok)%obind_Ok)%obind_Ok).
  destruct (pe_exec env); [done|]. injection HE as _ <-.
  destruct (hand_over_all_spec _ _ _ _ _ (Z.le_refl 0) Hh Ht) as (Ho & _ & _).
  intros i f Hi. exists false. apply map_lookup_filter_Some. split; [by apply Ho|done].
Qed.

Definition listeners p : list Addr * list Addr * list Addr := (p.(udpListeners), p.(tcpListeners), p.(localDoHListeners)).

(** C18: a change of user is transparent. When the parent opened its sockets and
    handed them over, the child process (same configuration, empty table but for
    what it inherits) gets all of them, in the order in which a process that never changes
    its user would have them. *)
Theorem child_listens_like_plain env u log la ld t parent c c' t' :
  0 < len u →
  open_all listen_error u false log la ld (start_proc t) = Ok parent →
  dropPrivilege env u parent.(FileDescriptors) c parent.(fds) = Ok (c', t') →
  ∃ child plain,
    open_all listen_error u true log la ld (start_proc t') = Ok child ∧
    open_all listen_error [] false log la ld (start_proc t) = Ok plain ∧
    listeners child = listeners plain.
Proof.
  intros Hu HP HD. destruct (open_all_parent _ _ _ _ _ _ Hu HP) as (socks & dohs & Hs & Hd & Hh).
  pose proof (dropPrivilege_table _ _ _ _ _ _ _ _ Hh HD) as Ho. unfold open_all.
  set (p0 := if log then use_log_file true (start_proc t') else start_proc t').
  assert (offers p0.(fds) p0.(FileDescriptorNum) (dns_files socks ++ (TCPSock <$> dohs) ++ []) ∧ listeners p0 = ([], [], [])) as [O0 L0].
  { rewrite app_nil_r. unfold p0. destruct log; (split; [|done]); [by apply (offers_tail _ _ LogOut)|done]. }
  destruct (each_dns_child u la socks p0 _ Hu Hs O0) as (p1 & E1 & O1 & U1 & T1 & D1). rewrite E1. cbn [obind].
  destruct (each_doh_child u ld dohs p1 _ Hu Hd O1) as (p2 & E2 & U2 & T2 & D2).
  set (q0 := if log then use_log_file false (start_proc t) else start_proc t).
  assert (listeners q0 = ([], [], [])) as M0 by (unfold q0; by destruct log).
  destruct (each_dns_plain la socks q0 Hs) as (q1 & F1 & V1 & W1 & X1). rewrite F1. cbn [obind].
  destruct (each_doh_plain ld dohs q1 Hd) as (q2 & F2 & V2 & W2 & X2).
  exists p2, q2. split_and!; [done..|]. unfold listeners in *. congruence.
Qed.

End ListenLemmas.

(** Only a privileged process can change its user. *)
Lemma dropPrivilege_root env u l c t r : dropPrivilege env u l c t = Ok r → c.(cr_uid) = 0.
Proof.
  unfold dropPrivilege. destruct (pe_Current env); [done|]. intros ([Uid Gid] & _ & HD)%obind_Ok.
  destruct (Atoi Uid), (Atoi Gid), (pe_executable env), (pe_notify env); try done.
  apply obind_Ok in HD as (c1 & HS & _). unfold raw_setgroups, as_root in HS. by destruct (Z.eqb_spec (cr_uid c) 0).
Qed.

(** What holds of one variant holds of the other. *)
Lemma dropPrivilege_variants env u l c t : dropPrivilege_others env u l c t = dropPrivilege env u l c t.
Proof. done. Qed.

(** The child runs with the user and the group that are configured, and no other
    group; this needs a privileged parent. The user is one that the system knows,
    or else a positive number. *)
Theorem dropPrivilege_spec env u l c t c' t' :
  dropPrivilege env u l c t = Ok (c', t') →
  c.(cr_uid) = 0 ∧ c'.(cr_groups) = [] ∧
  ∃ Uid Gid uid gid, Atoi Uid = Some uid ∧ Atoi Gid = Some gid ∧ c'.(cr_uid) = u32 uid ∧ c'.(cr_gid) = u32 gid ∧
    (env.(pe_Lookup) u = Some (Uid, Gid) ∨ env.(pe_Lookup) u = None ∧ Uid = u ∧ Gid = u ∧ 0 < uid).
Proof.
  unfold dropPrivilege. destruct (pe_Current env); [done|]. intros ([Uid Gid] & HL & HD)%obind_Ok.
  destruct (Atoi Uid) as [uid|] eqn:Hu, (Atoi Gid) as [gid|] eqn:Hg, (pe_executable env), (pe_notify env); try done.
  apply obind_Ok in HD as (c1 & H1 & (c2 & H2 & (c3 & H3 & (t1 & _ & HE)%obind_Ok)%obind_Ok)%obind_Ok).
  destruct (pe_exec env); [done|]. injection HE as <- _. unfold raw_setgroups, raw_setgid, raw_setuid, as_root, lookup_user in *.
  destruct (Z.eqb_spec (cr_uid c) 0) as [Hr|]; [|done]. injection H1 as <-. cbn in H2. rewrite Hr in H2. injection H2 as <-.
  cbn in H3. injection H3 as <-. split_and!; [done..|]. exists Uid, Gid, uid, gid. split_and!; [done..|].
  destruct (pe_Lookup env u) as [[U G]|]; [left; congruence|right].
  destruct (Atoi u) as [n|] eqn:Ha; [|done]. destruct (Z.leb_spec n 0); [done|]. injection HL as <- <-.
  split_and!; [done..|]. congruence.
Qed.

(** ** Options *)

(** What a socket has afterwards: the last value of each option that the system has,
    and what it had of the others. *)
Lemma control_lookup supported opts socket k :
  NoDup opts.*1 →
  control supported opts socket !! k =
    match list_find (λ o, o.1 = k) opts with
    | Some (_, o) => if supported k then Some o.2 else socket !! k
    | None => socket !! k
    end.
Proof.
  unfold control. revert socket. induction opts as [|o opts IH]; intros socket Hn; [done|].
  cbn [foldl fmap list_fmap] in *. apply list.NoDup_cons in Hn as [Ho Hn]. rewrite IH by done. cbn [list_find].
  destruct (decide (o.1 = k)) as [<-|Hne].
  - destruct (list_find _ opts) as [[i o']|] eqn:Hf; cbn.
    + exfalso. apply Ho. apply list_find_Some in Hf as (Hi & He & _). rewrite <-He. apply list_elem_of_fmap.
      exists o'. split; [done|]. by eapply list_elem_of_lookup_2.
    + destruct (supported o.1); [by rewrite lookup_insert_eq|done].
  - assert ((if supported o.1 then <[o.1 := o.2]> socket else socket) !! k = socket !! k) as ->
      by (destruct (supported o.1); [by rewrite lookup_insert_ne|done]).
    by destruct (list_find _ opts) as [[i o']|].
Qed.

(** No variant sets an option twice, and the type of service is set by all of them:
    over UDP and TCP alike where the system has the option. *)
Theorem type_of_service os supported socket :
  os ≠ OtherOS → supported ("IPPROTO_IP", "IP_TOS")%string = true →
  control supported (udpListenerConfig os) socket !! ("IPPROTO_IP", "IP_TOS")%string = Some 0x70 ∧
  control supported (tcpListenerConfig os) socket !! ("IPPROTO_IP", "IP_TOS")%string = Some 0x70.
Proof.
  intros Hos Hs.
  assert (NoDup (udpListenerConfig os).*1 ∧ NoDup (tcpListenerConfig os).*1) as [Hu Ht]
    by (destruct os; split; by apply (bool_decide_unpack _); vm_compute).
  rewrite (control_lookup _ _ _ _ Hu), (control_lookup _ _ _ _ Ht), Hs. by destruct os.
Qed.

(** A finding: [IP_DF] is a bit of the header, not an option. On a system that has no
    option of that number the flag that forbids fragments is what it was, except on Linux, where another option sets it. *)
Theorem dont_fragment_untouched os supported socket :
  os ≠ Linux → supported ("IPPROTO_IP", "IP_DF")%string = false →
  ∀ k, k ∈ [("IPPROTO_IP", "IP_DF"); ("IPPROTO_IP", "IP_DONTFRAG"); ("IPPROTO_IP", "IP_MTU_DISCOVER")]%string →
    control supported (udpListenerConfig os) socket !! k = socket !! k.
Proof.
  intros Hos Hs k Hk.
  assert (NoDup (udpListenerConfig os).*1) as Hu by (destruct os; by apply (bool_decide_unpack _); vm_compute).
  rewrite (control_lookup _ _ _ _ Hu). rewrite !elem_of_cons in Hk.
  destruct Hk as [->|[->|[->|Hk%elem_of_nil]]]; [rewrite Hs|..|done]; by destruct os.
Qed.

(** * Concrete runs *)

Section SocketExamples.

Local Instance any_address : StampLib := {|
  NewServerStampFromString _ := Err (EMsg ""); ResolveUDPAddr s := Ok {| addr_IP := s; addr_Port := 53 |};
  ResolveTCPAddr s := Ok {| addr_IP := s; addr_Port := 53 |}; PathEscape s := s; url_Parse _ := Err (EMsg "") |}.

Definition nobody : PrivilegeEnv := {|
  pe_Current := None; pe_Lookup u := if decide (u = str "nobody") then Some (str "65534", str "65533") else None;
  pe_executable := None; pe_notify := None; pe_exec := None |}.

Definition root : Credentials := {| cr_uid := 0; cr_gid := 0; cr_groups := [0] |}.

(** Standard input, output and error are open. *)
Definition three_files : Table := {[ 0 := (LogOut, false); 1 := (LogOut, false); 2 := (LogOut, false) ]}.

Definition run_parent : Out Proc :=
  open_all (λ _, None) (str "nobody") false true [str "127.0.0.1:53"; str "[::1]:53"] [str "127.0.0.1:443"] (start_proc three_files).

Definition parent_or : Proc := match run_parent with Ok p => p | _ => start_proc ∅ end.

Lemma run_parent_Ok : run_parent = Ok parent_or.
Proof. by vm_compute. Qed.

Definition dropped : Out (Credentials * Table) :=
  dropPrivilege nobody (str "nobody") parent_or.(FileDescriptors) root parent_or.(fds).

Definition dropped_or : Credentials * Table := match dropped with Ok r => r | _ => (root, ∅) end.

Lemma dropped_Ok : dropped = Ok dropped_or.
Proof. by vm_compute. Qed.

Lemma child_listens_like_plain_wit :
  ∃ child plain,
    open_all (λ _, None) (str "nobody") true true [str "127.0.0.1:53"; str "[::1]:53"] [str "127.0.0.1:443"]
      (start_proc dropped_or.2) = Ok child ∧
    open_all (λ _, None) [] false true [str "127.0.0.1:53"; str "[::1]:53"] [str "127.0.0.1:443"]
      (start_proc three_files) = Ok plain ∧
    listeners child = listeners plain.
Proof.
  apply (child_listens_like_plain (λ _, None) nobody (str "nobody") true _ _ _ parent_or root dropped_or.1).
  - done.
  - exact run_parent_Ok.
  - rewrite <-surjective_pairing. exact dropped_Ok.
Defined.

Lemma dropPrivilege_spec_wit : dropped_or.1.(cr_groups) = [] ∧ dropped_or.1.(cr_uid) = 65534.
Proof.
  edestruct (dropPrivilege_spec nobody (str "nobody") parent_or.(FileDescriptors) root parent_or.(fds) dropped_or.1 dropped_or.2)
    as (_ & Hg & _).
  - rewrite <-surjective_pairing. exact dropped_Ok.
  - split; [exact Hg|vm_compute; reflexivity].
Defined.

End SocketExamples.
