(* ===== verification/NetProbe.v ===== *)
(** netprobe_others.go, netprobe_windows.go: the wait for the network before the start, and the handler
    of coldstart.go that answers queries for captive portals meanwhile, as a
    step relation over its goroutines. *)
From S2P Require Import Prelude.
From S2P Require Import GoStrings.
From S2P Require Import Common.
From S2P Require Import ServerTypes.
From S2P Require Import DnsMsg.
From S2P Require Import DnsUtils.
From S2P Require Import XTransport.
From S2P Require Import Routes.
From S2P Require Import RewritePlugins.

(** * The handler of captive portals *)

(** A listener's goroutine: it reads queries, has closed its socket, or has been
    counted in [countChannel]. *)
Inductive ClientSt := Serving | Closed | Counted.

(** [CaptivePortalHandler]: whether [cancelChannel] is closed, the elements and the
    capacity of [countChannel]; with the goroutines and the responses they sent. *)
Record CaptivePortalHandler := {
  cancelChannel : bool;
  countChannel : nat;
  countCapacity : nat;
  channelCount : nat;
  clients : list ClientSt;
  sent : list bytes
}.

#[export] Instance eta_CaptivePortalHandler : Eta CaptivePortalHandler := λ h, {|
  cancelChannel := h.(cancelChannel); countChannel := h.(countChannel); countCapacity := h.(countCapacity);
  channelCount := h.(channelCount); clients := h.(clients); sent := h.(sent) |}.

Section ColdStart.
Context `{NetLib} `{Codec} `{StampLib}.

(** [addColdStartListener]: the error returned; otherwise a goroutine runs.
    [ListenUDP] is the error of the call. *)
Definition addColdStartListener (ListenUDP : Addr → option error) (listenAddrStr : bytes) (h : CaptivePortalHandler)
    : CaptivePortalHandler * option error :=
  match ResolveUDPAddr listenAddrStr with
  | Ok a =>
      match ListenUDP a with
      | None => (h <| clients := h.(clients) ++ [Serving] |>, None)
      | Some e => (h, Some e)
      end
  | Err e => (h, Some e)
  | _ => (h, Some (EMsg ""))
  end.

Definition add_counted (ListenUDP : Addr → option error) (h : CaptivePortalHandler) (listenAddrStr : bytes)
    : CaptivePortalHandler :=
  let '(h, err) := addColdStartListener ListenUDP listenAddrStr h in
  match err with None => h <| channelCount := S h.(channelCount) |> | Some _ => h end.

(** [ColdStart]; [file] is [None] if no file is configured, and otherwise its
    contents or the error reading it. *)
Definition ColdStart (ListenUDP : Addr → option error) (file : option (Out bytes)) (listenAddresses : list bytes)
    : Out (option (CaptivePortalMap * CaptivePortalHandler)) :=
  match file with
  | None => Ok None
  | Some bin =>
      let! bin := bin in
      let! ipsMap := load_captive_rules (Split (ReadTextFile bin) [10]) ∅ in
      let h := {| cancelChannel := false; countChannel := 0; countCapacity := length listenAddresses; channelCount := 0;
                  clients := []; sent := [] |} in
      Ok (Some (ipsMap, foldl (add_counted ListenUDP) h listenAddresses))
  end.

(** A goroutine handles one read ([for !handleColdStartClient(...) {}], then
    [clientPc.Close()]), a goroutine is counted, which blocks while the channel is full; or
    [Stop] closes [cancelChannel]. *)
Inductive handler_step (ipsMap : CaptivePortalMap) : CaptivePortalHandler → CaptivePortalHandler → Prop :=
  | step_read h i read out stop :
      h.(clients) !! i = Some Serving → handleColdStartClient ipsMap h.(cancelChannel) read = Ok (out, stop) →
      handler_step ipsMap h
        (h <| clients := <[i := if (stop : bool) then Closed else Serving]> h.(clients) |>
           <| sent := h.(sent) ++ option_list out |>)
  | step_count h i :
      h.(clients) !! i = Some Closed → (h.(countChannel) < h.(countCapacity))%nat →
      handler_step ipsMap h (h <| clients := <[i := Counted]> h.(clients) |> <| countChannel := S h.(countChannel) |>)
  | step_cancel h :
      h.(cancelChannel) = false → handler_step ipsMap h (h <| cancelChannel := true |>).

(** [Stop] returns when its loop ends. *)
Definition stop_returns (h : CaptivePortalHandler) : Prop :=
  h.(cancelChannel) = true ∧ ¬ (h.(countChannel) < h.(channelCount))%nat.

(** * The probe *)

Definition MaxTimeout : Z := 3600.

(** The loop: [dial] has the error of each attempt; the result is the time slept, in
    seconds, and whether the network was found. *)
Fixpoint probe_loop (dial : nat → option error) (tries : nat) (i : nat) (slept : Z) : Z * bool :=
  match tries with
  | O => (slept, false)
  | S tries =>
      match dial i with
      | Some _ => probe_loop dial tries (S i) (slept + 1)
      | None => (slept, true)
      end
  end.

Definition probe_tries (timeout : Z) : nat :=
  Z.to_nat (if timeout <? 0 then MaxTimeout else Min MaxTimeout timeout).

(** [NetProbe]: whether the network was found after how long; [None] if there is
    nothing to do. A failure of [ColdStart] is only logged; its handler is stopped
    on return. *)
Definition NetProbe (cold : Out (option (CaptivePortalMap * CaptivePortalHandler))) (dial : nat → option error)
    (address : bytes) (timeout : Z) : Out (option (Z * bool)) :=
  if (len address <=? 0) || (timeout =? 0) then Ok None
  else
    match cold with
    | Panic => Panic
    | Fatal => Fatal
    | _ =>
        let! _ := ResolveUDPAddr address in
        Ok (Some (probe_loop dial (probe_tries timeout) 0 0))
    end.

(** On Windows a byte is written to the socket too; a socket whose write fails is not
    closed. The last component is the number of sockets left open. *)
Fixpoint probe_loop_windows (dial write : nat → option error) (tries : nat) (i : nat) (slept : Z) (leaked : nat)
    : Z * bool * nat :=
  match tries with
  | O => (slept, false, leaked)
  | S tries =>
      match dial i with
      | Some _ => probe_loop_windows dial write tries (S i) (slept + 1) leaked
      | None =>
          match write i with
          | Some _ => probe_loop_windows dial write tries (S i) (slept + 1) (S leaked)
          | None => (slept, true, leaked)
          end
      end
  end.

Definition NetProbe_windows (cold : Out (option (CaptivePortalMap * CaptivePortalHandler))) (dial write : nat → option error)
    (address : bytes) (timeout : Z) : Out (option (Z * bool * nat)) :=
  if (len address <=? 0) || (timeout =? 0) then Ok None
  else
    match cold with
    | Panic => Panic
    | Fatal => Fatal
    | _ =>
        let! _ := ResolveUDPAddr address in
        Ok (Some (probe_loop_windows dial write (probe_tries timeout) 0 0 0))
    end.

(** [proxy.captivePortalMap] after [NetProbe], the only caller of [ColdStart]. *)
Definition captive_portals (cold : Out (option (CaptivePortalMap * CaptivePortalHandler))) (address : bytes) (timeout : Z)
    : option CaptivePortalMap :=
  if (len address <=? 0) || (timeout =? 0) then None
  else match cold with Ok (Some (ipsMap, _)) => Some ipsMap | _ => None end.

End ColdStart.

(** * Properties *)

Section Windows.
Context `{StampLib}.

(** The first error of an attempt. *)
Definition attempt (dial write : nat → option error) (i : nat) : option error :=
  match dial i with Some e => Some e | None => write i end.

Lemma probe_loop_windows_same dial write tries i slept leaked :
  (probe_loop_windows dial write tries i slept leaked).1 = probe_loop (attempt dial write) tries i slept.
Proof.
  revert i slept leaked. induction tries as [|tries IH]; intros i slept leaked; [done|]. cbn. unfold attempt at 1.
  destruct (dial i), (write i); done.
Qed.

(** The two variants of the probe find the network after the same time, where an
    attempt fails on Windows if the connection or the write does. *)
Theorem probe_variants_agree cold dial write address timeout r :
  NetProbe_windows cold dial write address timeout = Ok r →
  NetProbe cold (attempt dial write) address timeout = Ok (fst <$> r).
Proof.
  unfold NetProbe_windows, NetProbe. destruct (_ || _); [by intros [= <-]|].
  destruct cold; try done; intros (addr & -> & [= <-])%obind_Ok; cbn; by rewrite probe_loop_windows_same.
Qed.

(** A finding: while the writes fail, every attempt leaves a socket open. *)
Lemma probe_loop_windows_leaks dial write tries i slept leaked :
  (∀ j, dial j = None) → (∀ j, ∃ e, write j = Some e) →
  probe_loop_windows dial write tries i slept leaked = (slept + Z.of_nat tries, false, (leaked + tries)%nat).
Proof.
  intros Hd Hw. revert i slept leaked. induction tries as [|tries IH]; intros i slept leaked; cbn [probe_loop_windows].
  { f_equal; [f_equal; lia|lia]. }
  rewrite Hd. destruct (Hw i) as [e ->]. rewrite IH. f_equal; [f_equal; lia|lia].
Qed.

Theorem windows_probe_leaks cold dial write address a timeout :
  0 < len address → timeout ≠ 0 → ResolveUDPAddr address = Ok a → cold = Ok None →
  (∀ j, dial j = None) → (∀ j, ∃ e, write j = Some e) →
  NetProbe_windows cold dial write address timeout =
    Ok (Some (Z.of_nat (probe_tries timeout), false, probe_tries timeout)).
Proof.
  intros Ha Ht HR -> Hd Hw. unfold NetProbe_windows.
  rewrite (proj2 (Z.leb_gt _ _)), (proj2 (Z.eqb_neq _ _)), HR by lia. cbn [orb obind].
  by rewrite probe_loop_windows_leaks.
Qed.

End Windows.

Section HandlerProperties.
Context `{NetLib} `{Codec} `{StampLib} (ipsMap : CaptivePortalMap).
Implicit Types (h : CaptivePortalHandler).

Definition is_counted (c : ClientSt) : bool := match c with Counted => true | _ => false end.
Definition counted (l : list ClientSt) : nat := length (filter (λ c, is_counted c = true) l).
Arguments counted : simpl never.

(** What the channels say of the goroutines. *)
Record handler_inv h : Prop := {
  hi_count : h.(countChannel) = counted h.(clients);
  hi_clients : length h.(clients) = h.(channelCount);
  hi_capacity : (h.(channelCount) <= h.(countCapacity))%nat
}.

Lemma counted_le l : (counted l <= length l)%nat.
Proof. apply length_filter. Qed.

Lemma counted_clients_insert l i c c' :
  l !! i = Some c → is_counted c = false →
  counted (<[i := c']> l) = (counted l + if is_counted c' then 1 else 0)%nat.
Proof.
  intros Hi Hc. unfold counted. rewrite insert_take_drop by by eapply lookup_lt_Some.
  rewrite <-(take_drop_middle l i c) at 3 by done. rewrite !list.filter_app, !filter_cons, !length_app.
  rewrite (decide_False (P := is_counted c = true)) by congruence.
  destruct (is_counted c'); [rewrite decide_True by done|rewrite decide_False by done]; cbn; lia.
Qed.

Lemma handler_inv_step h h' : handler_inv h → handler_step ipsMap h h' → handler_inv h'.
Proof.
  intros [Hc Hl Hk] Hs. destruct Hs as [h i read out stop Hi Hr|h i Hi Hcap|h Hf]; [| |by split].
  - split; cbn; [|by rewrite length_insert|done].
    rewrite (counted_clients_insert _ _ _ _ Hi), Hc by done. destruct stop; cbn; lia.
  - split; cbn; [|by rewrite length_insert|done]. rewrite (counted_clients_insert _ _ _ _ Hi), Hc by done. cbn. lia.
Qed.

Lemma ColdStart_inv ListenUDP file l m h : ColdStart ListenUDP file l = Ok (Some (m, h)) → handler_inv h.
Proof.
  unfold ColdStart. destruct file as [bin|]; [|done]. intros (b & _ & (m' & _ & [= <- <-])%obind_Ok)%obind_Ok.
  assert (∀ l h0 n, length h0.(clients) = h0.(channelCount) → h0.(countChannel) = 0%nat → counted h0.(clients) = 0%nat →
     (h0.(channelCount) + length l <= n)%nat → h0.(countCapacity) = n →
     handler_inv (foldl (add_counted ListenUDP) h0 l)) as Hgen; [|by eapply Hgen].
  clear. intros l. induction l as [|s l IH]; intros h0 n K1 K2 K3 K4 K5; cbn [foldl].
  { split; [congruence|done|cbn in K4; lia]. }
  cbn in K4. unfold add_counted, addColdStartListener.
  destruct (ResolveUDPAddr s) as [a|e| |]; [destruct (ListenUDP a)|..]; try (apply (IH _ n); [done..|lia|done]).
  apply (IH _ n); cbn; [rewrite length_app; cbn; lia|done| |lia|done]. unfold counted in *. rewrite list.filter_app, length_app, K3. done.
Qed.

(** When [Stop] returns, every goroutine of the handler has closed its socket:
    the addresses are free for the listeners of the proxy. *)
Theorem stop_frees_sockets ListenUDP file l h0 h :
  ColdStart ListenUDP file l = Ok (Some (ipsMap, h0)) → rtc (handler_step ipsMap) h0 h → stop_returns h →
  Forall (λ c, c = Counted) h.(clients).
Proof.
  intros Hcs%ColdStart_inv Hr [_ Hn].
  assert (handler_inv h) as [Hc Hl _] by (induction Hr; [done|by eauto using handler_inv_step]).
  assert (counted h.(clients) = length h.(clients)) as Hall by (pose proof (counted_le h.(clients)); lia).
  clear -Hall. unfold counted in Hall. induction h.(clients) as [|c cs IH]; [constructor|].
  rewrite filter_cons in Hall. pose proof (counted_le cs) as Hle. unfold counted in Hle.
  destruct (decide (is_counted c = true)) as [Hc|]; cbn [length] in Hall; [|lia].
  constructor; [by destruct c|]. apply IH. lia.
Qed.

(** The steps left to the goroutines. *)
Definition steps_left (c : ClientSt) : nat := match c with Serving => 2 | Closed => 1 | Counted => 0 end.
Definition pending (l : list ClientSt) : nat := sum_list_with steps_left l.
Arguments pending : simpl never.

Lemma pending_insert l i c c' :
  l !! i = Some c → (pending (<[i := c']> l) + steps_left c = pending l + steps_left c')%nat.
Proof.
  unfold pending. revert i. induction l as [|d l IH]; intros [|i] Hi; [done..| |].
  - injection Hi as ->. change (<[0%nat := c']> (c :: l)) with (c' :: l). cbn [sum_list_with]. lia.
  - specialize (IH i Hi). change (<[S i := c']> (d :: l)) with (d :: <[i := c']> l). cbn [sum_list_with]. lia.
Qed.

Lemma pending_bound l : (pending l <= 2 * length l)%nat.
Proof. unfold pending. induction l as [|c l IH]; [cbn; lia|]. cbn [sum_list_with length]. unfold pending in IH. destruct c; cbn [steps_left]; lia. Qed.

Lemma step_after_cancel h h' :
  h.(cancelChannel) = true → handler_step ipsMap h h' →
  h'.(cancelChannel) = true ∧ (pending h'.(clients) < pending h.(clients))%nat.
Proof.
  intros Hc Hs. destruct Hs as [h i read out stop Hi Hr|h i Hi Hcap|h Hf]; [| |congruence].
  - unfold handleColdStartClient in Hr. rewrite Hc in Hr. injection Hr as <- <-. cbn. split; [done|].
    pose proof (pending_insert _ _ _ Closed Hi) as E. cbn in E. lia.
  - cbn. split; [done|]. pose proof (pending_insert _ _ _ Counted Hi) as E. cbn in E. lia.
Qed.

(** Unless [Stop] returns, a goroutine can go on. *)
Lemma stop_progress h :
  handler_inv h → h.(cancelChannel) = true → stop_returns h ∨ ∃ h', handler_step ipsMap h h'.
Proof.
  intros [Hc Hl Hk] Hcan. destruct (decide (Exists (λ c, is_counted c = false) h.(clients))) as [(c & Hin & Hn)%list.Exists_exists|Hall].
  - apply list_elem_of_lookup in Hin as [i Hi]. right. destruct c; [| |done].
    + eexists. eapply (step_read _ _ i (Err ETimeout)); [done|]. by rewrite Hcan.
    + eexists. apply (step_count _ _ i); [done|].
      assert (counted h.(clients) < length h.(clients))%nat; [|lia].
      pose proof (counted_clients_insert _ _ _ Counted Hi eq_refl) as E. cbn in E.
      pose proof (counted_le (<[i := Counted]> h.(clients))) as Hle. rewrite length_insert in Hle. lia.
  - left. split; [done|]. rewrite Hc, <-Hl. intros Hlt. apply Hall. clear -Hlt. apply list.Exists_exists. unfold counted in Hlt.
    induction h.(clients) as [|c cs IH]; [cbn in Hlt; lia|]. rewrite filter_cons in Hlt.
    destruct (is_counted c) eqn:E; [|exists c; split; [by left|done]].
    rewrite decide_True in Hlt by done. cbn [length] in Hlt. destruct IH as (d & Hd & Hn); [lia|]. exists d. split; [by right|done].
Qed.

(** C22: [Stop] terminates. Once the channel is closed, the goroutines take at most two
    steps each, whatever they read and in whatever order they run, and when none can go on
    [Stop] returns. *)
Theorem stop_terminates ListenUDP file l h0 h n h' :
  ColdStart ListenUDP file l = Ok (Some (ipsMap, h0)) → rtc (handler_step ipsMap) h0 h → h.(cancelChannel) = true →
  nsteps (handler_step ipsMap) n h h' →
  (n <= 2 * length h.(clients))%nat ∧ (stop_returns h' ∨ ∃ h'', handler_step ipsMap h' h'').
Proof.
  intros Hcs%ColdStart_inv Hr Hc Hn.
  assert (handler_inv h) as Hi by (induction Hr; [done|by eauto using handler_inv_step]). clear Hr Hcs.
  enough ((n + pending h'.(clients) <= pending h.(clients))%nat ∧ h'.(cancelChannel) = true ∧ handler_inv h') as (Hp & Hc' & Hi').
  { split; [pose proof (pending_bound h.(clients)); lia|]. by apply stop_progress. }
  induction Hn as [h|n h h1 h2 Hs Hn IH]; [by split_and!|].
  destruct (step_after_cancel _ _ Hc Hs) as [Hc1 Hp]. destruct IH as (IHp & IHc & IHi); [done|by eapply handler_inv_step|].
  split_and!; [lia|done..].
Qed.

End HandlerProperties.

Lemma probe_loop_spec dial tries i slept :
  ∃ k : nat, (k <= tries)%nat ∧ (∀ j, (j < k)%nat → dial (i + j)%nat ≠ None) ∧
    ((k < tries)%nat ∧ dial (i + k)%nat = None ∧ probe_loop dial tries i slept = (slept + Z.of_nat k, true) ∨
     k = tries ∧ probe_loop dial tries i slept = (slept + Z.of_nat k, false)).
Proof.
  revert i slept. induction tries as [|tries IH]; intros i slept; cbn [probe_loop].
  { exists 0%nat. split_and!; [done|lia|]. right. by rewrite Z.add_0_r. }
  destruct (dial i) as [e|] eqn:E.
  - destruct (IH (S i) (slept + 1)) as (k & Hk & Hj & Hr). exists (S k). split_and!; [lia| |].
    + intros [|j] Hjk; [rewrite Nat.add_0_r; congruence|]. rewrite Nat.add_succ_r. apply Hj. lia.
    + rewrite Nat.add_succ_r. replace (slept + Z.of_nat (S k)) with (slept + 1 + Z.of_nat k) by lia.
      destruct Hr as [(? & ? & ?)|[-> ?]]; [left|right]; split_and!; (done || lia).
  - exists 0%nat. rewrite Nat.add_0_r, Z.add_0_r. split_and!; [lia|lia|]. left. split_and!; [lia|done..].
Qed.

(** The wait for the network ends. It lasts at most an hour, and at most the
    configured number of seconds; it ends as soon as an attempt succeeds; and running out of
    time is not an error. *)
Theorem NetProbe_bounded `{StampLib} cold dial address a timeout :
  len address > 0 → timeout ≠ 0 → ResolveUDPAddr address = Ok a → cold ≠ Panic → cold ≠ Fatal →
  ∃ k b, NetProbe cold dial address timeout = Ok (Some (k, b)) ∧ 0 ≤ k ≤ 3600 ∧ (0 < timeout → k ≤ timeout) ∧
    (b = true → dial (Z.to_nat k) = None) ∧ (∀ j, 0 ≤ j < k → dial (Z.to_nat j) ≠ None) ∧
    (b = false → k = if timeout <? 0 then 3600 else Z.min 3600 timeout).
Proof.
  intros Ha Ht Hr Hc1 Hc2. unfold NetProbe. rewrite (proj2 (Z.leb_gt _ _)), (proj2 (Z.eqb_neq _ _)) by lia. cbn [orb].
  destruct (probe_loop_spec dial (probe_tries timeout) 0 0) as (k & Hk & Hj & Hl).
  assert (Z.of_nat (probe_tries timeout) = if timeout <? 0 then 3600 else Z.min 3600 timeout) as Htries.
  { unfold probe_tries, Min, MaxTimeout. destruct (Z.ltb_spec timeout 0); [lia|]. destruct (Z.ltb_spec 3600 timeout); lia. }
  assert (0 ≤ Z.of_nat k ≤ 3600 ∧ (0 < timeout → Z.of_nat k ≤ timeout)) as [Hb Hb'] by (destruct (Z.ltb_spec timeout 0); lia).
  exists (Z.of_nat k), (bool_decide (k < probe_tries timeout)%nat). rewrite Nat2Z.id.
  assert (∀ j, 0 ≤ j < Z.of_nat k → dial (Z.to_nat j) ≠ None) as Hj' by (intros j Hjk; apply (Hj (Z.to_nat j)); lia).
  assert (NetProbe_result : (match cold with Panic => Panic | Fatal => Fatal
    | _ => let! _ := ResolveUDPAddr address in Ok (Some (probe_loop dial (probe_tries timeout) 0 0)) end)
    = Ok (Some (probe_loop dial (probe_tries timeout) 0 0))) by (rewrite Hr; by destruct cold).
  rewrite NetProbe_result. destruct Hl as [(Hlt & Hd & ->)|[-> ->]].
  - rewrite bool_decide_eq_true_2 by done. split_and!; [by rewrite Z.add_0_l|lia..|by intros _|done|done].
  - rewrite bool_decide_eq_false_2 by lia. split_and!; [by rewrite Z.add_0_l|lia|lia|done|done|done|by intros _].
Qed.

(** * Concrete runs *)

Section NetProbeExamples.

Local Instance no_codec : Codec := {| Unpack _ := Err (EMsg ""); Pack _ := Err (EMsg "") |}.
Local Instance some_net : NetLib := {| net_ParseIP s := s; IP_String ip := ip |}.
Local Instance some_stamps : StampLib := {|
  NewServerStampFromString _ := Err (EMsg ""); ResolveUDPAddr s := Ok {| addr_IP := s; addr_Port := 53 |};
  ResolveTCPAddr s := Ok {| addr_IP := s; addr_Port := 53 |}; PathEscape s := s; url_Parse _ := Err (EMsg "") |}.

(** One listener, no rule. *)
Definition one_client (c : ClientSt) (cancelled : bool) (n : nat) : CaptivePortalHandler := {|
  cancelChannel := cancelled; countChannel := n; countCapacity := 1; channelCount := 1; clients := [c]; sent := [] |}.

Lemma one_client_start :
  ColdStart (λ _, None) (Some (Ok [])) [str "127.0.0.1:53"] = Ok (Some (∅, one_client Serving false 0)).
Proof. by vm_compute. Qed.

Lemma one_client_stops :
  nsteps (handler_step ∅) 2 (one_client Serving true 0) (one_client Counted true 1).
Proof.
  eapply nsteps_l; [eapply (step_read ∅ (one_client Serving true 0) 0%nat (Err ETimeout) None true); done|].
  eapply nsteps_l; [eapply (step_count ∅ _ 0%nat); [done|cbn; lia]|]. apply nsteps_O.
Qed.

Lemma one_client_cancelled : rtc (handler_step ∅) (one_client Serving false 0) (one_client Serving true 0).
Proof. eapply rtc_once. by apply (step_cancel ∅ (one_client Serving false 0)). Qed.

Lemma stop_frees_sockets_wit :
  stop_returns (one_client Counted true 1) ∧ Forall (λ c, c = Counted) (one_client Counted true 1).(clients).
Proof.
  assert (stop_returns (one_client Counted true 1)) as Hs by (split; cbn; [done|lia]). split; [exact Hs|].
  apply (stop_frees_sockets ∅ _ _ _ _ _ one_client_start); [|exact Hs].
  etrans; [apply one_client_cancelled|]. eapply rtc_nsteps_2. apply one_client_stops.
Defined.

Lemma stop_terminates_wit :
  (2 <= 2 * length (one_client Serving true 0).(clients))%nat ∧
  (stop_returns (one_client Counted true 1) ∨ ∃ h, handler_step ∅ (one_client Counted true 1) h).
Proof.
  apply (stop_terminates ∅ _ _ _ _ (one_client Serving true 0) 2 (one_client Counted true 1) one_client_start).
  - apply one_client_cancelled.
  - reflexivity.
  - apply one_client_stops.
Defined.

(** The third attempt succeeds. *)
Lemma NetProbe_bounded_wit :
  ∃ k b, NetProbe (Ok None) (λ i, if (i <? 2)%nat then Some ETimeout else None) (str "9.9.9.9:53") 60 = Ok (Some (k, b)) ∧
    0 ≤ k ≤ 3600.
Proof.
  edestruct (NetProbe_bounded (Ok None) (λ i, if (i <? 2)%nat then Some ETimeout else None) (str "9.9.9.9:53"))
    as (k & b & Hn & Hk & _); [| | | | |exists k, b; split; [exact Hn|exact Hk]]; try done.
Defined.

End NetProbeExamples.
