(* ===== verification/Config.v ===== *)
(** config.go: the configuration file, the checks made on it and the settings of
    the proxy it gives; the sources and static servers it names; and the start-up
    sequence of [ConfigLoad]. *)
From Stdlib Require Import QArith.
From S2P Require Import Prelude.
From S2P Require Import GoStrings.
From S2P Require Import Common.
From S2P Require Import TimeRanges.
From S2P Require Import Estimators.
From S2P Require Import ServerTypes.
From S2P Require Import DnsUtils.
From S2P Require Import ServersInfo.
From S2P Require Import XTransport.
From S2P Require Import Transport.
From S2P Require Import Routes.
From S2P Require Import Plugins.
From S2P Require Import RewritePlugins.
From S2P Require Import Sources.
From S2P Require Import Sockets.
From S2P Require Import NetProbe.

(** * The configuration file *)

Definition Millisecond : Z := 1000000.
Definition DefaultNetprobeAddress : bytes := str "9.9.9.9:53".

(** The sections that name a list of rules and a log: [BlockNameConfig],
    [AllowedNameConfig], [BlockIPConfig], [AllowIPConfig] and the legacy ones. *)
Record RulesConfig := { File : bytes; LogFile : bytes; Format : bytes }.

Definition no_rules : RulesConfig := {| File := []; LogFile := []; Format := [] |}.

Record QueryLogConfig := { ql_File : bytes; ql_Format : bytes; IgnoredQtypes : list bytes }.
Record NxLogConfig := { nx_File : bytes; nx_Format : bytes }.
Record LocalDoHConfig := { doh_ListenAddresses : list bytes; doh_Path : bytes; CertFile : bytes; CertKeyFile : bytes }.
Record AnonymizedDNSRouteConfig := { route_ServerName : bytes; RelayNames : list bytes }.
Record AnonymizedDNSConfig := {
  anon_Routes : option (list AnonymizedDNSRouteConfig);
  SkipIncompatible : bool;
  DirectCertFallback : bool
}.
Record TLSClientAuthCredsConfig := { ClientCert : bytes; ClientKey : bytes; RootCA : bytes }.
Record SourceConfig := {
  sc_URL : bytes;
  URLs : list bytes;
  MinisignKeyStr : bytes;
  CacheFile : bytes;
  FormatStr : bytes;
  RefreshDelay : Z;
  Prefix : bytes
}.

#[export] Instance eta_SourceConfig : Eta SourceConfig := λ s, {|
  sc_URL := s.(sc_URL); URLs := s.(URLs); MinisignKeyStr := s.(MinisignKeyStr); CacheFile := s.(CacheFile);
  FormatStr := s.(FormatStr); RefreshDelay := s.(RefreshDelay); Prefix := s.(Prefix) |}.

(** [Config], each field with the prefix [c_]. A slice that is compared with nil
    is an option; [AllWeeklyRanges] lists the map in the order of the iteration;
    [StaticsConfig] has the stamps. *)
Record Config := {
  c_LogLevel : Z;
  c_LogFile : option bytes;
  c_LogFileLatest : bool;
  c_UseSyslog : bool;
  c_ServerNames : list bytes;
  c_DisabledServerNames : list bytes;
  c_ListenAddresses : list bytes;
  c_LocalDoH : LocalDoHConfig;
  c_UserName : bytes;
  c_ForceTCP : bool;
  c_HTTP3 : bool;
  c_Timeout : Z;
  c_KeepAlive : Z;
  c_Proxy : bytes;
  c_CertRefreshDelay : Z;
  c_CertIgnoreTimestamp : bool;
  c_EphemeralKeys : bool;
  c_LBStrategy : bytes;
  c_LBEstimator : bool;
  c_BlockIPv6 : bool;
  c_BlockUnqualified : bool;
  c_BlockUndelegated : bool;
  c_Cache : bool;
  c_CacheSize : Z;
  c_CacheNegTTL : Z;
  c_CacheNegMinTTL : Z;
  c_CacheNegMaxTTL : Z;
  c_CacheMinTTL : Z;
  c_CacheMaxTTL : Z;
  c_RejectTTL : Z;
  c_CloakTTL : Z;
  c_QueryLog : QueryLogConfig;
  c_NxLog : NxLogConfig;
  c_BlockName : RulesConfig;
  c_BlockNameLegacy : RulesConfig;
  c_WhitelistNameLegacy : RulesConfig;
  c_AllowedName : RulesConfig;
  c_BlockIP : RulesConfig;
  c_BlockIPLegacy : RulesConfig;
  c_AllowIP : RulesConfig;
  c_ForwardFile : bytes;
  c_CloakFile : bytes;
  c_CaptivePortals_MapFile : bytes;
  c_StaticsConfig : gmap bytes bytes;
  c_SourcesConfig : gmap bytes SourceConfig;
  c_BrokenQueryPadding : list bytes;
  c_FragmentsBlocked : list bytes;
  c_SourceRequireDNSSEC : bool;
  c_SourceRequireNoLog : bool;
  c_SourceRequireNoFilter : bool;
  c_SourceDNSCrypt : bool;
  c_SourceDoH : bool;
  c_SourceODoH : bool;
  c_SourceIPv4 : bool;
  c_SourceIPv6 : bool;
  c_MaxClients : Z;
  c_BootstrapResolversLegacy : list bytes;
  c_BootstrapResolvers : list bytes;
  c_IgnoreSystemDNS : bool;
  c_AllWeeklyRanges : list (bytes * WeeklyRangesStr);
  c_LogMaxSize : Z;
  c_LogMaxAge : Z;
  c_LogMaxBackups : Z;
  c_TLSDisableSessionTickets : bool;
  c_TLSCipherSuite : option (list Z);
  c_NetprobeAddress : bytes;
  c_NetprobeTimeout : Z;
  c_OfflineMode : bool;
  c_HTTPProxyURL : bytes;
  c_RefusedCodeInResponses : bool;
  c_BlockedQueryResponse : bytes;
  c_QueryMeta : list bytes;
  c_CloakedPTR : bool;
  c_AnonymizedDNS : AnonymizedDNSConfig;
  c_DoHClientX509Auth : list TLSClientAuthCredsConfig;
  c_DoHClientX509AuthLegacy : option (list TLSClientAuthCredsConfig);
  c_DNS64_Prefixes : list bytes;
  c_DNS64_Resolvers : list bytes;
  c_EDNSClientSubnet : list bytes
}.

#[export] Instance eta_Config : Eta Config := λ c, {|
  c_LogLevel := c.(c_LogLevel); c_LogFile := c.(c_LogFile); c_LogFileLatest := c.(c_LogFileLatest);
  c_UseSyslog := c.(c_UseSyslog); c_ServerNames := c.(c_ServerNames);
  c_DisabledServerNames := c.(c_DisabledServerNames); c_ListenAddresses := c.(c_ListenAddresses);
  c_LocalDoH := c.(c_LocalDoH); c_UserName := c.(c_UserName); c_ForceTCP := c.(c_ForceTCP); c_HTTP3 := c.(c_HTTP3);
  c_Timeout := c.(c_Timeout); c_KeepAlive := c.(c_KeepAlive); c_Proxy := c.(c_Proxy);
  c_CertRefreshDelay := c.(c_CertRefreshDelay); c_CertIgnoreTimestamp := c.(c_CertIgnoreTimestamp);
  c_EphemeralKeys := c.(c_EphemeralKeys); c_LBStrategy := c.(c_LBStrategy); c_LBEstimator := c.(c_LBEstimator);
  c_BlockIPv6 := c.(c_BlockIPv6); c_BlockUnqualified := c.(c_BlockUnqualified);
  c_BlockUndelegated := c.(c_BlockUndelegated); c_Cache := c.(c_Cache); c_CacheSize := c.(c_CacheSize);
  c_CacheNegTTL := c.(c_CacheNegTTL); c_CacheNegMinTTL := c.(c_CacheNegMinTTL);
  c_CacheNegMaxTTL := c.(c_CacheNegMaxTTL); c_CacheMinTTL := c.(c_CacheMinTTL); c_CacheMaxTTL := c.(c_CacheMaxTTL);
  c_RejectTTL := c.(c_RejectTTL); c_CloakTTL := c.(c_CloakTTL); c_QueryLog := c.(c_QueryLog); c_NxLog := c.(c_NxLog);
  c_BlockName := c.(c_BlockName); c_BlockNameLegacy := c.(c_BlockNameLegacy);
  c_WhitelistNameLegacy := c.(c_WhitelistNameLegacy); c_AllowedName := c.(c_AllowedName); c_BlockIP := c.(c_BlockIP);
  c_BlockIPLegacy := c.(c_BlockIPLegacy); c_AllowIP := c.(c_AllowIP); c_ForwardFile := c.(c_ForwardFile);
  c_CloakFile := c.(c_CloakFile); c_CaptivePortals_MapFile := c.(c_CaptivePortals_MapFile);
  c_StaticsConfig := c.(c_StaticsConfig); c_SourcesConfig := c.(c_SourcesConfig);
  c_BrokenQueryPadding := c.(c_BrokenQueryPadding); c_FragmentsBlocked := c.(c_FragmentsBlocked);
  c_SourceRequireDNSSEC := c.(c_SourceRequireDNSSEC); c_SourceRequireNoLog := c.(c_SourceRequireNoLog);
  c_SourceRequireNoFilter := c.(c_SourceRequireNoFilter); c_SourceDNSCrypt := c.(c_SourceDNSCrypt);
  c_SourceDoH := c.(c_SourceDoH); c_SourceODoH := c.(c_SourceODoH); c_SourceIPv4 := c.(c_SourceIPv4);
  c_SourceIPv6 := c.(c_SourceIPv6); c_MaxClients := c.(c_MaxClients);
  c_BootstrapResolversLegacy := c.(c_BootstrapResolversLegacy); c_BootstrapResolvers := c.(c_BootstrapResolvers);
  c_IgnoreSystemDNS := c.(c_IgnoreSystemDNS); c_AllWeeklyRanges := c.(c_AllWeeklyRanges);
  c_LogMaxSize := c.(c_LogMaxSize); c_LogMaxAge := c.(c_LogMaxAge); c_LogMaxBackups := c.(c_LogMaxBackups);
  c_TLSDisableSessionTickets := c.(c_TLSDisableSessionTickets); c_TLSCipherSuite := c.(c_TLSCipherSuite);
  c_NetprobeAddress := c.(c_NetprobeAddress); c_NetprobeTimeout := c.(c_NetprobeTimeout);
  c_OfflineMode := c.(c_OfflineMode); c_HTTPProxyURL := c.(c_HTTPProxyURL);
  c_RefusedCodeInResponses := c.(c_RefusedCodeInResponses); c_BlockedQueryResponse := c.(c_BlockedQueryResponse);
  c_QueryMeta := c.(c_QueryMeta); c_CloakedPTR := c.(c_CloakedPTR); c_AnonymizedDNS := c.(c_AnonymizedDNS);
  c_DoHClientX509Auth := c.(c_DoHClientX509Auth); c_DoHClientX509AuthLegacy := c.(c_DoHClientX509AuthLegacy);
  c_DNS64_Prefixes := c.(c_DNS64_Prefixes); c_DNS64_Resolvers := c.(c_DNS64_Resolvers);
  c_EDNSClientSubnet := c.(c_EDNSClientSubnet) |}.

(** [newConfig]; [logLevel] is the level of the logger. *)
Definition newConfig (logLevel : Z) : Config := {|
  c_LogLevel := logLevel; c_LogFile := None; c_LogFileLatest := true; c_UseSyslog := false;
  c_ServerNames := []; c_DisabledServerNames := []; c_ListenAddresses := [str "127.0.0.1:53"];
  c_LocalDoH := {| doh_ListenAddresses := []; doh_Path := str "/dns-query"; CertFile := []; CertKeyFile := [] |};
  c_UserName := []; c_ForceTCP := false; c_HTTP3 := false; c_Timeout := 5000; c_KeepAlive := 5; c_Proxy := [];
  c_CertRefreshDelay := 240; c_CertIgnoreTimestamp := false; c_EphemeralKeys := false; c_LBStrategy := [];
  c_LBEstimator := true; c_BlockIPv6 := false; c_BlockUnqualified := false; c_BlockUndelegated := false;
  c_Cache := true; c_CacheSize := 512; c_CacheNegTTL := 0; c_CacheNegMinTTL := 60; c_CacheNegMaxTTL := 600;
  c_CacheMinTTL := 60; c_CacheMaxTTL := 86400; c_RejectTTL := 600; c_CloakTTL := 600;
  c_QueryLog := {| ql_File := []; ql_Format := []; IgnoredQtypes := [] |};
  c_NxLog := {| nx_File := []; nx_Format := [] |};
  c_BlockName := no_rules; c_BlockNameLegacy := no_rules; c_WhitelistNameLegacy := no_rules;
  c_AllowedName := no_rules; c_BlockIP := no_rules; c_BlockIPLegacy := no_rules; c_AllowIP := no_rules;
  c_ForwardFile := []; c_CloakFile := []; c_CaptivePortals_MapFile := []; c_StaticsConfig := ∅; c_SourcesConfig := ∅;
  c_BrokenQueryPadding := [];
  c_FragmentsBlocked := [str "cisco"; str "cisco-ipv6"; str "cisco-familyshield"; str "cisco-familyshield-ipv6";
    str "cleanbrowsing-adult"; str "cleanbrowsing-adult-ipv6"; str "cleanbrowsing-family"; str "cleanbrowsing-family-ipv6";
    str "cleanbrowsing-security"; str "cleanbrowsing-security-ipv6"];
  c_SourceRequireDNSSEC := false; c_SourceRequireNoLog := true; c_SourceRequireNoFilter := true;
  c_SourceDNSCrypt := true; c_SourceDoH := true; c_SourceODoH := false; c_SourceIPv4 := true; c_SourceIPv6 := false;
  c_MaxClients := 250; c_BootstrapResolversLegacy := []; c_BootstrapResolvers := [DefaultBootstrapResolver];
  c_IgnoreSystemDNS := false; c_AllWeeklyRanges := []; c_LogMaxSize := 10; c_LogMaxAge := 7; c_LogMaxBackups := 1;
  c_TLSDisableSessionTickets := false; c_TLSCipherSuite := None; c_NetprobeAddress := []; c_NetprobeTimeout := 60;
  c_OfflineMode := false; c_HTTPProxyURL := []; c_RefusedCodeInResponses := false;
  c_BlockedQueryResponse := str "hinfo"; c_QueryMeta := []; c_CloakedPTR := false;
  c_AnonymizedDNS := {| anon_Routes := None; SkipIncompatible := false; DirectCertFallback := true |};
  c_DoHClientX509Auth := []; c_DoHClientX509AuthLegacy := None; c_DNS64_Prefixes := []; c_DNS64_Resolvers := [];
  c_EDNSClientSubnet := [] |}.

(** What the decoder of the TOML package says of the keys of the file. *)
Record MetaData := { IsDefined : bytes → bool; Undecoded : list bytes }.

Record ConfigFlags := {
  fl_Resolve : bytes;
  fl_List : bool;
  fl_ListAll : bool;
  fl_JSONOutput : bool;
  fl_Check : bool;
  fl_Child : bool;
  fl_NetprobeTimeoutOverride : option Z;
  fl_ShowCerts : bool
}.

(** * The settings of the proxy *)

(** The fields of [Proxy] and of its transport that [ConfigLoad] assigns. *)
Record Settings := {
  s_xTransport : XTransport;
  s_transport : TransportConfig;
  s_http : HttpTransport;
  s_lbStrategy : LBStrategy;
  s_lbEstimator : bool;
  s_register : RegisterConfig;
  s_state : StateConfig;
  s_mainProto : bytes;
  s_maxClients : Z;
  s_certRefreshDelay : Z;
  s_certRefreshDelayAfterFailure : Z;
  s_certIgnoreTimestamp : bool;
  s_ephemeralKeys : bool;
  s_userName : bytes;
  s_child : bool;
  s_showCerts : bool;
  s_logMaxSize : Z;
  s_logMaxAge : Z;
  s_logMaxBackups : Z;
  s_listenAddresses : list bytes;
  s_localDoH : LocalDoHConfig;
  s_blockedQueryResponse : bytes;
  s_pluginBlockIPv6 : bool;
  s_pluginBlockUnqualified : bool;
  s_pluginBlockUndelegated : bool;
  s_cache : bool;
  s_cloakTTL : Z;
  s_cloakedPTR : bool;
  s_queryMeta : list bytes;
  s_ednsClientSubnets : list IPNet;
  s_queryLog : QueryLogConfig;
  s_nxLog : NxLogConfig;
  s_blockName : RulesConfig;
  s_allowName : RulesConfig;
  s_blockIP : RulesConfig;
  s_allowedIP : RulesConfig;
  s_forwardFile : bytes;
  s_cloakFile : bytes;
  s_captivePortalMapFile : bytes;
  s_allWeeklyRanges : gmap bytes WeeklyRanges;
  s_routes : option (gmap bytes (list bytes));
  s_skipAnonIncompatibleResolvers : bool;
  s_anonDirectCertFallback : bool;
  s_serversBlockingFragments : list bytes;
  s_dns64Prefixes : list bytes;
  s_dns64Resolvers : list bytes
}.

(** Replaces the error of a call by that of the caller. *)
Definition or_error {A} (e : error) (m : Out A) : Out A := match m with Err _ => Err e | m => m end.

Section Settings.
Context `{NetLib} `{StampLib} `{UnicodeTables}.
(** [netproxy.FromURL] and [net.ParseCIDR]. *)
Context (proxy_FromURL : Url → Out unit) (ParseCIDR : bytes → Out IPNet).

(** ** Transport *)

(** The resolvers used to reach the servers, after the renaming of the legacy key. *)
Definition bootstrap_resolvers (c : Config) : list bytes :=
  if (length c.(c_BootstrapResolvers) =? 0)%nat && (0 <? length c.(c_BootstrapResolversLegacy))%nat
  then c.(c_BootstrapResolversLegacy) else c.(c_BootstrapResolvers).

Fixpoint check_resolvers (l : list bytes) : Out unit :=
  match l with
  | [] => Ok tt
  | resolver :: l =>
      match isIPAndPort resolver with
      | Some _ => Err (EMsg "Bootstrap resolver")
      | None => check_resolvers l
      end
  end.

(** The settings of [xTransport] up to its resolvers; [mainProto] is the field
    of the proxy at that point. *)
Definition configure_transport (c : Config) (mainProto : bytes) : Out (XTransport * TransportConfig) :=
  let! x := NewXTransport_checked in
  let x := x <| tlsCipherSuite := c.(c_TLSCipherSuite) |> <| XTransport.mainProto := mainProto |> <| http3 := c.(c_HTTP3) |> in
  let resolvers := bootstrap_resolvers c in
  let! x :=
    if (0 <? length resolvers)%nat then
      let! _ := check_resolvers resolvers in
      Ok (x <| ignoreSystemDNS := c.(c_IgnoreSystemDNS) |>)
    else Ok x in
  let x := x <| bootstrapResolvers := resolvers |> <| useIPv4 := c.(c_SourceIPv4) |> <| useIPv6 := c.(c_SourceIPv6) |> in
  let tc := NewTransportConfig <| tlsDisableSessionTickets := c.(c_TLSDisableSessionTickets) |>
              <| keepAlive := i64 (c.(c_KeepAlive) * Second) |> in
  let! x :=
    if (0 <? length c.(c_HTTPProxyURL))%nat then
      let! _ := or_error (EMsg "Unable to parse the HTTP proxy URL") (url_Parse c.(c_HTTPProxyURL)) in
      Ok (x <| has_httpProxy := true |>)
    else Ok x in
  Ok (x, tc).

(** The proxy for all connections; it also sets [proxy.mainProto]. *)
Definition configure_proxy (c : Config) (x : XTransport) (mainProto : bytes) : Out (XTransport * bytes) :=
  if (0 <? length c.(c_Proxy))%nat then
    let! u := or_error (EMsg "Unable to parse the proxy URL") (url_Parse c.(c_Proxy)) in
    let! _ := or_error (EMsg "Unable to use the proxy") (proxy_FromURL u) in
    Ok (x <| has_proxyDialer := true |>, str "tcp")
  else Ok (x, mainProto).

(** Credentials of DoH clients; more than one is fatal. *)
Definition configure_creds (c : Config) (tenv : TLSEnv) (x : XTransport) (tc : TransportConfig) (h : HttpTransport)
    : Out (TransportConfig * HttpTransport) :=
  match c.(c_DoHClientX509AuthLegacy) with
  | Some _ => Err (EMsg "[tls_client_auth] has been renamed to [doh_client_x509_auth]")
  | None =>
      match c.(c_DoHClientX509Auth) with
      | [] => Ok (tc, h)
      | [cred] =>
          let tc := tc <| tlsClientCreds := {| clientCert := cred.(ClientCert); clientKey := cred.(ClientKey);
                                              rootCA := cred.(RootCA) |} |> in
          let! h := rebuildTransport tenv tc x in
          Ok (tc, h)
      | _ => Fatal
      end
  end.

(** ** Queries *)

Definition blocked_query_response (c : Config) (md : MetaData) : bytes :=
  if md.(IsDefined) (str "refused_code_in_responses")
  then (if c.(c_RefusedCodeInResponses) then str "refused" else str "hinfo")
  else c.(c_BlockedQueryResponse).

(** [strconv.ParseInt(s, 10, 32)]. *)
Definition ParseInt32 (s : bytes) : option Z :=
  n ← Atoi s; if between (- 2 ^ 31) n (2 ^ 31 - 1) then Some n else None.

Definition lb_strategy (s : bytes) : LBStrategy :=
  let lbStrategyStr := ToLower s in
  if decide (lbStrategyStr = []) then DefaultLBStrategy
  else if decide (lbStrategyStr = str "p2") then LBStrategyP2
  else if decide (lbStrategyStr = str "ph") then LBStrategyPH
  else if decide (lbStrategyStr = str "fastest") then DefaultLBStrategy
  else if decide (lbStrategyStr = str "first") then LBStrategyFirst
  else if decide (lbStrategyStr = str "random") then LBStrategyRandom
  else if HasPrefix lbStrategyStr (str "p") then
    match ParseInt32 (TrimPrefix lbStrategyStr (str "p")) with
    | Some n => if n <=? 0 then DefaultLBStrategy else LBStrategyPN n
    | None => DefaultLBStrategy
    end
  else DefaultLBStrategy.

(** The check of the path of the local DoH server. *)
Definition path_ok (path : bytes) : bool :=
  match path with [] => true | b :: _ => b =? 47 end.

Fixpoint parse_subnets (l : list bytes) : Out (list IPNet) :=
  match l with
  | [] => Ok []
  | cidr :: l =>
      let! net := or_error (EMsg "Invalid EDNS-client-subnet CIDR") (ParseCIDR cidr) in
      let! nets := parse_subnets l in
      Ok (net :: nets)
  end.

(** ** Logs and lists of rules *)

(** A log format: [tsv] if there is none, otherwise [tsv] or [ltsv] in any case. *)
Definition log_format (e : error) (s : bytes) : Out bytes :=
  let s := if (length s =? 0)%nat then str "tsv" else ToLower s in
  if negb (bool_decide (s = str "tsv")) && negb (bool_decide (s = str "ltsv")) then Err e else Ok s.

(** A list of rules; the legacy section replaces it if it names a file. *)
Definition rules_section (both bad : error) (new legacy : RulesConfig) : Out RulesConfig :=
  if (0 <? length new.(File))%nat && (0 <? length legacy.(File))%nat then Err both
  else
    let s := if (0 <? length legacy.(File))%nat then legacy else new in
    let! format := log_format bad s.(Format) in
    Ok {| File := s.(File); LogFile := s.(LogFile); Format := format |}.

(** ** Routes and servers *)

Definition routes_map (l : option (list AnonymizedDNSRouteConfig)) : option (gmap bytes (list bytes)) :=
  routes ← l; Some (foldl (λ m r, <[r.(route_ServerName) := r.(RelayNames)]> m) ∅ routes).

(** [-list-all] lifts every filter. *)
Definition list_all (c : Config) : Config :=
  c <| c_ServerNames := [] |> <| c_DisabledServerNames := [] |> <| c_SourceRequireDNSSEC := false |>
    <| c_SourceRequireNoFilter := false |> <| c_SourceRequireNoLog := false |> <| c_SourceIPv4 := true |>
    <| c_SourceIPv6 := true |> <| c_SourceDNSCrypt := true |> <| c_SourceDoH := true |> <| c_SourceODoH := true |>.

(** The bits of [stamps.ServerInformalProperties]. *)
Definition ServerInformalPropertyDNSSEC : Z := 1.
Definition ServerInformalPropertyNoLog : Z := 2.
Definition ServerInformalPropertyNoFilter : Z := 4.

Definition required_props (c : Config) : Z :=
  let p := 0 in
  let p := if c.(c_SourceRequireDNSSEC) then Z.lor p ServerInformalPropertyDNSSEC else p in
  let p := if c.(c_SourceRequireNoLog) then Z.lor p ServerInformalPropertyNoLog else p in
  if c.(c_SourceRequireNoFilter) then Z.lor p ServerInformalPropertyNoFilter else p.

Definition register_config (c : Config) : RegisterConfig := {|
  ServerNames := c.(c_ServerNames); DisabledServerNames := c.(c_DisabledServerNames); requiredProps := required_props c;
  SourceIPv4 := c.(c_SourceIPv4); SourceIPv6 := c.(c_SourceIPv6); SourceDNSCrypt := c.(c_SourceDNSCrypt);
  SourceDoH := c.(c_SourceDoH); SourceODoH := c.(c_SourceODoH) |}.

Definition state_config (c : Config) : StateConfig := {|
  cfg_cacheSize := c.(c_CacheSize);
  cfg_cacheNegMinTTL := if 0 <? c.(c_CacheNegTTL) then c.(c_CacheNegTTL) else c.(c_CacheNegMinTTL);
  cfg_cacheNegMaxTTL := if 0 <? c.(c_CacheNegTTL) then c.(c_CacheNegTTL) else c.(c_CacheNegMaxTTL);
  cfg_cacheMinTTL := c.(c_CacheMinTTL);
  cfg_cacheMaxTTL := c.(c_CacheMaxTTL);
  cfg_rejectTTL := c.(c_RejectTTL);
  cfg_timeout := i64 (c.(c_Timeout) * Millisecond) |}.

(** The checks and assignments of [ConfigLoad], from the check of unknown keys to
    the settings of the sources, in the order of the code; [mainProto0] is
    [proxy.mainProto] before. The configuration returned is the one the
    rest of [ConfigLoad] reads. *)
Definition configure (tenv : TLSEnv) (mainProto0 : bytes) (md : MetaData) (flags : ConfigFlags) (showCerts : bool) (c : Config)
    : Out (Config * Settings) :=
  if (0 <? length md.(Undecoded))%nat then Err (EMsg "Unsupported key in configuration file")
  else
    let! (x, tc) := configure_transport c mainProto0 in
    let! (x, mainProto1) := configure_proxy c x mainProto0 in
    let! h := rebuildTransport tenv tc x in
    let blockedQueryResponse := blocked_query_response c md in
    let mainProto1 := str "udp" in
    let mainProto1 := if c.(c_ForceTCP) then str "tcp" else mainProto1 in
    if negb (path_ok c.(c_LocalDoH).(doh_Path)) then Err (EMsg "local DoH: cannot be a valid URL path")
    else
      let! nets := parse_subnets c.(c_EDNSClientSubnet) in
      let! queryFormat := log_format (EMsg "Unsupported query log format") c.(c_QueryLog).(ql_Format) in
      let! nxFormat := log_format (EMsg "Unsupported NX log format") c.(c_NxLog).(nx_Format) in
      let! blockName :=
        rules_section (EMsg "Don't specify both [blocked_names] and [blacklist] sections")
          (EMsg "Unsupported block log format") c.(c_BlockName) c.(c_BlockNameLegacy) in
      let! allowName :=
        rules_section (EMsg "Don't specify both [whitelist] and [allowed_names] sections")
          (EMsg "Unsupported allowed_names log format") c.(c_AllowedName) c.(c_WhitelistNameLegacy) in
      let! blockIP :=
        rules_section (EMsg "Don't specify both [blocked_ips] and [ip_blacklist] sections")
          (EMsg "Unsupported IP block log format") c.(c_BlockIP) c.(c_BlockIPLegacy) in
      let! allowIPFormat := log_format (EMsg "Unsupported allowed_ips log format") c.(c_AllowIP).(Format) in
      let! allWeeklyRanges := ParseAllWeeklyRanges c.(c_AllWeeklyRanges) in
      let! (tc, h) := configure_creds c tenv x tc h in
      let c := c <| c_BootstrapResolvers := bootstrap_resolvers c |>
                 <| c_FragmentsBlocked := c.(c_FragmentsBlocked) ++ c.(c_BrokenQueryPadding) |> in
      let c := if flags.(fl_ListAll) then list_all c else c in
      Ok (c, {|
        s_xTransport := x; s_transport := tc; s_http := h; s_lbStrategy := lb_strategy c.(c_LBStrategy);
        s_lbEstimator := c.(c_LBEstimator); s_register := register_config c; s_state := state_config c;
        s_mainProto := mainProto1; s_maxClients := c.(c_MaxClients);
        s_certRefreshDelay := i64 (Max 60 c.(c_CertRefreshDelay) * Minute);
        s_certRefreshDelayAfterFailure := 10 * Second; s_certIgnoreTimestamp := c.(c_CertIgnoreTimestamp);
        s_ephemeralKeys := c.(c_EphemeralKeys); s_userName := c.(c_UserName); s_child := flags.(fl_Child);
        s_showCerts := showCerts; s_logMaxSize := c.(c_LogMaxSize); s_logMaxAge := c.(c_LogMaxAge);
        s_logMaxBackups := c.(c_LogMaxBackups); s_listenAddresses := c.(c_ListenAddresses); s_localDoH := c.(c_LocalDoH);
        s_blockedQueryResponse := blockedQueryResponse; s_pluginBlockIPv6 := c.(c_BlockIPv6);
        s_pluginBlockUnqualified := c.(c_BlockUnqualified); s_pluginBlockUndelegated := c.(c_BlockUndelegated);
        s_cache := c.(c_Cache); s_cloakTTL := c.(c_CloakTTL); s_cloakedPTR := c.(c_CloakedPTR);
        s_queryMeta := c.(c_QueryMeta); s_ednsClientSubnets := nets;
        s_queryLog := {| ql_File := c.(c_QueryLog).(ql_File); ql_Format := queryFormat;
                         IgnoredQtypes := c.(c_QueryLog).(IgnoredQtypes) |};
        s_nxLog := {| nx_File := c.(c_NxLog).(nx_File); nx_Format := nxFormat |};
        s_blockName := blockName; s_allowName := allowName; s_blockIP := blockIP;
        s_allowedIP := {| File := c.(c_AllowIP).(File); LogFile := c.(c_AllowIP).(LogFile); Format := allowIPFormat |};
        s_forwardFile := c.(c_ForwardFile); s_cloakFile := c.(c_CloakFile);
        s_captivePortalMapFile := c.(c_CaptivePortals_MapFile); s_allWeeklyRanges := allWeeklyRanges;
        s_routes := routes_map c.(c_AnonymizedDNS).(anon_Routes);
        s_skipAnonIncompatibleResolvers := c.(c_AnonymizedDNS).(SkipIncompatible);
        s_anonDirectCertFallback := c.(c_AnonymizedDNS).(DirectCertFallback);
        s_serversBlockingFragments := c.(c_FragmentsBlocked); s_dns64Prefixes := c.(c_DNS64_Prefixes);
        s_dns64Resolvers := c.(c_DNS64_Resolvers) |}).

End Settings.

(** * Sources and static servers *)

(** Go iterates over a map in an unspecified order: a permutation drawn from [rnd]. *)
Definition map_order {V} (rnd : nat → Z) (m : gmap bytes V) : list (bytes * V) :=
  shuffle rnd (length (map_to_list m) - 1) (map_to_list m).

(** The random numbers of [loadSources]: the orders of the iterations, the URLs of
    each source, the stamps of each entry and the two lists of servers. *)
Record LoadRnd := {
  lr_sources : nat → Z;
  lr_urls : nat → nat → Z;
  lr_relays : nat → Z;
  lr_statics : nat → Z;
  lr_parse : nat → nat → nat → Z;
  lr_servers : nat → Z;
  lr_registered : nat → Z
}.

Section LoadSources.
Context {PublicKey Signature : Type} `{Minisign PublicKey Signature} `{NetLib} `{WebLib} `{StampLib} `{UnicodeTables} {E : Type}.
Context (stamp_String : ServerStamp → bytes).
(** For each source, what its load gets from outside, and the clock. *)
Context (senv : nat → SourceEnv) (now : nat → Z) (rnds : LoadRnd).
Abbreviation Src := (Source PublicKey).

(** The URLs, the format and the delay of a source, with their defaults. *)
Definition source_urls (cfg : SourceConfig) : list bytes :=
  match cfg.(URLs) with
  | [] => if (length cfg.(sc_URL) =? 0)%nat then [] else [cfg.(sc_URL)]
  | urls => urls
  end.

Definition source_format (cfg : SourceConfig) : bytes :=
  if decide (cfg.(FormatStr) = []) then str "v2" else cfg.(FormatStr).

Definition source_delay (cfg : SourceConfig) : Z :=
  if cfg.(RefreshDelay) <=? 0 then 72 else if 168 <? cfg.(RefreshDelay) then 168 else cfg.(RefreshDelay).

(** [loadSource]: the source to append to those of the proxy, with the files and
    the transport after. *)
Definition loadSource (i : nat) (name : bytes) (cfg : SourceConfig) (files : Files) (x : XTransport)
    : Out (Src * Files * XTransport) :=
  if decide (cfg.(MinisignKeyStr) = []) then Err (EMsg "Missing Minisign key for source")
  else if decide (cfg.(CacheFile) = []) then Err (EMsg "Missing cache file for source")
  else
    let! ld := NewSource (senv i) DefaultTimeout (now i) name (source_urls cfg) cfg.(MinisignKeyStr) cfg.(CacheFile)
                 (source_format cfg) (i64 (source_delay cfg * Hour)) cfg.(Prefix) files x in
    match ld.(ld_err) with
    | Some e =>
        if len ld.(ld_source).(src_in) <=? 0 then Err e else Ok (ld.(ld_source), ld.(ld_files), ld.(ld_transport))
    | None => Ok (ld.(ld_source), ld.(ld_files), ld.(ld_transport))
    end.

(** The loop over the sources, whose URLs are shuffled first. *)
Fixpoint load_each (i : nat) (l : list (bytes * SourceConfig)) (sources : list Src) (files : Files) (x : XTransport)
    : Out (list Src * Files * XTransport) :=
  match l with
  | [] => Ok (sources, files, x)
  | (name, cfg) :: l =>
      let cfg := cfg <| URLs := shuffle (rnds.(lr_urls) i) (length cfg.(URLs) - 1) cfg.(URLs) |> in
      let! (source, files, x) := loadSource i name cfg files x in
      load_each (S i) l (sources ++ [source]) files x
  end.

(** The static relays; stamps that do not parse are passed over here. *)
Fixpoint static_relays (l : list (bytes * bytes)) (relays : list RegisteredServer) : Out (list RegisteredServer) :=
  match l with
  | [] => Ok relays
  | (name, stampStr) :: l =>
      match NewServerStampFromString stampStr with
      | Ok stamp =>
          if is_relay stamp.(stamp_Proto)
          then static_relays l (relays ++ [{| rs_name := name; rs_stamp := stamp; rs_description := str "static relay" |}])
          else static_relays l relays
      | Err _ => static_relays l relays
      | Panic => Panic
      | Fatal => Fatal
      end
  end.

(** The static servers among the names [l]. *)
Fixpoint static_servers (statics : gmap bytes bytes) (l : list bytes) (servers : list RegisteredServer)
    : Out (list RegisteredServer) :=
  match l with
  | [] => Ok servers
  | name :: l =>
      match statics !! name with
      | None => static_servers statics l servers
      | Some stampStr =>
          if (length stampStr =? 0)%nat then Err (EMsg "Missing stamp for the static definition")
          else
            let! stamp := or_error (EMsg "Stamp error for the static definition") (NewServerStampFromString stampStr) in
            static_servers statics l (servers ++ [{| rs_name := name; rs_stamp := stamp; rs_description := [] |}])
      end
  end.

(** All the static servers are used if no server is named. *)
Definition static_names (c : Config) : list bytes :=
  match c.(c_ServerNames) with
  | [] => (map_order rnds.(lr_statics) c.(c_StaticsConfig)).*1
  | names => names
  end.

(** [loadSources]; the result of [updateRegisteredServers] is not read. [rcfg] has
    the settings of the proxy, where the names added for the statics are missing. *)
Definition loadSources (c : Config) (rcfg : RegisterConfig) (files : Files) (x : XTransport) (g : Registry E)
    : Out (list Src * Files * XTransport * Registry E) :=
  let! (sources, files, x) := load_each 0 (map_order rnds.(lr_sources) c.(c_SourcesConfig)) [] files x in
  let! relays := static_relays (map_order rnds.(lr_relays) c.(c_StaticsConfig)) g.(rg_relays) in
  let! servers := static_servers c.(c_StaticsConfig) (static_names c) g.(rg_servers) in
  let! (g, _) := updateRegisteredServers stamp_String rcfg rnds.(lr_parse) sources
                   (g <| rg_relays := relays |> <| rg_servers := servers |>) in
  let rs1 := g.(rg_servers) in
  let rs2 := g.(rg_info).(registeredServers) in
  Ok (sources, files, x,
      g <| rg_servers := shuffle rnds.(lr_servers) (length rs1 - 1) rs1 |>
        <| rg_info := g.(rg_info) <| registeredServers := shuffle rnds.(lr_registered) (length rs2 - 1) rs2 |> |>).

End LoadSources.

(** * The lists of servers *)

Record ServerSummary := {
  sm_Name : bytes;
  sm_Proto : bytes;
  sm_IPv6 : bool;
  sm_Addrs : list bytes;
  sm_Ports : list Z;
  sm_DNSSEC : bool;
  sm_NoLog : bool;
  sm_NoFilter : bool;
  sm_Description : bytes;
  sm_Stamp : bytes
}.

(** What is printed: a line per server, or the summaries as one JSON value. *)
Inductive Printed := Lines (names : list bytes) | JSON (summary : list ServerSummary).

Section Listing.
(** [StampProtoType.String] and [ServerStamp.String]. *)
Context (proto_String : StampProtoType → bytes) (stamp_String : ServerStamp → bytes).

Definition DefaultPort : Z := 443.

Definition server_summary (r : RegisteredServer) : ServerSummary :=
  let stamp := r.(rs_stamp) in
  let '(hostAddr, port) := ExtractHostAndPort stamp.(ServerAddrStr) DefaultPort in
  let '(addrs, port) :=
    if (bool_decide (stamp.(stamp_Proto) = StampProtoTypeDoH) || bool_decide (stamp.(stamp_Proto) = StampProtoTypeODoHTarget))
       && (0 <? length stamp.(ProviderName))%nat
    then let '(host, port) := ExtractHostAndPort stamp.(ProviderName) port in ([host], port)
    else ([], port) in
  let addrs := if (0 <? length stamp.(ServerAddrStr))%nat then addrs ++ [hostAddr] else addrs in
  let has p := negb (Z.land stamp.(Props) p =? 0) in
  {| sm_Name := r.(rs_name); sm_Proto := proto_String stamp.(stamp_Proto);
     sm_IPv6 := HasPrefix stamp.(ServerAddrStr) (str "["); sm_Addrs := addrs; sm_Ports := [port];
     sm_DNSSEC := has ServerInformalPropertyDNSSEC; sm_NoLog := has ServerInformalPropertyNoLog;
     sm_NoFilter := has ServerInformalPropertyNoFilter; sm_Description := r.(rs_description);
     sm_Stamp := stamp_String stamp |}.

Definition printRegisteredServers (l : list RegisteredServer) (jsonOutput : bool) : Printed :=
  if jsonOutput then JSON (server_summary <$> l) else Lines (rs_name <$> l).

End Listing.

(** * [ConfigLoad] *)

(** How [ConfigLoad] ends when it returns no error: it has resolved a name, listed
    the servers or checked the configuration and exits, it has started a
    child under another user, or the proxy can start. *)
Inductive ConfigResult (PublicKey E : Type) :=
  | ResolveAndExit (addr name : bytes) (singleResolver : bool)
  | ListAndExit (p : Printed)
  | CheckAndExit
  | Reexecuted (c : Credentials) (t : Table)
  | Ready (s : Settings) (p : Proc) (sources : list (Source PublicKey)) (files : Files) (x : XTransport) (g : Registry E).
Arguments ResolveAndExit {_ _} _ _ _. Arguments ListAndExit {_ _} _. Arguments CheckAndExit {_ _}.
Arguments Reexecuted {_ _} _ _. Arguments Ready {_ _} _ _ _ _ _ _.

(** What the load gets from outside: the error of [cdFileDir], the environment
    variable [SHOW_CERTS], TLS, files, the errors of the listeners of captive portals, the dials of the probe, the errors of the
    sockets and those systemd passes, the users, and for the sources their environments, clocks
    and random numbers. *)
Record ConfigEnv := {
  ce_cdFileDir : option error;
  ce_SHOW_CERTS : bool;
  ce_tls : TLSEnv;
  ce_ReadFile : bytes → Out bytes;
  ce_ListenUDP : Addr → option error;
  ce_dial : nat → option error;
  ce_listen : OpenFile → option error;
  ce_systemd : list OpenFile;
  ce_privilege : PrivilegeEnv;
  ce_credentials : Credentials;
  ce_sources : nat → SourceEnv;
  ce_now : nat → Z;
  ce_rnd : LoadRnd
}.

Section ConfigLoad.
Context {PublicKey Signature : Type} `{Minisign PublicKey Signature} `{NetLib} `{WebLib} `{StampLib} `{UnicodeTables} {E : Type}.
Context (stamp_String : ServerStamp → bytes) (proto_String : StampProtoType → bytes).
Context (proxy_FromURL : Url → Out unit) (ParseCIDR : bytes → Out IPNet).
Context (env : ConfigEnv).

Definition netprobe_address (c : Config) : bytes :=
  if (0 <? length c.(c_NetprobeAddress))%nat then c.(c_NetprobeAddress)
  else match c.(c_BootstrapResolvers) with [] => DefaultNetprobeAddress | r :: _ => r end.

(** The severities of the log. *)
Definition SeverityDebug : Z := 0.
Definition SeverityInfo : Z := 1.
Definition SeverityNotice : Z := 2.
Definition SeverityLast : Z := 7.

(** The level of the log: what is less severe is not logged. [current] is the level of the command line,
    [DEBUG] the variable of the environment. *)
Definition log_level (c : Config) (current : Z) (DEBUG : bytes) : Z :=
  let level := if (0 <=? c.(c_LogLevel)) && (c.(c_LogLevel) <? SeverityLast) then c.(c_LogLevel) else current in
  if (level <=? SeverityDebug) && bool_decide (DEBUG = []) then SeverityInfo else level.

(** Where the log goes. *)
Inductive LogDestination := LogStderr | LogSyslog | LogToFile (name : bytes) (truncate : bool).

Definition log_destination (c : Config) (isCommandMode : bool) : LogDestination :=
  if isCommandMode then LogStderr
  else if c.(c_UseSyslog) then LogSyslog
  else match c.(c_LogFile) with Some f => LogToFile f c.(c_LogFileLatest) | None => LogStderr end.

(** The log file, unless a command only prints something. *)
Definition open_log (c : Config) (flags : ConfigFlags) (isCommandMode : bool) (p : Proc) : Proc :=
  match log_destination c isCommandMode with LogToFile _ _ => use_log_file flags.(fl_Child) p | _ => p end.

(** Debugging messages are only logged when the environment asks for them. *)
Lemma log_level_debug c current DEBUG :
  0 ≤ current → log_level c current DEBUG = SeverityDebug ↔
    DEBUG ≠ [] ∧ (c.(c_LogLevel) = 0 ∨ current = 0 ∧ ¬ 0 ≤ c.(c_LogLevel) < SeverityLast).
Proof.
  intros Hc. unfold log_level, SeverityDebug, SeverityInfo, SeverityLast.
  destruct (Z.leb_spec 0 c.(c_LogLevel)), (Z.ltb_spec c.(c_LogLevel) 7); cbn [andb];
    case_bool_decide as Hd; cbn [andb]; rewrite ?andb_true_r, ?andb_false_r;
    try (destruct (Z.leb_spec (c_LogLevel c) 0)); try (destruct (Z.leb_spec current 0)); split; intros; try lia; intuition lia.
Qed.

(** The network and the sockets. *)
Definition open_sockets (c : Config) (flags : ConfigFlags) (s : Settings) (p : Proc) : Out Proc :=
  let timeout := default c.(c_NetprobeTimeout) flags.(fl_NetprobeTimeoutOverride) in
  let file := if (length s.(s_captivePortalMapFile) =? 0)%nat then None else Some (env.(ce_ReadFile) s.(s_captivePortalMapFile)) in
  let cold := ColdStart env.(ce_ListenUDP) file s.(s_listenAddresses) in
  let! _ := NetProbe cold env.(ce_dial) (netprobe_address c) timeout in
  let p := p <| p_captivePortalMap := captive_portals cold (netprobe_address c) timeout |> in
  let! p := each (addDNSListener env.(ce_listen) s.(s_userName) s.(s_child)) s.(s_listenAddresses) p in
  let! p := each (addLocalDoHListener env.(ce_listen) s.(s_userName) s.(s_child)) s.(s_localDoH).(doh_ListenAddresses) p in
  addSystemDListeners s.(s_userName) s.(s_child) env.(ce_systemd) p.

(** The servers, the commands, and what is left to start the proxy. *)
Definition load_servers (c : Config) (flags : ConfigFlags) (s : Settings) (files : Files) (g : Registry E) (p : Proc)
    : Out (ConfigResult PublicKey E) :=
  let g := g <| rg_info := g.(rg_info) <| lbStrategy := s.(s_lbStrategy) |> <| lbEstimator := s.(s_lbEstimator) |> |> in
  let! (sources, files, x, g) :=
    if negb c.(c_OfflineMode) then
      let! (sources, files, x, g) :=
        loadSources stamp_String env.(ce_sources) env.(ce_now) env.(ce_rnd) c s.(s_register) files s.(s_xTransport) g in
      if (length g.(rg_servers) =? 0)%nat then Err (EMsg "No servers configured") else Ok (sources, files, x, g)
    else Ok ([], files, s.(s_xTransport), g) in
  if flags.(fl_List) || flags.(fl_ListAll) then
    Ok (ListAndExit (printRegisteredServers proto_String stamp_String g.(rg_servers) flags.(fl_JSONOutput)))
  else if flags.(fl_Check) then Ok CheckAndExit
  else Ok (Ready s p sources files x g).

(** [ConfigLoad], with the file as it was found and decoded into [newConfig]; the
    proxy is the one [NewProxy] returns. *)
Definition ConfigLoad (decoded : Out (Config * MetaData)) (flags : ConfigFlags) (files : Files) (p : Proc)
    : Out (ConfigResult PublicKey E) :=
  let! (c, md) := decoded in
  if (0 <? length flags.(fl_Resolve))%nat then
    Ok (ResolveAndExit (match c.(c_ListenAddresses) with [] => str "127.0.0.1:53" | a :: _ => a end)
          flags.(fl_Resolve) (length c.(c_ServerNames) =? 1)%nat)
  else
    match env.(ce_cdFileDir) with
    | Some e => Err e
    | None =>
        let showCerts := flags.(fl_ShowCerts) || env.(ce_SHOW_CERTS) in
        let isCommandMode := flags.(fl_Check) || showCerts || flags.(fl_List) || flags.(fl_ListAll) in
        let p := open_log c flags isCommandMode p in
        let! (c, s) := configure proxy_FromURL ParseCIDR env.(ce_tls) [] md flags showCerts c in
        let! p := if negb isCommandMode then open_sockets c flags s p else Ok p in
        if (0 <? length s.(s_userName))%nat && negb s.(s_child) then
          let! (creds, t) := dropPrivilege env.(ce_privilege) s.(s_userName) p.(FileDescriptors) env.(ce_credentials) p.(fds) in
          Ok (Reexecuted creds t)
        else
          load_servers c flags s files {| rg_servers := []; rg_relays := []; rg_info := NewServersInfo |} p
    end.

End ConfigLoad.

(** * Which configurations are accepted *)

Section Accepted.
Context `{NetLib} `{StampLib} `{UnicodeTables}.
Implicit Types (c : Config) (s : Settings) (md : MetaData) (flags : ConfigFlags).

Definition format_ok (f : bytes) : Prop := f = [] ∨ ToLower f = str "tsv" ∨ ToLower f = str "ltsv".

Lemma or_error_Ok {A} (e : error) (m : Out A) a : or_error e m = Ok a ↔ m = Ok a.
Proof. by destruct m. Qed.

Lemma obind_ex {A B} (m : Out A) (f : A → Out B) :
  (∃ b, obind m f = Ok b) ↔ ∃ a, m = Ok a ∧ ∃ b, f a = Ok b.
Proof.
  split.
  - intros (b & (a & Ha & Hb)%obind_Ok). by eauto.
  - intros (a & -> & Hb). done.
Qed.

Lemma log_format_Ok e f f' :
  log_format e f = Ok f' ↔ format_ok f ∧ f' = if (length f =? 0)%nat then str "tsv" else ToLower f.
Proof.
  unfold log_format, format_ok. destruct f as [|b f]; cbn [length Nat.eqb].
  { split; [intros [= <-]; by split; [left|]|by intros [_ ->]]. }
  destruct (bool_decide_reflect (ToLower (b :: f) = str "tsv")), (bool_decide_reflect (ToLower (b :: f) = str "ltsv"));
    cbn; naive_solver.
Qed.

Lemma log_format_value e f f' : log_format e f = Ok f' → f' = str "tsv" ∨ f' = str "ltsv".
Proof.
  intros [Hf ->]%log_format_Ok. destruct f; cbn [length Nat.eqb]; [by left|]. destruct Hf as [|[|]]; by auto.
Qed.

(** The section that is used. *)
Definition effective (new legacy : RulesConfig) : RulesConfig := if (0 <? length legacy.(File))%nat then legacy else new.

Definition section_ok (new legacy : RulesConfig) : Prop :=
  (new.(File) = [] ∨ legacy.(File) = []) ∧ format_ok (effective new legacy).(Format).

Lemma rules_section_Ok e1 e2 new legacy : (∃ r, rules_section e1 e2 new legacy = Ok r) ↔ section_ok new legacy.
Proof.
  unfold rules_section, section_ok. destruct (File new) as [|a l] eqn:En, (File legacy) as [|b k] eqn:El;
    cbn [length Nat.ltb Nat.leb andb]; try (rewrite obind_ex; setoid_rewrite log_format_Ok); unfold effective; rewrite El; cbn;
    naive_solver.
Qed.

Lemma rules_section_value e1 e2 new legacy r :
  rules_section e1 e2 new legacy = Ok r →
  r.(File) = (effective new legacy).(File) ∧ r.(LogFile) = (effective new legacy).(LogFile) ∧
  (r.(Format) = str "tsv" ∨ r.(Format) = str "ltsv").
Proof.
  unfold rules_section. destruct (_ && _); [done|]. intros (f & Hf%log_format_value & [= <-])%obind_Ok. done.
Qed.

Lemma check_resolvers_Ok l : (∃ u, check_resolvers l = Ok u) ↔ Forall (λ r, isIPAndPort r = None) l.
Proof.
  induction l as [|r l IH]; cbn [check_resolvers]; [split; [by constructor|by exists tt]|]. rewrite list.Forall_cons, <-IH.
  destruct (isIPAndPort r); naive_solver.
Qed.

Lemma lb_strategy_wf str : lb_wf (lb_strategy str).
Proof.
  unfold lb_strategy, ParseInt32. repeat (destruct (decide _); [done|]). destruct (HasPrefix _ _); [|done].
  destruct (Atoi _) as [v|]; [|done]. cbn. destruct (between _ _ _); [|done].
  destruct (Z.leb_spec v 0); [done|]. cbn. lia.
Qed.

Lemma ToLower_Itoa n : - 2 ^ 63 ≤ n < 2 ^ 63 → ascii (Itoa n) ∧ lowerASCII <$> Itoa n = Itoa n.
Proof.
  intros Hn. assert (∀ b, b ∈ Itoa n → b = 43 ∨ b = 45 ∨ 48 ≤ b ≤ 57) as Hb by (intros b; by apply (Atoi_chars _ n), Atoi_Itoa).
  split; [apply list.Forall_forall; intros b Hin; specialize (Hb b Hin); lia|].
  revert Hb. generalize (Itoa n). intros l. induction l as [|b l IH]; intros Hb; [done|]. cbn. f_equal; [|apply IH; set_solver].
  specialize (Hb b ltac:(by left)). unfold lowerASCII, between. rewrite (proj2 (Z.leb_gt _ _)) by lia. done.
Qed.

(** The strategy [p<n>] chooses among the [n] best servers; the case of
    the letter is ignored. *)
Theorem lb_strategy_pn n : 2 < n < 2 ^ 31 →
  lb_strategy (str "p" ++ Itoa n) = LBStrategyPN n ∧ lb_strategy (str "P" ++ Itoa n) = LBStrategyPN n.
Proof.
  intros Hn. assert (∀ a, a = 80 ∨ a = 112 → ToLower (a :: Itoa n) = 112 :: Itoa n) as Hl.
  { intros a Ha. destruct (ToLower_Itoa n) as [Hasc Hlow]; [lia|].
    rewrite ToLower_ascii by (apply Forall_cons_2; [lia|done]). rewrite fmap_cons, Hlow. by destruct Ha as [-> | ->]. }
  change (str "P" ++ Itoa n) with (80 :: Itoa n). change (str "p" ++ Itoa n) with (112 :: Itoa n).
  unfold lb_strategy. rewrite !Hl by lia. assert (Atoi (Itoa n) = Some n) as Ha by (apply Atoi_Itoa; lia).
  rewrite (decide_False (P := _ = [])) by done.
  rewrite (decide_False (P := _ = str "p2")) by (intros [= E]; rewrite E in Ha; injection Ha; lia).
  rewrite (decide_False (P := _ = str "ph")) by (intros [= E]; rewrite E in Ha; done).
  rewrite !(decide_False (P := 112 :: Itoa n = str _)) by done. cbn [HasPrefix str].
  unfold ParseInt32.
  change (TrimPrefix (112 :: Itoa n) (str "p")) with (Itoa n). rewrite Ha. cbn [mbind option_bind].
  unfold between. rewrite (proj2 (Z.leb_le _ _)), (proj2 (Z.leb_le _ _)) by lia. cbn.
  rewrite (proj2 (Z.leb_gt _ _)) by lia. done.
Qed.

Context (proxy_FromURL : Url → Out unit) (ParseCIDR : bytes → Out IPNet).

Lemma parse_subnets_Ok l :
  (∃ nets, parse_subnets ParseCIDR l = Ok nets) ↔ Forall (λ cidr, ∃ n, ParseCIDR cidr = Ok n) l.
Proof.
  induction l as [|x l IH]; cbn [parse_subnets]; [split; [by constructor|by exists []]|]. rewrite list.Forall_cons, <-IH, obind_ex.
  setoid_rewrite or_error_Ok. setoid_rewrite obind_ex. naive_solver.
Qed.

(** The values that can be used. *)
Record valid md c : Prop := {
  va_keys : md.(Undecoded) = [];
  va_resolvers : Forall (λ r, isIPAndPort r = None) (bootstrap_resolvers c);
  va_http_proxy : c.(c_HTTPProxyURL) = [] ∨ ∃ u, url_Parse c.(c_HTTPProxyURL) = Ok u;
  va_proxy : c.(c_Proxy) = [] ∨ ∃ u v, url_Parse c.(c_Proxy) = Ok u ∧ proxy_FromURL u = Ok v;
  va_path : path_ok c.(c_LocalDoH).(doh_Path) = true;
  va_subnets : Forall (λ cidr, ∃ n, ParseCIDR cidr = Ok n) c.(c_EDNSClientSubnet);
  va_query_log : format_ok c.(c_QueryLog).(ql_Format);
  va_nx_log : format_ok c.(c_NxLog).(nx_Format);
  va_block_name : section_ok c.(c_BlockName) c.(c_BlockNameLegacy);
  va_allow_name : section_ok c.(c_AllowedName) c.(c_WhitelistNameLegacy);
  va_block_ip : section_ok c.(c_BlockIP) c.(c_BlockIPLegacy);
  va_allow_ip : format_ok c.(c_AllowIP).(Format);
  va_ranges : ∃ w, ParseAllWeeklyRanges c.(c_AllWeeklyRanges) = Ok w;
  va_creds_legacy : c.(c_DoHClientX509AuthLegacy) = None;
  va_creds : (length c.(c_DoHClientX509Auth) <= 1)%nat
}.

(** A system that has authorities, and on which every file of keys loads. *)
Definition tls_works (tenv : TLSEnv) : Prop :=
  tenv.(te_SystemCertPool) = true ∧ (∀ f, ∃ pem, tenv.(te_ReadFile) f = Ok pem) ∧
  (∀ a b, tenv.(te_LoadX509KeyPair) a b = None) ∧ tenv.(te_ConfigureTransports) = None.

Lemma rebuildTransport_works tenv tc x : tls_works tenv → ∃ h, rebuildTransport tenv tc x = Ok h.
Proof.
  intros (Hp & Hr & Hk & Hh). unfold rebuildTransport, http2_options. rewrite Hh.
  assert (∃ pool, cert_pool tenv (tlsClientCreds tc) = Ok pool) as [pool ->].
  { unfold cert_pool. rewrite Hp. destruct (decide (rootCA (tlsClientCreds tc) = [])); [eexists; reflexivity|].
    destruct (Hr (rootCA (tlsClientCreds tc))) as [pem ->]. eexists. reflexivity. }
  assert (∃ certs, client_certificates tenv (tlsClientCreds tc) = Ok certs) as [certs ->].
  { unfold client_certificates. rewrite Hk. destruct (decide _); eexists; reflexivity. }
  eexists. reflexivity.
Qed.

Lemma configure_transport_Ok c m :
  NewXTransport_checked = Ok NewXTransport →
  (∃ r, configure_transport c m = Ok r) ↔
  Forall (λ r, isIPAndPort r = None) (bootstrap_resolvers c) ∧
  (c.(c_HTTPProxyURL) = [] ∨ ∃ u, url_Parse c.(c_HTTPProxyURL) = Ok u).
Proof.
  intros HX. unfold configure_transport. rewrite HX. cbn [obind]. rewrite obind_ex, <-check_resolvers_Ok.
  assert (∀ x : XTransport, (∃ r, (let! x := if (0 <? length c.(c_HTTPProxyURL))%nat then
      let! _ := or_error (EMsg "Unable to parse the HTTP proxy URL") (url_Parse c.(c_HTTPProxyURL)) in
      Ok (x <| has_httpProxy := true |>) else Ok x in
      Ok (x, NewTransportConfig <| tlsDisableSessionTickets := c.(c_TLSDisableSessionTickets) |>
              <| keepAlive := i64 (c.(c_KeepAlive) * Second) |>)) = Ok r) ↔
    (c.(c_HTTPProxyURL) = [] ∨ ∃ u, url_Parse c.(c_HTTPProxyURL) = Ok u)) as Hurl.
  { intros x. rewrite obind_ex. destruct (c_HTTPProxyURL c) as [|b l] eqn:E; cbn [length Nat.ltb Nat.leb]; [naive_solver|].
    destruct (url_Parse _); cbn; naive_solver. }
  destruct (bootstrap_resolvers c) as [|r l]; cbn [length Nat.ltb Nat.leb].
  - cbn [check_resolvers]. split; [intros (x & _ & Hr%Hurl); by eauto|intros [_ Hu]; eexists; split; [done|by apply Hurl]].
  - split.
    + intros (x & (u & Hu & [= <-])%obind_Ok & Hr%Hurl). by eauto.
    + intros [[u Hu] Hr]. rewrite Hu. cbn [obind]. eexists. split; [done|by apply Hurl].
Qed.

Lemma configure_proxy_Ok c x m :
  (∃ r, configure_proxy proxy_FromURL c x m = Ok r) ↔
  c.(c_Proxy) = [] ∨ ∃ u v, url_Parse c.(c_Proxy) = Ok u ∧ proxy_FromURL u = Ok v.
Proof.
  unfold configure_proxy. destruct (c_Proxy c) as [|b l]; cbn [length Nat.ltb Nat.leb]; [naive_solver|].
  rewrite obind_ex. setoid_rewrite or_error_Ok. setoid_rewrite obind_ex. setoid_rewrite or_error_Ok. naive_solver.
Qed.

Lemma configure_creds_Ok c tenv x tc h :
  tls_works tenv →
  (∃ r, configure_creds c tenv x tc h = Ok r) ↔
  c.(c_DoHClientX509AuthLegacy) = None ∧ (length c.(c_DoHClientX509Auth) <= 1)%nat.
Proof.
  intros Ht. unfold configure_creds. destruct (c_DoHClientX509AuthLegacy c); [naive_solver|].
  destruct (c_DoHClientX509Auth c) as [|cr [|cr' l]]; cbn [length]; [naive_solver lia| |naive_solver lia].
  split; [intros _; split; [done|lia]|intros _]. rewrite obind_ex.
  edestruct (rebuildTransport_works tenv) as [h' Hh']; [done|]. eexists. split; [exact Hh'|by eauto].
Qed.

(** C16: the configurations that are accepted. On a system whose certificates load,
    the settings are made exactly when no key is unknown, the bootstrap
    resolvers are addresses with a port, the proxies can be parsed and used, the path of the
    local DoH server starts with a slash, the client subnets parse, every log format
    is empty, tsv or ltsv in any case, no list is given both under its name and its
    legacy name, the schedules parse, and there is at most one client certificate, not under its
    legacy name. *)
Theorem configure_accepts tenv m md flags showCerts c :
  NewXTransport_checked = Ok NewXTransport → tls_works tenv →
  (∃ r, configure proxy_FromURL ParseCIDR tenv m md flags showCerts c = Ok r) ↔ valid md c.
Proof.
  intros HX Ht. unfold configure. destruct (Undecoded md) as [|k ks] eqn:Eu; cbn [length Nat.ltb Nat.leb];
    [|split; [naive_solver|intros [Hk]; congruence]].
  split.
  - intros (r & ([x tc] & K1 & ([x' m'] & K2 & (h & K3 & HR)%obind_Ok)%obind_Ok)%obind_Ok).
    destruct (path_ok _) eqn:Hp; cbn [negb] in HR; [|done].
    apply obind_Ok in HR as (nets & K4 & (qf & K5 & (nf & K6 & (bn & K7 & (an & K8 & (bi & K9 & (ai & K10 & (w & K11
      & (tch & K12 & _)%obind_Ok)%obind_Ok)%obind_Ok)%obind_Ok)%obind_Ok)%obind_Ok)%obind_Ok)%obind_Ok).
    destruct (proj1 (configure_transport_Ok c m HX)) as [Hr Hu]; [by eauto|].
    destruct (proj1 (configure_creds_Ok c tenv x' tc h Ht)) as [Hl Hc]; [by eauto|].
    apply log_format_Ok in K5 as [K5 _]. apply log_format_Ok in K6 as [K6 _]. apply log_format_Ok in K10 as [K10 _].
    split; try done.
    + eapply configure_proxy_Ok; by eauto.
    + eapply parse_subnets_Ok; by eauto.
    + eapply rules_section_Ok; by eauto.
    + eapply rules_section_Ok; by eauto.
    + eapply rules_section_Ok; by eauto.
    + by eauto.
  - intros V. destruct V. rewrite !obind_ex.
    destruct (proj2 (configure_transport_Ok c m HX)) as [[x tc] K1]; [done|]. exists (x, tc). split; [done|].
    destruct (proj2 (configure_proxy_Ok c x m)) as [[x' m'] K2]; [done|]. rewrite K2. cbn [obind].
    destruct (rebuildTransport_works tenv tc x' Ht) as [h Hh]. rewrite Hh. cbn [obind]. rewrite va_path0. cbn [negb].
    destruct (proj2 (parse_subnets_Ok _) va_subnets0) as [nets ->]. cbn [obind].
    rewrite (proj2 (log_format_Ok _ _ _) (conj va_query_log0 eq_refl)). cbn [obind].
    rewrite (proj2 (log_format_Ok _ _ _) (conj va_nx_log0 eq_refl)). cbn [obind].
    do 3 match goal with |- context [rules_section ?a ?b ?n ?l] =>
      destruct (proj2 (rules_section_Ok a b n l)) as [? ->]; [done|]; cbn [obind] end.
    rewrite (proj2 (log_format_Ok _ _ _) (conj va_allow_ip0 eq_refl)). cbn [obind].
    destruct va_ranges0 as [w ->]. cbn [obind].
    destruct (proj2 (configure_creds_Ok c tenv x' tc h Ht)) as [[tc' h'] ->]; [done|]. cbn [obind]. by eauto.
Qed.

(** ** The settings made *)

(** A transport keeps the settings read before its resolvers. *)
Lemma configure_transport_fields c m x tc :
  configure_transport c m = Ok (x, tc) →
  x.(bootstrapResolvers) = bootstrap_resolvers c ∧ XTransport.mainProto x = m ∧
  Forall (λ r, isIPAndPort r = None) x.(bootstrapResolvers) ∧ x.(cachedIPs) = ∅.
Proof.
  unfold configure_transport. intros (x0 & HX & (x1 & H1' & (x2 & H2' & [= <- <-])%obind_Ok)%obind_Ok)%obind_Ok.
  assert (x0 = NewXTransport) as -> by (unfold NewXTransport_checked in HX; destruct (isIPAndPort _); congruence).
  assert (Forall (λ r, isIPAndPort r = None) (bootstrap_resolvers c) ∧ XTransport.mainProto x1 = m ∧ x1.(cachedIPs) = ∅)
    as (Hr & Hm & Hc).
  { destruct (bootstrap_resolvers c) as [|r l]; cbn [length Nat.ltb Nat.leb] in H1'; [by injection H1' as <-|].
    apply obind_Ok in H1' as (u & Hu & [= <-]). split; [|done]. apply check_resolvers_Ok. by eauto. }
  destruct (0 <? length (c_HTTPProxyURL c))%nat; [apply obind_Ok in H2' as (u & _ & [= <-])|injection H2' as <-]; done.
Qed.

Lemma configure_proxy_fields c x m x' m' :
  configure_proxy proxy_FromURL c x m = Ok (x', m') →
  x'.(bootstrapResolvers) = x.(bootstrapResolvers) ∧ XTransport.mainProto x' = XTransport.mainProto x.
Proof.
  unfold configure_proxy. destruct (_ <? _)%nat; [|by intros [= <- <-]].
  intros (u & _ & (v & _ & [= <- <-])%obind_Ok)%obind_Ok. done.
Qed.

Definition log_value (f : bytes) : Prop := f = str "tsv" ∨ f = str "ltsv".

(** What the settings satisfy. *)
Record settings_ok c s : Prop := {
  so_lb : lb_wf s.(s_lbStrategy);
  so_resolvers : Forall (λ r, isIPAndPort r = None) s.(s_xTransport).(bootstrapResolvers);
  so_path : path_ok s.(s_localDoH).(doh_Path) = true;
  so_formats : Forall log_value [s.(s_queryLog).(ql_Format); s.(s_nxLog).(nx_Format); s.(s_blockName).(Format);
    s.(s_allowName).(Format); s.(s_blockIP).(Format); s.(s_allowedIP).(Format)];
  so_proto : s.(s_mainProto) = if c.(c_ForceTCP) then str "tcp" else str "udp";
  so_refresh : c.(c_CertRefreshDelay) ≤ 10 ^ 8 → Hour ≤ s.(s_certRefreshDelay);
  so_neg_ttl : 0 < c.(c_CacheNegTTL) →
    s.(s_state).(cfg_cacheNegMinTTL) = c.(c_CacheNegTTL) ∧ s.(s_state).(cfg_cacheNegMaxTTL) = c.(c_CacheNegTTL)
}.

(** The settings of an accepted configuration. *)
Lemma configure_settings tenv m md flags showCerts c c' s :
  configure proxy_FromURL ParseCIDR tenv m md flags showCerts c = Ok (c', s) → settings_ok c s.
Proof.
  unfold configure. destruct (0 <? _)%nat; [done|].
  intros ([x tc] & K1 & ([x' m'] & K2 & (h & _ & HR)%obind_Ok)%obind_Ok)%obind_Ok.
  destruct (path_ok _) eqn:Hp; cbn [negb] in HR; [|done].
  apply obind_Ok in HR as (nets & _ & (qf & K5 & (nf & K6 & (bn & K7 & (an & K8 & (bi & K9 & (ai & K10 & (w & _
    & ([tc' h'] & _ & [= <- <-])%obind_Ok)%obind_Ok)%obind_Ok)%obind_Ok)%obind_Ok)%obind_Ok)%obind_Ok)%obind_Ok).
  apply log_format_value in K5, K6, K10.
  apply rules_section_value in K7 as (_ & _ & K7), K8 as (_ & _ & K8), K9 as (_ & _ & K9).
  apply configure_transport_fields in K1 as (R & _ & F & _). apply configure_proxy_fields in K2 as (R' & _).
  split; cbn.
  - apply lb_strategy_wf.
  - by rewrite R'.
  - by destruct (fl_ListAll flags).
  - unfold log_value. by repeat (apply Forall_cons_2; [assumption|]).
  - done.
  - intros Hc. replace (c_CertRefreshDelay _) with (c_CertRefreshDelay c) by by destruct (fl_ListAll flags).
    unfold Max, Hour, Minute, Second in *. destruct (Z.ltb_spec (c_CertRefreshDelay c) 60); rewrite i64_id; lia.
  - intros Hn. destruct (fl_ListAll flags); cbn; by rewrite (proj2 (Z.ltb_lt _ _)).
Qed.

(** The files that the plugins read and the addresses are those of the configuration. *)
Lemma configure_files tenv m md flags showCerts c c' s :
  configure proxy_FromURL ParseCIDR tenv m md flags showCerts c = Ok (c', s) →
  s.(s_captivePortalMapFile) = c.(c_CaptivePortals_MapFile) ∧ s.(s_queryLog).(ql_File) = c.(c_QueryLog).(ql_File) ∧
  s.(s_allowName).(File) = (effective c.(c_AllowedName) c.(c_WhitelistNameLegacy)).(File) ∧
  s.(s_blockName).(File) = (effective c.(c_BlockName) c.(c_BlockNameLegacy)).(File) ∧
  s.(s_blockName).(LogFile) = (effective c.(c_BlockName) c.(c_BlockNameLegacy)).(LogFile) ∧
  c'.(c_NetprobeTimeout) = c.(c_NetprobeTimeout) ∧ s.(s_listenAddresses) = c.(c_ListenAddresses) ∧
  s.(s_localDoH) = c.(c_LocalDoH) ∧ s.(s_userName) = c.(c_UserName) ∧ s.(s_showCerts) = showCerts.
Proof.
  unfold configure. destruct (0 <? _)%nat; [done|].
  intros ([x tc] & _ & ([x' m'] & _ & (h & _ & HR)%obind_Ok)%obind_Ok)%obind_Ok.
  destruct (path_ok _); cbn [negb] in HR; [|done].
  apply obind_Ok in HR as (nets & _ & (qf & _ & (nf & _ & (bn & K7 & (an & K8 & (bi & _ & (ai & _ & (w & _
    & ([tc' h'] & _ & [= <- <-])%obind_Ok)%obind_Ok)%obind_Ok)%obind_Ok)%obind_Ok)%obind_Ok)%obind_Ok)%obind_Ok).
  apply rules_section_value in K7 as (B1 & B2 & _), K8 as (A1 & _).
  by destruct (fl_ListAll flags).
Qed.

Lemma configure_user tenv m md flags showCerts c c' s :
  configure proxy_FromURL ParseCIDR tenv m md flags showCerts c = Ok (c', s) →
  s.(s_userName) = c.(c_UserName) ∧ s.(s_child) = flags.(fl_Child).
Proof.
  unfold configure. destruct (0 <? _)%nat; [done|].
  intros ([x tc] & _ & ([x' m'] & _ & (h & _ & HR)%obind_Ok)%obind_Ok)%obind_Ok.
  destruct (path_ok _); cbn [negb] in HR; [|done].
  apply obind_Ok in HR as (nets & _ & (qf & _ & (nf & _ & (bn & _ & (an & _ & (bi & _ & (ai & _ & (w & _
    & ([tc' h'] & _ & [= <- <-])%obind_Ok)%obind_Ok)%obind_Ok)%obind_Ok)%obind_Ok)%obind_Ok)%obind_Ok)%obind_Ok).
  by destruct (fl_ListAll flags).
Qed.


End Accepted.

(** * The servers that are loaded *)

Lemma shuffle_perm {A} rnd i (l : list A) : shuffle rnd i l ≡ₚ l.
Proof.
  revert l. induction i as [|i IH]; intros l; cbn [shuffle]; [done|]. rewrite IH. apply swap_perm.
Qed.

Section Loaded.
Context {PublicKey Signature : Type} `{Minisign PublicKey Signature} `{NetLib} `{WebLib} `{StampLib} `{UnicodeTables} {E : Type}.
Context (stamp_String : ServerStamp → bytes).
Context (senv : nat → SourceEnv) (now : nat → Z) (rnds : LoadRnd).
Implicit Types (c : Config) (cfg : SourceConfig) (s : Source PublicKey) (g : Registry E) (r : RegisteredServer).

Lemma source_delay_range cfg : 1 ≤ source_delay cfg ≤ 168.
Proof. unfold source_delay. destruct (Z.leb_spec (RefreshDelay cfg) 0), (Z.ltb_spec 168 (RefreshDelay cfg)); lia. Qed.

Lemma NewSource_settings env dt t name urls key cf format delay prefix files x ld :
  NewSource env dt t name urls key cf format delay prefix files x = Ok ld →
  ld.(ld_source).(src_name) = name ∧ ld.(ld_source).(cacheFile) = cf ∧ ld.(ld_source).(src_prefix) = prefix ∧
  ld.(ld_source).(cacheTTL) = if delay <? DefaultPrefetchDelay then DefaultPrefetchDelay else delay.
Proof.
  unfold NewSource. destruct (decide _) as [_|_]; [|by intros [= <-]].
  destruct (NewPublicKey key) as [k|e| |]; try done; [|by intros [= <-]].
  intros HF. apply fetchWithCache_signed in HF as (_ & -> & _ & _ & -> & -> & _ & ->); [done|by left].
Qed.

(** A source that is loaded has the configured name, cache file and prefix,
    is refreshed between once a day and once a week, and its contents, if any,
    have a signature that verifies under the configured key. *)
Theorem loadSource_spec i name cfg files x s files' x' :
  loadSource senv now i name cfg files x = Ok (s, files', x') →
  s.(src_name) = name ∧ s.(cacheFile) = cfg.(CacheFile) ∧ s.(src_prefix) = cfg.(Prefix) ∧
  24 * Hour ≤ s.(cacheTTL) ≤ 168 * Hour ∧
  (s.(src_in) = [] ∨ ∃ key, NewPublicKey cfg.(MinisignKeyStr) = Ok key ∧ verified key s.(src_in)).
Proof.
  unfold loadSource. destruct (decide _); [done|]. destruct (decide _); [done|].
  intros (ld & HN & HE)%obind_Ok. assert (s = ld.(ld_source)) as ->.
  { destruct (ld_err ld); [destruct (_ <=? _); [done|]|]; by injection HE as <-. }
  pose proof (NewSource_settings _ _ _ _ _ _ _ _ _ _ _ _ _ HN) as (Hn & Hc & Hp & Ht).
  split_and!; [done..| | |].
  1,2: rewrite Ht; pose proof (source_delay_range cfg); unfold DefaultPrefetchDelay, Hour, Second;
    rewrite i64_id by lia; destruct (Z.ltb_spec (source_delay cfg * (3600 * 1000000000)) (24 * (3600 * 1000000000))); lia.
  pose proof (reach_new _ _ _ _ _ _ _ _ _ _ _ _ _ HN) as Hr. apply source_reach_key in Hr as [[?|(key & Hkey & Hv)] Hk]; [by left|].
  right. exists key. split; [by apply Hk|done].
Qed.

(** A static server that is to be used. *)
Definition is_static c r : Prop :=
  r.(rs_name) ∈ static_names rnds c ∧
  ∃ stampStr, c.(c_StaticsConfig) !! r.(rs_name) = Some stampStr ∧ NewServerStampFromString stampStr = Ok r.(rs_stamp).

Lemma static_servers_spec statics l acc l' :
  static_servers statics l acc = Ok l' →
  (∀ r, r ∈ l' → r ∈ acc ∨ r.(rs_name) ∈ l ∧
     ∃ stampStr, statics !! r.(rs_name) = Some stampStr ∧ NewServerStampFromString stampStr = Ok r.(rs_stamp)) ∧
  (∀ n, n ∈ rs_name <$> acc → n ∈ rs_name <$> l') ∧
  (∀ n, n ∈ l → is_Some (statics !! n) → n ∈ rs_name <$> l').
Proof.
  revert acc. induction l as [|n l IH]; intros acc; cbn [static_servers].
  { intros [= <-]. split_and!; [by left|done|]. by intros n ?%elem_of_nil. }
  destruct (statics !! n) as [st|] eqn:En.
  - destruct (length st =? 0)%nat; [done|]. intros (stamp & Hst%or_error_Ok & HR)%obind_Ok.
    apply IH in HR as (Hf & Hk & Hn). split_and!.
    + intros r Hr. apply Hf in Hr as [[Hr| ->%list_elem_of_singleton]%elem_of_app|[Hr Hs]]; [by left| |].
      * right. split; [by left|]. by exists st.
      * right. split; [by right|done].
    + intros n' Hn'. apply Hk. rewrite fmap_app. set_solver.
    + intros n' [->|Hn']%elem_of_cons Hs; [|by apply Hn]. apply Hk. rewrite fmap_app. set_solver.
  - intros HR. apply IH in HR as (Hf & Hk & Hn). split_and!; [|done|].
    + intros r Hr. apply Hf in Hr as [Hr|[Hr Hs]]; [by left|right]. split; [by right|done].
    + intros n' [->|Hn']%elem_of_cons Hs; [|by apply Hn]. rewrite En in Hs. by destruct Hs.
Qed.

(** The servers after [loadSources], from an empty registry. *)
Lemma loadSources_servers c rcfg files x g sources files' x' g' :
  g.(rg_servers) = [] → loadSources stamp_String senv now rnds c rcfg files x g = Ok (sources, files', x', g') →
  (∀ r, r ∈ g'.(rg_servers) → (∃ z, is_static c z ∧ same_entry z r) ∨
     ∃ k rs z, parsed rnds.(lr_parse) 0 (take k sources) rs ∧ server_ok rcfg rs z ∧ same_entry z r) ∧
  (∀ n, n ∈ static_names rnds c → is_Some (c.(c_StaticsConfig) !! n) → n ∈ rs_name <$> g'.(rg_servers)).
Proof.
  intros Hg. unfold loadSources.
  intros ([[sources0 files0] x0] & HL & (relays & _ & (servers & HS & ([g1 err] & HU & [= <- <- <- <-])%obind_Ok)%obind_Ok)%obind_Ok)%obind_Ok.
  rewrite Hg in HS. apply static_servers_spec in HS as (Hf & _ & Hn). cbn [rg_servers].
  unfold updateRegisteredServers in HU. apply obind_Ok in HU as ([g2 err2] & HA & HE).
  assert (rg_servers g1 = rg_servers g2) as E1 by (destruct err2; injection HE as <- _; done).
  apply add_sources_batch in HA as [(k & rs & Hp & [S _ _ _ _]) _]. cbn in S.
  split.
  - intros r. cbn. rewrite shuffle_perm, E1. intros [(z & Hz & Hs)|(z & Hz & Hs)]%(gr_from _ _ _ S).
    + left. exists z. split; [|done]. apply Hf in Hz as [?%elem_of_nil|[? ?]]; [done|]. by split.
    + right. by exists k, rs, z.
  - intros n Hin Hst. cbn. rewrite shuffle_perm, E1. by apply (gr_kept _ _ _ S), Hn.
Qed.

End Loaded.

(** [-list-all] lists everything: with its settings, no server and no relay of
    the sources is filtered out, and all the protocols that can be used are enabled. *)
Theorem list_all_wanted `{UnicodeTables} c r :
  wanted (register_config (list_all c)) r = true ∧
  (r.(rs_stamp).(stamp_Proto) ∈ [StampProtoTypeDNSCrypt; StampProtoTypeDoH; StampProtoTypeODoHTarget] →
   enabled (register_config (list_all c)) r.(rs_stamp).(stamp_Proto) = true).
Proof.
  split.
  - unfold wanted, register_config, list_all, required_props. cbn -[HasPrefix]. rewrite Z.land_0_r, orb_true_r. cbn -[HasPrefix].
    destruct (HasPrefix _ _); [done|]. by destruct (decide _).
  - intros Hp. destruct (stamp_Proto (rs_stamp r)); set_solver.
Qed.

Section Ready.
Context {PublicKey Signature : Type} `{Minisign PublicKey Signature} `{NetLib} `{WebLib} `{StampLib} `{UnicodeTables} {E : Type}.
Context (stamp_String : ServerStamp → bytes) (proto_String : StampProtoType → bytes).
Context (proxy_FromURL : Url → Out unit) (ParseCIDR : bytes → Out IPNet) (env : ConfigEnv).

Abbreviation ConfigLoad' := (ConfigLoad (PublicKey := PublicKey) (E := E) stamp_String proto_String proxy_FromURL ParseCIDR env).

Lemma configure_same tenv m md flags showCerts c c' s :
  configure proxy_FromURL ParseCIDR tenv m md flags showCerts c = Ok (c', s) →
  flags.(fl_ListAll) = false →
  c'.(c_OfflineMode) = c.(c_OfflineMode) ∧ c'.(c_StaticsConfig) = c.(c_StaticsConfig) ∧
  c'.(c_ServerNames) = c.(c_ServerNames) ∧ s.(s_register) = register_config c ∧ s.(s_userName) = c.(c_UserName) ∧
  s.(s_child) = flags.(fl_Child) ∧ s.(s_lbStrategy) = lb_strategy c.(c_LBStrategy).
Proof.
  unfold configure. destruct (0 <? _)%nat; [done|].
  intros ([x tc] & _ & ([x' m'] & _ & (h & _ & HR)%obind_Ok)%obind_Ok)%obind_Ok Hf.
  destruct (path_ok _); cbn [negb] in HR; [|done].
  apply obind_Ok in HR as (nets & _ & (qf & _ & (nf & _ & (bn & _ & (an & _ & (bi & _ & (ai & _ & (w & _
    & ([tc' h'] & _ & [= <- <-])%obind_Ok)%obind_Ok)%obind_Ok)%obind_Ok)%obind_Ok)%obind_Ok)%obind_Ok)%obind_Ok).
  rewrite Hf. done.
Qed.


End Ready.

(** A finding: the default value of [bootstrap_resolvers] hides the legacy key. A
    file that only has [fallback_resolvers] gets the default resolver. *)
Theorem legacy_resolvers_ignored logLevel legacy :
  bootstrap_resolvers ((newConfig logLevel) <| c_BootstrapResolversLegacy := legacy |>) = [DefaultBootstrapResolver].
Proof. reflexivity. Qed.

(** A finding: a proxy for all connections does not make the servers be asked over
    TCP; the assignment that does is overwritten. Nor does forcing TCP reach the
    transport, which asks the bootstrap resolvers over UDP first. *)
Theorem proxy_keeps_udp `{NetLib} `{StampLib} `{UnicodeTables} proxy_FromURL ParseCIDR tenv md flags showCerts c c' s :
  configure proxy_FromURL ParseCIDR tenv [] md flags showCerts c = Ok (c', s) →
  (c.(c_ForceTCP) = false → s.(s_mainProto) = str "udp") ∧ resolve_protos s.(s_xTransport) = [str "udp"; str "tcp"].
Proof.
  intros HC. pose proof (configure_settings _ _ _ _ _ _ _ _ _ _ HC) as Hok.
  split; [intros Hf; by rewrite (so_proto _ _ Hok), Hf|].
  assert (XTransport.mainProto s.(s_xTransport) = []) as Hm; [|unfold resolve_protos; by rewrite Hm].
  unfold configure in HC. destruct (0 <? _)%nat; [done|].
  apply obind_Ok in HC as ([x tc] & K1 & ([x' m'] & K2 & (h & _ & HR)%obind_Ok)%obind_Ok).
  destruct (path_ok _); cbn [negb] in HR; [|done].
  apply obind_Ok in HR as (nets & _ & (qf & _ & (nf & _ & (bn & _ & (an & _ & (bi & _ & (ai & _ & (w & _
    & ([tc' h'] & _ & [= <- <-])%obind_Ok)%obind_Ok)%obind_Ok)%obind_Ok)%obind_Ok)%obind_Ok)%obind_Ok)%obind_Ok).
  apply configure_transport_fields in K1 as (_ & Hm & _). apply configure_proxy_fields in K2 as (_ & Hm'). cbn. congruence.
Qed.

(** * Concrete runs *)

Section ConfigExamples.
#[local] Existing Instance ascii_tables.
#[local] Existing Instance plain_net.
#[local] Existing Instance toy_minisign.
#[local] Existing Instance list_web.

(** Stamps are their text, and every address resolves. *)
#[local] Instance cfg_stamps : StampLib := {
  NewServerStampFromString s := Ok {| ServerAddrStr := s; stamp_ServerPk := []; Hashes := []; ProviderName := [];
                                      Path := []; Props := 0; stamp_Proto := StampProtoTypeDNSCrypt |};
  ResolveUDPAddr s := Ok {| addr_IP := s; addr_Port := 53 |}; ResolveTCPAddr s := Ok {| addr_IP := s; addr_Port := 53 |};
  PathEscape s := s; url_Parse s := Ok {| u_Host := s; u_Path := str "/list.md"; u_Query := [] |}
}.

Definition no_rnd : LoadRnd := {|
  lr_sources _ := 0; lr_urls _ _ := 0; lr_relays _ := 0; lr_statics _ := 0; lr_parse _ _ _ := 0; lr_servers _ := 0;
  lr_registered _ := 0 |}.

(** A server that has a text and its signature. *)
Definition serves (text : bytes) : SourceEnv := {|
  se_io := no_faults; se_resolve := λ _, empty_answers;
  se_client := λ _ rq, (inr (Some {| StatusCode := 200; Alt_Svc := None; resp_TLS := None;
    resp_body := Ok (if HasSuffix rq.(rq_url).(u_Path) (str ".minisig") then list_key ++ take 8 text else text) |}), 1) |}.

Definition plain_env (text : bytes) : ConfigEnv := {|
  ce_cdFileDir := None; ce_SHOW_CERTS := false; ce_tls := tls_env; ce_ReadFile _ := Err ETimeout; ce_ListenUDP _ := None; ce_dial := λ _, None;
  ce_listen := λ _, None; ce_systemd := []; ce_privilege := nobody; ce_credentials := root;
  ce_sources := λ _, serves text; ce_now := λ _, 100 * Hour; ce_rnd := no_rnd |}.

Definition no_flags : ConfigFlags := {|
  fl_Resolve := []; fl_List := false; fl_ListAll := false; fl_JSONOutput := false; fl_Check := false; fl_Child := false;
  fl_NetprobeTimeoutOverride := None; fl_ShowCerts := false |}.

Definition all_known : MetaData := {| IsDefined _ := false; Undecoded := [] |}.

Definition public_source : SourceConfig := {|
  sc_URL := []; URLs := [str "1.2.3.4"]; MinisignKeyStr := list_key; CacheFile := str "list.md"; FormatStr := [];
  RefreshDelay := 72; Prefix := [] |}.

(** A static server and a source. *)
Definition small_config : Config :=
  (newConfig 2) <| c_StaticsConfig := {[ str "home" := str "192.168.0.1" ]} |>
    <| c_SourcesConfig := {[ str "public" := public_source ]} |> <| c_SourceRequireNoLog := false |>
    <| c_SourceRequireNoFilter := false |>.

Definition load_small (text : bytes) : Out (ConfigResult bytes Q) :=
  ConfigLoad (λ s, s.(ServerAddrStr)) (λ _, []) (λ _, Ok tt) (λ _, Err ETimeout) (plain_env text)
    (Ok (small_config, all_known)) no_flags ∅ (start_proc three_files).

(** The names of the servers of the proxy, and of those registered for use. *)
Definition servers_of (m : Out (ConfigResult bytes Q)) : option (list bytes * list bytes) :=
  match m with
  | Ok (Ready _ _ _ _ _ g) => Some (rs_name <$> g.(rg_servers), rs_name <$> g.(rg_info).(registeredServers))
  | _ => None
  end.

Example load_small_servers :
  servers_of (load_small list_text) = Some ([str "quad"; str "home"], [str "quad"; str "home"]).
Proof. by vm_compute. Qed.

Lemma no_entry_servers : servers_of (load_small (str "No entry")) = Some ([str "home"], []).
Proof. by vm_compute. Qed.

(** A finding: the static servers are lost when a source is signed but has no
    entry. The error of [updateRegisteredServers] is dropped, and with it the registration of the servers;
    the proxy starts, since its own list is not empty, with no server to ask. *)
Theorem bad_source_hides_statics :
  servers_of (load_small (str "No entry")) = Some ([str "home"], []).
Proof. exact no_entry_servers. Qed.


Lemma tls_env_works : tls_works tls_env.
Proof. split_and!; [done|by eauto|done|done]. Qed.

Lemma configure_accepts_wit :
  valid (λ _, Ok tt) (λ _, Err ETimeout) all_known small_config.
Proof.
  apply (configure_accepts (λ _, Ok tt) (λ _, Err ETimeout) tls_env [] all_known no_flags false small_config).
  - by vm_compute.
  - exact tls_env_works.
  - eexists. vm_compute. reflexivity.
Defined.

Lemma loadSource_spec_wit :
  ∃ s files x, loadSource (λ _, serves list_text) (λ _, 100 * Hour) 0 (str "public") public_source ∅ NewXTransport =
      Ok (s, files, x) ∧ 24 * Hour ≤ s.(cacheTTL) ≤ 168 * Hour.
Proof.
  assert (match loadSource (λ _, serves list_text) (λ _, 100 * Hour) 0 (str "public") public_source ∅ NewXTransport
          with Ok _ => true | _ => false end = true) as Hs by by vm_compute.
  destruct (loadSource _ _ _ _ _ _ _) as [[[s files] x]| | |] eqn:EL; try discriminate.
  exists s, files, x. split; [reflexivity|].
  destruct (loadSource_spec _ _ _ _ _ _ _ _ _ _ EL) as (_ & _ & _ & Ht & _). exact Ht.
Defined.


Lemma lb_strategy_pn_wit : lb_strategy (str "p16") = LBStrategyPN 16 ∧ lb_strategy (str "P16") = LBStrategyPN 16.
Proof. apply (lb_strategy_pn 16). lia. Defined.

Lemma proxy_keeps_udp_wit :
  ∃ c s, configure (λ _, Ok tt) (λ _, Err ETimeout) tls_env [] all_known no_flags false
      (small_config <| c_Proxy := str "socks5://127.0.0.1:9050" |>) = Ok (c, s) ∧ s.(s_mainProto) = str "udp".
Proof.
  assert (match configure (λ _, Ok tt) (λ _, Err ETimeout) tls_env [] all_known no_flags false
      (small_config <| c_Proxy := str "socks5://127.0.0.1:9050" |>) with Ok _ => true | _ => false end = true) as Hs by by vm_compute.
  destruct (configure _ _ _ _ _ _ _ _) as [[c s]| | |] eqn:EC; try discriminate. exists c, s. split; [reflexivity|].
  destruct (proxy_keeps_udp _ _ _ _ _ _ _ _ _ EC) as [Hp _]. by apply Hp.
Defined.

End ConfigExamples.
