(* ===== verification/Startup.v ===== *)
(** [StartProxy]: the start of the proxy from the state [ConfigLoad]
    leaves, and the proxy at work as a step relation: the two background loops,
    and the queries that choose a server. *)
From Stdlib Require Import QArith.
From S2P Require Import Prelude.
From S2P Require Import GoStrings.
From S2P Require Import Common.
From S2P Require Import Estimators.
From S2P Require Import ServerTypes.
From S2P Require Import Crypto.
From S2P Require Import DnsUtils.
From S2P Require Import ServersInfo.
From S2P Require Import XTransport.
From S2P Require Import Transport.
From S2P Require Import Routes.
From S2P Require Import RewritePlugins.
From S2P Require Import Sources.
From S2P Require Import Sockets.
From S2P Require Import Config.

(** * The proxy at work *)

(** The parts of [Proxy] that change; [rn_refreshing] says whether the loop that
    refreshes certificates runs. *)
Record Running (PublicKey E : Type) := {
  rn_sources : list (Source PublicKey);
  rn_files : Files;
  rn_transport : XTransport;
  rn_registry : Registry E;
  rn_certIgnoreTimestamp : bool;
  rn_liveServers : Z;
  rn_refreshing : bool
}.
Arguments rn_sources {_ _} _. Arguments rn_files {_ _} _. Arguments rn_transport {_ _} _.
Arguments rn_registry {_ _} _. Arguments rn_certIgnoreTimestamp {_ _} _. Arguments rn_liveServers {_ _} _.
Arguments rn_refreshing {_ _} _.

#[export] Instance eta_Running {K E} : Eta (Running K E) := λ r, {|
  rn_sources := r.(rn_sources); rn_files := r.(rn_files); rn_transport := r.(rn_transport); rn_registry := r.(rn_registry);
  rn_certIgnoreTimestamp := r.(rn_certIgnoreTimestamp); rn_liveServers := r.(rn_liveServers);
  rn_refreshing := r.(rn_refreshing) |}.

(** What [StartProxy] leaves: the keys, the estimator and the state; or it has
    printed the certificates and exits. *)
Inductive Started (PublicKey E : Type) :=
  | ShowedCerts
  | Working (secretKey publicKey : bytes) (estimator : QuestionSizeEstimator E) (st : Running PublicKey E).
Arguments ShowedCerts {_ _}. Arguments Working {_ _} _ _ _ _.

Section Start.
Context {PublicKey Signature : Type} `{Minisign PublicKey Signature} `{NetLib} `{WebLib} `{StampLib} `{UnicodeTables}.
Context `{CryptoPrims} {E : Type} `{MovingAverage E} (ewma0 : E).
Context (stamp_String : ServerStamp → bytes) (s : Settings).
(** [fetchServerInfo] as the proxy is. *)
Context (fetch : Running PublicKey E → Fetcher (E := E)).
Abbreviation running := (Running PublicKey E).

(** What follows a refresh: certificates are checked again for their dates if a
    server is live. *)
Definition note_live (live : Z) (st : running) : running :=
  let st := st <| rn_liveServers := live |> in if 0 <? live then st <| rn_certIgnoreTimestamp := false |> else st.

(** [liveServers, err := proxy.serversInfo.refresh(proxy)] and what follows. *)
Definition refresh_servers (st : running) : Out (running * option error) :=
  let! (info, live, err) := refresh (H0 := fetch st) ewma0 st.(rn_registry).(rg_info) in
  Ok (note_live live (st <| rn_registry := st.(rn_registry) <| rg_info := info |> |>), err).

(** [StartProxy] until clients are accepted: the keys, the estimator and the state;
    [random] is the secret key or the error of the generator. *)
Definition accept (random : Out bytes) (sources : list (Source PublicKey)) (files : Files) (x : XTransport) (g : Registry E)
    : Out (bytes * bytes * QuestionSizeEstimator E * running) :=
  let! proxySecretKey := or_fatal random in
  Ok (proxySecretKey, ScalarBaseMult proxySecretKey, NewQuestionSizeEstimator ewma0,
      {| rn_sources := sources; rn_files := files; rn_transport := x; rn_registry := g;
         rn_certIgnoreTimestamp := s.(s_certIgnoreTimestamp); rn_liveServers := 0; rn_refreshing := false |}).

(** After the first refresh; [notify] is the error of [ServiceManagerReadyNotify]. [None]
    if the process exits because it has shown the certificates. *)
Definition begin_work (notify : option error) (st : running) : Out (option running) :=
  if s.(s_showCerts) then Ok None
  else if (0 <? st.(rn_liveServers)) && negb s.(s_child) && bool_decide (is_Some notify) then Fatal
  else Ok (Some (st <| rn_refreshing := (0 <? length st.(rn_registry).(rg_info).(registeredServers))%nat |>)).

(** [StartProxy] once clients are accepted. *)
Definition first_refresh (notify : option error) (st : running) : Out (option running) :=
  let! (st, _) := refresh_servers st in begin_work notify st.

(** [StartProxy], when no query arrives before it ends. *)
Definition StartProxy (random : Out bytes) (notify : option error) (sources : list (Source PublicKey)) (files : Files)
    (x : XTransport) (g : Registry E) : Out (Started PublicKey E) :=
  let! (proxySecretKey, proxyPublicKey, estimator, st) := accept random sources files x g in
  let! working := first_refresh notify st in
  Ok (match working with None => ShowedCerts | Some st => Working proxySecretKey proxyPublicKey estimator st end).

(** The delay of the loop of certificates. *)
Definition cert_delay (st : running) : Z :=
  if st.(rn_liveServers) =? 0 then s.(s_certRefreshDelayAfterFailure) else s.(s_certRefreshDelay).

(** An iteration of the loop of sources: the update is made after the sleep. *)
Inductive source_step : running → running → Prop :=
  | step_prefetch st env dt now l interval files x :
      PrefetchSources env dt now st.(rn_sources) st.(rn_files) st.(rn_transport) = Ok (l, interval, files, x) →
      source_step st (st <| rn_sources := l |> <| rn_files := files |> <| rn_transport := x |>)
  | step_update st rnd g err :
      updateRegisteredServers stamp_String s.(s_register) rnd st.(rn_sources) st.(rn_registry) = Ok (g, err) →
      source_step st (st <| rn_registry := g |>).

(** That, an iteration of the loop of certificates, and the choice of a server for a query. *)
Inductive run_step : running → running → Prop :=
  | step_sources st st' : source_step st st' → run_step st st'
  | step_refresh st st' err :
      st.(rn_refreshing) = true → refresh_servers st = Ok (st', err) → run_step st st'
  | step_query st rnd1 rnd2 now info server :
      getOne st.(rn_registry).(rg_info) rnd1 rnd2 now = Ok (info, server) →
      run_step st (st <| rn_registry := st.(rn_registry) <| rg_info := info |> |>).

End Start.

(** * Lemmas *)

Section Registers.
Context {E : Type}.
Implicit Types (info : ServersInfo E) (g : Registry E).

(** The update of the registry changes neither the known servers nor the strategy,
    and forgets no name. *)
Record registers info info' : Prop := {
  rg_inner : info'.(inner) = info.(inner);
  rg_lb : info'.(lbStrategy) = info.(lbStrategy);
  rg_names n : n ∈ rs_name <$> info.(registeredServers) → n ∈ rs_name <$> info'.(registeredServers);
  rg_nodup : NoDup (rs_name <$> info.(registeredServers)) → NoDup (rs_name <$> info'.(registeredServers))
}.

Lemma registers_refl info : registers info info.
Proof. by split. Qed.

Lemma registers_trans info1 info2 info3 : registers info1 info2 → registers info2 info3 → registers info1 info3.
Proof. intros [? ? ? ?] [? ? ? ?]. split; [congruence..|by auto|by auto]. Qed.

Lemma registers_server info name stamp : registers info (registerServer info name stamp).
Proof.
  split; [done..| |].
  - intros n Hn. cbn. rewrite replace_or_append_keys by done. destruct (decide _); set_solver.
  - intros Hn. cbn. by apply replace_or_append_NoDup.
Qed.

Lemma registers_all g : registers g.(rg_info) (register_all g).(rg_info).
Proof.
  unfold register_all. cbn.
  assert (∀ l info, registers info (foldl (λ (t : ServersInfo E) r, registerServer t r.(rs_name) r.(rs_stamp)) info l)) as Hs.
  { intros l. induction l as [|r l IH]; intros info; cbn [foldl]; [apply registers_refl|].
    eapply registers_trans; [apply registers_server|apply IH]. }
  eapply registers_trans; [apply (Hs g.(rg_servers))|].
  generalize (foldl (λ (t : ServersInfo E) r, registerServer t r.(rs_name) r.(rs_stamp)) g.(rg_info) g.(rg_servers)).
  intros info. generalize g.(rg_relays). intros l. revert info.
  induction l as [|r l IH]; intros info; cbn [foldl]; [apply registers_refl|].
  eapply registers_trans; [|apply IH]. by split.
Qed.

Lemma updateRegisteredServers_registers {PublicKey Signature : Type} `{Minisign PublicKey Signature} `{StampLib} `{UnicodeTables}
    stamp_String cfg rnd (sources : list (Source PublicKey)) g g' err :
  updateRegisteredServers stamp_String cfg rnd sources g = Ok (g', err) → registers g.(rg_info) g'.(rg_info).
Proof.
  unfold updateRegisteredServers. intros ([g1 e1] & HA & HE)%obind_Ok.
  apply add_sources_batch in HA as [(k & rs & _ & [_ _ _ _ HI]) _].
  destruct e1; injection HE as <- <-; rewrite <-HI; [apply registers_refl|apply registers_all].
Qed.

Lemma registers_inv info info' : registers info info' → refresh_inv info → refresh_inv info'.
Proof.
  intros [Hi _ Hn Hd] (N1 & N2 & N3). unfold refresh_inv. rewrite Hi. split_and!; [done|by apply Hd|by auto].
Qed.

(** A permutation of the registered servers changes nothing either. *)
Lemma shuffled_inv info rnd i :
  refresh_inv info → refresh_inv (info <| registeredServers := shuffle rnd i info.(registeredServers) |>).
Proof.
  intros (N1 & N2 & N3). unfold refresh_inv. cbn. split_and!; [done|by rewrite shuffle_perm|].
  intros n Hn. rewrite shuffle_perm. by apply N3.
Qed.

Context `{MovingAverage E} (ewma0 : E).

Lemma refreshServer_lb `{Fetcher (E := E)} info name stamp info' :
  refreshServer ewma0 info name stamp = Ok info' → info'.(lbStrategy) = info.(lbStrategy).
Proof.
  unfold refreshServer. intros (x & _ & HE)%obind_Ok. destruct (negb _); [done|]. injection HE as <-.
  by destruct (known info name).
Qed.

Lemma refresh_lb `{Fetcher (E := E)} info info' live err :
  refresh ewma0 info = Ok (info', live, err) → info'.(lbStrategy) = info.(lbStrategy).
Proof.
  unfold refresh. intros ([[s1 l1] e1] & HL & [= <- _ _])%obind_Ok. cbn.
  revert HL. generalize (registeredServers info). intros l. generalize 0 (@None error). revert info.
  induction l as [|r l IH]; intros info live0 err0; cbn [refresh_loop]; [by intros [= <- _ _]|].
  destruct (refreshServer ewma0 info (rs_name r) (rs_stamp r)) as [s2|e| |] eqn:HS; try done; intros HR.
  - rewrite (IH _ _ _ HR). by eapply refreshServer_lb.
  - by apply (IH _ _ _ HR).
Qed.

End Registers.

(** ** What [ConfigLoad] leaves *)

Section Initial.
Context {PublicKey Signature : Type} `{Minisign PublicKey Signature} `{NetLib} `{WebLib} `{StampLib} `{UnicodeTables} {E : Type}.
Context (stamp_String : ServerStamp → bytes) (proto_String : StampProtoType → bytes).
Context (proxy_FromURL : Url → Out unit) (ParseCIDR : bytes → Out IPNet).

Lemma loadSource_signed senv now i name cfg files x (s : Source PublicKey) files' x' :
  loadSource senv now i name cfg files x = Ok (s, files', x') → signed s.
Proof.
  unfold loadSource. destruct (decide _); [done|]. destruct (decide _); [done|]. intros (ld & HN & HE)%obind_Ok.
  assert (s = ld.(ld_source)) as -> by (destruct (ld_err ld); [destruct (_ <=? _); [done|]|]; by injection HE as <-).
  by eapply source_reach_key, reach_new.
Qed.

Lemma load_each_signed senv now rnds i l (acc sources : list (Source PublicKey)) files x files' x' :
  Forall signed acc → load_each senv now rnds i l acc files x = Ok (sources, files', x') → Forall signed sources.
Proof.
  revert i acc files x. induction l as [|[name cfg] l IH]; intros i acc files x Ha; cbn [load_each]; [by intros [= <- _ _]|].
  intros ([[s1 f1] x1] & HL & HR)%obind_Ok. eapply IH; [|exact HR]. apply Forall_app. split; [done|].
  apply list.Forall_singleton. by eapply loadSource_signed.
Qed.

(** The registry and the sources the proxy starts from. *)
Lemma ConfigLoad_initial env decoded flags files p s p' sources files' x (g : Registry E) :
  ConfigLoad (PublicKey := PublicKey) stamp_String proto_String proxy_FromURL ParseCIDR env decoded flags files p =
    Ok (Ready s p' sources files' x g) →
  refresh_inv g.(rg_info) ∧ g.(rg_info).(inner) = [] ∧ g.(rg_info).(lbStrategy) = s.(s_lbStrategy) ∧ Forall signed sources ∧
  lb_wf s.(s_lbStrategy).
Proof.
  unfold ConfigLoad. intros ([c md] & -> & HL)%obind_Ok.
  destruct (0 <? length (fl_Resolve flags))%nat; [done|]. destruct (ce_cdFileDir env); [done|].
  apply obind_Ok in HL as ([c1 s1] & HC & (p1 & _ & HL)%obind_Ok).
  destruct (_ && _); [by apply obind_Ok in HL as ([? ?] & _ & ?)|].
  unfold load_servers in HL. apply obind_Ok in HL as ([[[sources1 files1] x1] g1] & HS & HL).
  destruct (fl_List flags || fl_ListAll flags); [done|]. destruct (fl_Check flags); [done|]. injection HL as <- <- <- <- <- <-.
  apply configure_settings in HC. assert (lb_wf s1.(s_lbStrategy)) as Hw by apply HC.
  set (info0 := (NewServersInfo (E := E)) <| lbStrategy := s1.(s_lbStrategy) |> <| lbEstimator := s1.(s_lbEstimator) |>) in *.
  assert (refresh_inv info0) as Hi0 by (split_and!; [apply NoDup_nil_2..|by intros n ?%elem_of_nil]).
  destruct (negb (c_OfflineMode c1)); [|injection HS as <- <- <- <-; split_and!; done || apply Forall_nil_2].
  apply obind_Ok in HS as ([[[sources2 files2] x2] g2] & HS & HE). destruct (length _ =? 0)%nat; [done|].
  injection HE as <- <- <- <-. unfold loadSources in HS.
  apply obind_Ok in HS as ([[sources3 files3] x3] & HL & (relays & _ & (servers & _ & ([g3 e3] & HU & [= <- _ _ <-])%obind_Ok)%obind_Ok)%obind_Ok).
  apply updateRegisteredServers_registers in HU. cbn in HU. fold info0 in HU.
  split_and!; [apply shuffled_inv; by eapply registers_inv|cbn..| |done].
  - by rewrite (rg_inner _ _ HU).
  - by rewrite (rg_lb _ _ HU).
  - eapply load_each_signed; [|exact HL]. apply Forall_nil_2.
Qed.

End Initial.

(** * The proxy at work *)

Section Running.
Context {PublicKey Signature : Type} `{Minisign PublicKey Signature} `{NetLib} `{WebLib} `{StampLib} `{UnicodeTables}.
Context `{CryptoPrims} {E : Type} `{MovingAverage E} (ewma0 : E).
Context (stamp_String : ServerStamp → bytes) (s : Settings) (fetch : Running PublicKey E → Fetcher (E := E)).
Implicit Types (st : Running PublicKey E).
Abbreviation step := (run_step ewma0 stamp_String s fetch).

(** What holds while the proxy works. *)
Record run_inv st : Prop := {
  ri_servers : refresh_inv st.(rn_registry).(rg_info);
  ri_lb : st.(rn_registry).(rg_info).(lbStrategy) = s.(s_lbStrategy);
  ri_sources : Forall signed st.(rn_sources)
}.

Lemma refresh_servers_inv st st' err :
  refresh_servers ewma0 fetch st = Ok (st', err) → run_inv st →
  run_inv st' ∧ (st.(rn_certIgnoreTimestamp) = false → st'.(rn_certIgnoreTimestamp) = false).
Proof.
  unfold refresh_servers. intros ([[info live] e] & HR & [= <- <-])%obind_Ok [Hs Hl Ho].
  pose proof (refresh_lb _ _ _ _ _ HR) as Hlb. apply refresh_facts in HR as (Hi & _); [|done].
  unfold note_live. destruct (0 <? live); (split; [split; cbn; [done|congruence|done]|done]).
Qed.

Lemma getOne_inv (info info' : ServersInfo E) rnd1 rnd2 now r :
  lb_wf info.(lbStrategy) → refresh_inv info → getOne info rnd1 rnd2 now = Ok (info', r) →
  refresh_inv info' ∧ info'.(lbStrategy) = info.(lbStrategy) ∧ si_Name <$> info'.(inner) ≡ₚ si_Name <$> info.(inner).
Proof.
  intros Hw (N1 & N2 & N3) HG. destruct (getOne_facts ewma0 info rnd1 rnd2 now Hw) as (l & r' & HG' & Hp & _ & _).
  rewrite HG' in HG. injection HG as <- <-.
  assert (si_Name <$> l ≡ₚ si_Name <$> info.(inner)) as Hnames.
  { apply (fmap_Permutation si_Name) in Hp. by rewrite <-!list_fmap_compose in Hp. }
  unfold refresh_inv. cbn. split_and!; [by rewrite Hnames|done| |done|done].
  intros n. rewrite Hnames. apply N3.
Qed.

Lemma source_step_registers st st' :
  source_step stamp_String s st st' → registers st.(rn_registry).(rg_info) st'.(rn_registry).(rg_info) ∧
  (Forall signed st.(rn_sources) → Forall signed st'.(rn_sources)).
Proof.
  intros [? env dt now l interval files x HP|? rnd g err HU]; cbn.
  - split; [apply registers_refl|]. intros Ho. unfold PrefetchSources in HP. apply prefetch_loop_spec in HP as [_ HF]; [|reflexivity].
    clear -HF Ho. induction HF as [|a b la lb Hab HF IH]; [constructor|]. apply list.Forall_cons in Ho as [Ha Ho].
    constructor; [|by apply IH]. destruct Hab as (_ & Hsig & _). by apply Hsig.
  - by apply updateRegisteredServers_registers in HU.
Qed.

Lemma run_inv_sources st st' : run_inv st → source_step stamp_String s st st' → run_inv st'.
Proof.
  intros [Hs Hl Ho] [HR HF]%source_step_registers. split; [by eapply registers_inv| |by apply HF]. by rewrite (rg_lb _ _ HR).
Qed.

Lemma run_inv_step st st' : lb_wf s.(s_lbStrategy) → run_inv st → step st st' → run_inv st'.
Proof.
  intros Hw Hi Hs. destruct Hs as [st st' Hs|st st' err _ HR|st rnd1 rnd2 now info r HG];
    [by eapply run_inv_sources|by eapply refresh_servers_inv|]. destruct Hi as [Hs Hl Ho].
  apply getOne_inv in HG as (Hi & Hlb & _); [|by rewrite Hl|done]. split; cbn; [done|congruence|done].
Qed.

Lemma begin_work_Some notify st st' :
  begin_work s notify st = Ok (Some st') →
  s.(s_showCerts) = false ∧ st' = st <| rn_refreshing := (0 <? length st.(rn_registry).(rg_info).(registeredServers))%nat |>.
Proof. unfold begin_work. destruct (s_showCerts s); [done|]. destruct (_ && _); [done|]. by intros [= <-]. Qed.

Lemma StartProxy_Working random notify sources files x g sk pk est st :
  StartProxy ewma0 s fetch random notify sources files x g = Ok (Working sk pk est st) →
  ∃ st0 st1 err, accept ewma0 s random sources files x g = Ok (sk, pk, est, st0) ∧
    refresh_servers ewma0 fetch st0 = Ok (st1, err) ∧ begin_work s notify st1 = Ok (Some st).
Proof.
  unfold StartProxy. intros ([[[k1 k2] e] st0] & HA & (w & HW & HE)%obind_Ok)%obind_Ok.
  destruct w as [st2|]; [|done]. injection HE as <- <- <- <-. apply obind_Ok in HW as ([st1 err] & HR & HB). by exists st0, st1, err.
Qed.

Lemma accept_registry random sources files x g sk pk est st :
  accept ewma0 s random sources files x g = Ok (sk, pk, est, st) → st.(rn_registry) = g ∧ st.(rn_sources) = sources.
Proof. unfold accept. by intros (k & _ & [= _ _ _ <-])%obind_Ok. Qed.

Lemma StartProxy_inv random notify sources files x g sk pk est st :
  StartProxy ewma0 s fetch random notify sources files x g = Ok (Working sk pk est st) →
  refresh_inv g.(rg_info) → g.(rg_info).(lbStrategy) = s.(s_lbStrategy) → Forall signed sources → run_inv st.
Proof.
  intros (st0 & st1 & err & [Hg Hs]%accept_registry & HR & [_ ->]%begin_work_Some)%StartProxy_Working Hi Hl Ho.
  apply refresh_servers_inv in HR as [[? ? ?] _]; [by split|]. by split; rewrite ?Hg, ?Hs.
Qed.

(** Every state the proxy reaches. *)
Lemma running_reachable proto_String proxy_FromURL ParseCIDR env decoded flags files0 p p' sources files1 files x g random notify sk pk est st0 st :
  ConfigLoad stamp_String proto_String proxy_FromURL ParseCIDR env decoded flags files0 p =
    Ok (Ready s p' sources files1 x g) →
  StartProxy ewma0 s fetch random notify sources files x g = Ok (Working sk pk est st0) →
  rtc step st0 st → run_inv st ∧ lb_wf st.(rn_registry).(rg_info).(lbStrategy).
Proof.
  intros (Hi & _ & Hl & Ho & Hw)%ConfigLoad_initial HS Hr.
  pose proof (StartProxy_inv _ _ _ _ _ _ _ _ _ _ HS Hi Hl Ho) as H0'.
  assert (run_inv st) as Hst by (clear -Hr H0' Hw; induction Hr; [done|]; by eauto using run_inv_step).
  split; [done|]. by rewrite (ri_lb _ Hst).
Qed.

(** C11: a proxy that was started keeps working. From any accepted configuration,
    whatever the sources, the servers and the queries do and in whatever order:
    the servers have unique names and each one that can be used is registered; the contents of every
    source are signed; and choosing a server for a query never panics, and finds one
    as soon as one was reached. *)
Theorem running_safe proto_String proxy_FromURL ParseCIDR env decoded flags files0 p p' sources files x g random notify sk pk est st0 st :
  ConfigLoad stamp_String proto_String proxy_FromURL ParseCIDR env decoded flags files0 p =
    Ok (Ready s p' sources files x g) →
  StartProxy ewma0 s fetch random notify sources files x g = Ok (Working sk pk est st0) →
  rtc step st0 st →
  refresh_inv st.(rn_registry).(rg_info) ∧ Forall signed st.(rn_sources) ∧
  ∀ rnd1 rnd2 now, ∃ info server,
    getOne st.(rn_registry).(rg_info) rnd1 rnd2 now = Ok (info, server) ∧
    (server = None ↔ st.(rn_registry).(rg_info).(inner) = []).
Proof.
  intros HL HS Hr. destruct (running_reachable _ _ _ _ _ _ _ _ _ _ _ _ _ _ _ _ _ _ _ _ _ HL HS Hr) as [[Hs Hlb Hsig] Hw].
  split_and!; [done..|]. intros rnd1 rnd2 now.
  destruct (getOne_facts ewma0 st.(rn_registry).(rg_info) rnd1 rnd2 now Hw) as (l & r & HG & _ & Hn & _).
  by eexists _, r.
Qed.

(** Dates of certificates. Once a server was reached, certificates out of their
    validity period are refused again, for good, even if the configuration ignores their dates. *)
Theorem timestamps_checked_for_good st st' :
  rtc step st st' → st.(rn_certIgnoreTimestamp) = false → st'.(rn_certIgnoreTimestamp) = false.
Proof.
  induction 1 as [|st1 st2 st3 Hs _ IH]; [done|]. intros Hc. apply IH.
  destruct Hs as [? ? []|st st' err _ HR|]; [done..| |done].
  unfold refresh_servers, note_live in HR. apply obind_Ok in HR as ([[info live] e] & _ & [= <- <-]). by destruct (0 <? live).
Qed.

(** A finding: a proxy that starts without a registered server never gets one. The loop
    that asks servers for their certificates is not started, although the loop of sources goes on
    and registers servers; no query is ever sent. *)
Theorem no_server_for_good random notify sources files x g sk pk est st0 st :
  g.(rg_info).(registeredServers) = [] → g.(rg_info).(inner) = [] → lb_wf g.(rg_info).(lbStrategy) →
  StartProxy ewma0 s fetch random notify sources files x g = Ok (Working sk pk est st0) →
  rtc step st0 st → st.(rn_registry).(rg_info).(inner) = [].
Proof.
  intros Hreg Hin Hw HS Hr.
  assert (st0.(rn_refreshing) = false ∧ st0.(rn_registry).(rg_info).(inner) = [] ∧
          lb_wf st0.(rn_registry).(rg_info).(lbStrategy)) as H0'.
  { apply StartProxy_Working in HS as (st1 & st2 & err & [Hg _]%accept_registry & HR & [_ ->]%begin_work_Some).
    unfold refresh_servers, refresh in HR. rewrite Hg, Hreg in HR. cbn in HR. injection HR as <- <-.
    cbn. by rewrite Hreg, Hin. }
  clear HS. induction Hr as [|st1 st2 st3 Hs _ IH]; [apply H0'|]. apply IH. clear IH. destruct H0' as (Hf & Hi & Hl).
  destruct Hs as [? ? [|st rnd gg err HU]|st st' err Hf' HR|st rnd1 rnd2 now info r HG]; [done| |congruence|].
  - apply updateRegisteredServers_registers in HU. cbn. rewrite (rg_inner _ _ HU), (rg_lb _ _ HU). done.
  - cbn. unfold getOne in HG. rewrite Hi in HG. cbn in HG. injection HG as <- <-. done.
Qed.

End Running.

(** * Concrete runs *)

Section StartupExamples.
#[local] Existing Instance ascii_tables.
#[local] Existing Instance plain_net.
#[local] Existing Instance toy_minisign.
#[local] Existing Instance list_web.
#[local] Existing Instance cfg_stamps.
#[local] Existing Instance toy_prims.

(** Every server is reached. *)
Definition reaches_all (_ : Running bytes Q) : Fetcher (E := Q) := λ name _ _, Ok (sample_server name 20).

Abbreviation start s sources files x g := (StartProxy 0%Q s reaches_all (Ok (replicate 32 7)) None sources files x g).

(** The servers known after the start. *)
Definition known_after (text : bytes) : option (list bytes) :=
  match load_small text with
  | Ok (Ready s _ sources files x g) =>
      match start s sources files x g with
      | Ok (Working _ _ _ st) => Some (si_Name <$> st.(rn_registry).(rg_info).(inner))
      | _ => None
      end
  | _ => None
  end.

Example known_after_start : known_after list_text = Some [str "quad"; str "home"] ∧ known_after (str "No entry") = Some [].
Proof. by vm_compute. Qed.

Lemma running_safe_wit :
  ∃ s p sources files x g sk pk est (st : Running bytes Q),
    load_small list_text = Ok (Ready s p sources files x g) ∧
    start s sources files x g = Ok (Working sk pk est st) ∧
    ∃ info server, getOne st.(rn_registry).(rg_info) 1 0 0 = Ok (info, server).
Proof.
  pose proof (proj1 known_after_start) as Hk. unfold known_after in Hk.
  destruct (load_small list_text) as [[| | | |s p sources files x g]| | |] eqn:EL; try discriminate Hk.
  destruct (start s sources files x g) as [[|sk pk est st]| | |] eqn:ES; try discriminate Hk.
  exists s, p, sources, files, x, g, sk, pk, est, st. split_and!; [reflexivity|exact ES|].
  unfold load_small in EL.
  destruct (running_safe 0%Q (λ s, s.(ServerAddrStr)) s reaches_all (λ _, []) (λ _, Ok tt) (λ _, Err ETimeout)
    (plain_env list_text) (Ok (small_config, all_known)) no_flags ∅ (start_proc three_files) p sources files x g
    (Ok (replicate 32 7)) None sk pk est st st EL ES (rtc_refl _ _)) as (_ & _ & HG).
  destruct (HG 1 0 0) as (info & server & HG1 & _). exists info, server. exact HG1.
Defined.

Lemma no_server_for_good_wit :
  ∃ s p sources files x g sk pk est (st : Running bytes Q),
    load_small (str "No entry") = Ok (Ready s p sources files x g) ∧
    start s sources files x g = Ok (Working sk pk est st) ∧ st.(rn_registry).(rg_info).(inner) = [].
Proof.
  pose proof (proj2 known_after_start) as Hk. unfold known_after in Hk. pose proof no_entry_servers as Hb.
  destruct (load_small (str "No entry")) as [[| | | |s p sources files x g]| | |] eqn:EL; try discriminate Hk.
  destruct (start s sources files x g) as [[|sk pk est st]| | |] eqn:ES; try discriminate Hk.
  exists s, p, sources, files, x, g, sk, pk, est, st. split_and!; [reflexivity|exact ES|].
  unfold load_small in EL. destruct (ConfigLoad_initial _ _ _ _ _ _ _ _ _ _ _ _ _ _ _ EL) as (_ & Hi & Hl & _ & Hw).
  assert (registeredServers (rg_info g) = []) as Hreg.
  { clear -Hb. injection Hb as _ Hb. destruct (registeredServers (rg_info g)); [reflexivity|discriminate Hb]. }
  rewrite <-Hl in Hw.
  exact (no_server_for_good 0%Q (λ s, s.(ServerAddrStr)) s reaches_all _ _ _ _ _ _ _ _ _ _ _ Hreg Hi Hw ES (rtc_refl _ _)).
Defined.

(** A proxy without servers, asked once. *)
Definition idle : Running bytes Q := {|
  rn_sources := []; rn_files := ∅; rn_transport := NewXTransport;
  rn_registry := {| rg_servers := []; rg_relays := []; rg_info := NewServersInfo |};
  rn_certIgnoreTimestamp := false; rn_liveServers := 0; rn_refreshing := false |}.

Lemma timestamps_checked_for_good_wit :
  ∃ s, rtc (run_step 0%Q (λ st, st.(ServerAddrStr)) s reaches_all) idle idle ∧ idle.(rn_certIgnoreTimestamp) = false.
Proof.
  assert (∃ s : Settings, True) as [s _].
  { pose proof no_entry_servers as Hk.
    destruct (load_small (str "No entry")) as [[| | | |s p sources files x g]| | |]; try discriminate Hk. by exists s. }
  exists s. assert (rtc (run_step 0%Q (λ st, st.(ServerAddrStr)) s reaches_all) idle idle) as Hr.
  { eapply rtc_once. apply (step_query 0%Q (λ st, st.(ServerAddrStr)) s reaches_all idle 0 0 0 NewServersInfo None). reflexivity. }
  split; [exact Hr|]. apply (timestamps_checked_for_good 0%Q _ _ _ _ _ Hr). reflexivity.
Defined.

End StartupExamples.
