(* ===== verification/Interleaving.v ===== *)
(** Programs made of atomic operations on a shared state, and pools of them.

    A goroutine is a [Prog]: a sequence of operations, each of which reads and
    writes the shared state at once, with computations on local values between them.
    [run] is its execution without interruption; [pool_step] lets goroutines,
    arrivals and background activities alternate in any order. [safe], [guards],
    [within] and [spends] are what is proved of one program and holds in every pool. *)
From S2P Require Import Prelude.

Section Programs.
(** [R] is what an operation sees besides the shared state [W]. *)
Context {R W : Type}.

Inductive Prog (A : Type) : Type :=
  | Ret (a : A)
  | Op (B : Type) (f : R → W → Out (W * B)) (k : B → Prog A).
Arguments Ret {_} _. Arguments Op {_ _} _ _.

Fixpoint pbind {A B} (p : Prog A) (g : A → Prog B) : Prog B :=
  match p with
  | Ret a => g a
  | Op f k => Op f (λ b, pbind (k b) g)
  end.

Fixpoint run {A} (r : R) (p : Prog A) (σ : W) : Out (W * A) :=
  match p with
  | Ret a => Ok (σ, a)
  | Op f k => let! (σ, b) := f r σ in run r (k b) σ
  end.

Definition atomically {A} (f : R → W → Out (W * A)) : Prog A := Op f Ret.
(** What fails ends there. *)
Definition lift {A} (m : Out A) : Prog A :=
  match m with Ok a => Ret a | m => atomically (λ _ σ, let! a := m in Ok (σ, a)) end.
Definition modify (f : W → W) : Prog unit := atomically (λ _ σ, Ok (f σ, tt)).
Definition read {A} (f : W → A) : Prog A := atomically (λ _ σ, Ok (σ, f σ)).

(** Errors of [m] are values; panics end the process. *)
Definition pcatch {A B} (m : Out A) (ok : A → Prog B) (err : error → Prog B) : Prog B :=
  match m with Ok a => ok a | Err e => err e | Panic => lift Panic | Fatal => lift Fatal end.

Lemma run_lift {A} r (m : Out A) σ : run r (lift m) σ = let! a := m in Ok (σ, a).
Proof. by destruct m. Qed.

Lemma run_bind {A B} r (p : Prog A) (g : A → Prog B) σ :
  run r (pbind p g) σ = let! (σ', a) := run r p σ in run r (g a) σ'.
Proof.
  revert σ. induction p as [a|C f k IH]; intros σ; [done|]. cbn. destruct (f r σ) as [[σ' b]| | |]; cbn; [apply IH|done..].
Qed.

(** ** What holds of a program whatever the others do *)

(** From shared states that satisfy [I], every operation succeeds, restores [I] and relates
    the states before and after by [G]; the result satisfies [Φ]. *)
Fixpoint safe {A} (I : W → Prop) (G : W → W → Prop) (Φ : A → Prop) (p : Prog A) : Prop :=
  match p with
  | Ret a => Φ a
  | Op f k => ∀ r σ, I σ → ∃ σ' b, f r σ = Ok (σ', b) ∧ I σ' ∧ G σ σ' ∧ safe I G Φ (k b)
  end.

(** Among others: [σ0] is the state its last operation left. When the others have
    only moved it by [Rely], every operation that succeeds restores [I] and moves the state
    by [G]; at the end the result and the state satisfy [Φ]. *)
Fixpoint guards {A} (I : W → Prop) (Rely G : W → W → Prop) (Φ : A → W → Prop) (p : Prog A) (σ0 : W) : Prop :=
  match p with
  | Ret a => Φ a σ0
  | Op f k => ∀ r σ, I σ → Rely σ0 σ → returns (λ x, I x.1 ∧ G σ x.1 ∧ guards I Rely G Φ (k x.2) x.1) (f r σ)
  end.

(** At most [n] operations. *)
Fixpoint within {A} (n : nat) (p : Prog A) {struct p} : Prop :=
  match p with
  | Ret a => True
  | Op f k => ∀ r σ σ' b, f r σ = Ok (σ', b) → match n with O => False | S n => within n (k b) end
  end.

(** The operations together add at most [n] to the measure [μ]. *)
Fixpoint spends {A} (μ : W → nat) (n : nat) (p : Prog A) {struct p} : Prop :=
  match p with
  | Ret a => True
  | Op f k => ∀ r σ σ' b, f r σ = Ok (σ', b) → ∃ c, (c ≤ n)%nat ∧ (μ σ' ≤ μ σ + c)%nat ∧ spends μ (n - c) (k b)
  end.

Lemma safe_bind {A B} I G Ψ Φ (p : Prog A) (g : A → Prog B) :
  safe I G Ψ p → (∀ a, Ψ a → safe I G Φ (g a)) → safe I G Φ (pbind p g).
Proof.
  intros Hp Hg. induction p as [a|C f k IH]; cbn in *; [by apply Hg|]. intros r σ Hσ.
  destruct (Hp r σ Hσ) as (σ' & b & ? & ? & ? & ?). eauto 10.
Qed.

Lemma safe_op {A B} I G Φ f (k : A → Prog B) :
  (∀ r σ, I σ → ∃ σ' b, f r σ = Ok (σ', b) ∧ I σ' ∧ G σ σ' ∧ safe I G Φ (k b)) → safe I G Φ (pbind (atomically f) k).
Proof. done. Qed.

Lemma safe_modify {B} I G Φ f (k : unit → Prog B) :
  (∀ σ, I σ → I (f σ) ∧ G σ (f σ)) → safe I G Φ (k tt) → safe I G Φ (pbind (modify f) k).
Proof. intros Hf Hk r σ HI. destruct (Hf σ HI). by exists (f σ), tt. Qed.

Lemma within_mono {A} n m (p : Prog A) : (n ≤ m)%nat → within n p → within m p.
Proof.
  revert n m. induction p as [a|C f k IH]; intros n m Hle Hp; cbn in *; [done|]. intros r σ σ' b Hf.
  specialize (Hp r σ σ' b Hf). destruct n as [|n]; [done|]. destruct m as [|m]; [lia|]. apply (IH b n m); [lia|done].
Qed.

(** A call that makes at most [c] of the [n] operations. *)
Lemma within_call {A B} c n (p : Prog A) (g : A → Prog B) :
  within c p → (c ≤ n)%nat → (∀ a, within (n - c) (g a)) → within n (pbind p g).
Proof.
  revert c n. induction p as [a|C f k IH]; intros c n Hp Hle Hg; cbn in *; [eapply within_mono, Hg; lia|].
  intros r σ σ' b Hf. specialize (Hp r σ σ' b Hf). destruct c as [|c]; [done|]. destruct n as [|n]; [lia|].
  apply (IH b c n); [done|lia|]. intros a. apply Hg.
Qed.

Lemma spends_mono {A} μ n m (p : Prog A) : (n ≤ m)%nat → spends μ n p → spends μ m p.
Proof.
  revert n m. induction p as [a|C f k IH]; intros n m Hle Hp; cbn in *; [done|]. intros r σ σ' b Hf.
  destruct (Hp r σ σ' b Hf) as (c & Hc & Hμ & Hk). exists c. split_and!; [lia|lia|]. apply (IH b (n - c)%nat); [lia|done].
Qed.

Lemma spends_call {A B} μ c n (p : Prog A) (g : A → Prog B) :
  spends μ c p → (c ≤ n)%nat → (∀ a, spends μ (n - c) (g a)) → spends μ n (pbind p g).
Proof.
  revert c n. induction p as [a|C f k IH]; intros c n Hp Hle Hg; cbn in *; [eapply spends_mono, Hg; lia|].
  intros r σ σ' b Hf. destruct (Hp r σ σ' b Hf) as (d & Hd & Hμ & Hk). exists d. split_and!; [lia|lia|].
  apply (IH b (c - d)%nat); [done|lia|]. intros a. replace (n - d - (c - d))%nat with (n - c)%nat by lia. apply Hg.
Qed.

(** One operation and what follows. *)
Lemma within_op {A B} n f (k : A → Prog B) :
  (1 ≤ n)%nat → (∀ b, within (n - 1) (k b)) → within n (pbind (atomically f) k).
Proof. intros Hn Hk. destruct n; [lia|]. intros r σ σ' b _. cbn. specialize (Hk b). by rewrite Nat.sub_1_r in Hk. Qed.

Lemma spends_op {A B} c μ n f (k : A → Prog B) :
  (∀ r σ, returns (λ x, (μ x.1 ≤ μ σ + c)%nat) (f r σ)) → (c ≤ n)%nat → (∀ b, spends μ (n - c) (k b)) →
  spends μ n (pbind (atomically f) k).
Proof. intros Hf Hn Hk r σ σ' b Hb. exists c. split_and!; [done|exact (Hf _ _ _ Hb)|apply Hk]. Qed.

(** Computations on local values cost nothing. *)
Lemma within_lift {A B} n (m : Out A) (k : A → Prog B) : (∀ b, within n (k b)) → within n (pbind (lift m) k).
Proof. intros Hk. by destruct m; cbn. Qed.

Lemma spends_lift {A B} μ n (m : Out A) (k : A → Prog B) : (∀ b, spends μ n (k b)) → spends μ n (pbind (lift m) k).
Proof. intros Hk. by destruct m; cbn. Qed.

Lemma within_catch {A B} n (m : Out A) (ok : A → Prog B) err :
  (∀ a, within n (ok a)) → (∀ e, within n (err e)) → within n (pcatch m ok err).
Proof. intros Ho He. by destruct m; cbn. Qed.

Lemma within_catch_in {A B D} n (m : Out A) (ok : A → Prog B) err (g : B → Prog D) :
  (∀ a, within n (pbind (ok a) g)) → (∀ e, within n (pbind (err e) g)) → within n (pbind (pcatch m ok err) g).
Proof. intros Ho He. by destruct m; cbn. Qed.

Lemma spends_catch {A B} μ n (m : Out A) (ok : A → Prog B) err :
  (∀ a, spends μ n (ok a)) → (∀ e, spends μ n (err e)) → spends μ n (pcatch m ok err).
Proof. intros Ho He. by destruct m; cbn. Qed.

Lemma spends_catch_in {A B D} μ n (m : Out A) (ok : A → Prog B) err (g : B → Prog D) :
  (∀ a, spends μ n (pbind (ok a) g)) → (∀ e, spends μ n (pbind (err e) g)) → spends μ n (pbind (pcatch m ok err) g).
Proof. intros Ho He. by destruct m; cbn. Qed.

Lemma within_assoc {A B D} n (p : Prog A) (f : A → Prog B) (g : B → Prog D) :
  within n (pbind p (λ a, pbind (f a) g)) → within n (pbind (pbind p f) g).
Proof.
  revert n. induction p as [a|C h k IH]; intros n Hp; cbn in *; [done|]. intros r σ σ' b Hb. specialize (Hp _ _ _ _ Hb).
  destruct n; [done|by apply IH].
Qed.

Lemma spends_assoc {A B D} μ n (p : Prog A) (f : A → Prog B) (g : B → Prog D) :
  spends μ n (pbind p (λ a, pbind (f a) g)) → spends μ n (pbind (pbind p f) g).
Proof.
  revert n. induction p as [a|C h k IH]; intros n Hp; cbn in *; [done|]. intros r σ σ' b Hb.
  destruct (Hp _ _ _ _ Hb) as (c & ? & ? & ?). exists c. split_and!; [done..|by apply IH].
Qed.

(** Alone, a safe program returns. *)
Lemma safe_run {A} I G (Φ : A → Prop) `{!PreOrder G} p r σ :
  safe I G Φ p → I σ → ∃ σ' a, run r p σ = Ok (σ', a) ∧ I σ' ∧ G σ σ' ∧ Φ a.
Proof.
  revert σ. induction p as [a|C f k IH]; intros σ Hp Hσ; [by exists σ, a|].
  destruct (Hp r σ Hσ) as (σ1 & b & Hf & HI & HG & Hk). cbn. rewrite Hf. cbn [obind].
  destruct (IH b σ1 Hk HI) as (σ2 & a & Hr & HI2 & HG2 & Ha). exists σ2, a. split_and!; [done..| |done]. by etrans.
Qed.

(** ** Interference *)

Section Interference.
Context (I : W → Prop) (Rely G : W → W → Prop).

Lemma guards_bind {A B} Ψ Φ (p : Prog A) (g : A → Prog B) σ0 :
  guards I Rely G Ψ p σ0 → (∀ a σ, Ψ a σ → guards I Rely G Φ (g a) σ) → guards I Rely G Φ (pbind p g) σ0.
Proof.
  intros Hp Hg. revert σ0 Hp. induction p as [a|C f k IH]; intros σ0 Hp; cbn in *; [by apply Hg|].
  intros r σ Hσ Hr x Hx. destruct (Hp r σ Hσ Hr x Hx) as (? & ? & ?). eauto.
Qed.

Lemma guards_lift {A B} Φ (m : Out A) (k : A → Prog B) σ0 :
  (∀ b, guards I Rely G Φ (k b) σ0) → guards I Rely G Φ (pbind (lift m) k) σ0.
Proof. intros Hk. destruct m; cbn; [apply Hk|intros ????; by apply returns_fails..]. Qed.

Lemma guards_catch {A B} Φ (m : Out A) (ok : A → Prog B) err σ0 :
  (∀ a, guards I Rely G Φ (ok a) σ0) → (∀ e, guards I Rely G Φ (err e) σ0) → guards I Rely G Φ (pcatch m ok err) σ0.
Proof. intros Ho He. destruct m; cbn; [apply Ho|apply He|intros ????; by apply returns_fails..]. Qed.

Lemma guards_mono {A} (Φ Ψ : A → W → Prop) p σ0 :
  (∀ a σ, Φ a σ → Ψ a σ) → guards I Rely G Φ p σ0 → guards I Rely G Ψ p σ0.
Proof.
  intros HΦ. revert σ0. induction p as [a|C f k IH]; intros σ0 Hp; cbn in *; [by apply HΦ|].
  intros r σ Hσ Hr x Hx. destruct (Hp r σ Hσ Hr x Hx) as (? & ? & ?). eauto.
Qed.

Context `{!Transitive Rely}.

Lemma guards_stable {A} (Φ : A → W → Prop) p σ0 σ :
  (∀ a σ σ', Φ a σ → Rely σ σ' → Φ a σ') → Rely σ0 σ → guards I Rely G Φ p σ0 → guards I Rely G Φ p σ.
Proof. intros HΦ Hr. destruct p as [a|C f k]; cbn; [eauto|]. intros Hp r σ1 HI H1. apply Hp; [done|by etrans]. Qed.

Lemma guards_moved {A} (p : Prog A) σ0 σ :
  Rely σ0 σ → guards I Rely G (λ _ _, True) p σ0 → guards I Rely G (λ _ _, True) p σ.
Proof. by apply guards_stable. Qed.

(** [Q] is a fact the others do not destroy, and the program neither. *)
Definition stable (Q : W → Prop) : Prop := ∀ σ σ', Q σ → Rely σ σ' → Q σ'.
Definition keeps {A} (Q : W → Prop) (p : Prog A) : Prop := ∀ σ, Q σ → guards I Rely G (λ _, Q) p σ.

Context (Q : W → Prop) (Q_stable : stable Q) (G_Rely : ∀ σ σ', G σ σ' → Rely σ σ').

Lemma keeps_bind {A B} (p : Prog A) (g : A → Prog B) : keeps Q p → (∀ a, keeps Q (g a)) → keeps Q (pbind p g).
Proof. intros Hp Hg σ Hσ. eapply guards_bind; [by apply Hp|]. intros a σ'. apply Hg. Qed.

Lemma keeps_op {A B} f (k : A → Prog B) :
  (∀ r σ, I σ → Q σ → returns (λ x, I x.1 ∧ G σ x.1) (f r σ)) → (∀ b, keeps Q (k b)) → keeps Q (pbind (atomically f) k).
Proof.
  intros Hf Hk σ0 H0 r σ HI Hr x Hx. assert (Q σ) as Hq by by eapply Q_stable. destruct (Hf r σ HI Hq x Hx) as [HI' HG].
  split_and!; [done..|]. apply Hk. eapply Q_stable; [done|]. by apply G_Rely.
Qed.

Lemma keeps_lift {A B} (m : Out A) (k : A → Prog B) : (∀ b, keeps Q (k b)) → keeps Q (pbind (lift m) k).
Proof. intros Hk σ Hσ. apply guards_lift. intros b. by apply Hk. Qed.

Lemma keeps_catch {A B} (m : Out A) (ok : A → Prog B) err :
  (∀ a, keeps Q (ok a)) → (∀ e, keeps Q (err e)) → keeps Q (pcatch m ok err).
Proof. intros Ho He σ Hσ. apply guards_catch; intros ?; [by apply Ho|by apply He]. Qed.

Lemma keeps_catch_in {A B D} (m : Out A) (ok : A → Prog B) err (g : B → Prog D) :
  (∀ a, keeps Q (pbind (ok a) g)) → (∀ e, keeps Q (pbind (err e) g)) → keeps Q (pbind (pcatch m ok err) g).
Proof. intros Ho He. destruct m; cbn; [apply Ho|apply He|intros ??????; by apply returns_fails..]. Qed.

Lemma keeps_assoc {A B D} (p : Prog A) (f : A → Prog B) (g : B → Prog D) :
  keeps Q (pbind p (λ a, pbind (f a) g)) → keeps Q (pbind (pbind p f) g).
Proof.
  intros Hp σ Hσ. specialize (Hp σ Hσ). clear Hσ. revert σ Hp.
  induction p as [a|C h k IH]; intros σ0 Hp; cbn in *; [done|]. intros r σ HI Hr x Hx.
  destruct (Hp r σ HI Hr x Hx) as (? & ? & ?). split_and!; [done..|by apply IH].
Qed.

End Interference.

(** ** Pools *)

(** [T] is the state of the background activities. *)
Context {T A : Type} (reader : T * W → R) (background : T * W → T * W → Prop) (spawnable : Prog A → Prop).

Abbreviation Pool := ((T * W) * list (Prog A))%type.

(** Who moves: a goroutine, or nobody in particular. *)
Inductive pool_step : option nat → Pool → Pool → Prop :=
  | step_background w w' ts : background w w' → pool_step None (w, ts) (w', ts)
  | step_arrival w ts p : spawnable p → pool_step None (w, ts) (w, ts ++ [p])
  | step_thread t σ σ' ts i B (f : R → W → Out (W * B)) k b :
      ts !! i = Some (Op f k) → f (reader (t, σ)) σ = Ok (σ', b) →
      pool_step (Some i) ((t, σ), ts) ((t, σ'), <[i := k b]> ts).

Definition any_step (x y : Pool) : Prop := ∃ who, pool_step who x y.

(** What a goroutine does without interruption is one of the executions of the pool. *)
Fixpoint run_among (t : T) (p : Prog A) (σ : W) : Out (W * A) :=
  match p with
  | Ret a => Ok (σ, a)
  | Op f k => let! (σ, b) := f (reader (t, σ)) σ in run_among t (k b) σ
  end.

Section Reasoning.
(** [J] is an invariant of the whole state that gives [I] to the goroutines. A goroutine
    moves the shared state by [G], the background activities and the other goroutines
    by [Rely]. *)
Context (J : T * W → Prop) (I : W → Prop) (Rely G : W → W → Prop) `{!PreOrder Rely}.
Hypothesis J_I : ∀ w, J w → I w.2.
Hypothesis J_background : ∀ w w', J w → background w w' → J w' ∧ Rely w.2 w'.2.
Hypothesis J_thread : ∀ t σ σ', J (t, σ) → I σ' → G σ σ' → J (t, σ').
Hypothesis G_Rely : ∀ σ σ', G σ σ' → Rely σ σ'.

Abbreviation guarded σ := (λ p : Prog A, guards I Rely G (λ _ _, True) p σ).
Hypothesis spawn_guards : ∀ p σ, spawnable p → guarded σ p.

Definition pool_inv (x : Pool) : Prop := J x.1 ∧ Forall (guarded x.1.2) x.2.

Lemma guarded_stable σ σ' ts : Rely σ σ' → Forall (guarded σ) ts → Forall (guarded σ') ts.
Proof. intros Hr Hts. eapply list.Forall_impl; [exact Hts|]. intros p. exact (guards_moved I Rely G p σ σ' Hr). Qed.

Lemma pool_inv_step x y : pool_inv x → any_step x y → pool_inv y ∧ Rely x.1.2 y.1.2.
Proof.
  intros [HJ Hts] [who Hs]. destruct Hs as [w w' ts Hb|w ts p Hp|t σ σ' ts i B f k b Hi Hf]; cbn in *.
  - destruct (J_background _ _ HJ Hb). split; [|done]. split; [done|]. by eapply guarded_stable.
  - split; [|done]. split; [done|]. apply Forall_app_2; [done|]. constructor; [by apply spawn_guards|constructor].
  - pose proof (proj1 (list.Forall_lookup _ _) Hts i _ Hi) as Hg. cbn in Hg.
    destruct (Hg (reader (t, σ)) σ (J_I _ HJ) (PreOrder_Reflexive σ) _ Hf) as (HI & HG & Hk).
    split; [|by apply G_Rely]. split; cbn; [by eapply J_thread|]. apply Forall_insert; [|done].
    eapply guarded_stable, Hts. by apply G_Rely.
Qed.

Lemma pool_inv_reachable x y : pool_inv x → rtc any_step x y → pool_inv y ∧ Rely x.1.2 y.1.2.
Proof.
  intros Hx Hr. induction Hr as [x|x y z Hs _ IH]; [done|]. destruct (pool_inv_step _ _ Hx Hs) as [Hy Hr1].
  destruct (IH Hy). split; [done|]. by etrans.
Qed.

(** [Q] is what the goroutine keeps besides. *)
Context (Q : W → W → Prop).

(** A goroutine that is safe when it starts stays safe: each of its operations
    keeps [Q] and can be made, until it returns what it should. *)
Lemma pool_safe Φ i x y p :
  pool_inv x → x.2 !! i = Some p → safe I Q Φ p → rtc any_step x y →
  ∃ p', y.2 !! i = Some p' ∧ safe I Q Φ p' ∧ pool_inv y.
Proof.
  intros Hx Hi Hp Hr. revert p Hx Hi Hp. induction Hr as [x|x y z Hxy _ IH]; intros p Hx Hi Hp; [by eauto|].
  pose proof (proj1 (pool_inv_step _ _ Hx Hxy)) as Hy. destruct Hxy as [who Hs].
  destruct Hs as [w w' ts Hb|w ts q Hq|t σ σ' ts j B f k b Hj Hf]; cbn in *.
  - by eapply IH.
  - eapply IH; [done| |done]. cbn. by apply lookup_app_l_Some.
  - destruct (decide (i = j)) as [<-|Hne]; [|eapply IH; [done| |done]; cbn; by rewrite list_lookup_insert_ne].
    rewrite Hj in Hi. injection Hi as <-. destruct (Hp (reader (t, σ)) σ (J_I _ (proj1 Hx))) as (σ1 & b1 & Hf1 & _ & _ & Hk).
    rewrite Hf in Hf1. injection Hf1 as <- <-. eapply IH; [done| |exact Hk]. cbn.
    apply list_lookup_insert_eq. by eapply lookup_lt_Some.
Qed.

Lemma pool_safe_step Φ i x y p :
  pool_inv x → x.2 !! i = Some p → safe I Q Φ p → pool_step (Some i) x y → Q x.1.2 y.1.2.
Proof.
  intros Hx Hi Hp Hs. inversion Hs as [| |t σ σ' ts j B f k b Hj Hf]; subst. cbn in *. rewrite Hj in Hi. injection Hi as <-.
  destruct (Hp (reader (t, σ)) σ (J_I _ (proj1 Hx))) as (σ1 & b1 & Hf1 & _ & HG & _). rewrite Hf in Hf1. by injection Hf1 as <- _.
Qed.

Lemma pool_safe_progress Φ i x p :
  pool_inv x → x.2 !! i = Some p → safe I Q Φ p →
  (∃ a, p = Ret a ∧ Φ a) ∨ ∃ y, pool_step (Some i) x y.
Proof.
  intros Hx Hi Hp. destruct p as [a|B f k]; [left; by exists a|right]. destruct x as [[t σ] ts].
  destruct (Hp (reader (t, σ)) σ (J_I _ (proj1 Hx))) as (σ1 & b1 & Hf1 & _). eexists. by eapply step_thread.
Qed.

End Reasoning.

(** ** Own steps *)

(** [moves i n x y]: an execution in which goroutine [i] makes [n] operations. *)
Inductive moves (i : nat) : nat → Pool → Pool → Prop :=
  | moves_refl x : moves i 0 x x
  | moves_own n x y z : pool_step (Some i) x y → moves i n y z → moves i (S n) x z
  | moves_other n who x y z : pool_step who x y → who ≠ Some i → moves i n y z → moves i n x z.

Lemma run_among_moves t p σ σ' a ts i :
  run_among t p σ = Ok (σ', a) → ts !! i = Some p →
  ∃ n, moves i n ((t, σ), ts) ((t, σ'), <[i := Ret a]> ts).
Proof.
  revert σ ts. induction p as [x|C f k IH]; intros σ ts Hr Hi; cbn in Hr.
  { injection Hr as <- <-. exists 0%nat. rewrite list_insert_id by done. constructor. }
  apply obind_Ok in Hr as ([σ1 b] & Hf & Hr).
  destruct (IH b σ1 (<[i := k b]> ts) Hr) as [n Hn]; [apply list_lookup_insert_eq; by eapply lookup_lt_Some|].
  rewrite list_insert_insert_eq in Hn. exists (S n). eapply moves_own, Hn. by eapply step_thread.
Qed.

Lemma moves_steps i n x y : moves i n x y → rtc any_step x y.
Proof. induction 1 as [x|n x y z Hs _ IH|n who x y z Hs _ _ IH]; [done|eapply rtc_l, IH; by eexists..]. Qed.

Lemma within_moves i n m x y p :
  x.2 !! i = Some p → within n p → moves i m x y → (m ≤ n)%nat.
Proof.
  intros Hi Hw Hm. revert n p Hi Hw. induction Hm as [x|m x y z Hs _ IH|m who x y z Hs Hne _ IH]; intros n p Hi Hw; [lia| |].
  - inversion Hs as [| |t σ σ' ts j B f k b Hj Hf]; subst. cbn in *. rewrite Hj in Hi. injection Hi as <-.
    specialize (Hw _ _ _ _ Hf). destruct n as [|n]; [done|].
    assert (m ≤ n)%nat; [|lia]. eapply IH; [|exact Hw]. cbn. apply list_lookup_insert_eq. by eapply lookup_lt_Some.
  - destruct Hs as [w w' ts Hb|w ts q Hq|t σ σ' ts j B f k b Hj Hf]; cbn in *; [by eapply IH| |].
    + eapply IH; [|done]. by apply lookup_app_l_Some.
    + eapply IH; [|done]. rewrite list_lookup_insert_ne; congruence.
Qed.

(** ** Budgets *)

Lemma sum_list_insert (ns : list nat) i n m :
  ns !! i = Some n → (sum_list (<[i := m]> ns) + n = sum_list ns + m)%nat.
Proof.
  revert i. induction ns as [|x ns IH]; intros [|i] Hi; cbn in *; try done.
  - injection Hi as ->. lia.
  - specialize (IH i Hi). change (x + sum_list (<[i := m]> ns) + n = x + sum_list ns + m)%nat. lia.
Qed.

(** If every goroutine spends at most [N] and the others nothing, the measure is
    bounded by the number of goroutines. [K] is what the background activities keep of
    their own state. *)
Lemma pool_spends (K : T → Prop) μ N (x y : Pool) :
  (∀ w w', K w.1 → background w w' → K w'.1 ∧ (μ w'.2 ≤ μ w.2)%nat) → (∀ p, spawnable p → spends μ N p) →
  K x.1.1 → x.2 = [] → rtc any_step x y → (μ y.1.2 ≤ μ x.1.2 + N * length y.2)%nat.
Proof.
  intros Hb Hs HK Hx Hr.
  assert (K y.1.1 ∧ ∃ ns, Forall2 (spends μ) ns y.2 ∧ (μ y.1.2 + sum_list ns ≤ μ x.1.2 + N * length y.2)%nat) as (_ & ns & _ & ?); [|lia].
  revert y Hr. apply rtc_ind_r. { split; [done|]. exists []. rewrite Hx. cbn. split; [constructor|lia]. }
  intros y z _ [who Hz] (Hk & ns & Hns & Hle). destruct Hz as [w w' ts Hw|w ts p Hp|t σ σ' ts i B f k b Hi Hf]; cbn in *.
  - destruct (Hb _ _ Hk Hw). split; [done|]. exists ns. split; [done|lia].
  - split; [done|]. exists (ns ++ [N]). split; [apply Forall2_app; [done|]; by repeat constructor; apply Hs|].
    rewrite sum_list_with_app, length_app. cbn. lia.
  - destruct (Forall2_lookup_r _ _ _ _ _ Hns Hi) as (n & Hn & Hsp). destruct (Hsp _ _ _ _ Hf) as (c & Hc & Hμ & Hsk).
    split; [done|]. exists (<[i := (n - c)%nat]> ns). split; [by apply Forall2_insert|].
    pose proof (sum_list_insert ns i n (n - c) Hn). rewrite length_insert. lia.
Qed.

End Programs.

Arguments Prog : clear implicits.
Arguments Ret {_ _ _} _. Arguments Op {_ _ _ _} _ _.
Notation "'do!' x := p 'in' k" := (pbind p (λ x, k))
  (at level 10, x pattern, p at level 100, k at level 200,
   format "'[v' 'do!'  x  :=  p  'in' '/' k ']'") : go_scope.

(** Follows a program: [op] is for its operations, [call] for the calls of others. *)
Ltac steps op call :=
  repeat lazymatch goal with
  | |- _ (Ret _) => first [exact I|exact (λ _ H, H)]
  | |- _ (pbind (lift _) _) => first [apply within_lift|apply spends_lift|apply keeps_lift]; intros
  | |- _ (pcatch _ _ _) => first [apply within_catch|apply spends_catch|apply keeps_catch]; intros
  | |- _ (pbind (pcatch _ _ _) _) => first [apply within_catch_in|apply spends_catch_in|apply keeps_catch_in]; intros
  | |- _ (pbind (pbind _ _) _) => first [apply within_assoc|apply spends_assoc|apply keeps_assoc]
  | |- _ (pbind (Ret _) _) => cbn [pbind]
  | |- _ (pbind (atomically _) _) => op; intros
  | |- _ (pbind (modify _) _) => unfold modify at 1
  | |- _ (pbind (read _) _) => unfold read at 1
  | |- _ (pbind (match ?x with _ => _ end) _) => destruct x
  | |- _ (pbind _ _) => call; intros
  | |- _ (match ?x with _ => _ end) => destruct x
  end.
