(* ===== verification/Refresher.v ===== *)
(** serversInfo.go: the refresh of servers as a goroutine, one of many.

    [refreshServer] takes the lock of the registry four times: to see whether the server
    is new, to replace it, to append it and to register it, and fetches the server
    in between without the lock. [h_refreshServer] and [h_refresh] make one operation of
    each of these. Alone they are the functions of ServersInfo.v. Among others, what
    keeps the names of the servers unique is that only one goroutine, that of [h_refresh],
    adds names, and that no goroutine removes one: [h_refresh] relies on [same_names] and the
    handling of queries on [more_names]. *)
From Stdlib Require Import QArith.
From S2P Require Import Prelude.
From S2P Require Import GoStrings.
From S2P Require Import Estimators.
From S2P Require Import ServerTypes.
From S2P Require Import ServersInfo.
From S2P Require Import Plugins.
From S2P Require Import Proxy.
From S2P Require Import Startup.
From S2P Require Import Interleaving.

(** Replaces the first element whose key is [name], if there is one. *)
Fixpoint replace {A} (key : A → bytes) (name : bytes) (x : A) (l : list A) : list A :=
  match l with
  | [] => []
  | y :: l => if decide (key y = name) then x :: l else y :: replace key name x l
  end.

Section Refresher.
Context {C E : Type} `{MovingAverage E} (ewma0 : E).
Abbreviation state := (ProxyState C E).
Abbreviation prog := (Prog (Fetcher (E := E)) state).
Implicit Types (ps : state) (si : ServersInfo E).

Definition on_servers (f : ServersInfo E → ServersInfo E) (ps : state) : state := ps <| px_servers := f ps.(px_servers) |>.

(** [refreshServer]; the result is its error. *)
Definition h_refreshServer (name : bytes) (stamp : ServerStamp) : prog (option error) :=
  do! isNew := read (λ ps, negb (known ps.(px_servers) name)) in
  do! fetched := atomically (λ fetch ps, Ok (ps, fetch name stamp isNew)) in
  pcatch fetched (λ newServer,
    if negb (bool_decide (name = newServer.(si_Name))) then lift Fatal
    else
      let newServer := newServer <| rtt := ma_Set ewma0 (inject_Z newServer.(initialRtt)) |> in
      do! isNew := atomically (λ _ ps,
        Ok (on_servers (λ si, si <| inner := replace si_Name name newServer si.(inner) |>) ps, negb (known ps.(px_servers) name))) in
      if (isNew : bool) then
        do! _ := modify (on_servers (λ si, si <| inner := si.(inner) ++ [newServer] |>)) in
        do! _ := modify (on_servers (λ si, registerServer si name stamp)) in
        Ret None
      else Ret None)
    (λ e, Ret (Some e)).

Fixpoint h_refresh_loop (l : list RegisteredServer) (live : Z) (err : option error) : prog (Z * option error) :=
  match l with
  | [] => Ret (live, err)
  | r :: l =>
      do! err := h_refreshServer r.(rs_name) r.(rs_stamp) in
      h_refresh_loop l (match err with None => live + 1 | Some _ => live end) err
  end.

(** [refresh]: the number of live servers and the error of the last one. *)
Definition h_refresh : prog (Z * option error) :=
  do! l := read (λ ps, ps.(px_servers).(registeredServers)) in
  do! (live, err) := h_refresh_loop l 0 None in
  do! _ := modify (on_servers (λ si, si <| inner := sort_by_rtt si.(inner) |>)) in
  Ret (live, err).

(** * Alone *)

Section Alone.
Context (F : Fetcher (E := E)).

Lemma replace_known si name x :
  (if known si name then replace si_Name name x si.(inner) else replace si_Name name x si.(inner) ++ [x]) =
  replace_or_append si_Name name x si.(inner).
Proof.
  unfold known. induction si.(inner) as [|y l IH]; cbn; [done|]. case_bool_decide; case_decide; try done. cbn.
  rewrite <-IH. by destruct (existsb _ l).
Qed.

Lemma run_h_refreshServer name stamp ps :
  run F (h_refreshServer name stamp) ps =
  match refreshServer (H0 := F) ewma0 ps.(px_servers) name stamp with
  | Ok si => Ok (ps <| px_servers := si |>, None)
  | Err e => Ok (ps, Some e)
  | Panic => Panic
  | Fatal => Fatal
  end.
Proof.
  unfold h_refreshServer, refreshServer, fetchServerInfo. cbn. destruct (F name stamp _) as [x| | |]; cbn; try done.
  destruct (bool_decide _); cbn; [|done]. set (x' := x <| rtt := _ |>).
  pose proof (replace_known ps.(px_servers) name x') as Hr. destruct (known _ name); cbn; by rewrite <-Hr.
Qed.

Lemma run_h_refresh_loop l live err ps :
  run F (h_refresh_loop l live err) ps =
  let! (si, live, err) := refresh_loop (H0 := F) ewma0 l ps.(px_servers) live err in
  Ok (ps <| px_servers := si |>, (live, err)).
Proof.
  revert live err ps. induction l as [|r l IH]; intros live err ps; cbn [h_refresh_loop refresh_loop]; [by destruct ps|].
  rewrite run_bind, run_h_refreshServer. destruct (refreshServer _ _ _ _) as [si|e| |]; cbn [obind]; try done; by rewrite IH.
Qed.

(** Without interruption, and with what can be fetched, the programs are the functions. *)
Lemma run_h_refresh ps :
  run F h_refresh ps =
  let! (si, live, err) := refresh (H0 := F) ewma0 ps.(px_servers) in Ok (ps <| px_servers := si |>, (live, err)).
Proof.
  unfold h_refresh, refresh. cbn. rewrite run_bind, run_h_refresh_loop.
  by destruct (refresh_loop _ _ _ _ _) as [[[si live] err]| | |].
Qed.

End Alone.
End Refresher.

(** * Among others *)

Section Names.
Context {C E : Type} `{MovingAverage E} (ewma0 : E).
Abbreviation state := (ProxyState C E).
Implicit Types (ps : state) (si : ServersInfo E).

Definition names ps : list bytes := si_Name <$> ps.(px_servers).(inner).
Definition registered ps : list bytes := rs_name <$> ps.(px_servers).(registeredServers).

(** No name is lost. *)
Record more_names ps ps' : Prop := {
  mn_inner n : n ∈ names ps → n ∈ names ps';
  mn_registered n : n ∈ registered ps → n ∈ registered ps'
}.

(** And no server is added. *)
Record same_names ps ps' : Prop := {
  sn_inner n : n ∈ names ps' ↔ n ∈ names ps;
  sn_registered n : n ∈ registered ps → n ∈ registered ps'
}.

#[export] Instance more_names_preorder : PreOrder more_names.
Proof. split; [by split|]. intros a b c [] []. split; auto. Qed.

#[export] Instance same_names_preorder : PreOrder same_names.
Proof. split; [by split|]. intros a b c [Hab ?] [Hbc ?]. split; [|auto]. intros n. by rewrite Hbc. Qed.

Lemma same_more ps ps' : same_names ps ps' → more_names ps ps'.
Proof. intros [Hi ?]. split; [|done]. intros n. by rewrite Hi. Qed.

(** An operation that leaves the names alone. *)
Lemma same_names_eq ps ps' : names ps' = names ps → registered ps' = registered ps → same_names ps ps'.
Proof. intros Hn Hr. split; intros n; by rewrite ?Hn, ?Hr. Qed.

(** The names of the servers are unique and registered, and the strategy is [lb]. *)
Definition registry_ok (lb : LBStrategy) ps : Prop := ps.(px_servers).(lbStrategy) = lb ∧ refresh_inv ps.(px_servers).

Lemma registry_ok_eq lb ps ps' :
  names ps' = names ps → registered ps' = registered ps → ps'.(px_servers).(lbStrategy) = ps.(px_servers).(lbStrategy) →
  registry_ok lb ps → registry_ok lb ps' ∧ same_names ps ps'.
Proof.
  intros Hn Hr Hl [Hlb Hi]. split; [|by apply same_names_eq]. split; [congruence|].
  unfold refresh_inv in *. unfold names, registered in Hn, Hr. by rewrite Hn, Hr.
Qed.

Lemma replace_keys name (x : ServerInfo E) l : si_Name x = name → si_Name <$> replace si_Name name x l = si_Name <$> l.
Proof. intros Hx. induction l as [|y l IH]; cbn; [done|]. case_decide; cbn; congruence. Qed.

Context (lb : LBStrategy).
Abbreviation refresher := (guards (R := Fetcher (E := E)) (registry_ok lb) same_names more_names).

(** The server of a query that is being handled is known. *)
Definition named (name : bytes) ps : Prop := name ∈ names ps.

Lemma named_stable name : stable more_names (named name).
Proof. intros ps ps' Hn [Hi _]. by apply Hi. Qed.

(** The servers that are going to be refreshed are registered. *)
Definition listed (l : list RegisteredServer) ps : Prop := ∀ n, n ∈ rs_name <$> l → n ∈ registered ps.

Lemma listed_more l ps ps' : listed l ps → more_names ps ps' → listed l ps'.
Proof. intros Hl [_ Hr] n Hn. by apply Hr, Hl. Qed.

(** The replacement under the lock; it says whether the server is new. *)
Lemma replace_ok name newServer ps :
  si_Name newServer = name → registry_ok lb ps →
  let ps' := on_servers (λ si, si <| inner := replace si_Name name newServer si.(inner) |>) ps in
  registry_ok lb ps' ∧ same_names ps ps'.
Proof. intros Hx Hi. apply registry_ok_eq; [|done..]. unfold names. cbn. by apply replace_keys. Qed.

(** The server of a query is replaced, never added. *)
Lemma refresh_named name stamp : keeps (registry_ok lb) more_names same_names (named name) (h_refreshServer (C := C) ewma0 name stamp).
Proof.
  unfold h_refreshServer, read. apply keeps_op; [apply named_stable|apply same_more|by intros ? ? ? ?; apply returns_ret|].
  intros isNew. apply keeps_op; [apply named_stable|apply same_more|by intros ? ? ? ?; apply returns_ret|]. intros fetched.
  apply keeps_catch; [|by intros ???]. intros x. case_bool_decide as Hx; cbn [negb]; [|intros ??????; by apply returns_fails].
  set (x' := x <| rtt := _ |>). assert (si_Name x' = name) as Hx' by done. clearbody x'.
  intros σ0 H0 r σ HI Hr. apply returns_ret. cbn [fst snd].
  assert (known σ.(px_servers) name = true) as -> by (apply known_spec; by eapply named_stable).
  destruct (replace_ok name x' σ Hx' HI) as [? Hs]. split_and!; [done..|]. cbn.
  eapply named_stable, same_more, Hs. by eapply named_stable.
Qed.

(** The append; the lock was released since the search, but nobody else adds a server. *)
Lemma append_ok name newServer ps :
  si_Name newServer = name → name ∉ names ps → name ∈ registered ps → registry_ok lb ps →
  let ps' := on_servers (λ si, si <| inner := si.(inner) ++ [newServer] |>) ps in
  registry_ok lb ps' ∧ more_names ps ps'.
Proof.
  intros Hx Hn Hr (Hl & N1 & N2 & N3). unfold names, registered in *. cbn. split.
  - split; [done|]. unfold refresh_inv. cbn. rewrite fmap_app. cbn. rewrite Hx. split_and!; [|done|].
    + apply list.NoDup_app. split_and!; [done| |apply NoDup_singleton]. set_solver.
    + set_solver.
  - split; intros n; unfold names; cbn; [|done]. rewrite fmap_app. set_solver.
Qed.

Lemma register_ok name stamp ps :
  registry_ok lb ps →
  let ps' := on_servers (λ si, registerServer si name stamp) ps in
  registry_ok lb ps' ∧ more_names ps ps'.
Proof.
  intros (Hl & N1 & N2 & N3). destruct (registers_server ps.(px_servers) name stamp) as [R1 R2 R3 R4]. split.
  - split; [done|]. split_and!; [done|by apply R4|]. intros n Hn. apply R3, N3, Hn.
  - split; intros n; [done|apply R3].
Qed.

(** An operation that only reads. *)
Lemma refresher_read {A B} l (g : Fetcher (E := E) → state → A) (k : A → Prog (Fetcher (E := E)) state B) Φ ps :
  listed l ps → (∀ a σ, listed l σ → refresher Φ (k a) σ) →
  refresher Φ (pbind (atomically (λ fetch σ, Ok (σ, g fetch σ))) k) ps.
Proof.
  intros Hps Hk r σ HI Hr. apply returns_ret. split_and!; [done..|]. apply Hk. by eapply listed_more, same_more.
Qed.

(** A server that was not found under the lock is added. *)
Lemma refresh_adds l name stamp newServer ps :
  si_Name newServer = name → name ∈ rs_name <$> l → name ∉ names ps → listed l ps →
  refresher (λ _, listed l)
    (do! _ := modify (on_servers (λ si, si <| inner := si.(inner) ++ [newServer] |>)) in
     do! _ := modify (on_servers (λ si, registerServer si name stamp)) in Ret (A := option error) None) ps.
Proof.
  intros Hx Hin Hn Hps r1 σ1 HI1 Hr1. apply returns_ret. cbn [fst snd].
  assert (listed l σ1) as H1 by by eapply listed_more, same_more.
  destruct (append_ok name newServer σ1 Hx) as [HI2 Hm2]; [by rewrite (sn_inner _ _ Hr1)|by apply H1|done|].
  split_and!; [done..|]. intros r3 σ3 HI3 Hr3. apply returns_ret. cbn [fst snd].
  destruct (register_ok name stamp σ3 HI3) as [? Hm4]. split_and!; [done..|]. cbn.
  eapply listed_more, Hm4. eapply listed_more, same_more, Hr3. by eapply listed_more, Hm2.
Qed.

Lemma refresh_listed l name stamp ps :
  name ∈ rs_name <$> l → listed l ps → refresher (λ _, listed l) (h_refreshServer ewma0 name stamp) ps.
Proof.
  intros Hin Hps. unfold h_refreshServer, read. apply (refresher_read l); [done|]. clear ps Hps. intros isNew ps Hps.
  apply (refresher_read l); [done|]. clear ps Hps. intros fetched ps Hps.
  apply guards_catch; [|done]. intros x. case_bool_decide as Hx; cbn [negb]; [|intros ????; by apply returns_fails].
  set (x' := x <| rtt := _ |>). assert (si_Name x' = name) as Hx' by done. clearbody x'.
  intros r σ HI Hr. apply returns_ret. cbn [fst snd]. destruct (replace_ok name x' σ Hx' HI) as [? Hs].
  split_and!; [done|by apply same_more|]. cbn [pbind]. set (σ' := on_servers _ σ) in *.
  assert (listed l σ') as Hσ' by (eapply listed_more, same_more, Hs; by eapply listed_more, same_more).
  destruct (known _ name) eqn:Hk; cbn [negb]; [done|]. apply refresh_adds; [done..| |done].
  intros Hn%(sn_inner _ _ Hs). apply known_spec in Hn. congruence.
Qed.

Lemma refresh_loop_listed l k live err ps :
  (∀ n, n ∈ rs_name <$> k → n ∈ rs_name <$> l) → listed l ps → refresher (λ _ _, True) (h_refresh_loop ewma0 k live err) ps.
Proof.
  revert live err ps. induction k as [|r k IH]; intros live err ps Hk Hps; [done|]. cbn [h_refresh_loop].
  eapply guards_bind; [apply (refresh_listed l); [apply Hk; set_solver|done]|]. intros e σ Hσ. apply IH; [|done]. set_solver.
Qed.

Lemma sort_names ps : names (on_servers (λ si, si <| inner := sort_by_rtt si.(inner) |>) ps) ≡ₚ names ps.
Proof. unfold names. cbn. by rewrite sort_by_rtt_perm. Qed.

Lemma refresh_guards ps : refresher (λ _ _, True) (h_refresh ewma0) ps.
Proof.
  unfold h_refresh, read. intros r σ HI Hr. apply returns_ret. cbn [fst snd pbind]. split_and!; [done..|].
  eapply guards_bind; [apply (refresh_loop_listed σ.(px_servers).(registeredServers)); [done|by intros n]|].
  intros [live err] ps1 _ r2 σ2 (Hl & N1 & N2 & N3) _. apply returns_ret. cbn [fst snd].
  pose proof (sort_names σ2) as Hp. split_and!; [|split; [|done]|done].
  - split; [done|]. split_and!; [|done|]; unfold names in Hp.
    + by rewrite Hp.
    + intros n. rewrite Hp. apply N3.
  - intros n. by rewrite Hp.
Qed.

End Names.
