(* ===== verification/Handler.v ===== *)
(** proxy.go, plugins.go: the handling of a query as a goroutine, one of many.

    [handler] is [processIncomingQuery] as a sequence of operations on the shared
    state: the choice of a server, each plugin, each exchange, each report on a server
    and each reply is one operation; between two of them any other goroutine can run.
    Alone it is the function of Proxy.v; in a pool it ends within a fixed number
    of operations, keeps the registry, and does not send a blocked query. *)
From Stdlib Require Import QArith.
From S2P Require Import Prelude.
From S2P Require Import GoStrings.
From S2P Require Import Common.
From S2P Require Import Estimators.
From S2P Require Import ServerTypes.
From S2P Require Import Crypto.
From S2P Require Import DnsMsg.
From S2P Require Import DnsUtils.
From S2P Require Import ServersInfo.
From S2P Require Import XTransport.
From S2P Require Import ODoH.
From S2P Require Import ARC.
From S2P Require Import PatternMatcher.
From S2P Require Import Plugins.
From S2P Require Import Cache.
From S2P Require Import BlockPlugins.
From S2P Require Import RewritePlugins.
From S2P Require Import PluginChain.
From S2P Require Import Proxy.
From S2P Require Import Startup.
From S2P Require Import Interleaving.
From S2P Require Import Refresher.

Section Handler.
Context `{CryptoPrims} `{Codec} `{NetLib} `{WebLib} {Ctx : Type} `{HPKE Ctx} {C E : Type} `{MovingAverage E}.
Context (ewma0 : E) (cfg : ProxyConfig (C := C)) (qe : QueryEnv).
(** Another goroutine may have replaced the server the handler points to: whether
    each report still reaches the entry of the registry. *)
Context (attached : nat → bool).
Abbreviation state := (ProxyState C E).
Abbreviation prog := (Prog (Fetcher (E := E)) state).

(** * Operations *)

Definition notice (i : nat) (f : state → state) : prog unit := modify (if attached i then f else id).

Definition eval_plugin (p : Plugin C) (env : PEnv) (s : PluginsState) (msg : Msg) : prog (PluginsState * Msg * option error) :=
  atomically (λ _ ps,
    let! (w, s, msg, err) := p.(p_Eval) env ps.(px_world) s msg in Ok (ps <| px_world := w |>, (s, msg, err))).

(** * Plugins *)

Fixpoint h_run_plugins (g : PluginsGlobals C) (envs : nat → PEnv) (i : nat) (l : list (Plugin C)) (s : PluginsState) (msg : Msg)
    : prog (PluginsState * Msg * option error) :=
  match l with
  | [] => Ret (s, msg, None)
  | p :: l =>
      do! (s, msg, err) := eval_plugin p (envs i) s msg in
      match err with
      | Some e => Ret (s <| action := PluginsActionDrop |>, msg, Some e)
      | None =>
          do! s := lift (
            if decide (s.(action) = PluginsActionReject) then
              let! synth := RefusedResponseFromMessage msg g.(refusedCodeInResponses) g.(respondWithIPv4)
                              g.(respondWithIPv6) s.(rejectTTL) in
              Ok (s <| synthResponse := Some synth |>)
            else Ok s) in
          if decide (s.(action) = PluginsActionContinue) then h_run_plugins g envs (S i) l s msg
          else Ret (s, msg, None)
      end
  end.

Definition h_ApplyQueryPlugins (g : PluginsGlobals C) (envs : nat → PEnv) (s : PluginsState) (packet : bytes)
    (needsEDNS0Padding : bool) : prog (PluginsState * bytes * option error) :=
  let fail s e : prog _ := Ret (s, packet, Some e) in
  pcatch (Unpack packet) (λ msg,
    match msg.(Questions) with
    | [question] =>
        pcatch (NormalizeQName question.(qn_Name)) (λ name,
          let s := s <| qName := name |> <| questionMsg := Some msg |> in
          if (length g.(queryPlugins) =? 0)%nat && (length g.(loggingPlugins) =? 0)%nat then Ret (s, packet, None)
          else
            do! (s, msg, err) := h_run_plugins g envs 0 g.(queryPlugins) s msg in
            let s := s <| questionMsg := Some msg |> in
            match err with
            | Some e => fail s e
            | None =>
                pcatch (Pack msg) (λ packet2,
                  if needsEDNS0Padding && bool_decide (s.(action) = PluginsActionContinue) then
                    let padLen := 63 - Z.land (len packet2 + 63) 63 in
                    do! (msg, padded) := lift (addEDNS0PaddingIfNoneFound msg packet2 padLen) in
                    let s := s <| questionMsg := Some msg |> in
                    pcatch padded (λ paddedPacket2, Ret (s, paddedPacket2, None)) (λ _, Ret (s, packet2, None))
                  else Ret (s, packet2, None)) (fail s)
            end) (fail s)
    | _ => fail s (EMsg "Unexpected number of questions")
    end) (fail s).

Definition h_ApplyResponsePlugins (g : PluginsGlobals C) (envs : nat → PEnv) (s : PluginsState) (packet : bytes)
    (ttl : option Z) : prog (PluginsState * bytes * option error) :=
  let fail s e : prog _ := Ret (s, packet, Some e) in
  pcatch (Unpack packet) (λ msg,
    let msg := msg <| Compress := true |> in
    do! rcode := lift (Rcode packet) in
    let s := s <| returnCode := response_code rcode |> in
    do! (msg, _) := lift (removeEDNS0Options msg) in
    do! (s, msg, err) := h_run_plugins g envs 0 g.(responsePlugins) s msg in
    match err with
    | Some e => fail s e
    | None =>
        let msg := match ttl with Some t => setMaxTTL msg t | None => msg end in
        pcatch (Pack msg) (λ packet2, Ret (s, packet2, None)) (fail s)
    end)
    (λ e,
      if MinDNSPacketSize <=? len packet then
        do! tc := lift (HasTCFlag packet) in Ret (s, packet, if tc then None else Some e)
      else fail s e).

Fixpoint h_run_logging (envs : nat → PEnv) (i : nat) (l : list (Plugin C)) (s : PluginsState) (msg : Msg) : prog unit :=
  match l with
  | [] => Ret tt
  | p :: l =>
      do! (s, msg, err) := eval_plugin p (envs i) s msg in
      match err with
      | Some _ => Ret tt
      | None => h_run_logging envs (S i) l s msg
      end
  end.

Definition h_log_with (rc : option PluginsReturnCode) (s : PluginsState) : prog unit :=
  let s := match rc with Some rc => s <| returnCode := rc |> | None => s end in
  if (length cfg.(pc_globals).(loggingPlugins) =? 0)%nat then Ret tt
  else
    let s := s <| requestEnd := clock (qe_logging qe 0%nat) 0 |> in
    match s.(questionMsg) with
    | None => Ret tt
    | Some questionMsg => h_run_logging (qe_logging qe) 0 cfg.(pc_globals).(loggingPlugins) s questionMsg
    end.

(** * Exchanges *)

(** [Encrypt] reads the estimator of sizes. *)
Definition h_encrypt (server : ServerInfo E) (i : nat) (query : bytes) (proto : string) : prog (Out (bytes * bytes * bytes)) :=
  read (λ ps, encrypt cfg qe server ps i query proto).

Definition h_exchange (sent : list Upstream * Out Returned) : prog Returned :=
  do! _ := modify (send sent.1) in lift sent.2.

(** The end of an exchange with a DNSCrypt server: a stale answer replaces an error. *)
Definition h_finish (s : PluginsState) (r : Returned) : prog Asked :=
  do! (response, err) := lift (or_stale s r) in
  match err with
  | None => Ret (Answered response)
  | Some e => Ret (Failed (network_code e) true response)
  end.

Definition h_ask_dnscrypt (server : ServerInfo E) (query : bytes) (serverProto : string) (s : PluginsState) : prog Asked :=
  do! first := h_encrypt server 0 query serverProto in
  do! (serverProto, encrypted) :=
    match first with
    | Err e => if decide (serverProto = "udp"%string)
               then do! r := h_encrypt server 1 query "tcp" in Ret ("tcp"%string, r)
               else Ret (serverProto, Err e)
    | r => Ret (serverProto, r)
    end in
  pcatch encrypted (λ '(sharedKey, encryptedQuery, clientNonce),
    do! _ := notice 0 (notice_begin qe server.(si_Name)) in
    if decide (serverProto = "udp"%string) then
      do! r := h_exchange (exchangeWithUDPServer (qe_udp qe) server sharedKey encryptedQuery clientNonce) in
      do! retryOverTCP := lift (retry_over_tcp r) in
      if retryOverTCP then
        do! again := h_encrypt server 2 query "tcp" in
        pcatch again (λ '(sharedKey, encryptedQuery, clientNonce),
          do! r := h_exchange (exchangeWithTCPServer (qe_tcp qe) server sharedKey encryptedQuery clientNonce) in
          h_finish s r)
          (λ _, Ret (Failed PluginsReturnCodeParseError false r.1))
      else h_finish s r
    else
      do! r := h_exchange (exchangeWithTCPServer (qe_tcp qe) server sharedKey encryptedQuery clientNonce) in
      h_finish s r)
    (λ _, Ret (Failed PluginsReturnCodeParseError false None)).

Definition h_ask_doh (server : ServerInfo E) (query : bytes) (s : PluginsState) : prog Asked :=
  do! tid := lift (TransactionID query) in
  do! query0 := lift (SetTransactionID query 0) in
  do! _ := notice 0 (notice_begin qe server.(si_Name)) in
  do! f := atomically (λ _ ps,
    let! (x, f) := DoHQuery (qe_resolve qe) (qe_http qe) cfg.(pc_timeout) ps.(px_transport) server.(useGet) server.(URL)
                     query0 cfg.(pc_timeout) in
    Ok (send [SentDoH server.(URL) query0] (ps <| px_transport := x |>), f)) in
  let incomplete := match f.(f_tls) with Some tls => negb tls.(HandshakeComplete) | None => true end in
  do! (response, err) := lift (
    if bool_decide (is_Some f.(f_err)) || incomplete then
      match s.(stale) with
      | Some m => match Pack m with
                  | Ok p => Ok (Some p, None)
                  | Err e => Ok (None, Some e)
                  | Panic => Panic
                  | Fatal => Fatal
                  end
      | None => Ok (None, f.(f_err))
      end
    else Ok (None, f.(f_err))) in
  match err with
  | Some _ => Ret (Failed PluginsReturnCodeNetworkError true response)
  | None =>
      match (match response with Some p => Some p | None => f.(f_bin) end) with
      | Some p => do! p := lift (restore_tid p tid) in Ret (Answered (Some p))
      | None => Ret (Answered None)
      end
  end.

(** The list of registered servers is read once, without the lock. *)
Definition h_force_key_update (name : bytes) : prog bool :=
  do! found := read (λ ps, List.find (λ r, bool_decide (rs_name r = name)) ps.(px_servers).(registeredServers)) in
  match found with
  | None => Ret true
  | Some r =>
      do! err := h_refreshServer ewma0 r.(rs_name) r.(rs_stamp) in
      match err with
      | None => Ret false
      | Some _ => do! _ := notice 1 (notice_failure cfg name) in Ret true
      end
  end.

Definition h_ask_odoh (server : ServerInfo E) (query : bytes) : prog Asked :=
  do! tid := lift (TransactionID query) in
  if (length server.(odohTargetConfigs) =? 0)%nat then Ret (Quiet None)
  else
    do! target := lift (let! i := Intn (qe_rnd qe 2) (len server.(odohTargetConfigs)) in
                        orPanic (index server.(odohTargetConfigs) i)) in
    do! (response, current) :=
      pcatch (encryptQuery target (qe_hpkeseed qe) query) (λ odohQuery,
        let targetURL := match server.(si_Relay) with
                         | Some r => match r.(ODoH) with Some o => o.(odoh_URL) | None => server.(URL) end
                         | None => server.(URL)
                         end in
        do! f := atomically (λ _ ps,
          let! (x, f) := ObliviousDoHQuery (qe_resolve qe) (qe_http qe) cfg.(pc_timeout) ps.(px_transport)
                           server.(useGet) targetURL odohQuery.(odohMessage) cfg.(pc_timeout) in
          Ok (send [SentODoH targetURL odohQuery.(odohMessage)] (ps <| px_transport := x |>), f)) in
        let responseBody := default [] f.(f_bin) in
        if bool_decide (f.(f_err) = None) && negb (length responseBody =? 0)%nat && (f.(f_status) =? 200) then
          pcatch (decryptResponse odohQuery responseBody) (λ p, Ret (Some p, true)) (λ _, Ret (None, true))
        else if (f.(f_status) =? 401) || ((f.(f_status) =? 200) && (length responseBody =? 0)%nat) then
          do! current := h_force_key_update server.(si_Name) in Ret (None, current)
        else Ret (None, true))
        (λ _, Ret (None, true)) in
    match response with
    | Some p => do! p := lift (restore_tid p tid) in Ret (Answered (Some p))
    | None => Ret (Failed PluginsReturnCodeNetworkError current None)
    end.

Definition h_ask (server : ServerInfo E) (query : bytes) (serverProto : string) (s : PluginsState) : prog Asked :=
  match server.(Proto) with
  | StampProtoTypeDNSCrypt => h_ask_dnscrypt server query serverProto s
  | StampProtoTypeDoH => h_ask_doh server query s
  | StampProtoTypeODoHTarget => h_ask_odoh server query
  | _ => lift Fatal
  end.

(** * Replies *)

Definition h_failing (server : option bytes) : prog unit :=
  match server with Some name => notice 3 (notice_failure cfg name) | None => Ret tt end.

Definition h_write (packet : bytes) : prog unit := modify (λ ps, ps <| px_replies := ps.(px_replies) ++ [packet] |>).

Definition h_adjust (tc : bool) (packet : bytes) : prog unit :=
  modify (λ ps, ps <| px_estimator := if tc then blindAdjust ps.(px_estimator)
                                      else adjust ps.(px_estimator) (ResponseOverhead + len packet) |>).

Definition h_reply (clientProto : string) (connected : bool) (server : option bytes) (response : option bytes)
    (s : PluginsState) : prog (option bytes) :=
  if negb (valid_size response) then
    let rc := if (length (default [] response) =? 0)%nat then PluginsReturnCodeNotReady else PluginsReturnCodeParseError in
    do! _ := h_log_with (Some rc) s in do! _ := h_failing server in Ret response
  else
    let packet := default [] response in
    if decide (clientProto = "udp"%string) then
      pcatch (if s.(maxUnencryptedUDPSafePayloadSize) <? len packet then TruncatedResponse packet else Ok packet) (λ packet,
        do! _ := h_write packet in
        do! tc := lift (HasTCFlag packet) in
        do! _ := h_adjust tc packet in
        do! _ := h_log_with None s in
        Ret (Some packet))
        (λ _, do! _ := h_log_with (Some PluginsReturnCodeParseError) s in Ret None)
    else if decide (clientProto = "tcp"%string) then
      pcatch (PrefixWithSize packet) (λ framed,
        do! _ := if connected then h_write framed else Ret tt in
        do! _ := h_log_with None s in
        Ret (Some framed))
        (λ _, do! _ := h_log_with (Some PluginsReturnCodeParseError) s in do! _ := h_failing server in Ret (Some packet))
    else do! _ := h_log_with None s in Ret response.

Definition h_after_answer (server : ServerInfo E) (response : option bytes) (s : PluginsState)
    : prog (PluginsState * (option bytes + bytes)) :=
  let failing := notice 2 (notice_failure cfg server.(si_Name)) in
  if negb (valid_size response) then
    do! _ := h_log_with (Some PluginsReturnCodeParseError) s in do! _ := failing in Ret (s, inl response)
  else
    do! (s, packet, err) := h_ApplyResponsePlugins cfg.(pc_globals) (qe_response qe) s (default [] response) None in
    match err with
    | Some _ => do! _ := h_log_with (Some PluginsReturnCodeParseError) s in do! _ := failing in Ret (s, inl (Some packet))
    | None =>
        if decide (s.(action) = PluginsActionDrop) then
          do! _ := h_log_with (Some PluginsReturnCodeDrop) s in Ret (s, inl (Some packet))
        else
          pcatch (match s.(synthResponse) with Some m => Pack m | None => Ok packet end) (λ packet,
            do! rcode := lift (Rcode packet) in
            do! _ := if rcode =? RcodeServerFailure
                     then if s.(dnssec) then Ret tt else failing
                     else notice 2 (notice_success cfg qe server.(si_Name)) in
            Ret (s, inr packet))
            (λ _, do! _ := h_log_with (Some PluginsReturnCodeParseError) s in Ret (s, inl None))
    end.

(** * [processIncomingQuery] *)

(** What follows the choice of the server and the query plugins. *)
Definition h_rest (clientProto serverProto : string) (connected onlyCached : bool) (serverInfo : option (ServerInfo E))
    (query : bytes) (s : PluginsState) : prog (option bytes) :=
  if (len query <? MinDNSPacketSize) || (MaxDNSPacketSize <? len query) then Ret None
  else if decide (s.(action) = PluginsActionDrop) then
    do! _ := h_log_with (Some PluginsReturnCodeDrop) s in Ret None
  else
    pcatch (match s.(synthResponse) with
            | Some m => match Pack m with Ok p => Ok (Some p) | Err e => Err e | Panic => Panic | Fatal => Fatal end
            | None => Ok None
            end) (λ response,
      let empty := (length (default [] response) =? 0)%nat in
      if onlyCached && empty then Ret response
      else
        let serverInfo := if onlyCached then None else serverInfo in
        match serverInfo with
        | Some server =>
            if empty then
              let s := s <| serverName := server.(si_Name) |> in
              do! asked := h_ask server query serverProto s in
              match asked with
              | Quiet response => Ret response
              | Failed rc failure response =>
                  do! _ := h_log_with (Some rc) s in
                  do! _ := if failure then notice 2 (notice_failure cfg server.(si_Name)) else Ret tt in
                  Ret response
              | Answered response =>
                  do! (s, r) := h_after_answer server response s in
                  match r with
                  | inl response => Ret response
                  | inr packet => h_reply clientProto connected (Some server.(si_Name)) (Some packet) s
                  end
              end
            else h_reply clientProto connected (Some server.(si_Name)) response s
        | None => h_reply clientProto connected None response s
        end)
      (λ _, do! _ := h_log_with (Some PluginsReturnCodeParseError) s in Ret None).

Definition handler (clientProto serverProto : string) (query : bytes) (clientAddr : option ClientAddr)
    (connected : bool) (start : Z) (onlyCached : bool) : prog (option bytes) :=
  if len query <? MinDNSPacketSize then Ret None
  else
    let s := NewPluginsState cfg.(pc_state) (str clientProto) clientAddr (str serverProto) start in
    do! serverInfo := atomically (λ _ ps,
      let! (si, serverInfo) := getOne ps.(px_servers) (qe_rnd qe 0) (qe_rnd qe 1) (qe_now qe 0) in
      Ok (ps <| px_servers := si |>, serverInfo)) in
    do! (s, query, _) := h_ApplyQueryPlugins cfg.(pc_globals) (qe_query qe) s query (wants_padding serverInfo) in
    h_rest clientProto serverProto connected onlyCached serverInfo query s.

End Handler.

(** * Alone *)

(** Without interruption the handler is the function. *)

Create HintDb alone.

Section Alone.
Context `{CryptoPrims} `{Codec} `{NetLib} `{WebLib} {Ctx : Type} `{HPKE Ctx} {C E : Type} `{MovingAverage E}.
Context (ewma0 : E) (F : Fetcher (E := E)) (cfg : ProxyConfig (C := C)) (qe : QueryEnv).
Abbreviation state := (ProxyState C E).
Implicit Types (ps : state) (s : PluginsState).

Abbreviation here := (λ _ : nat, true).

Lemma run_pcatch {A B} (m : Out A) (ok : A → Prog (Fetcher (E := E)) state B) err ps :
  run F (pcatch m ok err) ps = catch m (λ a, run F (ok a) ps) (λ e, run F (err e) ps).
Proof. by destruct m. Qed.

Lemma same_world {A} ps w (a : A) : w = ps.(px_world) → Ok (ps, a) = Ok (ps <| px_world := w |>, a).
Proof. intros ->. by destruct ps. Qed.

Lemma run_eval_plugin p env s msg ps :
  run F (eval_plugin p env s msg) ps =
  let! (w, s, msg, err) := p.(p_Eval) env ps.(px_world) s msg in Ok (ps <| px_world := w |>, (s, msg, err)).
Proof. unfold eval_plugin. cbn. by destruct (p_Eval p env _ s msg) as [[[[w s1] m1] err]| | |]. Qed.

Lemma run_modify f ps : run F (modify f) ps = Ok (f ps, tt).
Proof. done. Qed.

Lemma run_read {A} (f : state → A) ps : run F (read f) ps = Ok (ps, f ps).
Proof. done. Qed.


Lemma run_h_run_plugins g envs i l s msg ps :
  run F (h_run_plugins g envs i l s msg) ps =
  let! (w, s, msg, err) := run_plugins g envs i l ps.(px_world) s msg in Ok (ps <| px_world := w |>, (s, msg, err)).
Proof.
  revert i s msg ps. induction l as [|p l IH]; intros i s msg ps; cbn [h_run_plugins run_plugins obind].
  { by apply same_world. }
  rewrite run_bind, run_eval_plugin. destruct (p_Eval p _ _ _ _) as [[[[w s1] m1] [e|]]| | |]; cbn [obind]; try done.
  rewrite run_bind, run_lift. destruct (if decide (action s1 = _) then _ else _) as [s2| | |]; cbn [obind]; try done.
  destruct (decide (action s2 = _)); [|done]. by rewrite IH.
Qed.

Lemma run_h_run_logging envs i l s msg ps :
  run F (h_run_logging envs i l s msg) ps =
  let! (w, _) := run_logging envs i l ps.(px_world) s msg in Ok (ps <| px_world := w |>, tt).
Proof.
  revert i s msg ps. induction l as [|p l IH]; intros i s msg ps; cbn [h_run_logging run_logging obind].
  { by apply same_world. }
  rewrite run_bind, run_eval_plugin. destruct (p_Eval p _ _ _ _) as [[[[w s1] m1] [e|]]| | |]; cbn [obind]; try done.
  by rewrite IH.
Qed.

Lemma run_h_ApplyQueryPlugins g envs s packet padding ps :
  run F (h_ApplyQueryPlugins g envs s packet padding) ps =
  let! (w, s, packet, err) := ApplyQueryPlugins g envs ps.(px_world) s packet padding in
  Ok (ps <| px_world := w |>, (s, packet, err)).
Proof.
  unfold h_ApplyQueryPlugins, ApplyQueryPlugins. rewrite run_pcatch.
  destruct (Unpack packet) as [msg| | |]; cbn [catch obind]; try done; [|by apply same_world].
  destruct (Questions msg) as [|q [|]]; cbn [run obind]; try by apply same_world.
  rewrite run_pcatch. destruct (NormalizeQName _); cbn [catch obind]; try done; [|by apply same_world].
  destruct (_ && _); [by apply same_world|]. rewrite run_bind, run_h_run_plugins.
  destruct (run_plugins _ _ _ _ _ _ _) as [[[[w s1] m1] [e|]]| | |]; cbn [obind]; try done.
  rewrite run_pcatch. destruct (Pack m1) as [p2| | |]; cbn [catch obind]; try done.
  destruct (_ && _); [|done]. rewrite run_bind, run_lift.
  destruct (addEDNS0PaddingIfNoneFound _ _ _) as [[m2 padded]| | |]; cbn [obind]; try done. by destruct padded.
Qed.

Lemma run_h_ApplyResponsePlugins g envs s packet ttl ps :
  run F (h_ApplyResponsePlugins g envs s packet ttl) ps =
  let! (w, s, packet, err) := ApplyResponsePlugins g envs ps.(px_world) s packet ttl in
  Ok (ps <| px_world := w |>, (s, packet, err)).
Proof.
  unfold h_ApplyResponsePlugins, ApplyResponsePlugins. rewrite run_pcatch.
  destruct (Unpack packet) as [msg| | |]; cbn [catch obind]; try done.
  2:{ destruct (_ <=? _); [|by apply same_world]. rewrite run_bind, run_lift. destruct (HasTCFlag packet); cbn; try done.
      by apply same_world. }
  rewrite run_bind, run_lift. destruct (Rcode packet); cbn [obind]; try done.
  rewrite run_bind, run_lift. destruct (removeEDNS0Options _) as [[m1 b]| | |]; cbn [obind]; try done.
  rewrite run_bind, run_h_run_plugins. destruct (run_plugins _ _ _ _ _ _ _) as [[[[w s1] m2] [e|]]| | |]; cbn [obind]; try done.
  rewrite run_pcatch. by destruct (Pack _).
Qed.

Lemma run_h_log_with rc s ps : run F (h_log_with cfg qe rc s) ps = let! ps := log_with cfg qe rc s ps in Ok (ps, tt).
Proof.
  unfold h_log_with, log_with, ApplyLoggingPlugins. destruct (_ =? 0)%nat; [by apply same_world|].
  destruct (questionMsg _); [|by apply same_world]. rewrite run_h_run_logging. by destruct (run_logging _ _ _ _ _ _) as [[]| | |].
Qed.

(** Follows both sides of an equation. *)
Ltac scrutinee t tac :=
  lazymatch t with
  | Ok _ => fail
  | Err _ => fail
  | Panic => fail
  | Fatal => fail
  | obind ?m _ => scrutinee m tac
  | catch ?m _ _ => scrutinee m tac
  | match ?x with _ => _ end => scrutinee x tac
  | run F (match ?x with _ => _ end) _ => scrutinee x tac
  | run F (pbind ?p ?k) ?ps => rewrite (run_bind F p k ps)
  | run F (lift ?m) ?ps => rewrite (run_lift F m ps)
  | run F (pcatch ?m ?ok ?err) ?ps => rewrite (run_pcatch m ok err ps)
  | run F (modify ?f) ?ps => rewrite (run_modify f ps)
  | run F (read ?f) ?ps => rewrite (run_read f ps)
  | run F (h_log_with _ _ _ _) _ => rewrite run_h_log_with
  | run F (h_ApplyResponsePlugins _ _ _ _ _) _ => rewrite run_h_ApplyResponsePlugins
  | run F (h_ApplyQueryPlugins _ _ _ _ _) _ => rewrite run_h_ApplyQueryPlugins
  | run F _ _ => tac t
  | snd ?x => destruct x
  | _ => destruct t
  end.
Ltac sides_with tac :=
  repeat (cbn [obind catch run fst snd id negb andb orb];
          lazymatch goal with |- ?x = ?y => first [constr_eq x y; reflexivity
    | lazymatch x with Ok _ => lazymatch y with Ok _ => reflexivity end end | scrutinee x tac] end).
Ltac sides := sides_with ltac:(fun t => fail).

Lemma run_h_exchange x ps : run F (h_exchange x) ps = let! y := x.2 in Ok (send x.1 ps, y).
Proof. unfold h_exchange. sides. Qed.

Lemma run_h_reply proto connected server response s ps :
  run F (h_reply cfg qe here proto connected server response s) ps = reply cfg qe proto connected server response s ps.
Proof. unfold h_reply, reply, h_failing, notice, h_write, h_adjust. sides. Qed.

Lemma run_h_after_answer server response s ps :
  run F (h_after_answer cfg qe here server response s) ps =
  let! (ps, s, x) := after_answer cfg qe server response s ps in Ok (ps, (s, x)).
Proof. unfold h_after_answer, after_answer, notice. sides. Qed.

Lemma run_h_finish s y ps :
  run F (h_finish s y) ps = let! (response, err) := or_stale s y in
        match err with
        | None => Ok (ps, Answered response)
        | Some e => Ok (ps, Failed (network_code e) true response)
        end.
Proof. unfold h_finish. sides. Qed.

Lemma run_h_ask_dnscrypt server query proto s ps :
  run F (h_ask_dnscrypt cfg qe here server query proto s) ps = ask_dnscrypt cfg qe server query proto s ps.
Proof.
  unfold h_ask_dnscrypt, ask_dnscrypt, h_encrypt, notice. sides_with ltac:(fun t =>
    lazymatch t with run F (h_exchange _) _ => rewrite run_h_exchange | _ => rewrite run_h_finish end).
Qed.

Lemma run_h_ask_doh server query s ps :
  run F (h_ask_doh cfg qe here server query s) ps = ask_doh cfg qe server query s ps.
Proof. unfold h_ask_doh, ask_doh, notice, atomically. sides. Qed.

Lemma run_h_force_key_update name ps :
  run F (h_force_key_update ewma0 cfg here name) ps = force_key_update ewma0 cfg name ps.
Proof.
  unfold h_force_key_update, force_key_update, notice. sides_with ltac:(fun t => rewrite run_h_refreshServer).
Qed.

Lemma run_h_ask_odoh server query ps :
  run F (h_ask_odoh ewma0 cfg qe here server query) ps = ask_odoh ewma0 cfg qe server query ps.
Proof. unfold h_ask_odoh, ask_odoh, notice, atomically. sides_with ltac:(fun t => rewrite run_h_force_key_update). Qed.

Lemma run_h_ask server query proto s ps :
  run F (h_ask ewma0 cfg qe here server query proto s) ps = ask ewma0 cfg qe server query proto s ps.
Proof.
  unfold h_ask, ask. destruct (Proto server); try done; [apply run_h_ask_dnscrypt|apply run_h_ask_doh|apply run_h_ask_odoh].
Qed.


End Alone.

(** * Bounds *)

(** A handler ends after a number of operations that depends on the number of plugins
    only, whatever the others do. *)

Section Bounds.
Context `{CryptoPrims} `{Codec} `{NetLib} `{WebLib} {Ctx : Type} `{HPKE Ctx} {C E : Type} `{MovingAverage E}.
Context (ewma0 : E) (cfg : ProxyConfig (C := C)) (qe : QueryEnv) (attached : nat → bool).
Abbreviation state := (ProxyState C E).
Abbreviation prog := (Prog (Fetcher (E := E)) state).
Implicit Types (s : PluginsState).

Abbreviation queries := (length cfg.(pc_globals).(queryPlugins)).
Abbreviation responses := (length cfg.(pc_globals).(responsePlugins)).
Abbreviation loggers := (length cfg.(pc_globals).(loggingPlugins)).

(** Counts the operations of a program. *)
Ltac one := apply within_op; [lia|].
Ltac bounded lem := eapply within_call; [apply lem|lia|].

Lemma within_run_plugins g envs i l s msg : within (length l) (h_run_plugins (C := C) (E := E) g envs i l s msg).
Proof.
  revert i s msg. induction l as [|p l IH]; intros i s msg; cbn [h_run_plugins length]; [done|]. unfold eval_plugin.
  steps one fail. replace (S (length l) - 1)%nat with (length l) by lia. apply IH.
Qed.

Lemma within_run_logging envs i l s msg : within (length l) (h_run_logging (C := C) (E := E) envs i l s msg).
Proof.
  revert i s msg. induction l as [|p l IH]; intros i s msg; cbn [h_run_logging length]; [done|]. unfold eval_plugin.
  steps one fail. replace (S (length l) - 1)%nat with (length l) by lia. apply IH.
Qed.

Lemma within_query_plugins envs s packet padding :
  within queries (h_ApplyQueryPlugins (E := E) cfg.(pc_globals) envs s packet padding).
Proof. unfold h_ApplyQueryPlugins. steps one ltac:(bounded within_run_plugins). Qed.

Lemma within_response_plugins envs s packet ttl :
  within responses (h_ApplyResponsePlugins (E := E) cfg.(pc_globals) envs s packet ttl).
Proof. unfold h_ApplyResponsePlugins. steps one ltac:(bounded within_run_plugins). Qed.

Lemma within_log_with rc s : within loggers (h_log_with (E := E) cfg qe rc s).
Proof. unfold h_log_with. steps one fail. apply within_run_logging. Qed.

Lemma within_refreshServer name stamp : within 5 (h_refreshServer (C := C) ewma0 name stamp).
Proof. unfold h_refreshServer. steps one fail; done. Qed.

Lemma within_ask server query proto s : within 8 (h_ask ewma0 cfg qe attached server query proto s).
Proof.
  unfold h_ask, h_ask_dnscrypt, h_ask_doh, h_ask_odoh, h_force_key_update, h_finish, h_exchange, h_encrypt, notice.
  steps one ltac:(bounded within_refreshServer); done.
Qed.

Lemma within_reply proto connected server response s :
  within (loggers + 2) (h_reply cfg qe attached proto connected server response s).
Proof.
  unfold h_reply, h_write, h_adjust, h_failing, notice. steps one ltac:(bounded within_log_with).
Qed.

(** The number of operations of a handler. *)
Definition handler_bound : nat := queries + responses + loggers + 12.

Lemma handler_within clientProto serverProto query clientAddr connected start onlyCached :
  within handler_bound (handler ewma0 cfg qe attached clientProto serverProto query clientAddr connected start onlyCached).
Proof.
  unfold handler, h_rest, h_after_answer, handler_bound, notice.
  steps one ltac:(first [bounded within_query_plugins|bounded within_ask|bounded within_response_plugins|bounded within_log_with]);
    (eapply within_mono, within_reply; lia).
Qed.

End Bounds.

(** * What a handler emits *)

Section Emits.
Context `{CryptoPrims} `{Codec} `{NetLib} `{WebLib} {Ctx : Type} `{HPKE Ctx} {C E : Type} `{MovingAverage E}.
Context (ewma0 : E) (cfg : ProxyConfig (C := C)) (qe : QueryEnv) (attached : nat → bool).
Abbreviation state := (ProxyState C E).
Implicit Types (s : PluginsState).

Definition sent_count (ps : state) : nat := length ps.(px_sent).
Definition reply_count (ps : state) : nat := length ps.(px_replies).

Ltac emits lem := eapply spends_call; [apply lem|lia|].

Section Measure.
(** A measure that plugins, reports on servers and the estimator do not change. *)
Context (μ : state → nat).
Hypothesis μ_world : ∀ w ps, μ (ps <| px_world := w |>) = μ ps.

Lemma spends_run_plugins g envs i l s msg : spends μ 0 (h_run_plugins (C := C) (E := E) g envs i l s msg).
Proof.
  revert i s msg. induction l as [|p l IH]; intros i s msg; cbn [h_run_plugins]; [done|]. unfold eval_plugin.
  steps ltac:(apply (spends_op 0); [intros ??; walk fail; cbn [fst]; rewrite μ_world; lia|lia|]) fail. apply IH.
Qed.

Lemma spends_run_logging envs i l s msg : spends μ 0 (h_run_logging (C := C) (E := E) envs i l s msg).
Proof.
  revert i s msg. induction l as [|p l IH]; intros i s msg; cbn [h_run_logging]; [done|]. unfold eval_plugin.
  steps ltac:(apply (spends_op 0); [intros ??; walk fail; cbn [fst]; rewrite μ_world; lia|lia|]) fail. apply IH.
Qed.

Lemma spends_query_plugins g envs s packet padding : spends μ 0 (h_ApplyQueryPlugins (C := C) (E := E) g envs s packet padding).
Proof. unfold h_ApplyQueryPlugins. steps fail ltac:(emits spends_run_plugins). Qed.

Lemma spends_response_plugins g envs s packet ttl : spends μ 0 (h_ApplyResponsePlugins (C := C) (E := E) g envs s packet ttl).
Proof. unfold h_ApplyResponsePlugins. steps fail ltac:(emits spends_run_plugins). Qed.

Lemma spends_log_with rc s : spends μ 0 (h_log_with (E := E) cfg qe rc s).
Proof. unfold h_log_with. steps fail fail. apply spends_run_logging. Qed.

(** Asking a server adds at most [asks], a reply at most [replies]. *)
Context (asks replies : nat).
Hypothesis μ_servers : ∀ si ps, μ (ps <| px_servers := si |>) = μ ps.
Hypothesis μ_ask : ∀ server query proto s, spends μ asks (h_ask ewma0 cfg qe attached server query proto s).
Hypothesis μ_reply : ∀ proto connected server response s,
  spends μ replies (h_reply cfg qe attached proto connected server response s).

Lemma notice_spends {A} n i f (k : unit → Prog (Fetcher (E := E)) state A) :
  (∀ ps, μ (f ps) = μ ps) → (∀ b, spends μ n (k b)) → spends μ n (pbind (notice attached i f) k).
Proof.
  intros Hf Hk. unfold notice, modify. apply (spends_op 0); [|lia|by rewrite Nat.sub_0_r].
  intros r ps. apply returns_ret. cbn. destruct (attached i); [rewrite Hf|]; cbn; lia.
Qed.

Lemma handler_spends clientProto serverProto query clientAddr connected start onlyCached :
  spends μ (asks + replies) (handler ewma0 cfg qe attached clientProto serverProto query clientAddr connected start onlyCached).
Proof.
  unfold handler, h_rest, h_after_answer.
  steps ltac:(apply (spends_op 0); [intros ??; walk fail; cbn [fst]; rewrite μ_servers; lia|lia|])
    ltac:(first [emits spends_query_plugins|emits μ_ask|emits spends_response_plugins|emits spends_log_with
                |apply notice_spends; [intros; apply μ_servers|]]);
    (eapply spends_mono, μ_reply; lia).
Qed.

End Measure.

(** An operation that adds at most [c]. *)
Ltac measured c :=
  apply (spends_op c);
    [solve [intros ??; unfold send; walk fail; unfold sent_count, reply_count; cbn; rewrite ?length_app; cbn; lia]|lia|].
Ltac op := first [measured 0%nat | measured 1%nat].

Lemma udp_sends (c : UDPConn) (server : ServerInfo E) k q n : (length (exchangeWithUDPServer c server k q n).1 ≤ 2)%nat.
Proof.
  unfold exchangeWithUDPServer. destruct (udp_dial c), (udp_deadline c); cbn; try lia.
  destruct (udp_write c 0); cbn; [lia|]. destruct (udp_read c 0); cbn; try lia.
  destruct (udp_write c 1); cbn; [lia|]. destruct (udp_read c 1); cbn; lia.
Qed.

Lemma tcp_sends (c : TCPConn) (server : ServerInfo E) k q n : (length (exchangeWithTCPServer c server k q n).1 ≤ 1)%nat.
Proof.
  unfold exchangeWithTCPServer. destruct (tcp_dial c), (tcp_deadline c); cbn; try lia.
  destruct (PrefixWithSize _); cbn; try lia. destruct (tcp_write c); cbn; lia.
Qed.

Lemma exchange_sends {A} c n x (k : Returned → Prog (Fetcher (E := E)) state A) :
  (length x.1 ≤ c)%nat → (c ≤ n)%nat → (∀ a, spends sent_count (n - c) (k a)) → spends sent_count n (pbind (h_exchange x) k).
Proof.
  intros Hx Hn Hk. unfold h_exchange. apply spends_assoc. apply (spends_op c); [|done|].
  - intros r ps. apply returns_ret. unfold sent_count. cbn. rewrite length_app. lia.
  - intros _. by apply spends_lift.
Qed.

Lemma refresh_spends μ name stamp :
  (∀ si ps, μ (ps <| px_servers := si |>) = μ ps) → spends μ 0 (h_refreshServer (C := C) ewma0 name stamp).
Proof.
  intros Hμ. unfold h_refreshServer, on_servers.
  steps ltac:(apply (spends_op 0); [intros ??; apply returns_ret; cbn [fst]; rewrite ?Hμ; lia|lia|]) fail; done.
Qed.

Lemma ask_sends server query proto s : spends sent_count 3 (h_ask ewma0 cfg qe attached server query proto s).
Proof.
  unfold h_ask, h_ask_dnscrypt, h_ask_doh, h_ask_odoh, h_force_key_update, h_finish, h_encrypt.
  steps op ltac:(first [apply notice_spends; [done|]|emits (refresh_spends sent_count); [done|]|eapply exchange_sends; [apply udp_sends|lia|]|eapply exchange_sends; [apply tcp_sends|lia|]]); done.
Qed.

Lemma reply_sends proto connected server response s : spends sent_count 0 (h_reply cfg qe attached proto connected server response s).
Proof.
  unfold h_reply, h_write, h_adjust, h_failing.
  steps op ltac:(first [emits (spends_log_with sent_count (λ _ _, eq_refl))|apply notice_spends; [done|]]).
Qed.

Lemma ask_replies server query proto s : spends reply_count 0 (h_ask ewma0 cfg qe attached server query proto s).
Proof.
  unfold h_ask, h_ask_dnscrypt, h_ask_doh, h_ask_odoh, h_force_key_update, h_finish, h_encrypt, h_exchange.
  steps op ltac:(first [apply notice_spends; [done|]|emits (refresh_spends reply_count); [done|]]); done.
Qed.

Lemma reply_replies proto connected server response s : spends reply_count 1 (h_reply cfg qe attached proto connected server response s).
Proof.
  unfold h_reply, h_write, h_adjust, h_failing.
  steps op ltac:(first [emits (spends_log_with reply_count (λ _ _, eq_refl))|apply notice_spends; [done|]]).
Qed.

(** At most three messages to servers, at most one reply. *)
Lemma handler_emits clientProto serverProto query clientAddr connected start onlyCached :
  spends sent_count 3 (handler ewma0 cfg qe attached clientProto serverProto query clientAddr connected start onlyCached) ∧
  spends reply_count 1 (handler ewma0 cfg qe attached clientProto serverProto query clientAddr connected start onlyCached).
Proof.
  split.
  - by apply (handler_spends sent_count (λ _ _, eq_refl) 3 0 (λ _ _, eq_refl) ask_sends reply_sends).
  - by apply (handler_spends reply_count (λ _ _, eq_refl) 0 1 (λ _ _, eq_refl) ask_replies reply_replies).
Qed.

End Emits.

(** * The registry *)

(** The names of the servers stay unique and registered, and the strategy stays: whatever
    is refreshed at the same time, a handler adds no server and loses none. *)

Section Registry.
Context `{CryptoPrims} `{Codec} `{NetLib} `{WebLib} {Ctx : Type} `{HPKE Ctx} {C E : Type} `{MovingAverage E}.
Context (ewma0 : E) (cfg : ProxyConfig (C := C)) (qe : QueryEnv) (attached : nat → bool).
Context (lb : LBStrategy) (lb_ok : lb_wf lb).
Abbreviation state := (ProxyState C E).
Abbreviation handles := (guards (R := Fetcher (E := E)) (registry_ok lb) more_names same_names).
Implicit Types (ps : state) (s : PluginsState).

Lemma update_server_names name f ps :
  (∀ x, si_Name (f x) = si_Name x) → names (update_server name f ps) = names ps.
Proof.
  intros Hf. unfold names, update_server. cbn. rewrite <-list_fmap_compose. apply list_fmap_ext.
  intros i x _. cbn. destruct (decide _); [apply Hf|done].
Qed.

Lemma update_server_ok name f ps :
  (∀ x, si_Name (f x) = si_Name x) → registry_ok lb ps → registry_ok lb (update_server name f ps) ∧ same_names ps (update_server name f ps).
Proof. intros Hf. apply registry_ok_eq; [by apply update_server_names|done..]. Qed.

Lemma notice_success_ok name ps :
  registry_ok lb ps → registry_ok lb (notice_success cfg qe name ps) ∧ same_names ps (notice_success cfg qe name ps).
Proof. apply update_server_ok. intros x. unfold noticeSuccess. by destruct (_ && _). Qed.

Section Keeps.
(** A fact that is not destroyed. *)
Context (Q : state → Prop) (Q_stable : stable more_names Q).
Abbreviation kept := (keeps (R := Fetcher (E := E)) (registry_ok lb) more_names same_names Q).

Lemma op_kept {A B} f (k : A → Prog _ state B) :
  (∀ r ps, registry_ok lb ps → Q ps → returns (λ x, registry_ok lb x.1 ∧ same_names ps x.1) (f r ps)) →
  (∀ b, kept (k b)) → kept (pbind (atomically f) k).
Proof. apply keeps_op; [done|apply same_more]. Qed.

Lemma notice_kept {A} i f (k : unit → Prog (Fetcher (E := E)) state A) :
  (∀ ps, registry_ok lb ps → registry_ok lb (f ps) ∧ same_names ps (f ps)) → (∀ b, kept (k b)) → kept (pbind (notice attached i f) k).
Proof.
  intros Hf Hk. unfold notice, modify. apply op_kept; [|done]. intros r ps Hps _. apply returns_ret. cbn.
  destruct (attached i); [by apply Hf|done].
Qed.

(** An operation that leaves the registry alone. *)
Ltac elsewhere := apply op_kept; [solve [intros ?? Hps ?; walk fail; by apply registry_ok_eq]|].
Ltac noticed := apply notice_kept; [first [exact (notice_success_ok _)|intros ?; by apply update_server_ok]|].
Ltac keeping lem := apply keeps_bind; [apply lem|].

Lemma run_plugins_kept g envs i l s msg : kept (h_run_plugins (C := C) g envs i l s msg).
Proof.
  revert i s msg. induction l as [|p l IH]; intros i s msg; cbn [h_run_plugins]; [by intros ?|]. unfold eval_plugin.
  steps elsewhere fail. apply IH.
Qed.

Lemma run_logging_kept envs i l s msg : kept (h_run_logging (C := C) envs i l s msg).
Proof.
  revert i s msg. induction l as [|p l IH]; intros i s msg; cbn [h_run_logging]; [by intros ?|]. unfold eval_plugin.
  steps elsewhere fail. apply IH.
Qed.

Lemma query_plugins_kept g envs s packet padding : kept (h_ApplyQueryPlugins (C := C) g envs s packet padding).
Proof. unfold h_ApplyQueryPlugins. steps fail ltac:(keeping run_plugins_kept). Qed.

Lemma response_plugins_kept g envs s packet ttl : kept (h_ApplyResponsePlugins (C := C) g envs s packet ttl).
Proof. unfold h_ApplyResponsePlugins. steps fail ltac:(keeping run_plugins_kept). Qed.

Lemma log_with_kept rc s : kept (h_log_with cfg qe rc s).
Proof. unfold h_log_with. steps fail fail. apply run_logging_kept. Qed.

Lemma reply_kept proto connected server response s : kept (h_reply cfg qe attached proto connected server response s).
Proof. unfold h_reply, h_write, h_adjust, h_failing. steps elsewhere ltac:(first [noticed|keeping log_with_kept]). Qed.

Lemma after_answer_kept server response s : kept (h_after_answer cfg qe attached server response s).
Proof. unfold h_after_answer. steps elsewhere ltac:(first [noticed|keeping response_plugins_kept|keeping log_with_kept]). Qed.

(** Without a server there is nothing to refresh. *)
Lemma rest_kept clientProto serverProto connected onlyCached serverInfo query s :
  (∀ server s, serverInfo = Some server → kept (h_ask ewma0 cfg qe attached server query serverProto s)) →
  kept (h_rest ewma0 cfg qe attached clientProto serverProto connected onlyCached serverInfo query s).
Proof.
  intros Hask. unfold h_rest. destruct onlyCached, serverInfo as [server|]; cbn [andb];
    try pose proof (λ s, Hask server s eq_refl) as Hask';
    steps elsewhere ltac:(first [noticed|keeping Hask'|keeping after_answer_kept|keeping log_with_kept]);
    apply reply_kept.
Qed.

End Keeps.

(** The server of the query is known. *)
Section Ask.
Context (server : ServerInfo E).
Abbreviation kept := (keeps (R := Fetcher (E := E)) (registry_ok lb) more_names same_names (named (si_Name server))).

Let stays := named_stable (C := C) (E := E) (si_Name server).

Lemma force_key_update_kept : kept (h_force_key_update ewma0 cfg attached server.(si_Name)).
Proof.
  intros σ0 H0' r σ HI Hr. apply returns_ret. cbn [fst snd]. split_and!; [done..|].
  destruct (List.find _ _) as [f|] eqn:Hf; [|by eapply stays]. apply List.find_some in Hf as [_ Hf%bool_decide_eq_true].
  revert σ Hr HI. enough (kept (do! err := h_refreshServer ewma0 f.(rs_name) f.(rs_stamp) in
    match err with None => Ret false | Some _ => do! _ := notice attached 1 (notice_failure cfg (si_Name server)) in Ret true end)) as Hk.
  { intros σ Hr _. apply Hk. by eapply stays. }
  rewrite Hf. apply keeps_bind; [apply refresh_named|]. intros [e|]; [|by intros ?].
  apply notice_kept; [exact stays|intros ?; by apply update_server_ok|by intros ? ?].
Qed.

Lemma ask_kept query proto s : kept (h_ask ewma0 cfg qe attached server query proto s).
Proof.
  unfold h_ask, h_ask_dnscrypt, h_ask_doh, h_ask_odoh, h_finish, h_exchange, h_encrypt.
  steps ltac:(apply (op_kept _ stays); [solve [intros ?? Hps ?; walk fail; by apply registry_ok_eq]|])
    ltac:(first [apply (notice_kept _ stays); [intros ?; by apply update_server_ok|]|apply keeps_bind; [apply force_key_update_kept|]]);
    intros ??????; by apply returns_fails.
Qed.

End Ask.

(** The server that is chosen is known. *)
Lemma getOne_ok ps rnd1 rnd2 now :
  registry_ok lb ps →
  returns (λ x, registry_ok lb x.1 ∧ same_names ps x.1 ∧ ∀ server, x.2 = Some server → named server.(si_Name) x.1)
    (let! (si, serverInfo) := getOne ps.(px_servers) rnd1 rnd2 now in Ok (ps <| px_servers := si |>, serverInfo)).
Proof.
  intros [Hl Hi]. apply returns_bind. intros [si server] HG. apply returns_ret. cbn [fst snd].
  rewrite <-Hl in lb_ok. destruct (getOne_inv ewma0 _ _ _ _ _ _ lb_ok Hi HG) as (Hi' & Hlb & Hp).
  destruct (getOne_facts ewma0 ps.(px_servers) rnd1 rnd2 now lb_ok) as (l & x & HG' & _ & _ & Hm).
  rewrite HG' in HG. injection HG as <- <-. split_and!.
  - split; [exact Hl|done].
  - split; [|done]. intros n. unfold names. cbn in *. by rewrite Hp.
  - intros server Hs. unfold named, names. cbn. by apply list_elem_of_fmap_2, Hm.
Qed.

Lemma handler_guards clientProto serverProto query clientAddr connected start onlyCached ps :
  handles (λ _ _, True) (handler ewma0 cfg qe attached clientProto serverProto query clientAddr connected start onlyCached) ps.
Proof.
  unfold handler. destruct (_ <? _); [done|]. intros r σ HI Hr x Hx. destruct (getOne_ok _ _ _ _ HI _ Hx) as (HI' & HG & Hn).
  split_and!; [done..|]. destruct x as [σ' serverInfo]. cbn [fst snd pbind] in *.
  set (Q := λ ps : state, ∀ server, serverInfo = Some server → named server.(si_Name) ps).
  assert (stable more_names Q) as HQ by (intros ps1 ps2 Hq Hm server Hs; by eapply named_stable, Hm; apply Hq).
  eapply guards_mono; [|apply (keeps_bind _ _ _ Q)]; [done|apply query_plugins_kept; done| |exact Hn].
  intros [[s q] e]. apply rest_kept; [done|]. intros server s' -> ps' Hps.
  eapply guards_mono, ask_kept; [|by apply Hps]. intros a ps1 Hq server' [= <-]. done.
Qed.

End Registry.

(** * Overlapping queries *)

Section Overlap.
Context {C E : Type} `{MovingAverage E} (cfg : ProxyConfig (C := C)).
Implicit Types (ps : ProxyState C E).

Lemma update_server_twice name f g ps :
  (∀ x, si_Name (g x) = si_Name x) → update_server name f (update_server name g ps) = update_server name (f ∘ g) ps.
Proof.
  intros Hg. unfold update_server. cbn. rewrite <-list_fmap_compose.
  assert (∀ l : list (ServerInfo E), ((λ x, if decide (si_Name x = name) then f x else x) ∘
                     (λ x, if decide (si_Name x = name) then g x else x)) <$> l =
    (λ x, if decide (si_Name x = name) then (f ∘ g) x else x) <$> l) as ->; [|done].
  intros l. apply list_fmap_ext. intros i x _. cbn. destruct (decide (si_Name x = name)) as [<-|]; [|by rewrite decide_False].
  by rewrite decide_True.
Qed.

(** A finding: the latency of a server is measured from the last query that was sent to it, not from
    the query that was answered. When another query begins before the answer, when the first
    one began does not matter any more. *)
Theorem overlapping_latency qe1 qe2 name ps :
  notice_success cfg qe1 name (notice_begin qe2 name (notice_begin qe1 name ps)) =
  notice_success cfg qe1 name (notice_begin qe2 name ps).
Proof. unfold notice_success, notice_begin. by rewrite !update_server_twice. Qed.

End Overlap.

(** * Blocked queries *)

Section BlockedPlugins.
Context `{CodecLaws} {C E : Type}.
Context (lb : LBStrategy).
Abbreviation state := (ProxyState C E).
Implicit Types (ps : state) (s : PluginsState).

(** Every operation can be made, keeps the registry and sends nothing. *)
Definition quiet ps ps' : Prop := px_sent ps' = px_sent ps.

#[export] Instance quiet_preorder : PreOrder quiet.
Proof. split; [done|]. unfold quiet. intros a b c. congruence. Qed.

Abbreviation home := (safe (R := Fetcher (E := E)) (registry_ok lb) quiet).

Lemma home_eval {A} Φ (p : Plugin C) env s msg (k : _ → Prog _ state A) :
  (∀ w, ∃ w' s' msg' err, p.(p_Eval) env w s msg = Ok (w', s', msg', err) ∧ home Φ (k (s', msg', err))) →
  home Φ (pbind (eval_plugin p env s msg) k).
Proof.
  intros Hp F ps Hps. destruct (Hp ps.(px_world)) as (w' & s' & msg' & err & HE & Hk).
  exists (ps <| px_world := w' |>), (s', msg', err). rewrite HE. by split_and!.
Qed.

(** The plugins before the one that blocks. *)
Lemma home_passing g envs i pre post s msg name id qs addr proto Φ :
  Forall (passes name id qs addr proto) pre → pending name id qs addr proto s msg →
  (∀ i s' msg', pending name id qs addr proto s' msg' → home Φ (h_run_plugins (C := C) g envs i post s' msg')) →
  home Φ (h_run_plugins g envs i (pre ++ post) s msg).
Proof.
  intros Hpre. revert i s msg. induction Hpre as [|p pre Hp Hpre IH]; intros i s msg Hs Hpost; [by apply Hpost|].
  cbn [app h_run_plugins]. apply home_eval. intros w. destruct (Hp (envs i) w s msg Hs) as (w1 & s1 & m1 & HE & Hs1 & _).
  exists w1, s1, m1, None. split; [done|]. pose proof (pd_action _ _ _ _ _ _ _ Hs1) as Ha.
  rewrite decide_False by (rewrite Ha; done). cbn [lift pbind]. rewrite decide_True by done. by apply IH.
Qed.

(** A query that is refused: the answer can be packed. *)
Definition refused s : Prop := s.(action) = PluginsActionReject ∧ ∃ m, s.(synthResponse) = Some m ∧ msg_wf m.

Lemma home_rejecting g envs i p post s msg :
  (∀ w, ∃ w', p.(p_Eval) (envs i) w s msg = Ok (w', rejected s, msg, None)) → msg_wf msg →
  home (λ x, refused x.1.1 ∧ msg_wf x.1.2 ∧ x.2 = None) (h_run_plugins (C := C) g envs i (p :: post) s msg).
Proof.
  intros Hp Hwf. cbn [h_run_plugins]. apply home_eval. intros w. destruct (Hp w) as [w' HE].
  exists w', (rejected s), msg, None. split; [done|]. rewrite decide_True by done.
  destruct (RefusedResponseFromMessage msg _ _ _ _) as [m| | |] eqn:HR.
  { cbn. split_and!; [|done..]. split; [done|]. exists m. split; [done|]. by eapply refused_wf. }
  all: unfold RefusedResponseFromMessage in HR; destruct (EmptyResponse_ok msg Hwf) as (r & HE2 & _); rewrite HE2 in HR;
    cbn [obind] in HR; destruct (refusedCodeInResponses g); [done|]; by destruct (Questions msg).
Qed.

End BlockedPlugins.

Section Blocked.
Context `{CryptoPrims} `{CodecLaws} `{NetLib} `{WebLib} `{UnicodeTables} {Ctx : Type} `{HPKE Ctx} {E : Type} `{MovingAverage E}.
Context `{Store CachedResponse} (ewma0 : E).
Context {TN TI TC : Type} `{PrefixTrieLaws (option Ranges) TN} `{PrefixTrie unit TI} `{PrefixTrie (option nat) TC}.
Context (sha : bytes → bytes) (ReverseAddr : bytes → bytes) (ParseCIDR : bytes → Out IPNet)
        (TypeToString : Z → option bytes) (map_order : gmap bytes nat → list bytes).
Abbreviation Init := (InitPluginsGlobals (TN := TN) (TI := TI) (TC := TC) sha ReverseAddr ParseCIDR TypeToString map_order).
Context (cfg : ProxyConfig (C := St CachedResponse)) (qe : QueryEnv) (attached : nat → bool) (lb : LBStrategy) (lb_ok : lb_wf lb).
Abbreviation state := (ProxyState (St CachedResponse) E).
Abbreviation home := (safe (R := Fetcher (E := E)) (W := state) (registry_ok lb) quiet).
Implicit Types (s : PluginsState).

Lemma home_query_plugins plugins env heap names s packet msg q name zone padding :
  Init plugins env = Ok (cfg.(pc_globals), heap) → plugins.(captivePortalMap) = None → plugins.(allowNameFile) = None →
  plugins.(blockNameFile) = Some (Ok (Join names [10])) → plugins.(blockNameLog) = None → Forall zone_line names →
  Unpack packet = Ok msg → msg.(Questions) = [q] → NormalizeQName q.(qn_Name) = Ok name → ascii name →
  (2 ≤ length name)%nat → zone ∈ names → in_zone name zone → clear_suffix names name zone →
  ¬ in_zone name (str "use-application-dns.net") → s.(action) = PluginsActionContinue → s.(whitelisted) = false →
  home (λ x, refused x.1.1) (h_ApplyQueryPlugins cfg.(pc_globals) (qe_query qe) s packet padding).
Proof.
  intros HI Hc Ha Hb Hlog Hz Hu Hq Hn Hasc Hl Hzone Hin Hcs Hff Hact Hwl.
  destruct (query_plugins_blocked _ _ _ _ _ _ _ _ _ _ _ HI Hc Ha Hb Hlog Hz) as (m & pre & post & Hm & Hqp & Hpre);
    [by intros ->; set_solver|].
  pose proof (Unpack_header _ _ Hu) as [Hwf _]. unfold h_ApplyQueryPlugins. rewrite Hu. cbn [pcatch]. rewrite Hq, Hn. cbn [pcatch].
  set (s0 := s <| qName := name |> <| questionMsg := Some msg |>).
  assert (pending name msg.(Id) [q] s.(clientAddr) s.(clientProto) s0 msg) as Hpend by by constructor.
  rewrite Hqp. rewrite (proj2 (Nat.eqb_neq _ _)) by (rewrite length_app, length_cons; lia). cbn [andb].
  eapply safe_bind.
  - eapply home_passing; [by apply Hpre|exact Hpend|]. intros i s1 m1 Hs1. apply home_rejecting; [|by destruct Hs1].
    intros w. cbn [p_Eval plug new_PluginBlockName].
    destruct (PluginBlockName_rejects (qe_query qe i) {| nr_patternMatcher := m; nr_logger := None |} w s1 m1)
      as (w2 & s2 & HE & Hs2); [done|by destruct Hs1|].
    exists w2. rewrite decide_True in Hs2; [by subst s2|]. rewrite (pd_qName _ _ _ _ _ _ _ Hs1). by eapply zone_applies.
  - intros [[s1 m1] err] ([Hrej Hsyn] & Hwf1 & Herr). cbn in *. subst err.
    rewrite bool_decide_eq_false_2, andb_false_r by (cbn; congruence).
    destruct (Pack_no_panic m1 Hwf1) as [Hnp Hnf]. destruct (Pack m1); try done; by split.
Qed.

Section NoLog.
Hypothesis no_log : no_query_log cfg.

Lemma log_with_none rc s : h_log_with (E := E) cfg qe rc s = Ret tt.
Proof. unfold h_log_with. by rewrite no_log. Qed.

Lemma home_failing {A} Φ server (k : unit → Prog _ state A) :
  home Φ (k tt) → home Φ (pbind (h_failing cfg attached server) k).
Proof.
  intros Hk. destruct server; cbn [h_failing]; [|done]. unfold notice. apply safe_modify; [|done]. intros ps Hps.
  destruct (attached 3); [|done]. split; [by apply update_server_ok|done].
Qed.

Lemma home_reply proto connected server m p s :
  Pack m = Ok p → home (λ _, True) (h_reply cfg qe attached proto connected server (Some p) s).
Proof.
  intros HP. pose proof (Pack_wire _ _ HP) as (Hl & _). unfold h_reply. rewrite !log_with_none. cbn [pbind].
  destruct (valid_size (Some p)); cbn [negb]; [|by apply home_failing]. change (default [] (Some p)) with p.
  destruct (decide (proto = "udp"%string)).
  - destruct (udp_packet_total p s Hl) as [(packet & -> & Htc)|[e1 ->]]; [|done]. cbn [pcatch]. 
    destruct (HasTCFlag_total packet Htc) as [tc ->]. cbn [lift pbind]. unfold h_write, h_adjust.
    apply safe_modify; [done|]. by apply safe_modify.
  - destruct (decide (proto = "tcp"%string)); [|done]. rewrite PrefixWithSize_eq. destruct (_ >? _); cbn [pcatch].
    + by apply home_failing.
    + destruct connected; [by apply safe_modify|done].
Qed.

(** What follows a refusal. *)
Lemma home_rest clientProto serverProto connected onlyCached server query s :
  refused s → home (λ _, True) (h_rest ewma0 cfg qe attached clientProto serverProto connected onlyCached server query s).
Proof.
  intros [Hact (m & Hsyn & Hwf)]. unfold h_rest. destruct (_ || _); [done|]. rewrite decide_False by (rewrite Hact; done).
  rewrite Hsyn, log_with_none. destruct (Pack_no_panic m Hwf) as [Hnp Hnf]. destruct (Pack m) as [p|e| |] eqn:HP; try done.
  pose proof (Pack_wire _ _ HP) as [Hlen _]. cbn [pcatch].
  assert ((length (default [] (Some p)) =? 0)%nat = false) as -> by (apply Nat.eqb_neq; cbn; lia).
  rewrite andb_false_r. destruct onlyCached; [|destruct server]; by eapply home_reply.
Qed.

End NoLog.

(** The handler of a query for a name of the block list. *)
Lemma home_handler plugins env heap names clientProto serverProto query clientAddr connected start onlyCached msg q name zone :
  Init plugins env = Ok (cfg.(pc_globals), heap) → plugins.(captivePortalMap) = None → plugins.(allowNameFile) = None →
  plugins.(queryLog) = None → plugins.(blockNameFile) = Some (Ok (Join names [10])) → plugins.(blockNameLog) = None →
  Forall zone_line names → Unpack query = Ok msg → msg.(Questions) = [q] → NormalizeQName q.(qn_Name) = Ok name →
  ascii name → (2 ≤ length name)%nat → zone ∈ names → in_zone name zone → clear_suffix names name zone →
  ¬ in_zone name (str "use-application-dns.net") →
  home (λ _, True) (handler ewma0 cfg qe attached clientProto serverProto query clientAddr connected start onlyCached).
Proof.
  intros HI Hc Ha Hql Hb Hlog Hz Hu Hq Hn Hasc Hl Hzone Hin Hcs Hff.
  assert (no_query_log cfg) as Hnolog by by eapply no_logging_plugins.
  unfold handler. destruct (len query <? MinDNSPacketSize); [done|]. apply safe_op. intros F ps Hps.
  assert (lb_wf ps.(px_servers).(lbStrategy)) as Hw by by rewrite (proj1 Hps).
  destruct (getOne_facts ewma0 ps.(px_servers) (qe_rnd qe 0) (qe_rnd qe 1) (qe_now qe 0) Hw) as (l & server & HG & _).
  pose proof (getOne_ok ewma0 lb lb_ok ps (qe_rnd qe 0) (qe_rnd qe 1) (qe_now qe 0) Hps) as Hk.
  rewrite HG in Hk. cbn [obind] in Hk. destruct (Hk _ eq_refl) as [Hok _].
  eexists _, server. rewrite HG. split; [reflexivity|]. split; [exact Hok|]. split; [done|].
  eapply safe_bind; [by eapply home_query_plugins|]. intros [[s1 query1] err] Hs1. by apply home_rest.
Qed.

End Blocked.
