(* ===== verification/WorldInv.v ===== *)
(** What the plugins share while queries are handled: an invariant of the world of the
    plugins holds in every pool of handlers if it is kept by writing a line to a log, by new
    targets of the cloaking rules, and by the two plugins of the cache.

    [CacheKeys] has the keys of the cache as an instance, and the lines of the logs. *)
From S2P Require Import Prelude.
From S2P Require Import GoStrings.
From S2P Require Import TimeRanges.
From S2P Require Import Estimators.
From S2P Require Import ServerTypes.
From S2P Require Import Crypto.
From S2P Require Import DnsMsg.
From S2P Require Import DnsUtils.
From S2P Require Import ServersInfo.
From S2P Require Import XTransport.
From S2P Require Import ODoH.
From S2P Require Import ARC.
From S2P Require Import PatternMatcher.
From S2P Require Import LogLines.
From S2P Require Import Plugins.
From S2P Require Import Cache.
From S2P Require Import BlockPlugins.
From S2P Require Import RewritePlugins.
From S2P Require Import PluginChain.
From S2P Require Import Proxy.
From S2P Require Import Interleaving.
From S2P Require Import Refresher.
From S2P Require Import Handler.

(** * Invariants of the world *)

(** An invariant kept by writing fields that satisfy [F] to a log, and by new targets of
    cloaking rules. The fields are text without control characters, addresses and the names
    of types. *)
Class WorldInv `{NetLib} {C : Type} (TypeToString : Z → option bytes) (F : bytes → Prop) (P : World C → Prop) := {
  field_clean f : clean f → F f;
  field_ip ip : F (IP_String ip);
  field_type t name : TypeToString t = Some name → F name;
  inv_write env lg tsv ltsv w :
    Forall F tsv → Forall (λ f, clean f.1 ∧ F f.2) ltsv → P w → returns P (write_log env lg tsv ltsv w);
  inv_cloak w heap : P w → P (w <| w_cloak := heap |>)
}.

Create HintDb kept.

(** * Plugins *)

Section Plugins.
Context `{UnicodeTables} `{WorldInv}.
Implicit Types (w : World C) (s : PluginsState) (msg : Msg).

(** An evaluation that keeps the invariant. *)
Definition in_world (eval : World C → PluginsState → Msg → Out (Evaluated C)) : Prop :=
  ∀ w s msg, P w → returns (λ r, P r.1.1.1) (eval w s msg).

(** Follows an evaluation to its end. *)
Ltac stays :=
  unfold unchanged, answer_NXDOMAIN in *; walk ltac:(eauto with kept); cbn [fst snd] in *;
  try solve [eassumption|apply inv_cloak; eassumption|eapply returns_mono; [solve [eauto with kept]|]; intros; cbn [fst snd] in *; eauto].
Ltac evaluated := intros ????; stays.

Lemma write_fields env lg tsv ltsv w :
  Forall F tsv → Forall (λ f, clean f.1 ∧ F f.2) ltsv → P w → returns P (write_log env lg tsv ltsv w).
Proof. apply inv_write. Qed.

Lemma field_address ip : F (IP_String ip).
Proof. apply field_ip. Qed.

Lemma field_quoted f : F (StringQuote f).
Proof. apply field_clean, StringQuote_clean. Qed.

Lemma field_number n : F (Itoa n).
Proof. apply field_clean, Itoa_clean. Qed.

Lemma field_type_name t : F (type_name TypeToString t).
Proof. unfold type_name. destruct (TypeToString t) eqn:Ht; [by eapply field_type|]. by apply field_clean. Qed.

Lemma field_return_code c : F (PluginsReturnCodeToString c).
Proof. apply field_clean. destruct c; literal_clean. Qed.

Section Blocking.
Context {T : Type} `{PrefixTrie (option Ranges) T}.

Lemma log_client_in env lg s values w :
  Forall (λ f, clean f.1) values → P w → returns P (log_client env lg s values w).
Proof.
  intros Hv Hw. unfold log_client. destruct lg as [lg|]; [|by apply returns_ret]. apply returns_bind, returns_any. intros ip.
  apply inv_write; [|..|done].
  - constructor; [apply field_ip|]. rewrite <-list_fmap_compose. apply Forall_fmap, Forall_true. intros f. apply field_quoted.
  - constructor; [split; [literal_clean|apply field_ip]|]. apply Forall_fmap. eapply list.Forall_impl; [exact Hv|].
    intros f Hf. split; [done|]. apply field_quoted.
Qed.
#[local] Hint Extern 0 (returns _ (log_client _ _ _ _ _)) =>
  apply log_client_in; [repeat (apply Forall_cons_2; [cbn [fst]; literal_clean|]); apply Forall_nil_2|eassumption] : kept.

Lemma blockedNames_check_in env (bn : NameRules T) w s name alias :
  P w → returns (λ r, P r.1.1) (blockedNames_check env bn w s name alias).
Proof. intros Hw. unfold blockedNames_check. stays. Qed.
#[local] Hint Resolve blockedNames_check_in : kept.

Lemma block_name_in env (bn : option (NameRules T)) : in_world (PluginBlockName_Eval env bn).
Proof. unfold PluginBlockName_Eval. evaluated. Qed.

Lemma check_aliases_in env (bn : NameRules T) alias n answers w s :
  P w → returns (λ r, P r.1.1) (check_aliases env bn alias n answers w s).
Proof. revert n w s. induction answers as [|rr answers IH]; intros n w s Hw; cbn [check_aliases]; stays. Qed.
#[local] Hint Resolve check_aliases_in : kept.

Lemma block_name_response_in env (bn : option (NameRules T)) : in_world (PluginBlockNameResponse_Eval env bn).
Proof. unfold PluginBlockNameResponse_Eval. evaluated. Qed.

Lemma allow_name_in env (bn : NameRules T) : in_world (PluginAllowName_Eval env bn).
Proof. unfold PluginAllowName_Eval. evaluated. Qed.

Context {TI : Type} `{PrefixTrie unit TI}.

Lemma block_ip_in env (rules : IPRules TI) : in_world (PluginBlockIP_Eval env rules).
Proof. unfold PluginBlockIP_Eval. evaluated. Qed.

Lemma allowed_ip_in env (rules : IPRules TI) : in_world (PluginAllowedIP_Eval env rules).
Proof. unfold PluginAllowedIP_Eval. evaluated. Qed.

Lemma block_ipv6_in : in_world PluginBlockIPv6_Eval.
Proof. unfold PluginBlockIPv6_Eval. evaluated. Qed.

Lemma block_unqualified_in : in_world PluginBlockUnqualified_Eval.
Proof. unfold PluginBlockUnqualified_Eval. evaluated. Qed.

Lemma firefox_in : in_world PluginFirefox_Eval.
Proof. unfold PluginFirefox_Eval. evaluated. Qed.

Lemma block_undelegated_in (suffixes : TI) : in_world (PluginBlockUndelegated_Eval suffixes).
Proof. unfold PluginBlockUndelegated_Eval. evaluated. Qed.

End Blocking.

Section Rewriting.
Context `{Codec} {T : Type} `{PrefixTrie (option nat) T}.

Lemma payload_in : in_world PluginGetSetPayloadSize_Eval.
Proof. unfold PluginGetSetPayloadSize_Eval. evaluated. Qed.

Lemma query_meta_in rr : in_world (PluginQueryMeta_Eval rr).
Proof. unfold PluginQueryMeta_Eval. evaluated. Qed.

Lemma ecs_in nets env : in_world (PluginECS_Eval nets env).
Proof. unfold PluginECS_Eval. evaluated. Qed.

Lemma captive_portal_in m : in_world (PluginCaptivePortal_Eval m).
Proof. unfold PluginCaptivePortal_Eval. evaluated. Qed.

Lemma forward_in m env : in_world (PluginForward_Eval m env).
Proof. unfold PluginForward_Eval. evaluated. Qed.

Lemma cloak_in (p : PluginCloak T) env : in_world (PluginCloak_Eval p env).
Proof. unfold PluginCloak_Eval. evaluated. Qed.

Lemma dns64_in prefixes env : in_world (PluginDNS64_Eval prefixes env).
Proof. unfold PluginDNS64_Eval. evaluated. Qed.

#[local] Hint Resolve field_address field_quoted field_number field_type_name field_return_code : kept.
#[local] Hint Extern 0 (clean (str _)) => literal_clean : kept.
#[local] Hint Extern 1 (F (if _ then _ else _)) => case_match; apply field_clean; literal_clean : kept.
#[local] Hint Extern 1 (F (_ ++ _)) => apply field_clean, Forall_app_2; [apply Itoa_clean|literal_clean] : kept.
#[local] Hint Extern 0 (returns _ (write_log _ _ _ _ _)) =>
  apply write_fields; [repeat (apply Forall_cons_2; [solve [eauto with kept]|]); apply Forall_nil_2
                      |repeat (apply Forall_cons_2; [solve [cbn [fst snd]; split; eauto with kept]|]); apply Forall_nil_2|eassumption] : kept.

Lemma nx_log_in env lg : in_world (PluginNxLog_Eval TypeToString env lg).
Proof. unfold PluginNxLog_Eval. evaluated. Qed.

Lemma query_log_in env lg ignored : in_world (PluginQueryLog_Eval TypeToString env lg ignored).
Proof. unfold PluginQueryLog_Eval. evaluated. Qed.

End Rewriting.
End Plugins.

#[export] Hint Resolve block_name_in block_name_response_in allow_name_in block_ip_in allowed_ip_in
  block_ipv6_in block_unqualified_in firefox_in block_undelegated_in payload_in query_meta_in ecs_in
  captive_portal_in forward_in cloak_in dns64_in nx_log_in query_log_in : kept.

(** A plugin that keeps the invariant. *)
Definition plugin_in {C} (P : World C → Prop) (p : Plugin C) : Prop := ∀ env, in_world (P := P) (p.(p_Eval) env).

(** ** The configured plugins *)

Section Configured.
Context `{UnicodeTables} `{Codec} `{Store CachedResponse}.
Abbreviation Cache := (St CachedResponse).
Context `{WorldInv Cache}.
Context {TN TI TC : Type} `{PrefixTrie (option Ranges) TN} `{PrefixTrie unit TI} `{PrefixTrie (option nat) TC}.
Context (sha512_256 : bytes → bytes) (ReverseAddr : bytes → bytes) (ParseCIDR : bytes → Out IPNet)
        (map_order : gmap bytes nat → list bytes).
Abbreviation Init := (InitPluginsGlobals (TN := TN) (TI := TI) (TC := TC) sha512_256 ReverseAddr ParseCIDR TypeToString map_order).
Abbreviation all_in := (Forall (plugin_in P)).

Hypothesis cache_in : plugin_in P (new_PluginCache sha512_256).
Hypothesis cache_response_in : plugin_in P (new_PluginCacheResponse sha512_256).

Lemma when_in b p : plugin_in P p → all_in (when b p).
Proof. intros Hp. destruct b; [constructor; [done|constructor]|constructor]. Qed.

Lemma optional_in {A} (setting : option A) make l :
  optional setting make = Ok l → (∀ a, returns (plugin_in P) (make a)) → all_in l.
Proof.
  intros HO Hm. destruct setting as [a|]; cbn in HO; [|injection HO as <-; constructor].
  apply obind_Ok in HO as (p & Hp & [= <-]). constructor; [by apply (Hm a)|constructor].
Qed.

(** [Eval] of a plugin. *)
Ltac opened :=
  cbn [p_Eval plug
    new_PluginCaptivePortal new_PluginQueryMeta new_PluginFirefox new_PluginECS new_PluginBlockIPv6
    new_PluginGetSetPayloadSize new_PluginForward new_PluginBlockUnqualified new_PluginDNS64 new_PluginNxLog
    new_PluginQueryLog new_PluginAllowName new_PluginBlockName new_PluginBlockNameResponse new_PluginAllowedIP
    new_PluginBlockIP new_PluginBlockUndelegated new_PluginCloak new_PluginCache new_PluginCacheResponse].
Ltac one_plugin := solve [exact cache_in|exact cache_response_in|intros ?; opened; eauto with kept].
Ltac each_plugin :=
  repeat first [apply Forall_app_2|apply when_in; one_plugin|apply Forall_cons_2; [one_plugin|]|apply Forall_nil_2].
Ltac made := intros ?; walk fail; one_plugin.

(** Every list of plugins a configuration makes. *)
Lemma configured_in cfg env g heap :
  Init cfg env = Ok (g, heap) → all_in g.(queryPlugins) ∧ all_in g.(responsePlugins) ∧ all_in g.(loggingPlugins).
Proof.
  unfold InitPluginsGlobals. intros (allow & Ha & HI)%obind_Ok. apply obind_Ok in HI as (names & _ & HI).
  apply obind_Ok in HI as ([cloak heap'] & Hcl & HI). apply obind_Ok in HI as (fwd & Hf & HI).
  apply obind_Ok in HI as (aip & Hai & HI). apply obind_Ok in HI as (bip & Hbi & HI). apply obind_Ok in HI as (d64 & Hd & HI).
  destruct (parseBlockedQueryResponse _) as [[ip4 ip6] ref]. injection HI as <- _.
  apply optional_in in Ha; [|made]. apply optional_in in Hf; [|made].
  apply optional_in in Hai; [|made]. apply optional_in in Hbi; [|made].
  assert (all_in cloak) as Hc.
  { destruct (cloakFile cfg); [|injection Hcl as <- _; constructor]. apply obind_Ok in Hcl as ([c h] & _ & [= <- _]). each_plugin. }
  assert (all_in d64) as Hd64.
  { destruct (_ || _); [|injection Hd as <-; constructor]. apply obind_Ok in Hd as (p & _ & [= <-]). each_plugin. }
  split_and!; each_plugin; try done.
  - destruct (captivePortalMap cfg); each_plugin.
  - destruct (nxLog cfg); each_plugin.
  - destruct (queryLog cfg); each_plugin.
Qed.

End Configured.

(** * Handlers *)

Section Handlers.
Context `{CryptoPrims} `{Codec} `{NetLib} `{WebLib} {Ctx : Type} `{HPKE Ctx} {E : Type} `{MovingAverage E} {C : Type} (P : World C → Prop).
Context (ewma0 : E) (cfg : ProxyConfig (C := C)) (qe : QueryEnv) (attached : nat → bool).
Abbreviation state := (ProxyState C E).
Implicit Types (ps : state) (s : PluginsState).

Definition world_ok ps : Prop := P ps.(px_world).
Definition anything : state → state → Prop := λ _ _, True.
Abbreviation kept := (keeps (R := Fetcher (E := E)) world_ok anything anything (λ _, True)).

#[export] Instance anything_preorder : PreOrder anything.
Proof. done. Qed.

Lemma op_in {A B} f (k : A → Prog (Fetcher (E := E)) state B) :
  (∀ r ps, world_ok ps → returns (λ x, world_ok x.1) (f r ps)) → (∀ b, kept (k b)) → kept (pbind (atomically f) k).
Proof.
  intros Hf. apply keeps_op; [done..|]. intros r ps Hps _. eapply returns_mono; [by apply Hf|]. done.
Qed.

(** An operation that leaves the world of the plugins alone. *)
Ltac outside := apply op_in; [solve [intros ?? Hps; walk fail; exact Hps]|].
Ltac keeping lem := apply keeps_bind; [apply lem|].

Lemma notice_in {A} i f (k : unit → Prog (Fetcher (E := E)) state A) :
  (∀ ps, px_world (f ps) = px_world ps) → (∀ b, kept (k b)) → kept (pbind (notice attached i f) k).
Proof.
  intros Hf Hk. unfold notice, modify. apply op_in; [|done]. intros r ps Hps. apply returns_ret. unfold world_ok. cbn.
  destruct (attached i); [by rewrite Hf|done].
Qed.
Ltac noticed := apply notice_in; [done|].

Lemma eval_in {A} p env s msg (k : _ → Prog (Fetcher (E := E)) state A) :
  plugin_in P p → (∀ b, kept (k b)) → kept (pbind (eval_plugin p env s msg) k).
Proof.
  intros Hp Hk. apply op_in; [|done]. intros r ps Hps. apply returns_bind.
  eapply returns_mono; [by apply Hp|]. intros [[[w s'] msg'] err] Hw. by apply returns_ret.
Qed.

Lemma run_plugins_in g envs i l s msg : Forall (plugin_in P) l → kept (h_run_plugins g envs i l s msg).
Proof.
  intros Hl. revert i s msg. induction Hl as [|p l Hp Hl IH]; intros i s msg; cbn [h_run_plugins]; [by intros ?|].
  apply eval_in; [done|]. intros [[s' msg'] err]. steps outside fail. apply IH.
Qed.

Lemma run_logging_in envs i l s msg : Forall (plugin_in P) l → kept (h_run_logging envs i l s msg).
Proof.
  intros Hl. revert i s msg. induction Hl as [|p l Hp Hl IH]; intros i s msg; cbn [h_run_logging]; [by intros ?|].
  apply eval_in; [done|]. intros [[s' msg'] err]. destruct err; [by intros ?|apply IH].
Qed.

Hypothesis queries_in : Forall (plugin_in P) cfg.(pc_globals).(queryPlugins).
Hypothesis responses_in : Forall (plugin_in P) cfg.(pc_globals).(responsePlugins).
Hypothesis logging_in : Forall (plugin_in P) cfg.(pc_globals).(loggingPlugins).

Lemma query_plugins_in envs s packet padding : kept (h_ApplyQueryPlugins cfg.(pc_globals) envs s packet padding).
Proof. unfold h_ApplyQueryPlugins. steps fail ltac:(keeping run_plugins_in; [done|]). Qed.

Lemma response_plugins_in envs s packet ttl : kept (h_ApplyResponsePlugins cfg.(pc_globals) envs s packet ttl).
Proof. unfold h_ApplyResponsePlugins. steps fail ltac:(keeping run_plugins_in; [done|]). Qed.

Lemma log_with_in rc s : kept (h_log_with cfg qe rc s).
Proof. unfold h_log_with. steps fail fail. by apply run_logging_in. Qed.

Lemma refreshServer_in name stamp : kept (h_refreshServer ewma0 name stamp).
Proof. unfold h_refreshServer. steps outside fail; intros ??????; by apply returns_fails. Qed.

Lemma refresh_in : kept (h_refresh ewma0).
Proof.
  assert (∀ l live err, kept (h_refresh_loop ewma0 l live err)) as Hl.
  { induction l as [|r l IH]; intros live err; cbn [h_refresh_loop]; [by intros ?|]. keeping refreshServer_in. intros ?. apply IH. }
  unfold h_refresh. steps outside ltac:(keeping Hl).
Qed.

Lemma ask_in server query proto s : kept (h_ask ewma0 cfg qe attached server query proto s).
Proof.
  unfold h_ask, h_ask_dnscrypt, h_ask_doh, h_ask_odoh, h_force_key_update, h_finish, h_exchange, h_encrypt.
  steps outside ltac:(first [noticed|keeping refreshServer_in]); intros ??????; by apply returns_fails.
Qed.

Lemma reply_in proto connected server response s : kept (h_reply cfg qe attached proto connected server response s).
Proof. unfold h_reply, h_write, h_adjust, h_failing. steps outside ltac:(first [noticed|keeping log_with_in]). Qed.

Lemma handler_in clientProto serverProto query clientAddr connected start onlyCached :
  kept (handler ewma0 cfg qe attached clientProto serverProto query clientAddr connected start onlyCached).
Proof.
  unfold handler, h_rest, h_after_answer.
  steps outside ltac:(first [noticed|keeping query_plugins_in|keeping ask_in|keeping response_plugins_in|keeping log_with_in]);
    apply reply_in.
Qed.

End Handlers.
