(* ===== verification/CacheKeys.v ===== *)
(** plugin_cache.go among the other plugins: what the cache holds while queries are
    handled at the same time.

    Only two plugins touch the cache, and what they leave in it is stored under the key
    of its own question ([keyed]). This holds in every pool of handlers, so that a cached
    answer never belongs to a question with another key. *)
From S2P Require Import Prelude.
From S2P Require Import GoStrings.
From S2P Require Import DnsMsg.
From S2P Require Import DnsUtils.
From S2P Require Import XTransport.
From S2P Require Import ARC.
From S2P Require Import Plugins.
From S2P Require Import Cache.
From S2P Require Import PluginChain.
From S2P Require Import WorldInv.

(** * The invariant *)

Section Keyed.
Context `{StoreLaws CachedResponse} (sha512_256 : bytes → bytes).
Abbreviation Cache := (St CachedResponse).
Implicit Types (w : World Cache) (s : PluginsState) (msg : Msg).

(** What is stored under [k] is a response whose question has the key [k]. *)
Definition entry_keyed (k : bytes) (e : CachedResponse) : Prop :=
  ∃ q rest d, e.(cr_msg).(Questions) = q :: rest ∧ k = sha512_256 (key_input q d).

Definition keyed w : Prop :=
  ∀ c, w.(w_cache) = Some c → store_ok c ∧ map_Forall entry_keyed (holds c).

Lemma cache_keyed : plugin_in keyed (new_PluginCache sha512_256).
Proof.
  intros env w s msg Hw r HE. change (PluginCache_Eval sha512_256 env w s msg = Ok r) in HE. destruct (Questions msg) as [|q rest] eqn:Hq.
  { unfold PluginCache_Eval, computeCacheKey in HE. by rewrite Hq in HE. }
  destruct r as [[[w' s'] msg'] e].
  destruct (PluginCache_Eval_inv sha512_256 _ _ _ _ _ _ _ _ _ _ Hq HE) as (_ & _ & [(_ & -> & _)|(c & Hc & -> & _)]); [done|].
  destruct (Hw c Hc) as [Hok Hall]. intros c' [= <-]. split; [by apply Get_ok|].
  eapply map_Forall_submap; [by apply Get_only_evicts|done].
Qed.

Lemma cache_response_keyed : plugin_in keyed (new_PluginCacheResponse sha512_256).
Proof.
  intros env w s msg Hw r HE. change (PluginCacheResponse_Eval sha512_256 env w s msg = Ok r) in HE. destruct r as [[[w' s'] msg'] e]. cbn. destruct (cacheable msg) eqn:Hc.
  2:{ unfold PluginCacheResponse_Eval in HE. rewrite Hc in HE. by injection HE as <- _ _ _. }
  destruct (Questions msg) as [|q rest] eqn:Hq.
  { unfold PluginCacheResponse_Eval, computeCacheKey in HE. by rewrite Hc, Hq in HE. }
  destruct (PluginCacheResponse_Eval_inv sha512_256 _ _ _ _ _ _ _ _ _ _ Hq Hc HE) as (_ & [[-> _]|(c & Ho & -> & _ & ->)]); [done|].
  assert (store_ok c ∧ map_Forall entry_keyed (holds c)) as [Hok Hall].
  { destruct (w_cache w) as [c0|] eqn:Hc0; [injection Ho as ->; by apply Hw|].
    pose proof (New_spec (V := CachedResponse) (cacheSize s)) as HN. rewrite Ho in HN.
    destruct HN as (_ & ? & ->). split; [done|]. apply map_Forall_empty. }
  intros c' [= <-]. split; [by apply Add_ok|]. eapply map_Forall_submap; [by apply Add_only_evicts|].
  apply map_Forall_insert_2; [|done]. exists q, rest, s.(dnssec). by split.
Qed.

(** Logs and cloaking rules have nothing to do with the cache. *)
#[export] Instance keyed_inv `{NetLib} names : WorldInv names (λ _, True) keyed.
Proof.
  split; [done..| |done]. intros env lg tsv ltsv w _ _ Hw. unfold write_log. by walk fail.
Qed.

(** What is found in the cache was stored for the same key. *)
Lemma found_keyed env w s msg q rest w' s' msg' e :
  keyed w → msg.(Questions) = q :: rest → PluginCache_Eval sha512_256 env w s msg = Ok (w', s', msg', e) →
  s' = s ∨ ∃ x q0 rest0, x.(sd_msg).(Questions) = q0 :: rest0 ∧ x.(sd_question) = q0 ∧
    stored_key sha512_256 x = sha512_256 (key_input q s.(dnssec)) ∧
    s' = if x.(sd_expiration) <? clock env 0 then stale_answer env x s msg else fresh_answer env x s msg.
Proof.
  intros Hw Hq HE.
  destruct (PluginCache_Eval_inv sha512_256 _ _ _ _ _ _ _ _ _ _ Hq HE) as (_ & _ & [(_ & _ & ->)|(c & Hc & _ & Hs)]); [by left|].
  destruct (Hw c Hc) as [Hok Hall]. rewrite Get_value in Hs by done.
  destruct (holds c !! _) as [y|] eqn:Hy; [right|by left]. destruct (Hall _ _ Hy) as (q0 & rest0 & d & Hq0 & Hk).
  exists {| sd_msg := y.(cr_msg); sd_question := q0; sd_dnssec := d; sd_expiration := y.(expiration) |}, q0, rest0.
  split_and!; [done..|exact Hs].
Qed.

End Keyed.

(** * A finding *)

(** What is stored, and under which key, does not depend on what was asked: the
    question of the response is trusted. A server that answers a query with a response to
    another question fills the cache for that question, also for queries that would be
    sent to other servers. *)
Theorem stored_whatever_was_asked `{Store CachedResponse} (sha : bytes → bytes) env (w : World (St CachedResponse)) s msg name asked :
  PluginCacheResponse_Eval sha env w (s <| qName := name |> <| questionMsg := asked |>) msg =
  let! (w', s', msg', err) := PluginCacheResponse_Eval sha env w s msg in
  Ok (w', s' <| qName := name |> <| questionMsg := asked |>, msg', err).
Proof.
  unfold PluginCacheResponse_Eval, computeCacheKey. destruct (cacheable msg); [|done]. cbn.
  destruct (Questions msg); [done|]. cbn. destruct (w_cache w) as [c|]; [done|]. by destruct (NewStore _).
Qed.
