(* ===== verification/LogsKept.v ===== *)
(** The logs of the plugins while queries are handled at the same time: whatever the names
    in the queries and in the answers, what is written to a log is one line, of fields without
    control characters ([one_line]), which is read back as these fields. *)
From S2P Require Import Prelude.
From S2P Require Import GoStrings.
From S2P Require Import LogLines.
From S2P Require Import DnsMsg.
From S2P Require Import XTransport.
From S2P Require Import ARC.
From S2P Require Import Plugins.
From S2P Require Import Cache.
From S2P Require Import PluginChain.
From S2P Require Import WorldInv.

(** The texts that come from libraries: the addresses of clients and the names of types
    have no control character. *)
Record texts_clean `{NetLib} (TypeToString : Z → option bytes) : Prop := {
  IP_String_clean ip : clean (IP_String ip);
  TypeToString_clean t name : TypeToString t = Some name → clean name
}.

Definition logs_ok {C} (w : World C) : Prop := Forall (λ l, one_line l.2) w.(w_logs).

Lemma logs_inv `{NetLib} {C} TypeToString : texts_clean TypeToString → WorldInv TypeToString clean (logs_ok (C := C)).
Proof.
  intros [Hip Hty]. split; [done..| |done]. intros env lg tsv ltsv w Ht Hl Hw.
  eapply returns_mono; [by apply write_log_line|]. intros w' (line & Hline & ->). apply Forall_app_2; [done|]. by constructor.
Qed.

(** The cache does not write to logs. *)
Section CacheLogs.
Context `{Store CachedResponse} (sha512_256 : bytes → bytes).

Lemma cache_logs : plugin_in logs_ok (new_PluginCache sha512_256).
Proof.
  intros env w s msg Hw. cbn. unfold PluginCache_Eval, unchanged. by walk fail.
Qed.

Lemma cache_response_logs : plugin_in logs_ok (new_PluginCacheResponse sha512_256).
Proof.
  intros env w s msg Hw. cbn. unfold PluginCacheResponse_Eval, unchanged. by walk fail.
Qed.

End CacheLogs.
