(* ===== verification/Resolve.v ===== *)
(** resolve.go: the [-resolve] command, which asks the resolver about a name and
    prints what it finds. *)
From S2P Require Import Prelude.
From S2P Require Import GoStrings.
From S2P Require Import Common.
From S2P Require Import ServerTypes.
From S2P Require Import DnsMsg.
From S2P Require Import DnsUtils.
From S2P Require Import XTransport.

Definition myResolverHost : bytes := str "resolver.dnscrypt.info.".
Definition nonexistentName : bytes := str "nonexistent-zone.dnscrypt-test.".

(** What the library prints and parses: [dns.ReverseAddr], [dns.RcodeToString],
    the fields of NS and MX records, and the parameters of an HTTPS record. *)
Class RRText := {
  ReverseAddr : bytes → Out bytes;
  RcodeToString : Z → bytes;
  rr_Ns : RData → Out bytes;
  rr_Mx : RData → Out bytes;
  svcb_Value : RData → list (bytes * bytes)
}.

(** The state of a run: what was printed and the number of exchanges made. *)
Record Term := { printed : bytes; exchanges : nat }.

#[export] Instance eta_Term : Eta Term := λ t, {| printed := t.(printed); exchanges := t.(exchanges) |}.

Definition Print (s : bytes) (t : Term) : Term := t <| printed := t.(printed) ++ s |>.
Definition newline : bytes := [10].
Definition Println (s : bytes) (t : Term) : Term := Print (s ++ newline) t.

Section Resolve.
Context `{NetLib} `{RRText}.
(** [client.Exchange] at the k-th exchange, with the read timeout in seconds, and
    [dns.Id()]. *)
Context (Exchange : nat → Z → Msg → bytes → Out Msg) (new_Id : nat → Z).

(** The query: with the DO bit and, to ask the test resolver, a client subnet. *)
Definition query_msg (id : Z) (qName : bytes) (qType : Z) (sendClientSubnet : bool) : Msg :=
  let options := if sendClientSubnet then [EDNS0_SUBNET 1 24 0 (To16 [93; 184; 216; 0])] else [] in
  empty_Msg <| Id := id |> <| RecursionDesired := true |>
    <| Questions := [{| qn_Name := qName; Qtype := qType; Qclass := ClassINET |}] |>
    <| Extra := [new_OPT (u16 MaxDNSPacketSize) true options] |>.

(** The attempts left, each with twice the timeout of the one before. *)
Fixpoint query_loop (tries : nat) (timeout : Z) (msg : Msg) (server : bytes) (t : Term) : Out (Term * (Msg + error)) :=
  match tries with
  | O => Ok (t, inr (EMsg "Timeout"))
  | S tries =>
      let k := t.(exchanges) in
      let t := t <| exchanges := S k |> in
      match Exchange k timeout msg server with
      | Err ETimeout => query_loop tries (timeout * 2) msg server t
      | Err e => Ok (t, inr e)
      | Ok response => Ok (t, inl response)
      | Panic => Panic
      | Fatal => Fatal
      end
  end.

Definition resolveQuery (server qName : bytes) (qType : Z) (sendClientSubnet : bool) (t : Term)
    : Out (Term * (Msg + error)) :=
  query_loop 3 2 (query_msg (new_Id t.(exchanges)) qName qType sendClientSubnet) server t.

(** ** Answers *)

Definition of_type (qType : Z) (rr : RR) : bool := (rr.(Hdr).(Rrtype) =? qType) && (rr.(Hdr).(Class_) =? ClassINET).

(** The values of the answers of a type. *)
Fixpoint collect (qType : Z) (f : RData → Out (list bytes)) (l : list RR) : Out (list bytes) :=
  match l with
  | [] => Ok []
  | rr :: l =>
      if of_type qType rr then
        let! v := f rr.(Data) in
        let! vs := collect qType f l in
        Ok (v ++ vs)
      else collect qType f l
  end.

(** An assertion on the dynamic type of a record panics if it fails. *)
Definition as_A (d : RData) : Out (list bytes) := match d with rA ip => Ok [IP_String ip] | _ => Panic end.
Definition as_AAAA (d : RData) : Out (list bytes) := match d with rAAAA ip => Ok [IP_String ip] | _ => Panic end.
Definition as_NS (d : RData) : Out (list bytes) := let! ns := rr_Ns d in Ok [ns].
Definition as_MX (d : RData) : Out (list bytes) := let! mx := rr_Mx d in Ok [mx].
Definition as_HINFO (d : RData) : Out (list bytes) :=
  match d with rHINFO cpu os => Ok [cpu ++ str " " ++ os] | _ => Panic end.
Definition as_TXT (d : RData) : Out (list bytes) := match d with rTXT txt => Ok [Join txt (str " ")] | _ => Panic end.

Definition https_alias (d : RData) : Out (list bytes) :=
  match d with
  | rHTTPS priority target => Ok (if negb (priority =? 0) || (len target <? 2) then [] else [target])
  | _ => Panic
  end.

Definition https_info (d : RData) : Out (list bytes) :=
  match d with
  | rHTTPS priority target =>
      Ok (if (priority =? 0) || (1 <? len target) then []
          else (λ kv, str "[" ++ kv.1 ++ str "]=[" ++ kv.2 ++ str "]") <$> svcb_Value d)
  | _ => Panic
  end.

(** A list of values, or a text if there is none. *)
Definition or_none (none : bytes) (l : list bytes) : bytes := match l with [] => none | _ => Join l (str ", ") end.

(** A section of the output: its label, then what [show] prints of the response;
    nothing more after an error. *)
Definition section (label : bytes) (server qName : bytes) (qType : Z) (show : Msg → Term → Out Term) (t : Term) : Out Term :=
  let t := Print label t in
  let! (t, r) := resolveQuery server qName qType false t in
  match r with
  | inr _ => Ok t
  | inl response => show response t
  end.

(** The common case: the values of the answers, or a dash. *)
Definition show_values (qType : Z) (f : RData → Out (list bytes)) (response : Msg) (t : Term) : Out Term :=
  let! l := collect qType f response.(Answer) in
  Ok (Println (or_none (str "-") l) t).

(** ** The resolver in use *)

(** The texts of one answer of the test resolver: the address and the subnet. *)
Fixpoint resolver_texts (l : list bytes) (ip clientSubnet : bytes) : bytes * bytes :=
  match l with
  | [] => (ip, clientSubnet)
  | txt :: l =>
      if HasPrefix txt (str "Resolver IP: ") then resolver_texts l (TrimPrefix txt (str "Resolver IP: ")) clientSubnet
      else if HasPrefix txt (str "EDNS0 client subnet: ")
      then resolver_texts l ip (TrimPrefix txt (str "EDNS0 client subnet: "))
      else resolver_texts l ip clientSubnet
  end.

(** The first name of an address. *)
Fixpoint first_ptr (l : list RR) : Out (option bytes) :=
  match l with
  | [] => Ok None
  | rr :: l =>
      if of_type TypePTR rr then match rr.(Data) with rPTR ptr => Ok (Some ptr) | _ => Panic end
      else first_ptr l
  end.

(** The loop over the answers; the range was fixed when it began. An error of the
    reverse query leaves the loop. *)
Fixpoint resolvers_loop (server : bytes) (l : list RR) (res : list bytes) (clientSubnet : bytes) (t : Term)
    : Out (Term * list bytes * bytes) :=
  match l with
  | [] => Ok (t, res, clientSubnet)
  | rr :: l =>
      if negb (of_type TypeTXT rr) then resolvers_loop server l res clientSubnet t
      else
        match rr.(Data) with
        | rTXT txt =>
            let '(ip, clientSubnet) := resolver_texts txt [] clientSubnet in
            if (length ip =? 0)%nat then resolvers_loop server l res clientSubnet t
            else
              match ReverseAddr ip with
              | Ok rev =>
                  let! (t, r) := resolveQuery server rev TypePTR false t in
                  match r with
                  | inr _ => Ok (t, res, clientSubnet)
                  | inl response =>
                      let! ptr := first_ptr response.(Answer) in
                      let ip := match ptr with Some p => ip ++ str " (" ++ p ++ str ")" | None => ip end in
                      resolvers_loop server l (res ++ [ip]) clientSubnet t
                  end
              | Panic => Panic
              | Fatal => Fatal
              | Err _ => resolvers_loop server l (res ++ [ip]) clientSubnet t
              end
        | _ => Panic
        end
  end.

(** The resolver; [inr] is [os.Exit(1)], after a message whose error is left out here. *)
Definition show_resolver (server : bytes) (t : Term) : Out (Term * (bytes + unit)) :=
  let! (t, r) := resolveQuery server myResolverHost TypeTXT true t in
  match r with
  | inr _ => Ok (Print (str "Unable to resolve") t, inr tt)
  | inl response =>
      let t := Print (str "Resolver      : ") t in
      let! (t, res, clientSubnet) := resolvers_loop server response.(Answer) [] [] t in
      Ok (Println (or_none (str "-") res) t, inl clientSubnet)
  end.

(** Whether it answers for names that do not exist, validates and sends subnets. *)
Definition show_lying (clientSubnet : bytes) (response : Msg) (t : Term) : Out Term :=
  let rcode := response.(Rcode_) in
  let t := if rcode =? RcodeSuccess then Println (str "yes. That resolver returns wrong responses") t
           else if rcode =? RcodeNameError then Println (str "no") t
           else Println (str "unknown - query returned " ++ RcodeToString rcode) t in
  let t := if rcode =? RcodeNameError then
             Println (if response.(AuthenticatedData) then str "yes, the resolver supports DNSSEC"
                      else str "no, the resolver doesn't support DNSSEC") (Print (str "DNSSEC        : ") t)
           else t in
  Ok (Println (if (0 <? length clientSubnet)%nat then str "client network address is sent to authoritative servers"
               else str "ignored or selective") (Print (str "ECS           : ") t)).

(** ** The canonical name *)

(** The target of the first CNAME record. *)
Fixpoint first_cname (l : list RR) : Out (option bytes) :=
  match l with
  | [] => Ok None
  | rr :: l =>
      if of_type TypeCNAME rr then match rr.(Data) with rCNAME target => Ok (Some target) | _ => Panic end
      else first_cname l
  end.

(** The loop: the last name, and whether an error ended it. *)
Fixpoint cname_loop (n : nat) (server cname : bytes) (t : Term) : Out (Term * bytes * bool) :=
  match n with
  | O => Ok (t, cname, false)
  | S n =>
      let! (t, r) := resolveQuery server cname TypeCNAME false t in
      match r with
      | inr _ => Ok (t, cname, true)
      | inl response =>
          let! target := first_cname response.(Answer) in
          match target with
          | Some target => cname_loop n server target t
          | None => Ok (t, cname, false)
          end
      end
  end.

Definition show_cname (server name : bytes) (t : Term) : Out (Term * bytes) :=
  let t := Print (str "Canonical name: ") t in
  let! (t, cname, failed) := cname_loop 100 server name t in
  Ok (if (failed : bool) then t else Println cname t, cname).

(** ** The rest *)

Definition show_ns (response : Msg) (t : Term) : Out Term :=
  let! nss := collect TypeNS as_NS response.(Answer) in
  let rcode := response.(Rcode_) in
  let t := if rcode =? RcodeNameError then Println (str "name does not exist") t
           else if negb (rcode =? RcodeSuccess) then Print (str "server returned " ++ RcodeToString rcode) t
           else Println (or_none (str "no name servers found") nss) t in
  Ok (Println (if response.(AuthenticatedData) then str "yes" else str "no") (Print (str "DNSSEC signed : ") t)).

Definition show_mx (response : Msg) (t : Term) : Out Term :=
  let! mxs := collect TypeMX as_MX response.(Answer) in
  Ok (match mxs with
      | [] => Println (str "no mail servers found") t
      | [_] => Println (str "1 mail servers found") t
      | _ => Println (Itoa (len mxs) ++ str " mail servers found") t
      end).

Definition show_https (response : Msg) (t : Term) : Out Term :=
  let! t := show_values TypeHTTPS https_alias response t in
  show_values TypeHTTPS https_info response (Print (str "HTTPS info    : ") t).

(** The sections about the name. *)
Definition ipv4_section (server cname : bytes) : Term → Out Term :=
  section (str "IPv4 addresses: ") server cname TypeA (show_values TypeA as_A).
Definition ipv6_section (server cname : bytes) : Term → Out Term :=
  section (str "IPv6 addresses: ") server cname TypeAAAA (show_values TypeAAAA as_AAAA).
Definition ns_section (server cname : bytes) : Term → Out Term :=
  section (str "Name servers  : ") server cname TypeNS show_ns.
Definition mx_section (server cname : bytes) : Term → Out Term :=
  section (str "Mail servers  : ") server cname TypeMX show_mx.
Definition https_section (server cname : bytes) : Term → Out Term :=
  section (str "HTTPS alias   : ") server cname TypeHTTPS show_https.
Definition hinfo_section (server cname : bytes) : Term → Out Term :=
  section (str "Host info     : ") server cname TypeHINFO (show_values TypeHINFO as_HINFO).
Definition txt_section (server cname : bytes) : Term → Out Term :=
  section (str "TXT records   : ") server cname TypeTXT (show_values TypeTXT as_TXT).

Definition lying_section (server clientSubnet : bytes) : Term → Out Term :=
  section (str "Lying         : ") server nonexistentName TypeA (show_lying clientSubnet).

(** [strings.SplitN(name, ",", 2)]: a name, and the server after a comma. *)
Definition name_and_server (server name : bytes) (singleResolver : bool) : bytes * bytes * bool :=
  match IndexByte name 44 with
  | Some i => (take i name, drop (S i) name, true)
  | None => (name, server, singleResolver)
  end.

(** The address to ask, with unspecified addresses replaced by loopback ones. *)
Definition ask_address (server : bytes) : bytes * Z :=
  let '(host, port) := ExtractHostAndPort server 53 in
  (if decide (host = str "0.0.0.0") then str "127.0.0.1"
   else if decide (host = str "[::]") then str "[::1]" else host, port).

(** [Resolve]: the terminal, and whether the process exits with an error. *)
Definition Resolve (server name : bytes) (singleResolver : bool) (t : Term) : Out (Term * bool) :=
  let '(name, server, singleResolver) := name_and_server server name singleResolver in
  let '(host, port) := ask_address server in
  let server := host ++ str ":" ++ Itoa port in
  let t := Println (str "Resolving [" ++ name ++ str "] using " ++ host ++ str " port " ++ Itoa port ++ newline) t in
  let name := Fqdn name in
  let! (t, r) := show_resolver server t in
  match r with
  | inr _ => Ok (t, true)
  | inl clientSubnet =>
      let! t :=
        if (singleResolver : bool)
        then lying_section server clientSubnet t else Ok t in
      let t := Println [] t in
      let! (t, cname) := show_cname server name t in
      let t := Println [] t in
      let! t := ipv4_section server cname t in
      let! t := ipv6_section server cname t in
      let t := Println [] t in
      let! t := ns_section server cname t in
      let! t := mx_section server cname t in
      let t := Println [] t in
      let! t := https_section server cname t in
      let t := Println [] t in
      let! t := hinfo_section server cname t in
      let! t := txt_section server cname t in
      Ok (Println [] t, false)
  end.

End Resolve.

(** * Properties *)

Section ResolveProperties.
Context `{NetLib} `{RRText}.
Context (Exchange : nat → Z → Msg → bytes → Out Msg) (new_Id : nat → Z).
Implicit Types (t : Term) (server : bytes).

Lemma query_loop_spec tries timeout msg server t t' r :
  query_loop Exchange tries timeout msg server t = Ok (t', r) →
  ∃ n, (n <= tries)%nat ∧ t'.(exchanges) = (t.(exchanges) + n)%nat ∧ t'.(printed) = t.(printed) ∧
    (∀ i, (i + 1 < n)%nat → Exchange (t.(exchanges) + i)%nat (timeout * 2 ^ Z.of_nat i) msg server = Err ETimeout) ∧
    match r with
    | inl response => ∃ i, n = S i ∧ Exchange (t.(exchanges) + i)%nat (timeout * 2 ^ Z.of_nat i) msg server = Ok response
    | inr _ => n = tries ∨
        ∃ i e, n = S i ∧ e ≠ ETimeout ∧ r = inr e ∧
          Exchange (t.(exchanges) + i)%nat (timeout * 2 ^ Z.of_nat i) msg server = Err e
    end.
Proof.
  revert timeout t. induction tries as [|tries IH]; intros timeout t; cbn [query_loop].
  { intros [= <- <-]. exists 0%nat. rewrite Nat.add_0_r. split_and!; [done..|lia|by left]. }
  set (k := exchanges t). assert (∀ i, Exchange (k + S i)%nat (timeout * 2 ^ Z.of_nat (S i)) msg server =
    Exchange (S k + i)%nat (timeout * 2 * 2 ^ Z.of_nat i) msg server) as Hshift.
  { intros i. rewrite Nat2Z.inj_succ, Z.pow_succ_r by lia. f_equal; lia. }
  assert (Exchange k timeout msg server = Exchange (k + 0)%nat (timeout * 2 ^ Z.of_nat 0) msg server) as H0'
    by (rewrite Nat.add_0_r; f_equal; lia).
  destruct (Exchange k timeout msg server) as [m|e| |] eqn:Ex; try done.
  - intros [= <- <-]. exists 1%nat. cbn. split_and!; [lia|lia|done|lia|]. exists 0%nat. split; [done|]. by rewrite <-H0'.
  - destruct (decide (e = ETimeout)) as [->|He]; [|intros HR; assert (Ok (t <| exchanges := S k |>, inr e) = Ok (t', r)) as HR'
      by (by destruct e); injection HR' as <- <-; exists 1%nat; cbn; split_and!; [lia|lia|done|lia|]; right; exists 0%nat, e;
      split_and!; [done..|]; by rewrite <-H0'].
    intros HR. apply IH in HR as (n & Hn & Hk & Hp & Hto & Hr). cbn in Hk, Hp, Hto, Hr. exists (S n). fold k in Hk, Hto, Hr.
    split_and!; [lia|lia|done| |].
    + intros [|i] Hi; [by rewrite <-H0'|]. rewrite Hshift. apply Hto. lia.
    + destruct r as [m|e].
      * destruct Hr as (i & -> & Hi). exists (S i). split; [done|]. rewrite Hshift. exact Hi.
      * destruct Hr as [->|(i & e' & -> & He & Hr & Hi)]; [by left|right]. exists (S i), e'.
        split_and!; [done..|]. rewrite Hshift. exact Hi.
Qed.

(** A query of the command is sent at most three times, with timeouts of 2, 4
    and 8 seconds; it is sent again only after a timeout; the first answer, or the first
    error that is no timeout, is the result. *)
Theorem resolveQuery_spec server qName qType subnet t t' r :
  resolveQuery Exchange new_Id server qName qType subnet t = Ok (t', r) →
  let msg := query_msg (new_Id t.(exchanges)) qName qType subnet in
  ∃ n, (n <= 3)%nat ∧ t'.(exchanges) = (t.(exchanges) + n)%nat ∧
    (∀ i, (i + 1 < n)%nat → Exchange (t.(exchanges) + i)%nat (2 * 2 ^ Z.of_nat i) msg server = Err ETimeout) ∧
    match r with
    | inl response => ∃ i, n = S i ∧ Exchange (t.(exchanges) + i)%nat (2 * 2 ^ Z.of_nat i) msg server = Ok response
    | inr _ => n = 3%nat ∨
        ∃ i e, n = S i ∧ e ≠ ETimeout ∧ r = inr e ∧ Exchange (t.(exchanges) + i)%nat (2 * 2 ^ Z.of_nat i) msg server = Err e
    end.
Proof.
  intros (n & Hn & Hk & _ & Hto & Hr)%query_loop_spec. by exists n.
Qed.

(** A record whose data have the type its header says. *)
Definition rr_typed (rr : RR) : Prop :=
  let ty := rr.(Hdr).(Rrtype) in
  (ty = TypeA → ∃ ip, rr.(Data) = rA ip) ∧ (ty = TypeAAAA → ∃ ip, rr.(Data) = rAAAA ip) ∧
  (ty = TypeCNAME → ∃ n, rr.(Data) = rCNAME n) ∧ (ty = TypePTR → ∃ n, rr.(Data) = rPTR n) ∧
  (ty = TypeHINFO → ∃ c o, rr.(Data) = rHINFO c o) ∧ (ty = TypeTXT → ∃ l, rr.(Data) = rTXT l) ∧
  (ty = TypeHTTPS → ∃ p n, rr.(Data) = rHTTPS p n) ∧
  (ty = TypeNS → ∃ n, rr_Ns rr.(Data) = Ok n) ∧ (ty = TypeMX → ∃ n, rr_Mx rr.(Data) = Ok n).

(** What the library guarantees: an exchange returns an error or a response whose
    records are of their types, and [ReverseAddr] does not panic. *)
Definition typed_exchange : Prop :=
  (∀ k timeout m server, (∃ e, Exchange k timeout m server = Err e) ∨
     ∃ r, Exchange k timeout m server = Ok r ∧ Forall rr_typed r.(Answer)) ∧
  ∀ ip, ReverseAddr ip ≠ Panic ∧ ReverseAddr ip ≠ Fatal.

Context (HT : typed_exchange).

Lemma resolveQuery_total server qName qType subnet t :
  ∃ t' r, resolveQuery Exchange new_Id server qName qType subnet t = Ok (t', r) ∧
    match r with inl response => Forall rr_typed response.(Answer) | inr _ => True end.
Proof.
  unfold resolveQuery. generalize (query_msg (new_Id (exchanges t)) qName qType subnet). intros msg. generalize 2, 3%nat. intros timeout n. revert t timeout.
  induction n as [|n IH]; intros t timeout; cbn [query_loop]; [by eexists _, (inr _)|].
  destruct (proj1 HT (exchanges t) timeout msg server) as [[e ->]|(r & -> & Hr)].
  - destruct e; [apply IH|by eexists _, (inr _)..].
  - by eexists _, (inl r).
Qed.

Lemma of_type_eq qType rr : of_type qType rr = true → rr.(Hdr).(Rrtype) = qType.
Proof. unfold of_type. by intros [?%Z.eqb_eq _]%andb_true_iff. Qed.

Lemma collect_total qType f l :
  (∀ rr, rr_typed rr → rr.(Hdr).(Rrtype) = qType → ∃ v, f rr.(Data) = Ok v) → Forall rr_typed l → ∃ vs, collect qType f l = Ok vs.
Proof.
  intros Hf. induction 1 as [|rr l Hr _ [vs IH]]; cbn [collect]; [by eexists|].
  destruct (of_type qType rr) eqn:E; [|by eauto]. destruct (Hf rr Hr (of_type_eq _ _ E)) as [v ->]. cbn. rewrite IH. by eexists.
Qed.

(** [show] prints any response whose records are of their types. *)
Definition shows (show : Msg → Term → Out Term) : Prop :=
  ∀ m t, Forall rr_typed m.(Answer) → ∃ t', show m t = Ok t'.

Lemma section_total label server qName qType show t :
  shows show → ∃ t', section Exchange new_Id label server qName qType show t = Ok t'.
Proof.
  intros Hs. unfold section. destruct (resolveQuery_total server qName qType false (Print label t)) as (t1 & r & -> & Hr).
  cbn [obind]. destruct r as [m|e]; [by apply Hs|by eexists].
Qed.

Lemma show_values_shows qType f :
  (∀ rr, rr_typed rr → rr.(Hdr).(Rrtype) = qType → ∃ v, f rr.(Data) = Ok v) → shows (show_values qType f).
Proof. intros Hf m t Hm. unfold show_values. destruct (collect_total qType f _ Hf Hm) as [vs ->]. by eexists. Qed.

Lemma show_ns_shows : shows show_ns.
Proof.
  intros m t Hm. unfold show_ns. destruct (collect_total TypeNS as_NS (Answer m)) as [vs ->]; [|done|by eexists].
  intros rr (_ & _ & _ & _ & _ & _ & _ & Hn & _) Ht. unfold as_NS. destruct (Hn Ht) as [n ->]. by eexists.
Qed.

Lemma show_mx_shows : shows show_mx.
Proof.
  intros m t Hm. unfold show_mx. destruct (collect_total TypeMX as_MX (Answer m)) as [vs ->]; [|done|by eexists].
  intros rr (_ & _ & _ & _ & _ & _ & _ & _ & Hx) Ht. unfold as_MX. destruct (Hx Ht) as [n ->]. by eexists.
Qed.

Lemma show_https_shows : shows show_https.
Proof.
  assert (∀ f : RData → Out (list bytes), (∀ p n, ∃ v, f (rHTTPS p n) = Ok v) → ∀ rr, rr_typed rr → rr.(Hdr).(Rrtype) = TypeHTTPS → ∃ v, f rr.(Data) = Ok v) as Hf.
  { intros f Hf rr (_ & _ & _ & _ & _ & _ & Hh & _) Ht. destruct (Hh Ht) as (p & n & ->). apply Hf. }
  intros m t Hm. unfold show_https.
  destruct (show_values_shows TypeHTTPS https_alias (Hf https_alias (λ p n, ex_intro _ _ eq_refl)) m t Hm) as [t1 ->]. cbn [obind].
  by apply (show_values_shows TypeHTTPS https_info (Hf https_info (λ p n, ex_intro _ _ eq_refl))).
Qed.

Lemma first_ptr_total l : Forall rr_typed l → ∃ p, first_ptr l = Ok p.
Proof.
  induction 1 as [|rr l Hr _ IH]; cbn [first_ptr]; [by eexists|]. destruct (of_type TypePTR rr) eqn:E; [|done].
  destruct Hr as (_ & _ & _ & Hp & _). destruct (Hp (of_type_eq _ _ E)) as [n ->]. by eexists.
Qed.

Lemma first_cname_total l : Forall rr_typed l → ∃ p, first_cname l = Ok p.
Proof.
  induction 1 as [|rr l Hr _ IH]; cbn [first_cname]; [by eexists|]. destruct (of_type TypeCNAME rr) eqn:E; [|done].
  destruct Hr as (_ & _ & Hc & _). destruct (Hc (of_type_eq _ _ E)) as [n ->]. by eexists.
Qed.

Lemma resolvers_loop_total server l res subnet t :
  Forall rr_typed l → ∃ t' res' subnet', resolvers_loop Exchange new_Id server l res subnet t = Ok (t', res', subnet').
Proof.
  intros Hl. revert res subnet t. induction Hl as [|rr l Hr _ IH]; intros res subnet t; cbn [resolvers_loop]; [by eauto|].
  destruct (of_type TypeTXT rr) eqn:E; cbn [negb]; [|apply IH].
  destruct Hr as (_ & _ & _ & _ & _ & Ht & _). destruct (Ht (of_type_eq _ _ E)) as [txt ->].
  destruct (resolver_texts txt [] subnet) as [ip subnet1]. destruct (length ip =? 0)%nat; [apply IH|].
  destruct (proj2 HT ip) as [Hp Hf]. destruct (ReverseAddr ip) as [rev|e| |]; [|apply IH|done..].
  destruct (resolveQuery_total server rev TypePTR false t) as (t1 & r & -> & Hr). cbn [obind].
  destruct r as [m|e]; [|by eauto]. destruct (first_ptr_total _ Hr) as [p ->]. cbn [obind]. apply IH.
Qed.

Lemma show_resolver_total server t : ∃ t' r, show_resolver Exchange new_Id server t = Ok (t', r).
Proof.
  unfold show_resolver. destruct (resolveQuery_total server myResolverHost TypeTXT true t) as (t1 & r & -> & Hr).
  cbn [obind]. destruct r as [m|e]; [|by eauto].
  destruct (resolvers_loop_total server (Answer m) [] [] (Print (str "Resolver      : ") t1) Hr) as (t2 & res & subnet & ->). by eauto.
Qed.

(** The names a chain of CNAME records leads to, each asked in turn. *)
Inductive cname_chain (server : bytes) : nat → bytes → bytes → Prop :=
  | chain_nil c : cname_chain server 0 c c
  | chain_cons k c target c' t t1 response :
      resolveQuery Exchange new_Id server c TypeCNAME false t = Ok (t1, inl response) →
      first_cname response.(Answer) = Ok (Some target) → cname_chain server k target c' → cname_chain server (S k) c c'.

Lemma cname_loop_total n server c t :
  ∃ t' c' failed k, cname_loop Exchange new_Id n server c t = Ok (t', c', failed) ∧ (k <= n)%nat ∧ cname_chain server k c c' ∧
    (failed = false → k = n ∨
       ∃ t1 t2 response, resolveQuery Exchange new_Id server c' TypeCNAME false t1 = Ok (t2, inl response) ∧
         first_cname response.(Answer) = Ok None).
Proof.
  revert c t. induction n as [|n IH]; intros c t; cbn [cname_loop].
  { exists t, c, false, 0%nat. split_and!; [done..|constructor|by left]. }
  destruct (resolveQuery_total server c TypeCNAME false t) as (t1 & r & HQ & Hr). rewrite HQ. cbn [obind].
  destruct r as [m|e]; [|exists t1, c, true, 0%nat; split_and!; [done|lia|constructor|done]].
  destruct (first_cname_total _ Hr) as [p Hp]. rewrite Hp. cbn [obind]. destruct p as [target|].
  - destruct (IH target t1) as (t' & c' & failed & k & HL & Hk & Hc & Hf). exists t', c', failed, (S k).
    split_and!; [done|lia|by econstructor|]. intros Hfl. destruct (Hf Hfl) as [->|?]; [by left|by right].
  - exists t1, c, false, 0%nat. split_and!; [done|lia|constructor|]. intros _. right. by exists t, t1, m.
Qed.

(** The canonical name that is printed is the end of a chain of CNAME records
    from the name asked for: the last name has no CNAME record, or the chain has a
    hundred of them. *)
Theorem show_cname_spec server name t t' cname :
  show_cname Exchange new_Id server name t = Ok (t', cname) →
  ∃ k, (k <= 100)%nat ∧ cname_chain server k name cname ∧
    (t'.(printed) = t.(printed) ++ str "Canonical name: " ∨
     t'.(printed) = t.(printed) ++ str "Canonical name: " ++ cname ++ newline ∧
     (k = 100%nat ∨ ∃ t1 t2 response, resolveQuery Exchange new_Id server cname TypeCNAME false t1 = Ok (t2, inl response) ∧
        first_cname response.(Answer) = Ok None)).
Proof.
  unfold show_cname. intros ([[t1 c1] f1] & HL & [= <- <-])%obind_Ok.
  destruct (cname_loop_total 100 server name (Print (str "Canonical name: ") t)) as (t2 & c2 & f2 & k & HL2 & Hk & Hc & Hf).
  assert (Ok (t1, c1, f1) = Ok (t2, c2, f2)) as [= -> -> ->] by congruence.
  assert (printed t2 = printed t ++ str "Canonical name: ") as Hp.
  { change (printed t ++ str "Canonical name: ") with (printed (Print (str "Canonical name: ") t)).
    revert HL. generalize (Print (str "Canonical name: ") t). generalize name. clear. intros c t0.
    generalize 100%nat. intros n. revert c t0. induction n as [|n IH]; intros c t0; cbn [cname_loop]; [by intros [= <- _ _]|].
    intros ([t1 r] & HQ & HR)%obind_Ok. apply query_loop_spec in HQ as (_ & _ & _ & Hp & _).
    destruct r as [m|e]; [|by injection HR as <- _ _]. apply obind_Ok in HR as ([target|] & _ & HR); [|by injection HR as <- _ _].
    rewrite (IH _ _ HR). exact Hp. }
  exists k. split_and!; [done..|]. destruct f2; [by left|right]. split; [|by apply Hf].
  cbn. rewrite Hp, <-app_assoc. done.
Qed.


End ResolveProperties.

(** * Concrete runs *)

Section ResolveExamples.
#[local] Instance text_net : NetLib := {| net_ParseIP s := s; IP_String ip := ip |}.
#[local] Instance no_text : RRText := {|
  ReverseAddr _ := Err ETimeout; RcodeToString _ := str "NXDOMAIN"; rr_Ns _ := Ok []; rr_Mx _ := Ok []; svcb_Value _ := [] |}.

(** The first exchange times out; [www.example.] is an alias of [host.example.]. *)
Definition alias : RR :=
  {| Hdr := inet (str "www.example.") TypeCNAME 60; Data := rCNAME (str "host.example.") |}.

Definition dns_example (k : nat) (_ : Z) (m : Msg) (_ : bytes) : Out Msg :=
  if (k =? 0)%nat then Err ETimeout
  else
    match m.(Questions) with
    | [q] => if bool_decide (q.(qn_Name) = str "www.example.") && (q.(Qtype) =? TypeCNAME)
             then Ok (empty_Msg <| Answer := [alias] |>) else Ok empty_Msg
    | _ => Ok empty_Msg
    end.

Definition blank : Term := {| printed := []; exchanges := 0 |}.

Lemma dns_example_typed : typed_exchange dns_example.
Proof.
  split; [|by split]. intros k timeout m server. unfold dns_example. destruct (k =? 0)%nat; [left; by eexists|right].
  assert (Forall rr_typed (Answer empty_Msg)) as Hnil by apply Forall_nil_2.
  destruct (Questions m) as [|q [|q' l]]; [by eexists| |by eexists].
  destruct (_ && _); [|by eexists]. eexists. split; [reflexivity|]. apply Forall_singleton.
  unfold rr_typed. cbn. split_and!; try done. by eexists.
Qed.

Lemma resolveQuery_spec_wit :
  ∃ t' r, resolveQuery dns_example (λ _, 7) (str "127.0.0.1:53") (str "a.") TypeA false blank = Ok (t', inl r) ∧
    ∃ n, (n <= 3)%nat ∧ t'.(exchanges) = (0 + n)%nat.
Proof.
  destruct (resolveQuery dns_example (λ _, 7) (str "127.0.0.1:53") (str "a.") TypeA false blank) as [[t' r]| | |] eqn:E;
    try (vm_compute in E; discriminate E).
  destruct (resolveQuery_spec dns_example (λ _, 7) _ _ _ _ _ _ _ E) as (n & Hn & Hk & _).
  destruct r as [m|e]; [|vm_compute in E; discriminate E]. exists t', m. split; [reflexivity|]. exists n. split; [exact Hn|exact Hk].
Defined.

Lemma show_cname_spec_wit :
  ∃ t' c, show_cname dns_example (λ _, 7) (str "127.0.0.1:53") (str "www.example.") blank = Ok (t', c) ∧
    ∃ k, (k <= 100)%nat ∧ cname_chain dns_example (λ _, 7) (str "127.0.0.1:53") k (str "www.example.") c.
Proof.
  destruct (show_cname dns_example (λ _, 7) (str "127.0.0.1:53") (str "www.example.") blank) as [[t' c]| | |] eqn:E;
    try (vm_compute in E; discriminate E).
  destruct (show_cname_spec dns_example (λ _, 7) dns_example_typed _ _ _ _ _ E) as (k & Hk & Hc & _).
  exists t', c. split; [reflexivity|]. exists k. split; [exact Hk|exact Hc].
Defined.


End ResolveExamples.
