(* ===== verification/App.v ===== *)
(** The program as a whole (main.go, pidfile.go, logger.go, the search of the
    configuration file in config.go): [AppMain] loads the
    configuration, writes the PID file, makes the plugins from the settings and
    starts the proxy. From the moment clients are accepted the program is a pool: the first refresh
    and the background loops, and one goroutine for each query that arrives. *)
From Stdlib Require Import QArith.
From S2P Require Import Prelude.
From S2P Require Import GoStrings.
From S2P Require Import Common.
From S2P Require Import LogLines.
From S2P Require Import TimeRanges.
From S2P Require Import Estimators.
From S2P Require Import ServerTypes.
From S2P Require Import Crypto.
From S2P Require Import Filepath.
From S2P Require Import PatternMatcher.
From S2P Require Import DnsMsg.
From S2P Require Import DnsUtils.
From S2P Require Import ServersInfo.
From S2P Require Import XTransport.
From S2P Require Import Transport.
From S2P Require Import ODoH.
From S2P Require Import Routes.
From S2P Require Import ARC.
From S2P Require Import Plugins.
From S2P Require Import Cache.
From S2P Require Import BlockPlugins.
From S2P Require Import RewritePlugins.
From S2P Require Import PluginChain.
From S2P Require Import Proxy.
From S2P Require Import Sources.
From S2P Require Import Sockets.
From S2P Require Import NetProbe.
From S2P Require Import Config.
From S2P Require Import Startup.
From S2P Require Import Interleaving.
From S2P Require Import Refresher.
From S2P Require Import Handler.
From S2P Require Import WorldInv.
From S2P Require Import CacheKeys.
From S2P Require Import LogsKept.

(** * The configuration file *)

(** The file system as the search sees it: the error of [os.Stat] on a name in a
    working directory, the absolute path of the executable, the errors of [os.Chdir] and
    [os.Getwd]. *)
Record SearchEnv := {
  fe_Stat : bytes → bytes → option error;
  fe_Executable : Out bytes;
  fe_Chdir : bytes → option error;
  fe_Getwd : option error
}.

(** [cdLocal]: the new working directory; failures are only logged. *)
Definition cdLocal (env : SearchEnv) (cwd : bytes) : bytes :=
  match env.(fe_Executable) with
  | Ok exe => match env.(fe_Chdir) (Dir exe) with None => Dir exe | Some _ => cwd end
  | _ => cwd
  end.

(** [findConfigFile]: the path, and the working directory it leaves. *)
Definition findConfigFile (env : SearchEnv) (configFile cwd : bytes) : Out (bytes * bytes) :=
  let! cwd :=
    if decide (env.(fe_Stat) cwd configFile = Some not_exist) then
      let cwd := cdLocal env cwd in
      match env.(fe_Stat) cwd configFile with Some e => Err e | None => Ok cwd end
    else Ok cwd in
  match env.(fe_Getwd) with
  | Some e => Err e
  | None => if IsAbs configFile then Ok (configFile, cwd) else Ok (path_Join cwd configFile, cwd)
  end.

(** The start of [ConfigLoad]: [decode] is [toml.DecodeFile] into [newConfig]. *)
Definition read_config (env : SearchEnv) (decode : bytes → Out (Config * MetaData)) (configFile cwd : bytes)
    : Out (Config * MetaData) :=
  let! (found, _) := or_error (EMsg "Unable to load the configuration file") (findConfigFile env configFile cwd) in
  decode found.

(** The file is looked for in the working directory, and only if it is not there in
    that of the executable; the path returned is absolute, so that the change of directory made
    later does not matter. *)
Theorem findConfigFile_spec env f cwd found cwd' :
  findConfigFile env f cwd = Ok (found, cwd') → IsAbs cwd = true → (∀ exe, env.(fe_Executable) = Ok exe → IsAbs exe = true) →
  IsAbs found = true ∧ IsAbs cwd' = true ∧
  (found = f ∨ found = path_Join cwd' f) ∧
  (cwd' = cwd ∧ env.(fe_Stat) cwd f ≠ Some not_exist ∨
   env.(fe_Stat) cwd f = Some not_exist ∧ cwd' = cdLocal env cwd ∧ env.(fe_Stat) cwd' f = None).
Proof.
  unfold findConfigFile. intros (d & Hd & HF)%obind_Ok Hc He. destruct (fe_Getwd env); [done|].
  assert (IsAbs (cdLocal env cwd) = true) as Hl.
  { unfold cdLocal. destruct (fe_Executable env) as [exe| | |] eqn:Hx; try done.
    destruct (fe_Chdir env _); [done|]. specialize (He _ eq_refl). apply Clean_abs. by apply dir_abs. }
  assert (IsAbs d = true ∧ (d = cwd ∧ env.(fe_Stat) cwd f ≠ Some not_exist ∨
    env.(fe_Stat) cwd f = Some not_exist ∧ d = cdLocal env cwd ∧ env.(fe_Stat) d f = None)) as [Ha Hcase].
  { destruct (decide _) as [Hs|Hs]; [|injection Hd as <-; auto].
    destruct (fe_Stat env (cdLocal env cwd) f) eqn:Hs'; [done|]. injection Hd as <-. auto. }
  destruct (IsAbs f) eqn:Hf; injection HF as <- <-; split_and!; auto. by apply path_Join_abs.
Qed.

(** * The PID file *)

(** The flag [-pidfile] (nil before the flags are made), the identifier of the
    process and the errors of the calls. *)
Record PidEnv := {
  pidFile : option bytes;
  pe_Getpid : Z;
  pe_MkdirAll : option error;
  pe_WriteFile : option error;
  pe_Remove : option error
}.

(** [safefile.WriteFile] replaces the file at once or leaves it. *)
Definition PidFileCreate (env : PidEnv) (now : Z) (files : Files) : Files * option error :=
  match env.(pidFile) with
  | None | Some [] => (files, None)
  | Some f =>
      match env.(pe_MkdirAll) with
      | Some e => (files, Some e)
      | None =>
          match env.(pe_WriteFile) with
          | Some e => (files, Some e)
          | None => (<[f := (Itoa env.(pe_Getpid), now)]> files, None)
          end
      end
  end.

Definition PidFileRemove (env : PidEnv) (files : Files) : Files * option error :=
  match env.(pidFile) with
  | None | Some [] => (files, None)
  | Some f =>
      match env.(pe_Remove), files !! f with
      | Some e, _ => (files, Some e)
      | None, None => (files, Some not_exist)
      | None, Some _ => (delete f files, None)
      end
  end.

(** [App.Stop]. *)
Definition App_Stop (env : PidEnv) (files : Files) : Files := (PidFileRemove env files).1.

(** * Log files *)

Inductive FileMode := Regular | Directory | Special.
Inductive Writer :=
  | Stdout
  | AppendTo (f : bytes)
  | Rotating (maxSize maxAge maxBackups : Z) (f : bytes).

Record LogEnv := { le_Stat : bytes → option FileMode; le_OpenFile : bytes → option error }.

Definition Logger (env : LogEnv) (logMaxSize logMaxAge logMaxBackups : Z) (fileName : bytes) : Out Writer :=
  if decide (fileName = str "/dev/stdout") then Ok Stdout
  else
    match env.(le_Stat) fileName with
    | Some Directory => Fatal
    | Some Special => match env.(le_OpenFile) fileName with Some _ => Fatal | None => Ok (AppendTo fileName) end
    | Some Regular | None => Ok (Rotating logMaxSize logMaxAge logMaxBackups fileName)
    end.

(** * The plugins of the settings *)

(** A plugin reads its file if one is configured. *)
Definition rules_file (read : bytes → Out bytes) (f : bytes) : option (Out bytes) :=
  if (length f =? 0)%nat then None else Some (read f).

Definition rules_log (r : RulesConfig) : option LogConfig :=
  if (length r.(LogFile) =? 0)%nat then None else Some {| lg_file := r.(LogFile); lg_format := r.(Format) |}.

(** What [InitPluginsGlobals] and the [Init] of the plugins read of the proxy. *)
Definition plugins_config (read : bytes → Out bytes) (captive : option CaptivePortalMap) (s : Settings) : PluginsConfig := {|
  captivePortalMap := captive;
  queryMeta := s.(s_queryMeta);
  allowNameFile := rules_file read s.(s_allowName).(File);
  allowNameLog := rules_log s.(s_allowName);
  PluginChain.ednsClientSubnets := s.(s_ednsClientSubnets);
  blockNameFile := rules_file read s.(s_blockName).(File);
  blockNameLog := rules_log s.(s_blockName);
  pluginBlockIPv6 := s.(s_pluginBlockIPv6);
  cloakFile := rules_file read s.(s_cloakFile);
  cloakTTL := s.(s_cloakTTL);
  cloakedPTR := s.(s_cloakedPTR);
  cache := s.(s_cache);
  forwardFile := rules_file read s.(s_forwardFile);
  pluginBlockUnqualified := s.(s_pluginBlockUnqualified);
  pluginBlockUndelegated := s.(s_pluginBlockUndelegated);
  nxLog := if (length s.(s_nxLog).(nx_File) =? 0)%nat then None else Some {| lg_file := s.(s_nxLog).(nx_File); lg_format := s.(s_nxLog).(nx_Format) |};
  allowedIPFile := rules_file read s.(s_allowedIP).(File);
  allowedIPLog := rules_log s.(s_allowedIP);
  blockIPFile := rules_file read s.(s_blockIP).(File);
  blockIPLog := rules_log s.(s_blockIP);
  dns64Resolvers := s.(s_dns64Resolvers);
  dns64Prefixes := s.(s_dns64Prefixes);
  queryLog := if (length s.(s_queryLog).(ql_File) =? 0)%nat then None else Some {| lg_file := s.(s_queryLog).(ql_File); lg_format := s.(s_queryLog).(ql_Format) |};
  queryLogIgnoredQtypes := s.(s_queryLog).(IgnoredQtypes);
  allWeeklyRanges := s.(s_allWeeklyRanges);
  listenAddresses := s.(s_listenAddresses);
  blockedQueryResponse := s.(s_blockedQueryResponse)
|}.

(** The log files the plugins open, in the order of their initialisation. *)
Definition log_names (s : Settings) : list bytes :=
  let of_rules r := if (length r.(File) =? 0)%nat then [] else [r.(LogFile)] in
  filter (λ f, f ≠ [])
    (of_rules s.(s_allowName) ++ of_rules s.(s_blockName) ++ [s.(s_nxLog).(nx_File)] ++ of_rules s.(s_allowedIP) ++
     of_rules s.(s_blockIP) ++ [s.(s_queryLog).(ql_File)]).

Fixpoint open_loggers (env : LogEnv) (s : Settings) (l : list bytes) : Out (list Writer) :=
  match l with
  | [] => Ok []
  | f :: l =>
      let! w := Logger env s.(s_logMaxSize) s.(s_logMaxAge) s.(s_logMaxBackups) f in
      let! ws := open_loggers env s l in
      Ok (w :: ws)
  end.

(** * [AppMain] *)

(** What the start gets from outside: the PID file and its time, the log files, the
    files of rules, what the initialisation of the plugins sees of the world, the random
    key, and the error of the notification to the service manager. *)
Record AppEnv := {
  ae_pid : PidEnv;
  ae_now : Z;
  ae_log : LogEnv;
  ae_ReadFile : bytes → Out bytes;
  ae_plugins : PEnv;
  ae_random : Out bytes;
  ae_notify : option error
}.

(** The proxy once it serves. *)
Record App (PublicKey E C : Type) := {
  app_settings : Settings;
  app_proc : Proc;
  app_servers : list Server;
  app_loggers : list Writer;
  app_globals : PluginsGlobals C;
  app_cloak : gmap nat CloakedName;
  app_keys : ProxyKeys;
  app_estimator : QuestionSizeEstimator E;
  app_running : Running PublicKey E
}.
Arguments app_settings {_ _ _} _. Arguments app_proc {_ _ _} _. Arguments app_servers {_ _ _} _. Arguments app_loggers {_ _ _} _.
Arguments app_globals {_ _ _} _. Arguments app_cloak {_ _ _} _. Arguments app_keys {_ _ _} _.
Arguments app_estimator {_ _ _} _. Arguments app_running {_ _ _} _.

#[export] Instance eta_App {K E C} : Eta (App K E C) := λ a, {|
  app_settings := a.(app_settings); app_proc := a.(app_proc); app_servers := a.(app_servers); app_loggers := a.(app_loggers);
  app_globals := a.(app_globals); app_cloak := a.(app_cloak); app_keys := a.(app_keys); app_estimator := a.(app_estimator);
  app_running := a.(app_running) |}.

Section AppMain.
Context {PublicKey Signature : Type} `{Minisign PublicKey Signature} `{StampLib}.
Context `{CryptoPrims} `{Codec} `{NetLib} `{WebLib} `{UnicodeTables} {E : Type} `{MovingAverage E} `{Store CachedResponse} (ewma0 : E).
Context {TN TI TC : Type} `{PrefixTrie (option Ranges) TN} `{PrefixTrie unit TI} `{PrefixTrie (option nat) TC}.
Context (sha : bytes → bytes) (ReverseAddr : bytes → bytes) (ParseCIDR : bytes → Out IPNet)
        (TypeToString : Z → option bytes) (map_order : gmap bytes nat → list bytes).
Context (fetch : Running PublicKey E → Fetcher (E := E)).
Abbreviation CacheT := (St CachedResponse).

(** [AppMain] from the result of [ConfigLoad], until clients are accepted; [None] if the
    process exits after a command. An error of the PID file is only logged. A log file that
    cannot be used and an error of a plugin end the process. *)
Definition launch (env : AppEnv) (loaded : Out (ConfigResult PublicKey E)) : Out (option (App PublicKey E CacheT)) :=
  let! r := or_fatal loaded in
  match r with
  | Ready s p sources files x g =>
      let '(files, _) := PidFileCreate env.(ae_pid) env.(ae_now) files in
      let! loggers := open_loggers env.(ae_log) s (log_names s) in
      let! (globals, cloak) :=
        or_fatal (InitPluginsGlobals (TN := TN) (TI := TI) (TC := TC) sha ReverseAddr ParseCIDR TypeToString map_order
                    (plugins_config env.(ae_ReadFile) p.(p_captivePortalMap) s) env.(ae_plugins)) in
      let! (sk, pk, est, st) := accept ewma0 s env.(ae_random) sources files x g in
      let '(servers, p) := startAcceptingClients p in
      Ok (Some {| app_settings := s; app_proc := p; app_servers := servers; app_loggers := loggers; app_globals := globals; app_cloak := cloak;
                  app_keys := {| ephemeralKeys := s.(s_ephemeralKeys); proxySecretKey := sk; proxyPublicKey := pk |};
                  app_estimator := est; app_running := st |})
  | _ => Ok None
  end.

(** [AppMain], when no query arrives before the end of the first refresh; [None] also if
    the certificates were shown. *)
Definition AppMain (env : AppEnv) (loaded : Out (ConfigResult PublicKey E)) : Out (option (App PublicKey E CacheT)) :=
  let! launched := launch env loaded in
  match launched with
  | None => Ok None
  | Some a =>
      let! working := first_refresh ewma0 a.(app_settings) fetch env.(ae_notify) a.(app_running) in
      Ok ((λ st, a <| app_running := st |>) <$> working)
  end.

(** The fields of the proxy that the handling of a query reads, and those it changes,
    at the start. *)
Definition serving (a : App PublicKey E CacheT) : ProxyConfig (C := CacheT) := {|
  pc_globals := a.(app_globals); pc_state := a.(app_settings).(s_state); pc_keys := a.(app_keys);
  pc_timeout := a.(app_settings).(s_state).(cfg_timeout) |}.

Definition first_state (a : App PublicKey E CacheT) : ProxyState CacheT E := {|
  px_world := {| w_cache := None; w_cloak := a.(app_cloak); w_logs := [] |};
  px_servers := a.(app_running).(rn_registry).(rg_info); px_estimator := a.(app_estimator);
  px_transport := a.(app_running).(rn_transport); px_sent := []; px_replies := [] |}.

End AppMain.

(** * Captive portals *)

(** Only [NetProbe] sets them, from the file of the configuration. *)

Create HintDb keeps.

Section Portals.
Context `{StampLib} (listen_error : OpenFile → option error).

Definition portals p0 p : Prop := p.(p_captivePortalMap) = p0.(p_captivePortalMap).

Lemma listen_portals p0 p f : portals p0 p → returns (λ r, portals p0 r.2) (listen listen_error f p).
Proof. intros Hp. unfold listen. by walk fail. Qed.

Lemma File_dup_portals p0 p fd : portals p0 p → returns (λ r, portals p0 r.2) (File_dup fd p).
Proof. intros Hp. unfold File_dup. by walk fail. Qed.

Lemma inherit_portals p0 p kind : portals p0 p → returns (λ r, portals p0 r.2) (inherit kind p).
Proof. intros Hp. unfold inherit, open_file. by walk fail. Qed.

#[local] Hint Resolve listen_portals File_dup_portals inherit_portals : keeps.

Lemma addDNSListener_portals p0 p u child addr :
  portals p0 p → returns (portals p0) (addDNSListener listen_error u child addr p).
Proof. intros Hp. unfold addDNSListener. by walk ltac:(eauto with keeps). Qed.

Lemma addLocalDoHListener_portals p0 p u child addr :
  portals p0 p → returns (portals p0) (addLocalDoHListener listen_error u child addr p).
Proof. intros Hp. unfold addLocalDoHListener. by walk ltac:(eauto with keeps). Qed.

Lemma each_portals {A} (f : A → Proc → Out Proc) l p0 p :
  (∀ a p, portals p0 p → returns (portals p0) (f a p)) → portals p0 p → returns (portals p0) (each f l p).
Proof.
  intros Hf. revert p. induction l as [|a l IH]; intros p Hp; cbn [each]; [by apply returns_ret|].
  apply returns_bind. eapply returns_mono; [by apply Hf|done].
Qed.

Lemma addSystemDListeners_portals p0 p u child files :
  portals p0 p → returns (portals p0) (addSystemDListeners u child files p).
Proof.
  intros Hp. unfold addSystemDListeners. destruct (_ && _); [by apply returns_fails|].
  apply each_portals; [|done]. intros [] q Hq; by apply returns_ret.
Qed.

(** ** The listeners of a process that keeps its user *)

Lemma each_dns_opened u child l p q :
  u = [] → each (addDNSListener listen_error u child) l p = Ok q →
  ∃ socks, Forall2 (λ s ab, ResolveUDPAddr s = Ok ab.1 ∧ ResolveTCPAddr s = Ok ab.2) l socks ∧
    q.(udpListeners) = p.(udpListeners) ++ socks.*1 ∧ q.(tcpListeners) = p.(tcpListeners) ++ socks.*2 ∧
    q.(localDoHListeners) = p.(localDoHListeners).
Proof.
  intros ->. revert p. induction l as [|s l IH]; intros p; cbn [each].
  { intros [= <-]. exists []. rewrite !app_nil_r. by split_and!. }
  intros (p1 & H1 & HQ)%obind_Ok. apply IH in HQ as (socks & Hs & HU & HT & HD). unfold addDNSListener, listen in H1.
  apply obind_Ok in H1 as (a & Ha%or_fatal_Ok & (b & Hb%or_fatal_Ok & H1)%obind_Ok). cbn in H1.
  destruct (listen_error (UDPSock a)), (listen_error (TCPSock b)); try done. injection H1 as <-.
  exists ((a, b) :: socks). cbn in *. rewrite HU, HT, HD, <-!app_assoc. by split_and!; [constructor|..].
Qed.

Lemma each_doh_opened u child l p q :
  u = [] → each (addLocalDoHListener listen_error u child) l p = Ok q →
  ∃ dohs, Forall2 (λ s b, ResolveTCPAddr s = Ok b) l dohs ∧
    q.(udpListeners) = p.(udpListeners) ∧ q.(tcpListeners) = p.(tcpListeners) ∧
    q.(localDoHListeners) = p.(localDoHListeners) ++ dohs.
Proof.
  intros ->. revert p. induction l as [|s l IH]; intros p; cbn [each].
  { intros [= <-]. exists []. rewrite !app_nil_r. by split_and!. }
  intros (p1 & H1 & HQ)%obind_Ok. apply IH in HQ as (dohs & Hs & HU & HT & HD). unfold addLocalDoHListener, listen in H1.
  apply obind_Ok in H1 as (b & Hb%or_fatal_Ok & H1). cbn in H1. destruct (listen_error (TCPSock b)); [done|]. injection H1 as <-.
  exists (b :: dohs). cbn in *. rewrite HU, HT, HD, <-!app_assoc. by split_and!; [constructor|..].
Qed.

End Portals.

(** * The program at work *)

Section Whole.
Context {PublicKey Signature : Type} `{Minisign PublicKey Signature} `{StampLib}.
Context `{CryptoPrims} `{CodecLaws} `{NetLib} `{WebLib} `{UnicodeTables} {Ctx : Type} `{HPKE Ctx}.
Context {E : Type} `{MovingAverage E} `{StoreLaws CachedResponse} (ewma0 : E).
Context {TN TI TC : Type} `{PrefixTrieLaws (option Ranges) TN} `{PrefixTrie unit TI} `{PrefixTrie (option nat) TC}.
Context (sha : bytes → bytes) (ReverseAddr : bytes → bytes) (ParseCIDR : bytes → Out IPNet)
        (TypeToString : Z → option bytes) (map_order : gmap bytes nat → list bytes).
Context (stamp_String : ServerStamp → bytes) (proto_String : StampProtoType → bytes) (proxy_FromURL : Url → Out unit).
Context (fetch : Running PublicKey E → Fetcher (E := E)).
Abbreviation CacheT := (St CachedResponse).
Abbreviation running := (Running PublicKey E).
Abbreviation state := (ProxyState CacheT E).
Abbreviation app := (App PublicKey E CacheT).
Implicit Types (a : app) (notify : option error).

(** The registry and the transport are shared by the background loops and by the
    handling of queries. *)
Definition running_of (st : running) (ps : state) : running :=
  st <| rn_registry := st.(rn_registry) <| rg_info := ps.(px_servers) |> |> <| rn_transport := ps.(px_transport) |>.

Definition share (st : running) (ps : state) : state :=
  ps <| px_servers := st.(rn_registry).(rg_info) |> <| px_transport := st.(rn_transport) |>.

(** What the goroutine that refreshes the servers does: the first refresh, made by
    [StartProxy] after clients are accepted, then a refresh at each turn of the loop. *)
Inductive Loop :=
  | Starting (p : Prog (Fetcher (E := E)) state (Z * option error))
  | Sleeping
  | Refreshing (p : Prog (Fetcher (E := E)) state (Z * option error)).

(** What can be reached when a server is fetched. *)
Definition reach (w : (running * Loop) * state) : Fetcher (E := E) := fetch (running_of w.1.1 w.2).

(** The background activities: an iteration of the loop of sources, which begins after the
    first refresh, and each operation of a refresh. *)
Inductive background (notify : option error) (a : app) : (running * Loop) * state → (running * Loop) * state → Prop :=
  | bg_starting st ps B (f : _ → _ → Out (state * B)) k ps' b :
      f (reach ((st, Sleeping), ps)) ps = Ok (ps', b) →
      background notify a ((st, Starting (Op f k)), ps) ((st, Starting (k b)), ps')
  | bg_started st ps live err st' :
      begin_work a.(app_settings) notify (note_live live (running_of st ps)) = Ok (Some st') →
      background notify a ((st, Starting (Ret (live, err))), ps) ((st', Sleeping), ps)
  | bg_wake st ps :
      st.(rn_refreshing) = true → background notify a ((st, Sleeping), ps) ((st, Refreshing (h_refresh ewma0)), ps)
  | bg_refreshing st ps B (f : _ → _ → Out (state * B)) k ps' b :
      f (reach ((st, Sleeping), ps)) ps = Ok (ps', b) →
      background notify a ((st, Refreshing (Op f k)), ps) ((st, Refreshing (k b)), ps')
  | bg_refreshed st ps live err :
      background notify a ((st, Refreshing (Ret (live, err))), ps) ((note_live live st, Sleeping), ps)
  | bg_sources st loop ps st' :
      (∀ p, loop ≠ Starting p) → source_step stamp_String a.(app_settings) (running_of st ps) st' →
      background notify a ((st, loop), ps) ((st', loop), share st' ps).

(** The goroutine of a query that arrives. *)
Definition arrives (a : app) (p : Prog (Fetcher (E := E)) state (option bytes)) : Prop :=
  ∃ qe attached clientProto serverProto query clientAddr connected start onlyCached,
    p = handler ewma0 (serving a) qe attached clientProto serverProto query clientAddr connected start onlyCached.

Abbreviation load := (ConfigLoad (PublicKey := PublicKey) (E := E) stamp_String proto_String proxy_FromURL ParseCIDR).
Abbreviation main := (AppMain (TN := TN) (TI := TI) (TC := TC) ewma0 sha ReverseAddr ParseCIDR TypeToString map_order fetch).
Abbreviation launched := (launch (TN := TN) (TI := TI) (TC := TC) ewma0 sha ReverseAddr ParseCIDR TypeToString map_order).
Abbreviation step notify a := (any_step reach (background notify a) (arrives a)).
Abbreviation moved notify a := (pool_step reach (background notify a) (arrives a)).
Abbreviation Work := (((running * Loop) * state) * list (Prog (Fetcher (E := E)) state (option bytes)))%type.

(** What the start leaves: the plugins come from the settings, and the settings from
    the configuration. *)
Lemma launch_serves aenv env decoded flags files p a :
  launched aenv (load env decoded flags files p) = Ok (Some a) →
  ∃ c md p0 sources files1 files2 x g,
    decoded = Ok (c, md) ∧
    load env decoded flags files p = Ok (Ready a.(app_settings) p0 sources files1 x g) ∧
    startAcceptingClients p0 = (a.(app_servers), a.(app_proc)) ∧
    InitPluginsGlobals (TN := TN) (TI := TI) (TC := TC) sha ReverseAddr ParseCIDR TypeToString map_order
      (plugins_config aenv.(ae_ReadFile) a.(app_proc).(p_captivePortalMap) a.(app_settings)) aenv.(ae_plugins) =
      Ok (a.(app_globals), a.(app_cloak)) ∧
    accept ewma0 a.(app_settings) aenv.(ae_random) sources files2 x g =
      Ok (a.(app_keys).(proxySecretKey), a.(app_keys).(proxyPublicKey), a.(app_estimator), a.(app_running)).
Proof.
  unfold launch. intros (r & Hr%or_fatal_Ok & HA)%obind_Ok.
  destruct r as [| | | |s p' sources files1 x g]; try done.
  destruct (PidFileCreate _ _ _) as [files2 perr].
  apply obind_Ok in HA as (ws & _ & ([globals cloak] & HI%or_fatal_Ok & ([[[sk pk] est] st] & HS & HE)%obind_Ok)%obind_Ok).
  injection HE as <-. cbn.
  assert (∃ c md, decoded = Ok (c, md)) as (c & md & ->).
  { unfold ConfigLoad in Hr. apply obind_Ok in Hr as ([c md] & Hd & _). by eauto. }
  by exists c, md, p', sources, files1, files2, x, g.
Qed.

Lemma AppMain_launch aenv loaded a :
  main aenv loaded = Ok (Some a) →
  ∃ a0 st, launched aenv loaded = Ok (Some a0) ∧ a0.(app_settings).(s_showCerts) = false ∧
    first_refresh ewma0 a0.(app_settings) fetch aenv.(ae_notify) a0.(app_running) = Ok (Some st) ∧
    a = a0 <| app_running := st |>.
Proof.
  unfold AppMain. intros ([a0|] & HL & HA)%obind_Ok; [|done]. apply obind_Ok in HA as (w & HF & HE).
  destruct w as [st|]; [|done]. cbn in HE. injection HE as <-.
  exists a0, st. split_and!; [done| |done|done]. by apply obind_Ok in HF as ([st1 err] & _ & [? _]%begin_work_Some).
Qed.

(** The state before the first query. *)
Definition start_of (a : app) : Work := (((a.(app_running), Starting (h_refresh ewma0)), first_state a), []).

Abbreviation lb a := (a.(app_settings).(s_lbStrategy)).
Abbreviation refresher a := (guards (R := Fetcher (E := E)) (A := Z * option error) (registry_ok (lb a)) same_names more_names (λ _ _, True)).

(** The refresh that is being made is as far as its last operation left it. *)
Definition loop_ok (a : app) (loop : Loop) (ps : state) : Prop :=
  match loop with Starting p | Refreshing p => refresher a p ps | Sleeping => True end.

Definition app_inv (a : app) (w : (running * Loop) * state) : Prop :=
  run_inv a.(app_settings) (running_of w.1.1 w.2) ∧ loop_ok a w.1.2 w.2.

Lemma app_inv_registry a w : app_inv a w → registry_ok (lb a) w.2.
Proof. intros [[Hs Hl _] _]. by split. Qed.

Lemma loop_ok_stable a loop ps ps' : same_names ps ps' → loop_ok a loop ps → loop_ok a loop ps'.
Proof. intros Hn. destruct loop as [p| |p]; [|done|]; exact (guards_moved _ _ _ p ps ps' Hn). Qed.

Lemma run_inv_shared a st ps ps' : run_inv a.(app_settings) (running_of st ps) → registry_ok (lb a) ps' → run_inv a.(app_settings) (running_of st ps').
Proof. intros [_ _ Ho] [Hl Hi]. by split. Qed.

(** An operation of a refresh. *)
Lemma refresh_op a st ps B (f : _ → _ → Out (state * B)) k ps' b :
  run_inv a.(app_settings) (running_of st ps) → refresher a (Op f k) ps → f (reach ((st, Sleeping), ps)) ps = Ok (ps', b) →
  run_inv a.(app_settings) (running_of st ps') ∧ refresher a (k b) ps' ∧ more_names ps ps'.
Proof.
  intros Hi Hg Hf. assert (registry_ok (lb a) ps) as Hps by by destruct Hi.
  destruct (Hg _ ps Hps (PreOrder_Reflexive ps) _ Hf) as (HI & HG & Hk). split_and!; [|done..]. by eapply run_inv_shared.
Qed.

Lemma app_inv_background notify a w w' : app_inv a w → background notify a w w' → app_inv a w' ∧ more_names w.2 w'.2.
Proof.
  intros [Hi Hg] Hb. destruct Hb as [st ps B f k ps' b Hf|st ps live err st' HB|st ps _|st ps B f k ps' b Hf|st ps live err|st loop ps st' _ HS]; cbn in *.
  - destruct (refresh_op _ _ _ _ _ _ _ _ Hi Hg Hf) as (? & ? & ?). by split.
  - split; [|done]. apply begin_work_Some in HB as [_ ->]. split; [|done]. destruct Hi as [? ? ?].
    unfold note_live. by destruct (0 <? live).
  - split; [|done]. split; [done|]. apply refresh_guards.
  - destruct (refresh_op _ _ _ _ _ _ _ _ Hi Hg Hf) as (? & ? & ?). by split.
  - split; [|done]. split; [|done]. destruct Hi as [? ? ?]. unfold note_live. by destruct (0 <? live).
  - pose proof (run_inv_sources _ _ _ _ Hi HS) as [? ? ?]. apply source_step_registers in HS as [[Hin _ Hre _] _].
    assert (same_names ps (share st' ps)) as Hn. { split; intros n; [|apply Hre]. unfold names. cbn. by rewrite Hin. }
    split; [|by apply same_more]. split; [by split|]. by eapply loop_ok_stable.
Qed.

Lemma app_inv_thread a t ps ps' : app_inv a (t, ps) → registry_ok (lb a) ps' → same_names ps ps' → app_inv a (t, ps').
Proof. intros [Hi Hg] Hps Hn. split; [by eapply run_inv_shared|by eapply loop_ok_stable]. Qed.

(** Without interruption a refresh is made by the background. *)
Lemma starting_runs notify a st p ps ps' r :
  run_among reach (st, Sleeping) p ps = Ok (ps', r) →
  rtc (background notify a) ((st, Starting p), ps) ((st, Starting (Ret r)), ps').
Proof.
  revert ps. induction p as [x|B f k IH]; intros ps; cbn; [by intros [= <- <-]|].
  intros ([ps1 b] & Hf & Hr)%obind_Ok. eapply rtc_l; [by apply bg_starting|]. by apply IH.
Qed.

Lemma background_steps notify a w w' ts : rtc (background notify a) w w' → rtc (step notify a) (w, ts) (w', ts).
Proof. induction 1 as [|w1 w2 w3 Hb _ IH]; [done|]. eapply rtc_l, IH. exists None. by apply step_background. Qed.

(** Every handler keeps the registry. *)
Lemma arrives_guards a p ps : lb_wf (lb a) → arrives a p → guards (registry_ok (lb a)) more_names same_names (λ _ _, True) p ps.
Proof. intros Hw (qe & att & cp & sp & q & ca & co & start & oc & ->). by apply handler_guards. Qed.

Lemma open_log_portals c flags b p : portals p (open_log c flags b p).
Proof. unfold open_log, log_destination, use_log_file. destruct b, (c_UseSyslog c), (c_LogFile c), (fl_Child flags); done. Qed.

Lemma app_inv_start aenv env decoded flags files p a :
  launched aenv (load env decoded flags files p) = Ok (Some a) → lb_wf (lb a) ∧ app_inv a (start_of a).1.
Proof.
  intros HA. destruct (launch_serves _ _ _ _ _ _ _ HA) as (c & md & p0 & sources & files1 & files2 & x & g & _ & HL & _ & _ & HS).
  apply accept_registry in HS as [Hg Hs]. apply ConfigLoad_initial in HL as (Hi & _ & Hl & Ho & Hw). split; [done|]. split.
  - split; cbn; by rewrite ?Hg, ?Hs.
  - apply refresh_guards.
Qed.

Abbreviation work_inv a := (pool_inv (app_inv a) (registry_ok (lb a)) more_names same_names).

Lemma work_inv_reachable notify a (x y : Work) :
  lb_wf (lb a) → work_inv a x → rtc (step notify a) x y → work_inv a y ∧ more_names x.1.2 y.1.2.
Proof.
  intros Hw. apply pool_inv_reachable;
    [apply _|apply app_inv_registry|apply app_inv_background|apply app_inv_thread|apply same_more|intros q ps; by apply arrives_guards].
Qed.

(** Every state the program reaches, whatever the order of the operations. *)
Lemma app_reachable aenv env decoded flags files p notify a (x : Work) :
  launched aenv (load env decoded flags files p) = Ok (Some a) → rtc (step notify a) (start_of a) x →
  lb_wf (lb a) ∧ work_inv a x.
Proof.
  intros HA Hr. destruct (app_inv_start _ _ _ _ _ _ _ HA) as [Hw H0']. split; [done|].
  eapply work_inv_reachable, Hr; [done|]. split; [done|constructor].
Qed.

(** The settings in use are those of the configuration, and the sockets were opened
    with them. *)
Lemma ConfigLoad_configure env c md flags files p s p' sources files1 x g :
  load env (Ok (c, md)) flags files p = Ok (Ready s p' sources files1 x g) →
  ∃ c' showCerts, configure proxy_FromURL ParseCIDR env.(ce_tls) [] md flags showCerts c = Ok (c', s) ∧
    (showCerts = true ∧ p' = open_log c flags true p ∨ open_sockets env c' flags s (open_log c flags false p) = Ok p').
Proof.
  unfold ConfigLoad. cbn [obind]. intros HL. destruct (0 <? length (fl_Resolve flags))%nat; [done|].
  destruct (ce_cdFileDir env); [done|]. apply obind_Ok in HL as ([c1 s1] & HC & (p1 & HP & HL)%obind_Ok).
  destruct (_ && _); [by apply obind_Ok in HL as ([? ?] & _ & ?)|].
  unfold load_servers in HL. apply obind_Ok in HL as ([[[sources1 files2] x1] g1] & _ & HL).
  destruct (fl_List flags), (fl_ListAll flags), (fl_Check flags); try discriminate HL. cbn in HL. injection HL as <- <- _ _ _ _.
  exists c1, (fl_ShowCerts flags || ce_SHOW_CERTS env). split; [done|].
  rewrite !orb_false_r in HP. destruct (fl_ShowCerts flags || ce_SHOW_CERTS env); cbn in HP; [left|by right].
  split; [done|]. by injection HP as <-.
Qed.

Lemma ConfigLoad_no_portals env c md flags files t s p' sources files1 x g :
  load env (Ok (c, md)) flags files (start_proc t) = Ok (Ready s p' sources files1 x g) →
  c.(c_CaptivePortals_MapFile) = [] ∨ default c.(c_NetprobeTimeout) flags.(fl_NetprobeTimeoutOverride) = 0 →
  p'.(p_captivePortalMap) = None.
Proof.
  intros (c1 & show & HC & [[_ ->]|HP])%ConfigLoad_configure Hc; [apply open_log_portals|].
  destruct (configure_files _ _ _ _ _ _ _ _ _ _ HC) as (Hm & _ & _ & _ & _ & Ht & _).
  unfold open_sockets in HP. rewrite Hm, Ht in HP.
  apply obind_Ok in HP as (probe & _ & HP). set (p0 := set_field p_captivePortalMap _ _) in HP.
  assert (portals (start_proc t) p0) as H0'.
  { unfold portals, p0, captive_portals. cbn.
    destruct Hc as [->| ->]; [cbn; match goal with |- (if ?b then _ else _) = _ => by case b end|by rewrite orb_true_r]. }
  apply obind_Ok in HP as (p2 & Hp2 & (p3 & Hp3 & Hp4)%obind_Ok).
  apply (each_portals _ _ _ _ (λ addr q, addDNSListener_portals _ _ q _ _ addr) H0') in Hp2.
  apply (each_portals _ _ _ _ (λ addr q, addLocalDoHListener_portals _ _ q _ _ addr) Hp2) in Hp3.
  by apply (addSystemDListeners_portals _ _ _ _ _ Hp3) in Hp4.
Qed.



(** A refresh neither sends queries nor replies. *)
Definition loop_spends (μ : state → nat) (t : running * Loop) : Prop :=
  match t.2 with Starting p | Refreshing p => spends μ 0 p | Sleeping => True end.

Lemma refresh_quiet μ : (∀ si ps, μ (ps <| px_servers := si |>) = μ ps) → spends μ 0 (h_refresh (C := CacheT) ewma0).
Proof.
  intros Hμ. assert (∀ l live err, spends μ 0 (h_refresh_loop (C := CacheT) ewma0 l live err)) as Hl.
  { induction l as [|r l IH]; intros live err; [done|]. eapply spends_call; [by apply refresh_spends|lia|]. intros ?. apply IH. }
  unfold h_refresh, on_servers.
  steps ltac:(apply (spends_op 0); [intros ??; apply returns_ret; cbn [fst]; rewrite ?Hμ; lia|lia|])
    ltac:(eapply spends_call; [apply Hl|lia|]).
Qed.

Lemma background_spends μ notify a w w' :
  (∀ si ps, μ (ps <| px_servers := si |>) = μ ps) → (∀ x ps, μ (ps <| px_transport := x |>) = μ ps) →
  loop_spends μ w.1 → background notify a w w' → loop_spends μ w'.1 ∧ (μ w'.2 ≤ μ w.2)%nat.
Proof.
  intros H1' H2' Hl Hb. destruct Hb as [st ps B f k ps' b Hf| | |st ps B f k ps' b Hf| |st loop ps st' _ _]; cbn in *.
  - destruct (Hl _ _ _ _ Hf) as (c & Hc & Hμ & Hk). assert (c = 0)%nat as -> by lia. split; [exact Hk|lia].
  - by split.
  - split; [by apply refresh_quiet|lia].
  - destruct (Hl _ _ _ _ Hf) as (c & Hc & Hμ & Hk). assert (c = 0)%nat as -> by lia. split; [exact Hk|lia].
  - by split.
  - split; [done|]. unfold share. rewrite H2', H1'. lia.
Qed.


(** C5: the registry under concurrency. In every state the program reaches, while queries
    are being handled (and their servers refreshed when their keys change), while the
    first refresh or the loop fetches servers, and between any two operations under the lock, the names of the
    servers in use are unique and registered, and the strategy is the configured one. A
    server that is in use stays in use. *)
Theorem registry_shared aenv env decoded flags files p notify a x y :
  launch (TN := TN) (TI := TI) (TC := TC) ewma0 sha ReverseAddr ParseCIDR TypeToString map_order aenv (load env decoded flags files p) = Ok (Some a) →
  rtc (step notify a) (start_of a) x → rtc (step notify a) x y →
  x.1.2.(px_servers).(lbStrategy) = a.(app_settings).(s_lbStrategy) ∧ refresh_inv x.1.2.(px_servers) ∧
  ∀ n, n ∈ si_Name <$> x.1.2.(px_servers).(inner) → n ∈ si_Name <$> y.1.2.(px_servers).(inner).
Proof.
  intros HA Hr Hy. destruct (app_reachable _ _ _ _ _ _ _ _ _ HA Hr) as [Hw Hx].
  destruct (app_inv_registry _ _ (proj1 Hx)) as [Hl Hi]. split_and!; [done..|].
  by destruct (work_inv_reachable _ _ _ _ Hw Hx Hy) as [_ [Hn _]].
Qed.

(** ** What the plugins share *)

(** An invariant of the world of the plugins that holds when nothing is cached or logged,
    and that every configured plugin keeps, holds in every state. *)
Section Shared.
Context (P : World CacheT → Prop) (F : bytes → Prop) `{!WorldInv TypeToString F P}.
Hypothesis P_new : ∀ heap, P {| w_cache := None; w_cloak := heap; w_logs := [] |}.
Hypothesis P_cache : plugin_in P (new_PluginCache sha).
Hypothesis P_cache_response : plugin_in P (new_PluginCacheResponse sha).

Abbreviation sharing := (guards (R := Fetcher (E := E)) (A := Z * option error) (world_ok P) anything anything (λ _ _, True)).

Definition shared_inv (w : (running * Loop) * state) : Prop :=
  world_ok P w.2 ∧ match w.1.2 with Starting p | Refreshing p => sharing p w.2 | Sleeping => True end.

Lemma refresh_sharing (ps : state) : sharing (h_refresh ewma0) ps.
Proof. eapply guards_mono; [|by apply (refresh_in P ewma0)]. done. Qed.

Lemma sharing_moved p (ps ps' : state) : sharing p ps → sharing p ps'.
Proof. by apply guards_moved. Qed.

Lemma shared_inv_background notify a w w' : shared_inv w → background notify a w w' → shared_inv w' ∧ anything w.2 w'.2.
Proof.
  intros [Hi Hg] Hb. split; [|done].
  destruct Hb as [st ps B f k ps' b Hf|st ps live err st' HB|st ps _|st ps B f k ps' b Hf|st ps live err|st loop ps st' _ HS]; cbn in *.
  - by destruct (Hg _ ps Hi I _ Hf) as (? & _ & ?).
  - done.
  - split; [done|]. apply refresh_sharing.
  - by destruct (Hg _ ps Hi I _ Hf) as (? & _ & ?).
  - done.
  - split; [done|]. destruct loop; [|done|]; by eapply sharing_moved.
Qed.

Lemma shared_inv_thread t (ps ps' : state) : shared_inv (t, ps) → world_ok P ps' → anything ps ps' → shared_inv (t, ps').
Proof. intros [_ Hg] Hps _. split; [done|]. destruct t as [st []]; [|done|]; exact (sharing_moved _ ps _ Hg). Qed.

Lemma arrives_sharing aenv env decoded flags files p0 a p (ps : state) :
  launched aenv (load env decoded flags files p0) = Ok (Some a) → arrives a p →
  guards (world_ok P) anything anything (λ _ _, True) p ps.
Proof.
  intros HA (qe & att & cp & sp & q & ca & co & start & oc & ->).
  destruct (launch_serves _ _ _ _ _ _ _ HA) as (c & md & p1 & sources & files1 & files2 & x & g & _ & _ & _ & HI & _).
  apply configured_in in HI as (H1' & H2' & H3'); [|done..]. eapply guards_mono; [|by apply handler_in]. done.
Qed.

Lemma shared_reachable aenv env decoded flags files p notify a x :
  launched aenv (load env decoded flags files p) = Ok (Some a) → rtc (step notify a) (start_of a) x → P x.1.2.(px_world).
Proof.
  intros HA Hr. eapply (pool_inv_reachable reach (background notify a) (arrives a) shared_inv (world_ok P) anything anything)
    in Hr as [[[Hx _] _] _]; [exact Hx|by intros w []|apply shared_inv_background|apply shared_inv_thread|done| |].
  - intros q ps. by eapply arrives_sharing.
  - split; [|constructor]. split; [by apply P_new|apply refresh_sharing].
Qed.

End Shared.

Lemma cache_reachable aenv env decoded flags files p notify a x :
  launched aenv (load env decoded flags files p) = Ok (Some a) → rtc (step notify a) (start_of a) x → keyed sha x.1.2.(px_world).
Proof. apply (shared_reachable (keyed sha) (λ _, True)); [by intros ? c|apply cache_keyed|apply cache_response_keyed]. Qed.

(** C7: no query can forge a log. In every state the program reaches, whatever the names in the
    queries and answers, the plugins configured and the order of the operations, what was
    written to a log is one line: its only newline is at its end, it has no other
    control character than the tabs between its fields, and it is read back as these fields. *)
Theorem logs_not_forged aenv env decoded flags files p notify a x file line :
  launch (TN := TN) (TI := TI) (TC := TC) ewma0 sha ReverseAddr ParseCIDR TypeToString map_order aenv (load env decoded flags files p) = Ok (Some a) →
  texts_clean TypeToString → rtc (step notify a) (start_of a) x → (file, line) ∈ x.1.2.(px_world).(w_logs) →
  ∃ fields, fields ≠ [] ∧ Forall clean fields ∧ line = Join fields [9] ++ [10] ∧ read_line line = fields.
Proof.
  intros HA Ht Hr Hin. pose proof (logs_inv (C := CacheT) TypeToString Ht) as Hi.
  assert (logs_ok x.1.2.(px_world)) as Hx by
    (eapply (shared_reachable logs_ok clean); [by intros; constructor|apply cache_logs|apply cache_response_logs|exact HA|exact Hr]).
  unfold logs_ok in Hx. rewrite list.Forall_forall in Hx. destruct (Hx _ Hin) as (fields & Hne & Hc & Hl). cbn in Hl.
  exists fields. split_and!; [done..|]. rewrite Hl. by apply read_line_of.
Qed.


(** The goroutine of a listener of the local DoH server. *)
Definition localDoHListener (s : Settings) (ServeTLS : Out unit) : Out unit :=
  if (length s.(s_localDoH).(CertFile) =? 0)%nat || (length s.(s_localDoH).(CertKeyFile) =? 0)%nat then Fatal
  else or_fatal ServeTLS.

Lemma addresses_served aenv env c md flags files t a :
  AppMain (TN := TN) (TI := TI) (TC := TC) ewma0 sha ReverseAddr ParseCIDR TypeToString map_order fetch aenv (load env (Ok (c, md)) flags files (start_proc t)) = Ok (Some a) →
  c.(c_UserName) = [] → env.(ce_systemd) = [] →
  ∃ socks dohs,
    Forall2 (λ s ab, ResolveUDPAddr s = Ok ab.1 ∧ ResolveTCPAddr s = Ok ab.2) c.(c_ListenAddresses) socks ∧
    Forall2 (λ s b, ResolveTCPAddr s = Ok b) c.(c_LocalDoH).(doh_ListenAddresses) dohs ∧
    a.(app_servers) = (ServeUDP <$> socks.*1) ++ (ServeTCP <$> socks.*2) ++ (ServeDoH <$> dohs).
Proof.
  intros (a0 & st & HA & Hshow & _ & ->)%AppMain_launch Hu Hsd. cbn.
  destruct (launch_serves _ _ _ _ _ _ _ HA) as (? & ? & p0 & sources & files1 & files2 & x & g & _ & HL & [= Hserv _] & _ & HS).
  destruct (ConfigLoad_configure _ _ _ _ _ _ _ _ _ _ _ _ HL) as (c1 & show & HC & HP).
  destruct (configure_files _ _ _ _ _ _ _ _ _ _ HC) as (_ & _ & _ & _ & _ & _ & El & Ed & Eu & Es).
  destruct HP as [[Hs _]|HP]; [congruence|].
  unfold open_sockets in HP. rewrite El, Ed, Eu, Hu, Hsd in HP.
  apply obind_Ok in HP as (probe & _ & (p2 & Hp2 & (p3 & Hp3 & [= <-])%obind_Ok)%obind_Ok).
  apply each_dns_opened in Hp2 as (socks & Hsocks & U2 & T2 & D2); [|done].
  apply each_doh_opened in Hp3 as (dohs & Hdohs & U3 & T3 & D3); [|done].
  exists socks, dohs. split_and!; [done..|]. rewrite <-Hserv, U3, T3, D3, U2, T2, D2.
  unfold open_log, log_destination, use_log_file. by destruct (c_UseSyslog c), (c_LogFile c), (fl_Child flags).
Qed.

(** C38: every address of the configuration is served: over UDP and over TCP for DNS, over
    TCP for DoH, in the order of the file; here without a change of user and without
    sockets of systemd. *)
Theorem configured_addresses_served aenv env c md flags files t a :
  AppMain (TN := TN) (TI := TI) (TC := TC) ewma0 sha ReverseAddr ParseCIDR TypeToString map_order fetch aenv (load env (Ok (c, md)) flags files (start_proc t)) = Ok (Some a) →
  c.(c_UserName) = [] → env.(ce_systemd) = [] →
  ∃ socks dohs,
    Forall2 (λ s ab, ResolveUDPAddr s = Ok ab.1 ∧ ResolveTCPAddr s = Ok ab.2) c.(c_ListenAddresses) socks ∧
    Forall2 (λ s b, ResolveTCPAddr s = Ok b) c.(c_LocalDoH).(doh_ListenAddresses) dohs ∧
    a.(app_servers) = (ServeUDP <$> socks.*1) ++ (ServeTCP <$> socks.*2) ++ (ServeDoH <$> dohs).
Proof. apply addresses_served. Qed.

(** A finding: a local DoH server without a certificate is accepted by the configuration
    (and by [-check]), and ends the process when it starts to serve. *)
Theorem doh_needs_certificate aenv env c md flags files t a :
  main aenv (load env (Ok (c, md)) flags files (start_proc t)) = Ok (Some a) →
  c.(c_UserName) = [] → env.(ce_systemd) = [] → c.(c_LocalDoH).(doh_ListenAddresses) ≠ [] →
  c.(c_LocalDoH).(CertFile) = [] ∨ c.(c_LocalDoH).(CertKeyFile) = [] →
  ∃ addr, ServeDoH addr ∈ a.(app_servers) ∧ ∀ ServeTLS, localDoHListener a.(app_settings) ServeTLS = Fatal.
Proof.
  intros HA Hu Hsd Hd Hc. destruct (addresses_served _ _ _ _ _ _ _ _ HA Hu Hsd) as (socks & dohs & _ & F2 & ->).
  apply AppMain_launch in HA as (a0 & st & HA & _ & _ & ->).
  destruct (launch_serves _ _ _ _ _ _ _ HA) as (? & ? & p0 & sources & files1 & files2 & x & g & [= <- <-] & HL & _).
  destruct (ConfigLoad_configure _ _ _ _ _ _ _ _ _ _ _ _ HL) as (c1 & show & HC & _).
  destruct (configure_files _ _ _ _ _ _ _ _ _ _ HC) as (_ & _ & _ & _ & _ & _ & _ & Ed & _).
  destruct F2 as [|s b l dohs]; [done|]. exists b. split; [set_solver|].
  intros tls. unfold localDoHListener. cbn. rewrite Ed. destruct Hc as [-> | ->]; [done|]. by rewrite orb_true_r.
Qed.

(** A finding: without the wait for the network there are no captive portals. The
    file of the configuration is only read when the network is probed, so that with
    [netprobe_timeout = 0] its names are sent to the servers as any others. *)
Theorem portals_need_probe aenv env c md flags files t a :
  main aenv (load env (Ok (c, md)) flags files (start_proc t)) = Ok (Some a) →
  default c.(c_NetprobeTimeout) flags.(fl_NetprobeTimeoutOverride) = 0 →
  (plugins_config aenv.(ae_ReadFile) a.(app_proc).(p_captivePortalMap) a.(app_settings)).(captivePortalMap) = None.
Proof.
  intros (a0 & st & HA & _ & _ & ->)%AppMain_launch Ht. cbn. destruct (launch_serves _ _ _ _ _ _ _ HA) as (? & ? & p0 & sources & files1 & files2 & x & g & _ & HL & [= _ <-] & _).
  exact (ConfigLoad_no_portals _ _ _ _ _ _ _ _ _ _ _ _ HL (or_intror Ht)).
Qed.

End Whole.

(** The PID file: what is written is read back as the identifier, and [Stop] leaves
    the files as they were. *)
Theorem pid_file_roundtrip env now files f :
  env.(pidFile) = Some f → f ≠ [] → env.(pe_MkdirAll) = None → env.(pe_WriteFile) = None → env.(pe_Remove) = None →
  - 2 ^ 63 ≤ env.(pe_Getpid) < 2 ^ 63 → files !! f = None →
  ∃ files' text, PidFileCreate env now files = (files', None) ∧ files' !! f = Some (text, now) ∧
    Atoi text = Some env.(pe_Getpid) ∧ App_Stop env files' = files.
Proof.
  intros Hf Hne Hm Hw Hr Hp Hnone. destruct f as [|b f]; [done|].
  unfold PidFileCreate, App_Stop, PidFileRemove. rewrite Hf, Hm, Hw, Hr.
  exists (<[b :: f := (Itoa env.(pe_Getpid), now)]> files), (Itoa env.(pe_Getpid)).
  split_and!; [done|by rewrite lookup_insert_eq|by apply Atoi_Itoa|]. rewrite lookup_insert_eq. cbn. by rewrite delete_insert_id.
Qed.

(** * Concrete runs *)

Section AppExamples.
#[local] Existing Instance ascii_tables.
#[local] Existing Instance plain_net.
#[local] Existing Instance toy_minisign.
#[local] Existing Instance list_web.
#[local] Existing Instance cfg_stamps.
#[local] Existing Instance toy_prims.
#[local] Existing Instance tiny_codec.
#[local] Existing Instance tiny_codec_laws.
#[local] Existing Instance tiny_hpke.

(** The small configuration with a block list. *)
Definition blocking_config : Config :=
  small_config <| c_BlockName := {| File := str "blocked-names.txt"; LogFile := []; Format := [] |} |>.

Definition app_env : AppEnv := {|
  ae_pid := {| pidFile := Some (str "/run/proxy.pid"); pe_Getpid := 4242; pe_MkdirAll := None; pe_WriteFile := None;
               pe_Remove := None |};
  ae_now := 0; ae_log := {| le_Stat _ := None; le_OpenFile _ := None |};
  ae_ReadFile f := if decide (f = str "blocked-names.txt") then Ok (Join sample_zones [10]) else Err not_exist;
  ae_plugins := noon; ae_random := Ok (replicate 32 7); ae_notify := None |}.

Abbreviation load_blocking := (ConfigLoad (λ s, s.(ServerAddrStr)) (λ _, []) (λ _, Ok tt) (λ _, Err ETimeout) (plain_env list_text)
       (Ok (blocking_config, all_known)) no_flags ∅ (start_proc three_files)).

Definition run_blocking : Out (option (App bytes Q (St CachedResponse))) :=
  AppMain (TN := gmap bytes (option Ranges)) (TI := gmap bytes unit) (TC := gmap bytes (option nat)) 0%Q id id
    (λ _, Err ETimeout) (λ _, None) (λ m, (map_to_list m).*1) reaches_all app_env load_blocking.

Definition launch_blocking : Out (option (App bytes Q (St CachedResponse))) :=
  launch (TN := gmap bytes (option Ranges)) (TI := gmap bytes unit) (TC := gmap bytes (option nat)) 0%Q id id
    (λ _, Err ETimeout) (λ _, None) (λ m, (map_to_list m).*1) app_env load_blocking.

Definition is_serving (m : Out (option (App bytes Q (St CachedResponse)))) : bool :=
  match m with Ok (Some _) => true | _ => false end.

Example blocking_serves : is_serving run_blocking = true.
Proof. by vm_compute. Qed.

(** The goroutine of a query. *)
Definition serve (a : App bytes Q (St CachedResponse)) (query : bytes)
    : Prog (Fetcher (E := Q)) (ProxyState (St CachedResponse) Q) (option bytes) :=
  handler (Ctx := unit) 0%Q (serving a) reachable (λ _, true) "udp" "udp" query None true 0 false.
Abbreviation small_reach := (reach reaches_all).
Abbreviation small_background a := (background 0%Q (λ s, s.(ServerAddrStr)) reaches_all None a).
Abbreviation small_arrives a := (arrives (Ctx := unit) 0%Q a).
Abbreviation small_step a := (any_step small_reach (small_background a) (small_arrives a)).

(** The state after the first refresh. *)
Definition after_start (a : App bytes Q (St CachedResponse))
    : Out (Running bytes Q * ProxyState (St CachedResponse) Q * (Z * option error)) :=
  let! (ps, r) := run_among small_reach (a.(app_running), Sleeping) (h_refresh 0%Q) (first_state a) in
  let! working := begin_work a.(app_settings) None (note_live r.1 (running_of a.(app_running) ps)) in
  match working with Some st => Ok (st, ps, r) | None => Fatal end.

(** Whether a query is answered from the cache. *)
Definition first_msg : Msg := match Unpack (query_for "example.org.") with Ok m => m | _ => empty_Msg end.
Definition fresh_state (a : App bytes Q (St CachedResponse)) : PluginsState :=
  NewPluginsState a.(app_settings).(s_state) (str "udp") None (str "udp") 0.
Definition hits (a : App bytes Q (St CachedResponse)) (ps : ProxyState (St CachedResponse) Q) : bool :=
  match PluginCache_Eval id noon ps.(px_world) (fresh_state a) first_msg with Ok (_, s, _, _) => s.(cacheHit) | _ => false end.

(** Then a query that is sent to a server is handled, and its answer is cached. *)
Definition handles_one (m : Out (option (App bytes Q (St CachedResponse)))) : bool :=
  match m with
  | Ok (Some a) =>
      match after_start a with
      | Ok (st, ps, (live, _)) =>
          match run_among small_reach (st, Sleeping) (serve a (query_for "example.org.")) ps with
          | Ok (ps, _) => (live =? 2) && hits a ps && (length ps.(px_sent) =? 1)%nat && (length ps.(px_replies) =? 1)%nat
          | _ => false
          end
      | _ => false
      end
  | _ => false
  end.

Lemma blocking_handles_one : handles_one launch_blocking = true.
Proof. by vm_compute. Qed.

(** A query arrives after the first refresh, and is handled. *)
Lemma query_reaches a st ps res p :
  after_start a = Ok (st, ps, res) → small_arrives a p → rtc (small_step a) (start_of 0%Q a) (((st, Sleeping), ps), [p]).
Proof.
  intros HS Hp. unfold after_start in HS. apply obind_Ok in HS as ([ps2 res2] & HR & ([st2|] & HB & HE)%obind_Ok); [|discriminate HE].
  injection HE as -> -> ->. destruct res as [live err].
  eapply rtc_r; [eapply rtc_r; [apply background_steps, starting_runs, HR|]|].
  - exists None. apply step_background. by eapply bg_started.
  - exists None. by apply (step_arrival small_reach (small_background a) (small_arrives a) _ []).
Qed.

Lemma serving_reaches a st ps1 res p ps r :
  after_start a = Ok (st, ps1, res) → small_arrives a p → run_among small_reach (st, Sleeping) p ps1 = Ok (ps, r) →
  rtc (small_step a) (start_of 0%Q a) (((st, Sleeping), ps), [Ret r]).
Proof.
  intros HS Hp HP. destruct (run_among_moves small_reach (small_background a) (small_arrives a) (st, Sleeping) _ ps1 ps r
    [p] 0%nat HP eq_refl) as [n Hm].
  etrans; [by eapply query_reaches|exact (moves_steps _ _ _ _ _ _ _ Hm)].
Qed.

(** Two servers are reached, a query is handled, a query for a blocked name arrives. *)
Lemma blocking_reaches :
  ∃ a st ps1 ps r n, launch_blocking = Ok (Some a) ∧
    rtc (small_step a) (start_of 0%Q a) (((st, Sleeping), ps1), [serve a (query_for "example.org.")]) ∧
    moves small_reach (small_background a) (small_arrives a) 0 n
      (((st, Sleeping), ps1), [serve a (query_for "example.org.")]) (((st, Sleeping), ps), [Ret r]) ∧
    rtc (small_step a) (start_of 0%Q a) (((st, Sleeping), ps), [Ret r; serve a (query_for "X.ads.example.")]) ∧
    length ps.(px_sent) = 1%nat ∧ length ps.(px_replies) = 1%nat ∧ hits a ps = true.
Proof.
  pose proof blocking_handles_one as Hone. unfold handles_one in Hone.
  destruct launch_blocking as [[a|]| | |]; try discriminate Hone.
  destruct (after_start a) as [[[st ps1] [live err]]| | |] eqn:HS; try discriminate Hone.
  destruct (run_among small_reach (st, Sleeping) (serve a (query_for "example.org.")) ps1) as [[ps r]| | |] eqn:HP;
    try discriminate Hone.
  apply andb_prop in Hone as [[[_ Hh]%andb_prop H1]%andb_prop H2]. apply Nat.eqb_eq in H1. apply Nat.eqb_eq in H2.
  assert (∀ q, small_arrives a (serve a q)) as Harr by (intros q; by repeat eexists).
  assert (rtc (small_step a) (start_of 0%Q a) (((st, Sleeping), ps1), [serve a (query_for "example.org.")])) as Hq
    by (eapply query_reaches; [exact HS|apply Harr]).
  destruct (run_among_moves small_reach (small_background a) (small_arrives a) (st, Sleeping) _ ps1 ps r
    [serve a (query_for "example.org.")] 0%nat HP eq_refl) as [n Hm].
  exists a, st, ps1, ps, r, n. split; [reflexivity|]. split; [exact Hq|]. split; [exact Hm|]. split; [|split_and!; assumption].
  eapply rtc_r; [etrans; [exact Hq|exact (moves_steps _ _ _ _ _ _ _ Hm)]|].
  exists None. apply (step_arrival small_reach (small_background a) (small_arrives a) _ [Ret r]), Harr.
Qed.

Definition blocked_msg : Msg := match Unpack (query_for "X.ads.example.") with Ok m => m | _ => empty_Msg end.

Lemma blocked_query_facts :
  Forall zone_line sample_zones ∧ Unpack (query_for "X.ads.example.") = Ok blocked_msg ∧
  blocked_msg.(Questions) = [{| qn_Name := str "X.ads.example."; Qtype := TypeA; Qclass := ClassINET |}] ∧
  ascii (str "x.ads.example") ∧ str "ads.example" ∈ sample_zones ∧ in_zone (str "x.ads.example") (str "ads.example") ∧
  clear_suffix sample_zones (str "x.ads.example") (str "ads.example") ∧
  ¬ in_zone (str "x.ads.example") (str "use-application-dns.net").
Proof.
  split_and!.
  - repeat constructor; try (by eexists _, _; split_and!); by apply (bool_decide_unpack _); vm_compute.
  - by vm_compute.
  - by vm_compute.
  - by apply (bool_decide_unpack _); vm_compute.
  - by apply (bool_decide_unpack _); vm_compute.
  - right. by exists (str "x").
  - intros p' Hp' _ Hsuf. unfold sample_zones in Hp'. rewrite !elem_of_cons in Hp'.
    destruct Hp' as [->|[->|Hp']]; [right; by exists (str "x")|by vm_compute in Hsuf|by apply elem_of_nil in Hp'].
  - intros [Hz|[x Hx]]; [by vm_compute in Hz|]. apply (f_equal length) in Hx. rewrite length_app in Hx.
    change (13 = length x + 24)%nat in Hx. lia.
Qed.




Lemma registry_shared_wit :
  ∃ a x y, launch_blocking = Ok (Some a) ∧ rtc (small_step a) (start_of 0%Q a) x ∧ rtc (small_step a) x y ∧ length y.2 = 1%nat ∧
    x.1.2.(px_servers).(lbStrategy) = a.(app_settings).(s_lbStrategy) ∧ refresh_inv x.1.2.(px_servers) ∧
    ∀ n, n ∈ si_Name <$> x.1.2.(px_servers).(inner) → n ∈ si_Name <$> y.1.2.(px_servers).(inner).
Proof.
  destruct blocking_reaches as (a & st & ps1 & ps & r & n & HA & Hr & Hm & _). apply moves_steps in Hm.
  eexists a, _, _. split; [exact HA|]. split; [exact Hr|]. split; [exact Hm|]. split; [reflexivity|].
  unfold launch_blocking in HA. exact (registry_shared _ _ _ _ _ _ _ _ _ _ _ _ _ _ _ _ _ _ _ _ HA Hr Hm).
Defined.


(** With a log of the blocked names and a log of the queries, and a name that has a newline. *)
Definition logging_config : Config :=
  small_config <| c_BlockName := {| File := str "blocked-names.txt"; LogFile := str "blocked.log"; Format := str "tsv" |} |>
               <| c_QueryLog := {| ql_File := str "query.log"; ql_Format := str "ltsv"; IgnoredQtypes := [] |} |>.

Definition launch_logging : Out (option (App bytes Q (St CachedResponse))) :=
  launch (TN := gmap bytes (option Ranges)) (TI := gmap bytes unit) (TC := gmap bytes (option nat)) 0%Q id id
    (λ _, Err ETimeout) (λ _, None) (λ m, (map_to_list m).*1) app_env
    (ConfigLoad (λ s, s.(ServerAddrStr)) (λ _, []) (λ _, Ok tt) (λ _, Err ETimeout) (plain_env list_text)
       (Ok (logging_config, all_known)) no_flags ∅ (start_proc three_files)).

Definition newline_name : string := String (Ascii.ascii_of_nat 10) "x.ads.example.".

Definition serve_client (a : App bytes Q (St CachedResponse))
    : Prog (Fetcher (E := Q)) (ProxyState (St CachedResponse) Q) (option bytes) :=
  handler (Ctx := unit) 0%Q (serving a) reachable (λ _, true) "udp" "udp" (query_for newline_name)
    (Some (UDPClient (str "192.0.2.1"))) true 0 false.

(** The logs after the query. *)
Definition logs_after (m : Out (option (App bytes Q (St CachedResponse)))) : Out (list (bytes * bytes)) :=
  let! a := m in
  let! a := orPanic a in
  let! (st, ps, _) := after_start a in
  let! (ps, _) := run_among small_reach (st, Sleeping) (serve_client a) ps in
  Ok ps.(px_world).(w_logs).

Definition blocked_line : bytes :=
  line_of (str <$> ["[2022-07-05 12:00:00]"; "192.0.2.1"; "\nx.ads.example"; "*.ads.example"]%string).
Definition query_line : bytes :=
  line_of (str <$> ["time:0"; "host:192.0.2.1"; "message:\nx.ads.example"; "type:"; "return:REJECT"; "cached:0"; "duration:0"; "server:-"]%string).

Lemma logging_logs : logs_after launch_logging = Ok [(str "blocked.log", blocked_line); (str "query.log", query_line)].
Proof. by vm_compute. Qed.

Lemma plain_texts_clean : texts_clean (λ _, None).
Proof. split; [|done]. intros ip. apply list.Forall_forall. by intros c [? _]%list_elem_of_filter. Qed.

Lemma logs_not_forged_wit :
  ∃ a x, launch_logging = Ok (Some a) ∧ rtc (small_step a) (start_of 0%Q a) x ∧
    x.1.2.(px_world).(w_logs) = [(str "blocked.log", blocked_line); (str "query.log", query_line)] ∧
    ∃ fields, fields ≠ [] ∧ Forall clean fields ∧ blocked_line = Join fields [9] ++ [10] ∧ read_line blocked_line = fields.
Proof.
  pose proof logging_logs as HL. unfold logs_after in HL.
  destruct launch_logging as [[a|]| | |] eqn:HA; try discriminate HL. cbn [obind orPanic] in HL.
  apply obind_Ok in HL as ([[st ps1] res] & HS & ([ps r] & HP & [= HL])%obind_Ok).
  assert (rtc (small_step a) (start_of 0%Q a) (((st, Sleeping), ps), [Ret r])) as Hr.
  { eapply serving_reaches; [exact HS| |exact HP]. by repeat eexists. }
  exists a, (((st, Sleeping), ps), [Ret r]). split; [reflexivity|]. split; [exact Hr|]. split; [exact HL|]. unfold launch_logging in HA.
  refine (logs_not_forged _ _ _ _ _ _ _ _ _ _ _ _ _ _ _ _ _ _ _ (str "blocked.log") _ HA plain_texts_clean Hr _).
  eapply eq_ind_r with (P := λ l, _ ∈ l); [apply list_elem_of_here|exact HL].
Defined.

Lemma configured_addresses_served_wit :
  ∃ a socks dohs, run_blocking = Ok (Some a) ∧ length socks = 1%nat ∧
    a.(app_servers) = (ServeUDP <$> socks.*1) ++ (ServeTCP <$> socks.*2) ++ (ServeDoH <$> dohs).
Proof.
  pose proof blocking_serves as Hs. destruct run_blocking as [[a|]| | |] eqn:HA; try discriminate Hs.
  unfold run_blocking in HA.
  destruct (configured_addresses_served _ _ _ _ _ _ _ _ _ _ _ _ _ _ _ _ _ _ HA eq_refl eq_refl) as (socks & dohs & F1 & _ & HS).
  exists a, socks, dohs. split; [reflexivity|]. split; [|exact HS]. apply Forall2_length in F1. exact (eq_sym F1).
Defined.

End AppExamples.
