(* ===== verification/Main.v ===== *)
(** main.go, service_linux.go: the command line, the service manager and what [main]
    does with them.

    The [flag] and [strconv] packages are modelled for the flags the program defines:
    [parse_flags] is [flag.Parse], [ParseInt] and [ParseBool] the values of flags. *)
From Stdlib Require Import QArith.
From S2P Require Import Prelude.
From S2P Require Import GoStrings.
From S2P Require Import Common.
From S2P Require Import ServerTypes.
From S2P Require Import XTransport.
From S2P Require Import Transport.
From S2P Require Import Routes.
From S2P Require Import RewritePlugins.
From S2P Require Import Sources.
From S2P Require Import Sockets.
From S2P Require Import Config.
From S2P Require Import Startup.

(** * Values of flags *)

Definition ParseBool (s : bytes) : option bool :=
  if bool_decide (s ∈ str <$> ["1"; "t"; "T"; "true"; "TRUE"; "True"]%string) then Some true
  else if bool_decide (s ∈ str <$> ["0"; "f"; "F"; "false"; "FALSE"; "False"]%string) then Some false
  else None.

(** The value of a digit or of a letter of either case. *)
Definition digit_of (c : Z) : option Z :=
  if between 48 c 57 then Some (c - 48)
  else if between 97 (lowerASCII c) 122 then Some (lowerASCII c - 97 + 10)
  else None.

(** The loop of [ParseUint]; underscores are skipped. *)
Fixpoint uint_go (base : Z) (s : bytes) (acc : Z) : option Z :=
  match s with
  | [] => Some acc
  | c :: s =>
      if c =? 95 then uint_go base s acc
      else
        match digit_of c with
        | Some d =>
            if base <=? d then None
            else if 2 ^ 64 <=? acc * base + d then None
            else uint_go base s (acc * base + d)
        | None => None
        end
  end.

(** [underscoreOK], after the sign: an underscore separates digits, or the prefix of the
    base from them. *)
Inductive Saw := SawStart | SawDigit | SawUnderscore | SawOther.

Fixpoint underscore_go (hex : bool) (s : bytes) (saw : Saw) : bool :=
  match s with
  | [] => match saw with SawUnderscore => false | _ => true end
  | c :: s =>
      if between 48 c 57 || (hex && between 97 (lowerASCII c) 102) then underscore_go hex s SawDigit
      else if c =? 95 then match saw with SawDigit => underscore_go hex s SawUnderscore | _ => false end
      else match saw with SawUnderscore => false | _ => underscore_go hex s SawOther end
  end.

(** The base and the rest after a prefix, as in [0x1F]. *)
Definition base_prefix (s : bytes) : option (Z * bytes) :=
  match s with
  | 48 :: c :: rest =>
      if lowerASCII c =? 98 then Some (2, rest)
      else if lowerASCII c =? 111 then Some (8, rest)
      else if lowerASCII c =? 120 then Some (16, rest)
      else None
  | _ => None
  end.

Definition underscoreOK (s : bytes) : bool :=
  match base_prefix s with
  | Some (base, rest) => underscore_go (base =? 16) rest SawDigit
  | None => underscore_go false s SawStart
  end.

(** [ParseUint(s, 0, 64)]. *)
Definition ParseUint (s : bytes) : option Z :=
  match s with
  | [] => None
  | c :: rest =>
      let '(base, digits) :=
        if c =? 48 then
          match base_prefix s with
          | Some (base, r) => if (length s <? 3)%nat then (8, rest) else (base, r)
          | None => (8, rest)
          end
        else (10, s) in
      match uint_go base digits 0 with
      | Some n => if bool_decide (95 ∈ s) && negb (underscoreOK s) then None else Some n
      | None => None
      end
  end.

(** [ParseInt(s, 0, 64)]. *)
Definition ParseInt (s : bytes) : option Z :=
  let '(neg, digits) :=
    match s with
    | 43 :: r => (false, r)
    | 45 :: r => (true, r)
    | _ => (false, s)
    end in
  match ParseUint digits with
  | Some n => if (neg : bool) then if n <=? 2 ^ 63 then Some (- n) else None
              else if n <? 2 ^ 63 then Some n else None
  | None => None
  end.

(** * The flags *)

Definition DefaultConfigFileName : bytes := str "dnscrypt-proxy.toml".

(** The values of the flags; [-netprobe-timeout] is [None] if it was not given, which is
    what [flag.Visit] tells. *)
Record Flags := {
  f_service : bytes;
  f_version : bool;
  f_pidfile : bytes;
  f_Resolve : bytes;
  f_List : bool;
  f_ListAll : bool;
  f_JSONOutput : bool;
  f_Check : bool;
  f_ConfigFile : bytes;
  f_Child : bool;
  f_NetprobeTimeoutOverride : option Z;
  f_ShowCerts : bool
}.

#[export] Instance eta_Flags : Eta Flags := λ f, {|
  f_service := f.(f_service); f_version := f.(f_version); f_pidfile := f.(f_pidfile); f_Resolve := f.(f_Resolve);
  f_List := f.(f_List); f_ListAll := f.(f_ListAll); f_JSONOutput := f.(f_JSONOutput); f_Check := f.(f_Check);
  f_ConfigFile := f.(f_ConfigFile); f_Child := f.(f_Child); f_NetprobeTimeoutOverride := f.(f_NetprobeTimeoutOverride);
  f_ShowCerts := f.(f_ShowCerts) |}.

Definition default_flags : Flags := {|
  f_service := []; f_version := false; f_pidfile := []; f_Resolve := []; f_List := false; f_ListAll := false;
  f_JSONOutput := false; f_Check := false; f_ConfigFile := DefaultConfigFileName; f_Child := false;
  f_NetprobeTimeoutOverride := None; f_ShowCerts := false |}.

Definition config_flags (f : Flags) : ConfigFlags := {|
  fl_Resolve := f.(f_Resolve); fl_List := f.(f_List); fl_ListAll := f.(f_ListAll); fl_JSONOutput := f.(f_JSONOutput);
  fl_Check := f.(f_Check); fl_Child := f.(f_Child); fl_NetprobeTimeoutOverride := f.(f_NetprobeTimeoutOverride);
  fl_ShowCerts := f.(f_ShowCerts) |}.

(** A flag is boolean, and set with a boolean, or needs a value; the setter is [None]
    for a value that is not one of its type. *)
Inductive FlagValue :=
  | BoolFlag (set : bool → Flags → Flags)
  | ValueFlag (set : bytes → Flags → option Flags).

Definition string_flag (set : bytes → Flags → Flags) : FlagValue := ValueFlag (λ v f, Some (set v f)).

(** The flags [main] defines, and the one of pidfile.go. *)
Definition formal : list (bytes * FlagValue) := [
  (str "service", string_flag (λ v f, f <| f_service := v |>));
  (str "version", BoolFlag (λ b f, f <| f_version := b |>));
  (str "pidfile", string_flag (λ v f, f <| f_pidfile := v |>));
  (str "resolve", string_flag (λ v f, f <| f_Resolve := v |>));
  (str "list", BoolFlag (λ b f, f <| f_List := b |>));
  (str "list-all", BoolFlag (λ b f, f <| f_ListAll := b |>));
  (str "json", BoolFlag (λ b f, f <| f_JSONOutput := b |>));
  (str "check", BoolFlag (λ b f, f <| f_Check := b |>));
  (str "config", string_flag (λ v f, f <| f_ConfigFile := v |>));
  (str "child", BoolFlag (λ b f, f <| f_Child := b |>));
  (str "netprobe-timeout", ValueFlag (λ v f,
     match ParseInt v with Some n => Some (f <| f_NetprobeTimeoutOverride := Some n |>) | None => None end));
  (str "show-certs", BoolFlag (λ b f, f <| f_ShowCerts := b |>))
].

Definition lookup_flag (name : bytes) : option FlagValue := snd <$> List.find (λ e, bool_decide (e.1 = name)) formal.

(** An argument: not a flag, the two dashes that end the flags, a flag with a syntax that is not accepted,
    or a flag with the value after its equals sign. *)
Inductive Argument := NotAFlag | Dashes | BadSyntax | AFlag (name : bytes) (value : option bytes).

Definition argument (s : bytes) : Argument :=
  match s with
  | 45 :: c :: rest =>
      if (c =? 45) && (length rest =? 0)%nat then Dashes
      else
        let name := if c =? 45 then rest else c :: rest in
        match name with
        | [] => BadSyntax
        | c :: tail =>
            if (c =? 45) || (c =? 61) then BadSyntax
            else match IndexByte tail 61 with
                 | Some i => AFlag (c :: take i tail) (Some (drop (S i) tail))
                 | None => AFlag name None
                 end
        end
  | _ => NotAFlag
  end.

(** The result of [flag.Parse]: the flags, the arguments left, and whether two dashes
    ended the flags; a request for help and an error end the process. *)
Inductive ParseResult :=
  | Parsed (f : Flags) (args : list bytes) (dashes : bool)
  | ErrHelp
  | ErrFlag.

Fixpoint parse_flags (args : list bytes) (f : Flags) : ParseResult :=
  match args with
  | [] => Parsed f [] false
  | s :: rest =>
      match argument s with
      | NotAFlag => Parsed f args false
      | Dashes => Parsed f rest true
      | BadSyntax => ErrFlag
      | AFlag name value =>
          match lookup_flag name with
          | None => if decide (name = str "help" ∨ name = str "h") then ErrHelp else ErrFlag
          | Some (BoolFlag set) =>
              match (match value with Some v => ParseBool v | None => Some true end) with
              | Some b => parse_flags rest (set b f)
              | None => ErrFlag
              end
          | Some (ValueFlag set) =>
              match value with
              | Some v => match set v f with Some f => parse_flags rest f | None => ErrFlag end
              | None =>
                  match rest with
                  | v :: rest => match set v f with Some f => parse_flags rest f | None => ErrFlag end
                  | [] => ErrFlag
                  end
              end
          end
      end
  end.

(** * [main] *)

(** [service.Config]. *)
Record ServiceConfig := { sv_WorkingDirectory : bytes; sv_Arguments : list bytes }.

Definition svcConfig (pwd : bytes) (f : Flags) : ServiceConfig :=
  {| sv_WorkingDirectory := pwd; sv_Arguments := [str "-config"; f.(f_ConfigFile)] |}.

(** The working directory, whether there is a service manager, and the errors of its
    calls. *)
Record MainEnv := {
  me_Getwd : Out bytes;
  me_New : bool;
  me_Control : ServiceConfig → bytes → option error;
  me_Run : option error
}.

(** What the process does: it exits with a code, controls the service, or runs
    [AppMain], for a service manager or not. *)
Inductive Action :=
  | Exits (code : Z)
  | PrintsVersion
  | Controls (c : ServiceConfig) (action : bytes)
  | Runs (f : Flags) (as_service : bool).

Definition main (env : MainEnv) (args : list bytes) : Out Action :=
  let! pwd := or_fatal env.(me_Getwd) in
  match parse_flags args default_flags with
  | ErrHelp => Ok (Exits 0)
  | ErrFlag => Ok (Exits 2)
  | Parsed f _ _ =>
      if f.(f_version) then Ok PrintsVersion
      else if (0 <? length f.(f_service))%nat then
        if env.(me_New) then
          match env.(me_Control) (svcConfig pwd f) f.(f_service) with
          | Some _ => Fatal
          | None => Ok (Controls (svcConfig pwd f) f.(f_service))
          end
        else Fatal
      else if env.(me_New) then match env.(me_Run) with Some _ => Fatal | None => Ok (Runs f true) end
      else Ok (Runs f false)
  end.

(** * The service manager *)

Definition SdNotifyStatus : bytes := str "STATUS=".

(** The messages to systemd, and the error returned. *)
Definition ServiceManagerStartNotify : list bytes * Out unit := ([SdNotifyStatus ++ str "Starting..."], Ok tt).

(** [systemDWatchdog]: [daemon.SdWatchdogEnabled] gives the delay after which the process is killed, in
    nanoseconds. The error, or the interval of the goroutine it starts. *)
Definition systemDWatchdog (SdWatchdogEnabled : Out Z) : Out (option Z) :=
  let! watchdogFailureDelay := SdWatchdogEnabled in
  if watchdogFailureDelay =? 0 then Ok None else Ok (Some (watchdogFailureDelay `quot` 3)).

(** The messages, then the watchdog. *)
Definition ServiceManagerReadyNotify (SdWatchdogEnabled : Out Z) : list bytes * Out (option Z) :=
  ([str "READY=1" ++ [10] ++ SdNotifyStatus ++ str "Ready"], systemDWatchdog SdWatchdogEnabled).

(** The goroutine: the time of the k-th message [WATCHDOG=1] when a sleep lasts [interval] plus what
    the system adds. *)
Fixpoint watchdog_time (interval : Z) (late : nat → Z) (k : nat) : Z :=
  match k with O => 0 | S k => watchdog_time interval late k + interval + late k end.

(** Android and the systems without a service manager. *)
Definition ServiceManagerStartNotify_android : Out unit := Ok tt.
Definition ServiceManagerReadyNotify_android : Out unit := Ok tt.
Definition ServiceManagerStartNotify_others : Out unit := Ok tt.
Definition ServiceManagerReadyNotify_others : Out unit := Ok tt.

(** Windows: a connection to the service manager, closed at once; [Connect] is its error. *)
Definition ServiceManagerStartNotify_windows (Connect : option error) : Out unit :=
  match Connect with Some e => Err e | None => Ok tt end.
Definition ServiceManagerReadyNotify_windows : Out unit := Ok tt.

(** The variants of a build. *)
Inductive ServiceManager :=
  | ServiceLinux (SdWatchdogEnabled : Out Z)
  | ServiceAndroid
  | ServiceWindows (Connect : option error)
  | ServiceOthers.

(** The error of [ServiceManagerReadyNotify] that [StartProxy] gets. *)
Definition ready_error (m : ServiceManager) : option error :=
  let err {A} (r : Out A) := match r with Err e => Some e | _ => None end in
  match m with
  | ServiceLinux delay => err (ServiceManagerReadyNotify delay).2
  | ServiceAndroid => err ServiceManagerReadyNotify_android
  | ServiceWindows _ => err ServiceManagerReadyNotify_windows
  | ServiceOthers => err ServiceManagerReadyNotify_others
  end.

(** * The time zone *)

Section TimeZone.
Context `{UnicodeTables} {Location : Type} (getprop : Out bytes) (LoadLocation : bytes → Out Location).

(** [TimezoneSetup] on Android and elsewhere: the local time zone and the error, which [main] ignores. *)
Definition TimezoneSetup_android (Local : Location) : Location * option error :=
  match getprop with
  | Ok out =>
      match LoadLocation (TrimSpace out) with
      | Ok z => (z, None)
      | Err e => (Local, Some e)
      | _ => (Local, None)
      end
  | Err e => (Local, Some e)
  | _ => (Local, None)
  end.

Definition TimezoneSetup_others (Local : Location) : Location * option error := (Local, None).

End TimeZone.

(** * Properties *)

(** ** More arguments *)

(** The flags are read from left to right: when all arguments were flags, those that
    follow are read from the flags so far; otherwise they are left over. *)
Lemma parse_flags_app args more f f' rest dashes :
  parse_flags args f = Parsed f' rest dashes →
  parse_flags (args ++ more) f =
    match rest, dashes with
    | [], false => parse_flags more f'
    | _, _ => Parsed f' (rest ++ more) dashes
    end.
Proof.
  remember (length args) as n eqn:Hn. revert args f Hn. induction (lt_wf n) as [n _ IH]. intros args f ->.
  destruct args as [|s args]; cbn [parse_flags app]; [by intros [= <- <- <-]|].
  destruct (argument s) as [| | |name value]; [by intros [= <- <- <-]|by intros [= <- <- <-]; destruct args|done|].
  destruct (lookup_flag name) as [[set|set]|]; [| |by destruct (decide _)].
  - destruct (match value with Some v => ParseBool v | None => Some true end); [|done]. apply (IH (length args)); cbn; [lia|done].
  - destruct value as [v|].
    + destruct (set v f); [|done]. apply (IH (length args)); cbn; [lia|done].
    + destruct args as [|v args]; cbn [app]; [done|]. destruct (set v f); [|done]. apply (IH (length args)); cbn; [lia|done].
Qed.

Definition child_args (args : list bytes) : list bytes := args ++ [str "-child"].

(** ** The change of user *)

(** The process that is started again with [-child] added has the same flags and knows
    that it is a child. *)
Lemma child_flag_read args f f' :
  parse_flags args f = Parsed f' [] false → parse_flags (child_args args) f = Parsed (f' <| f_Child := true |>) [] false.
Proof. intros HP. unfold child_args. by rewrite (parse_flags_app _ [str "-child"] _ _ _ _ HP). Qed.

(** After an argument that is not a flag, [-child] is not a flag either. *)
Lemma child_flag_lost args f f' rest dashes :
  parse_flags args f = Parsed f' rest dashes → rest ≠ [] ∨ dashes = true →
  parse_flags (child_args args) f = Parsed f' (rest ++ [str "-child"]) dashes.
Proof.
  intros HP Hr. unfold child_args. rewrite (parse_flags_app _ [str "-child"] _ _ _ _ HP).
  destruct rest, dashes; try done. by destruct Hr.
Qed.

(** Arguments with the same [-version] and [-service] do the same thing. *)
Lemma main_runs menv args args' f f' rest rest' dashes dashes' as_service :
  parse_flags args default_flags = Parsed f rest dashes → parse_flags args' default_flags = Parsed f' rest' dashes' →
  f'.(f_version) = f.(f_version) → f'.(f_service) = f.(f_service) →
  main menv args = Ok (Runs f as_service) → main menv args' = Ok (Runs f' as_service).
Proof.
  unfold main. intros -> -> -> ->. destruct (or_fatal _) as [pwd| | |]; try done. cbn [obind].
  destruct (f_version f); [done|]. destruct (0 <? length (f_service f))%nat.
  - destruct (me_New menv); [|done]. by destruct (me_Control menv _ _).
  - destruct (me_New menv); [|by intros [= <-]]. destruct (me_Run menv); [done|]. by intros [= <-].
Qed.

Section Reexecution.
Context {PublicKey Signature : Type} `{Minisign PublicKey Signature} `{NetLib} `{WebLib} `{StampLib} `{UnicodeTables} {E : Type}.
Context (stamp_String : ServerStamp → bytes) (proto_String : StampProtoType → bytes).
Context (proxy_FromURL : Url → Out unit) (ParseCIDR : bytes → Out IPNet).
Abbreviation load := (ConfigLoad (PublicKey := PublicKey) (E := E) stamp_String proto_String proxy_FromURL ParseCIDR).

(** A process that is executed again has a user to become and is not a child. *)
Lemma reexecuted_parent env c md flags files p creds t :
  load env (Ok (c, md)) flags files p = Ok (Reexecuted creds t) →
  c.(c_UserName) ≠ [] ∧ flags.(fl_Child) = false ∧ flags.(fl_Resolve) = [].
Proof.
  unfold ConfigLoad. cbn [obind]. intros HL. destruct (0 <? length (fl_Resolve flags))%nat eqn:Hr; [done|].
  destruct (ce_cdFileDir env); [done|]. apply obind_Ok in HL as ([c1 s1] & HC & (p1 & _ & HL)%obind_Ok).
  destruct (configure_user _ _ _ _ _ _ _ _ _ _ HC) as [Hu Hch]. rewrite Hu, Hch in HL.
  destruct (c_UserName c) as [|b u], (fl_Child flags), (fl_Resolve flags); try done; cbn in HL;
    unfold load_servers in HL; apply obind_Ok in HL as ([[[? ?] ?] ?] & _ & HL);
    destruct (fl_List flags), (fl_ListAll flags), (fl_Check flags); discriminate HL.
Qed.

(** A process that is not a child and has a user to become must be privileged. *)
Lemma load_needs_root env c md flags files p r :
  load env (Ok (c, md)) flags files p = Ok r → c.(c_UserName) ≠ [] → flags.(fl_Child) = false → flags.(fl_Resolve) = [] →
  env.(ce_credentials).(cr_uid) = 0.
Proof.
  unfold ConfigLoad. cbn [obind]. intros HL Hu Hch Hre. rewrite Hre in HL. cbn in HL. destruct (ce_cdFileDir env); [done|].
  apply obind_Ok in HL as ([c1 s1] & HC & (p1 & _ & HL)%obind_Ok).
  destruct (configure_user _ _ _ _ _ _ _ _ _ _ HC) as [Eu Ech]. rewrite Eu, Ech, Hch in HL.
  destruct (c_UserName c) as [|b u]; [done|]. cbn in HL. apply obind_Ok in HL as ([creds t] & HD & _).
  by apply dropPrivilege_root in HD.
Qed.


(** A finding: an argument that is not a flag, or the two dashes that end the flags, make the change of user fail. The
    program then accepts its arguments, but after the change of user [-child] is not read: the new
    process tries to change its user again, which it cannot do any more. *)
Theorem stray_argument_stops_child menv args f rest dashes as_service env c md files p creds t :
  main menv args = Ok (Runs f as_service) → parse_flags args default_flags = Parsed f rest dashes → rest ≠ [] ∨ dashes = true →
  load env (Ok (c, md)) (config_flags f) files p = Ok (Reexecuted creds t) → creds.(cr_uid) ≠ 0 →
  main menv (child_args args) = Ok (Runs f as_service) ∧
  ∀ env' files' p' r, env'.(ce_credentials) = creds → load env' (Ok (c, md)) (config_flags f) files' p' ≠ Ok r.
Proof.
  intros HM HP Hr HL Hc. split.
  - eapply main_runs; [exact HP|by apply child_flag_lost|done|done|done].
  - intros env' files' p' r He HL'. destruct (reexecuted_parent _ _ _ _ _ _ _ _ HL) as (Hu & Hch & Hre).
    apply Hc. rewrite <-He. by eapply load_needs_root.
Qed.

(** A finding: checking a configuration, or listing its servers, needs the privileges to change the user. *)
Theorem check_needs_root env c md flags files p r :
  c.(c_UserName) ≠ [] → flags.(fl_Check) = true → flags.(fl_Child) = false → flags.(fl_Resolve) = [] →
  load env (Ok (c, md)) flags files p = Ok r → env.(ce_credentials).(cr_uid) = 0.
Proof. intros Hu _ Hch Hre HL. by eapply load_needs_root. Qed.

End Reexecution.

(** ** The service *)

Lemma argument_config : argument (str "-config") = AFlag (str "config") None.
Proof. done. Qed.

(** C37: the service that is installed uses the configuration file of the command that installed it:
    started with the arguments the service manager was given, in the directory it was
    given, the program runs with that file and no other flag. *)
Theorem service_roundtrip env args c action env' :
  main env args = Ok (Controls c action) → env'.(me_Getwd) = Ok c.(sv_WorkingDirectory) → env'.(me_New) = true →
  env'.(me_Run) = None →
  env.(me_Getwd) = Ok c.(sv_WorkingDirectory) ∧
  ∃ f rest dashes, parse_flags args default_flags = Parsed f rest dashes ∧ f.(f_service) = action ∧
    main env' c.(sv_Arguments) = Ok (Runs (default_flags <| f_ConfigFile := f.(f_ConfigFile) |>) true).
Proof.
  unfold main. intros (pwd & Hp%or_fatal_Ok & HM)%obind_Ok Hw Hn Hr.
  destruct (parse_flags args default_flags) as [f rest dashes| |] eqn:HP; try done.
  destruct (f_version f); [done|]. destruct (0 <? length (f_service f))%nat.
  2:{ destruct (me_New env); [|done]. by destruct (me_Run env). }
  destruct (me_New env); [|done]. destruct (me_Control env _ _); [done|]. injection HM as <- <-.
  split; [done|]. exists f, rest, dashes. split_and!; [done..|]. rewrite Hw, Hn, Hr. cbn [or_fatal obind svcConfig sv_Arguments].
  cbn [parse_flags]. rewrite argument_config. done.
Qed.

(** ** The service manager *)

(** A proxy that reached a server is only stopped by the service manager when the
    settings of the watchdog of systemd cannot be read. *)
Lemma ready_stops_spec (s : Settings) {K E} (st : Running K E) m :
  s.(s_showCerts) = false →
  begin_work s (ready_error m) st = Fatal ↔
    0 < st.(rn_liveServers) ∧ s.(s_child) = false ∧ ∃ e, m = ServiceLinux (Err e).
Proof.
  intros Hs. unfold begin_work. rewrite Hs.
  assert (bool_decide (is_Some (ready_error m)) = true ↔ ∃ e, m = ServiceLinux (Err e)) as Hm.
  { rewrite bool_decide_eq_true. destruct m as [[d|e| |]| | |]; cbn; try (unfold systemDWatchdog; cbn; destruct (d =? 0)); split;
      first [by intros [??]|by intros [??]; simplify_eq|by intros _; eexists]. }
  rewrite <-Z.ltb_lt, <-Hm, <-(negb_true_iff (s_child s)). destruct (0 <? _), (negb _), (bool_decide _); cbn; split; by intuition.
Qed.

(** ** The watchdog *)

(** The messages come in time, if no sleep lasts longer than twice its interval more
    than it should. *)
Theorem watchdog_in_time delay interval late k :
  systemDWatchdog (Ok delay) = Ok (Some interval) → 0 < delay → 0 ≤ late k ≤ 2 * interval →
  0 ≤ interval ∧ watchdog_time interval late (S k) - watchdog_time interval late k ≤ delay.
Proof.
  unfold systemDWatchdog. cbn [obind watchdog_time]. destruct (delay =? 0); [done|]. intros [= <-] Hd Hl.
  pose proof (Z.quot_pos delay 3). pose proof (Z.mul_quot_le delay 3). lia.
Qed.

(** * Concrete runs *)

Section MainExamples.
#[local] Existing Instance ascii_tables.
#[local] Existing Instance plain_net.
#[local] Existing Instance toy_minisign.
#[local] Existing Instance list_web.
#[local] Existing Instance cfg_stamps.

Example values_of_flags :
  ParseInt <$> (str <$> ["60"; "-1"; "+0x1F"; "0b11"; "017"; "0"; "1_000"; "0_7"; "_1"; "1__0"; "9223372036854775808"; ""; "08"]%string) =
  [Some 60; Some (-1); Some 31; Some 3; Some 15; Some 0; Some 1000; Some 7; None; None; None; None; None].
Proof. by vm_compute. Qed.

Definition desktop : MainEnv :=
  {| me_Getwd := Ok (str "/etc/proxy"); me_New := true; me_Control _ _ := None; me_Run := None |}.

(** [-config p.toml -pidfile=/run/p.pid --check=false]. *)
Definition usual_args : list bytes := [str "-config"; str "p.toml"; str "-pidfile=/run/p.pid"; str "--check=false"].
Definition usual_flags : Flags := default_flags <| f_ConfigFile := str "p.toml" |> <| f_pidfile := str "/run/p.pid" |>.

Definition other_user : Config := small_config <| c_UserName := str "nobody" |>.

Definition load_other (c : Credentials) (f : Flags) : Out (ConfigResult bytes Q) :=
  ConfigLoad (λ s, s.(ServerAddrStr)) (λ _, []) (λ _, Ok tt) (λ _, Err ETimeout)
    {| ce_cdFileDir := None; ce_SHOW_CERTS := false; ce_tls := tls_env; ce_ReadFile _ := Err ETimeout; ce_ListenUDP _ := None;
       ce_dial := λ _, None; ce_listen := λ _, None; ce_systemd := []; ce_privilege := nobody; ce_credentials := c;
       ce_sources := λ _, serves list_text; ce_now := λ _, 100 * Hour; ce_rnd := no_rnd |}
    (Ok (other_user, all_known)) (config_flags f) ∅ (start_proc three_files).

Definition reexecuted (r : Out (ConfigResult bytes Q)) : bool :=
  match r with Ok (Reexecuted c _) => negb (c.(cr_uid) =? 0) | _ => false end.

Lemma other_user_reexecuted : reexecuted (load_other root usual_flags) = true.
Proof. by vm_compute. Qed.


Lemma stray_argument_stops_child_wit :
  ∃ creds, creds.(cr_uid) ≠ 0 ∧ main desktop (child_args (usual_args ++ [str "start"])) = Ok (Runs usual_flags true) ∧
    ∀ r, load_other creds usual_flags ≠ Ok r.
Proof.
  pose proof other_user_reexecuted as Hre. unfold reexecuted in Hre.
  destruct (load_other root usual_flags) as [[| | |creds t|]| | |] eqn:HL; try discriminate Hre.
  assert (creds.(cr_uid) ≠ 0) as Hc by (intros E; rewrite E in Hre; discriminate Hre). exists creds. split; [exact Hc|].
  unfold load_other in HL.
  destruct (stray_argument_stops_child (E := Q) _ _ _ _ desktop (usual_args ++ [str "start"]) usual_flags [str "start"] false true
    _ _ _ _ _ _ _ ltac:(vm_compute; reflexivity) ltac:(vm_compute; reflexivity) ltac:(left; discriminate) HL Hc) as [HM Hno].
  split; [exact HM|]. intros r. unfold load_other. apply Hno. reflexivity.
Defined.

Definition install_args : list bytes := [str "-service"; str "install"; str "-config=p.toml"].

Lemma service_roundtrip_wit :
  main desktop install_args = Ok (Controls {| sv_WorkingDirectory := str "/etc/proxy"; sv_Arguments := [str "-config"; str "p.toml"] |}
    (str "install")) ∧
  ∃ f rest dashes, parse_flags install_args default_flags = Parsed f rest dashes ∧
    main desktop [str "-config"; str "p.toml"] = Ok (Runs (default_flags <| f_ConfigFile := f.(f_ConfigFile) |>) true).
Proof.
  split; [vm_compute; reflexivity|].
  destruct (service_roundtrip desktop install_args {| sv_WorkingDirectory := str "/etc/proxy"; sv_Arguments := [str "-config"; str "p.toml"] |}
    (str "install") desktop) as (_ & f & rest & dashes & HP & _ & HM); [vm_compute; reflexivity|reflexivity..|].
  exists f, rest, dashes. split; [exact HP|exact HM].
Defined.

End MainExamples.
